(* ===== verification/_CoqProject ===== *)
-Q . S2P
Prelude.v
Js.v
JsString.v
TokenList.v
Markup.v
Url.v
Dom.v
Path.v
Page.v
Edit.v
Examples.v
Run.v
DeleteProps.v
CommitProps.v
ListenerProps.v
EntryProps.v
Invariants.v
Frame.v
Actions.v
Requests.v
Session.v
Machine.v
Legacy.v
Progress.v
Model.v
Exact.v
Adequacy.v
Navigations.v
Rows.v
Server.v
System.v
OneLine.v
