(* ===== verification/Prelude.v ===== *)
(** * Verification of maloja's web editing script (edit.js)

    The program is [src/maloja/web/static/js/edit.js]: the browser-side
    script of maloja's web interface that arms and fires the deletion of
    a scrobble and renames an artist or track in place.  It has five
    functions and three event-listener closures; everything it does is a
    mutation of the page (DOM, selection, implicit globals) or a request
    handed to [neo.xhttpreq].

    ** Parts of the program and the files that model them

    The platform the script runs on:
    - [Prelude] (this file): the state-and-exception monad [M] in which
      every function of the script is written, its notation
      ([page_scope]), its laws up to pointwise equality ([≡], with
      [Proper] instances), the [preserves] combinator with the hint
      database [page], Hoare triples with a postcondition for each
      outcome ([hoare]), and the list lemmas the files share.
    - [Js]: exceptions ([TypeError], ...), values and object literals.
    - [JsString]: the two [String.prototype] methods the input listener
      calls, [includes] and [replace] with a string pattern.
    - [TokenList]: [DOMTokenList] as the script uses it through
      [classList]: [add], [toggle], token validation, the ordered-set
      invariant and equality up to order.
    - [Markup]: what the [innerHTML] setter and getter do to the
      children of an element: an interface ([Class MarkupPlatform]) with
      the laws the HTML standard fixes (text is serialised with
      [html_escape]; a string without markup parses to one text node),
      a reference instance, and [html_unescape], the decoder of the
      four character references the serialiser writes.  The interface
      also says whether the platform knows the [contentEditable] state
      ["plaintext-only"]; [legacy] is an instance that does not.
    - [Url]: [URLSearchParams] (constructor from [location.search],
      [set], [get], [toString]) as the application/x-www-form-urlencoded
      parser and serialiser over byte strings.
    - [Dom]: the document: elements with parent, [id], class list,
      children, [contentEditable] state and listeners; the focused
      element; the selection.  Operations: [parentElement],
      [getElementById], the property setters, [addEventListener], the
      four selection methods, the event path.
    - [Path]: the event path against its reference definition, the list
      of the ancestors of the target.
    - [Page]: the whole state a handler runs in ([Record page]): the
      globals of the page ([entity_type], [entity_id], [entity_name] and
      the implicit globals the script creates: [newname], [data],
      [method], [callback], [json]), the document, [location.search],
      the requests in flight, the exceptions reported by event dispatch,
      the navigations.  [xhttpreq] (neo.js, not part of this source) is
      modelled here from its contract: the request is recorded and its
      callback runs when the environment completes it; when the
      request fails the callback never runs.

    The program:
    - [Edit]: edit.js itself, one definition per function and per
      listener closure, composed the way the script composes them:
      [toggleDeleteConfirm] (lines 5-7), [deleteScrobble] (9-14),
      [selectAll] (17-24), [editEntity] (26-61) with [keydown_listener]
      (31-44), [input_listener] (46-51) and [blur_listener] (54-57),
      [doneEditing] (63-92) with [commit_target] for its branches on the
      entity type; [element_focus] and [element_blur] for [focus()] and
      [blur()], which fire the blur event; and the events of the
      environment: [press_key], [input_text], [click_away], [complete],
      [fail_request].

    The theorems:
    - [Examples]: the pages the examples run on.
    - [Run]: how each DOM method evaluates inside a page.
    - [DeleteProps]: [toggleDeleteConfirm] and [deleteScrobble].
    - [CommitProps]: [doneEditing] and the completion of its request.
    - [ListenerProps]: blur dispatch, the keydown and input listeners.
    - [EntryProps]: [focus()], [selectAll], [editEntity].
    - [Invariants]: well-formedness of the page, the skeleton of the
      document and the constants of the page, kept by every function.
    - [Frame]: an interface ([Class Frame]) for the invariants of what
      is outside of the document: an invariant of the document
      accessors, of the globals of an argument list, of a reported
      exception, of [doneEditing], of the request of [deleteScrobble]
      and of a failing request is an invariant of every function,
      listener and event but the completion of a request.
    - [Actions]: the page as a labelled transition system over the
      actions of the user (the clicks on the controls, a key, a text,
      a click away) and of the network (a request completes or fails),
      with the invariants proved for every reachable page;
      [default_prevented] tells whether the keydown of a key is
      cancelled.  A click on a control while the field has the focus
      is the action [ClickAway] followed by the click: the transition
      system lets the click happen without it as well, so what is
      proved of every run holds of the runs of a browser.
    - [Requests]: where the requests in flight and the navigations
      come from ([provenance], an instance of [Frame]), and the
      contract of the three endpoints ([api_request]).
    - [Session]: the scenarios of the specification, as sequences of
      events on a page as maloja renders it.
    - [Machine]: the state machine of the name field (the phases
      Viewing, Editing and Committing of the specification) as an
      abstract machine [field_step] over the edit-mode flag, the number
      of edit sessions and the number of renames in flight; the relation
      [represents] between its states and pages; the simulation.
    - [Legacy]: the same machine on a platform whose [contentEditable]
      setter does not know ["plaintext-only"].
    - [Progress]: the runs of the network alone, and the run that
      brings the field back to the phase Viewing.
    - [Model]: the script as a function: [field_model] is what the
      script does to the page (content of the field, edit mode, number
      of sessions, class lists, globals, requests in flight, reported
      exceptions, navigations), [model_step] has one clause for each
      action, [model_enabled] says which actions the model takes in a
      state and [accepts] which runs, [abstraction] reads the state of
      the model off a page, [placed] says that a delete control has
      its row.  States are compared up to the order of the tokens of
      the class lists ([≡], with [Proper] instances for the steps and
      the runs).
    - [Exact]: the relation [exact] between a state of the model and
      the pages it stands for, kept by every step.
    - [Adequacy]: the runs of a rendered page are the runs of the
      model.
    - [Navigations]: the renames in flight and the navigations done,
      counted on the page alone.
    - [Rows]: the delete controls as a machine: [row_state] is the
      pair of the flags armed (class [active]) and removed (class
      [removed]) of a row, [row_step] what a click does to them.

    The other side of the requests:
    - [Server]: the three endpoints, from their contract: [server] is
      what they keep (the names of the artists, the titles of the
      tracks, the timestamps of the scrobbles), [route] reads a request
      as a [call] of an endpoint, [handle] is what the call does,
      [serve] composes them.
    - [System]: the page and the server together.  An [event] is an
      action of [Actions] or the loss of a response ([Unanswered]: the
      server has served the request and the script never hears of it);
      the completion of a request lets the server serve it before the
      callback runs; a page that has navigated is no longer [live]: no
      handler and no callback runs on it, and what it left in flight
      can still be served.  [sys_step] and [sys_steps] are the
      transitions and the runs.
    - [OneLine]: the intent of the keydown and input listeners, that
      a name is one line, as an invariant of the system.

    ** How state and effects correspond to the code

    A JavaScript function [f(args)] is a value of [M page exn A]: a
    function from the page to an outcome ([Ok a] for a normal return,
    [Throw e] for an exception) and the page after it.  Mutations made
    before an exception is thrown are kept, as in JavaScript.  A DOM
    element reference is a [node], the index of the element in the
    table of elements of the document, in tree order; reading a
    property of [null] is [deref], which throws a [TypeError].
    Listener closures are the constructors of [Page.listener]; the
    value they capture ([namefield]) is the argument of the
    constructor.  [addEventListener] appends: each call of [editEntity]
    creates new closures, which the DOM never identifies with earlier
    ones.  An exception thrown by a listener is reported and does not
    reach the code that caused the event, as the DOM dispatch algorithm
    prescribes.  The assignments in the argument lists of [neo.xhttpreq]
    ([data=...], [method=...]) create globals and are modelled as such.
    Strings are byte strings (UTF-8); integers are [Z].  The
    [contentEditable] setter throws a [SyntaxError] for a value the
    platform does not know; what is proved of edit sessions assumes
    that it knows ["plaintext-only"] ([Class KnowsPlaintextOnly], an
    assumption of the sections that need it, which the reference
    platform meets).

    ** What the theorems show

    - [TokenList]: the operations keep the class list an ordered set of
      valid tokens; [toggle] twice gives back the same set of classes;
      [toggle] and [add] respect permutations of the tokens and
      commute up to them.
    - [JsString]: [replace] rewrites the first occurrence only, and
      removes exactly one line feed.
    - [Markup]: the serialiser is the identity exactly on the strings
      without [&], [<], [>] and no-break space; decoding what it
      writes gives the text back, so it is injective.
    - [Url]: parsing a serialised query gives back the pairs; [get]
      after [set]; [set] leaves one pair of the name.
    - [DeleteProps], [CommitProps], [ListenerProps], [EntryProps]: the
      behaviour of each function and listener on every branch, errors
      included ([TypeError] on a missing ancestor or name field, with no
      request sent); the requests of a delete and of a commit (endpoint,
      payload, method, callback); that a commit with an unchanged name
      sends nothing; that a blur event runs [doneEditing] once for each
      blur listener.
    - [Invariants], [Actions]: every function, listener and event keeps
      the page well-formed, creates, removes and moves no element, and
      writes none of [entity_type], [entity_id], [entity_name] and
      [location.search]; hence so does every sequence of actions.
    - [Session]: on a rendered page, edit and click away sends nothing;
      edit, type and click away sends one rename and navigates to the
      new name on completion, and sends it exactly when the text
      differs from the name ([session_sends_iff_changed]); edit, type
      and Escape restores the name and sends nothing.  Two scenarios
      show where the code departs from the specification: a name with
      a character the serialiser escapes
      is renamed to its escaped form by a blur that changed nothing, and
      a second edit session on the same page sends its rename twice.
    - [Machine]: every run of [Actions.step] from a rendered page is a
      run of the abstract machine ([refinement]), whose step to a
      commit sends nothing or one rename for each session started so
      far; the transitions between the phases are those of the
      specification and one more, from Committing back to Editing;
      with one call of [editEntity] at most one rename is in flight,
      with [k] calls at most [k (k + 1) / 2], a bound three sessions
      reach.
    - [Legacy]: on a platform that does not know ["plaintext-only"]
      the field never becomes editable and no rename is sent
      ([legacy_never_edits]).
    - [Exact], [Adequacy]: the page computes the model: after any run from a
      rendered page the abstraction of the page is [model_run] of the
      abstraction of the rendered page ([model_exact]).  In the
      session after [k] others an input event strips up to [k + 1]
      line feeds and a commit sends [k + 1] copies of its request.
      When every delete control that is clicked has its row, no
      exception is reported along the run ([no_exception]).  On every
      reachable page the keydown of Enter, Escape and Esc in the field
      is cancelled and that of no other key is ([keys_cancelled]).  A
      rename that fails leaves the field locked with the new name and
      the page where it is ([failed_rename]).  A sequence of actions is
      a run of the page exactly when the model takes it
      ([page_runs_iff]).  A click on a toggle commutes with the action
      that follows it: both orders are runs, and they lead to the same
      state of the model up to the order of the class tokens
      ([toggle_independent]); only a click on a delete control of the
      same row changes that order.
    - [Navigations]: on the page alone, where nothing unloads a page
      that has navigated, the renames in flight and the assignments
      of [window.location] are together at most [k (k + 1) / 2] after
      [k] calls of [editEntity] ([navigations_bounded]): only the
      callback of a rename navigates, it navigates once, and a commit
      sends at most one rename for each session.  Three sessions
      reach the bound with six navigations; with one session the
      page navigates at most once.
    - [Rows]: the classes [active] and [removed] of every element
      follow the row machine along every run ([row_machine]); a
      removed row stays removed, also when its request fails; a row
      is armed after an odd number of clicks on its toggle.
    - [Requests]: on the page of an artist or a track every request in
      flight is one its endpoint accepts; every navigation is the
      callback of a rename that was sent for a name other than
      [entity_name]; without a completion there is no navigation.
    - [Progress]: a run of completions and failures alone is no
      longer than the list of requests in flight (the callbacks send
      nothing); from
      every reachable page a click away and the completion of what is
      in flight lead to the phase Viewing.
    - [Server]: a call served twice is a call served once; calls
      commute unless they write different names of the same entity,
      and of those the last one served decides; every request the
      contract [Requests.api_request] accepts is routed.
    - [System]: every run of the system is a run of the page.  While
      no response is lost, the name the server has for the entity of
      a live page is the [entity_name] of the page ([server_agrees]):
      the script renames only through requests whose completion makes
      the page navigate.  That a page of the system navigates at
      most once is the unloading, an assumption of [sys_enabled], and
      is not stated as a theorem.  An edit session that changed the
      text,
      followed by the completion of its request, leaves the
      serialised text on the server and the page on its way to the
      entity of that name ([rename_stored]); what is stored is the
      [innerHTML] of the field, character references included.  The
      two distinct renames that two sessions on one page leave in
      flight race: whichever completes first navigates the page, and
      the server keeps the name of the other ([renames_race]).  A
      delete marks the row removed at once; when its request fails
      the server still has the scrobble and the row stays removed
      ([delete_optimistic]).
    - [OneLine]: when the name of the entity has no line feed and
      every text the user leaves in the field has at most one (and is
      text once it is taken out), then along every run of the system
      the markup of the field has no line feed, no rename in flight
      carries one and the server has no name with one
      ([names_on_one_line]).  The bound is sharp for a first session:
      a text with two line feeds is stored with one
      ([two_lines_stored]).
    - [Path]: the event path is the list of the ancestors of the target
      and does not depend on the fuel.

    ** Bounds and fuel

    The only definition with fuel is [Dom.path_from], the path of a
    bubbling event: from node [n] it takes [S n] steps, which reach the
    root because a parent has a smaller index than its children
    ([Dom.wf]); [Path.event_path_terminates] shows that the fuel is
    enough: any larger fuel gives the same path, and every ancestor is
    on it.  Everything else is structural: event dispatch is at
    most two levels deep (a keydown listener calls [blur()], whose
    listeners call [doneEditing], which dispatches nothing), and the
    definitions of [Edit] are layered in that order.

    ** Not modelled

    Rendering and layout; the templates that render the page
    ([Session.rendered] states what is assumed of their output); of
    the server, everything but the effect of the three endpoints on
    the names and the scrobbles: authentication, the merging of an
    entity renamed to a name that exists, the bodies of the
    responses, the database ([Server] is written from the contract of
    the endpoints, not from code of the server); the page the browser
    loads after a navigation (in [System] the page that navigated
    runs no code, in [Actions] it still takes every action, so the
    runs of [System] are among those of [Actions]); the transport, the
    status codes and the JSON encoding of [neo.xhttpreq] (a request is
    in flight until the environment completes it, lets it fail or
    loses its response);
    HTML parsing of strings that contain markup (the [Markup]
    interface leaves it to the instance); the table of named
    character references; UTF-16 code units; text nodes as nodes of
    their own (a selection is a range of child offsets of an
    element); a [window.getSelection()] that returns [null]; the
    cancelled flag of an event whose listener throws after
    [preventDefault] (no listener of the script does); what the
    default action of a key does to the content (the text the user
    leaves in the field is the action [TypeText]).
    These are parts of the browser and of the server, not of the
    script: every line of edit.js that is not blank or a comment is
    modelled. *)

From stdpp Require Import base tactics option list strings.
From Stdlib Require Import ZArith Lia.

(** ** Outcomes: normal return or exception *)

Inductive outcome (E A : Type) : Type :=
| Ok (a : A)
| Throw (e : E).
Arguments Ok {E A} a.
Arguments Throw {E A} e.

Definition is_ok {E A} (r : outcome E A) : bool :=
  match r with Ok _ => true | Throw _ => false end.

Definition outcome_value {E A} (r : outcome E A) : option A :=
  match r with Ok a => Some a | Throw _ => None end.

#[export] Instance outcome_eq_dec {E A} `{EqDecision E, EqDecision A} :
  EqDecision (outcome E A).
Proof. solve_decision. Defined.

(** ** The state-and-exception monad

    [M S E A] is a computation over a state [S] that returns an [A] or
    throws an [E].  The state after a throw is the state at the throw. *)

Definition M (S E A : Type) : Type := S → outcome E A * S.

Definition ret {S E A} (a : A) : M S E A := λ s, (Ok a, s).

Definition bind {S E A B} (m : M S E A) (k : A → M S E B) : M S E B :=
  λ s, match m s with
       | (Ok a, s') => k a s'
       | (Throw e, s') => (Throw e, s')
       end.

Definition throw {S E A} (e : E) : M S E A := λ s, (Throw e, s).

Definition gets {S E A} (f : S → A) : M S E A := λ s, (Ok (f s), s).

Definition modify {S E} (f : S → S) : M S E unit := λ s, (Ok tt, f s).

(** [catch m h] runs [h] on the exception of [m], in the state [m] left. *)
Definition catch {S E A} (m : M S E A) (h : E → M S E A) : M S E A :=
  λ s, match m s with
       | (Ok a, s') => (Ok a, s')
       | (Throw e, s') => h e s'
       end.

(** [from_option o e] is the value of [o], or throws [e]. *)
Definition from_option_or {S E A} (o : option A) (e : E) : M S E A :=
  match o with Some a => ret a | None => throw e end.

(** [for_each f l] runs [f] on the elements of [l] in order and stops at
    the first exception. *)
Fixpoint for_each {S E A} (f : A → M S E unit) (l : list A) : M S E unit :=
  match l with
  | [] => ret tt
  | a :: l' => bind (f a) (λ _, for_each f l')
  end.

(** [zoom get put missing m] runs [m], a computation over a part [S] of
    the state [T], on the part [get] selects, and puts the result back;
    it throws [missing] when the part is absent. *)
Definition zoom {S T E A} (get : T → option S) (put : S → T → T)
    (missing : E) (m : M S E A) : M T E A :=
  λ t, match get t with
       | Some s => let '(r, s') := m s in (r, put s' t)
       | None => (Throw missing, t)
       end.

Definition exec {S E A} (m : M S E A) (s : S) : S := snd (m s).
Definition result {S E A} (m : M S E A) (s : S) : outcome E A := fst (m s).

Declare Scope page_scope.
Delimit Scope page_scope with page.

Notation "'let*' x ':=' m 'in' k" := (bind m (λ x, k))
  (at level 10, x name, m at level 100, k at level 200) : page_scope.
Notation "m '>>' k" := (bind m (λ _, k))
  (at level 100, k at level 200, right associativity) : page_scope.

#[local] Open Scope page_scope.

(** ** Equality of computations: equal on every state *)

#[export] Instance M_equiv {S E A} : Equiv (M S E A) :=
  λ m1 m2, ∀ s, m1 s = m2 s.

#[export] Instance M_equivalence {S E A} : Equivalence (≡@{M S E A}).
Proof. split; repeat intro; unfold equiv, M_equiv in *; congruence. Qed.

#[export] Instance bind_proper {S E A B} :
  Proper ((≡) ==> pointwise_relation A (≡) ==> (≡)) (@bind S E A B).
Proof.
  intros m1 m2 Hm k1 k2 Hk s. unfold bind. rewrite Hm.
  destruct (m2 s) as [[a|e] s']; [apply Hk|done].
Qed.

#[export] Instance catch_proper {S E A} :
  Proper ((≡) ==> pointwise_relation E (≡) ==> (≡)) (@catch S E A).
Proof.
  intros m1 m2 Hm h1 h2 Hh s. unfold catch. rewrite Hm.
  destruct (m2 s) as [[a|e] s']; [done|apply Hh].
Qed.

#[export] Instance exec_proper {S E A} :
  Proper ((≡) ==> (=) ==> (=)) (@exec S E A).
Proof. intros m1 m2 Hm s ? <-. unfold exec. by rewrite Hm. Qed.

#[export] Instance result_proper {S E A} :
  Proper ((≡) ==> (=) ==> (=)) (@result S E A).
Proof. intros m1 m2 Hm s ? <-. unfold result. by rewrite Hm. Qed.

(** ** Tactics

    [m_unfold] exposes the monad's operations; [m_run] evaluates a
    computation as far as its state allows; [case_run m] splits on the
    outcome of the computation [m] in the goal. *)

Create HintDb page discriminated.
Create Rewrite HintDb page_rw.

Ltac m_unfold :=
  unfold exec, result, bind, ret, throw, gets, modify, catch, zoom,
    from_option_or in *.

Ltac m_run := m_unfold; simpl in *.

Ltac case_run :=
  match goal with
  | |- context [match ?m ?s with pair _ _ => _ end] =>
      let r := fresh "r" in let s' := fresh "s'" in
      let Hrun := fresh "Hrun" in
      destruct (m s) as [r s'] eqn:Hrun; destruct r
  end.

Section laws.
Context {S E : Type}.

Lemma bind_ret_l {A B} (a : A) (k : A → M S E B) : bind (ret a) k ≡ k a.
Proof. done. Qed.

Lemma bind_ret_r {A} (m : M S E A) : bind m ret ≡ m.
Proof. intros s. unfold bind, ret. by destruct (m s) as [[?|?] ?]. Qed.

Lemma bind_assoc {A B C} (m : M S E A) (k : A → M S E B) (h : B → M S E C) :
  bind (bind m k) h ≡ bind m (λ a, bind (k a) h).
Proof. intros s. unfold bind. by destruct (m s) as [[?|?] ?]. Qed.

Lemma bind_throw {A B} (e : E) (k : A → M S E B) : bind (throw e) k ≡ throw e.
Proof. done. Qed.

Lemma catch_ret {A} (a : A) (h : E → M S E A) : catch (ret a) h ≡ ret a.
Proof. done. Qed.

Lemma catch_throw {A} (e : E) (h : E → M S E A) : catch (throw e) h ≡ h e.
Proof. done. Qed.

(** Running a [bind] whose first part returns. *)
Lemma bind_ok {A B} (m : M S E A) (k : A → M S E B) s a s' :
  m s = (Ok a, s') → bind m k s = k a s'.
Proof. unfold bind. by intros ->. Qed.

(** Running a [bind] whose first part throws. *)
Lemma bind_throws {A B} (m : M S E A) (k : A → M S E B) s e s' :
  m s = (Throw e, s') → bind m k s = (Throw e, s').
Proof. unfold bind. by intros ->. Qed.

(** The state after a read and what follows it. *)
Lemma exec_bind_gets {A B} (f : S → A) (k : A → M S E B) s :
  exec (bind (gets f) k) s = exec (k (f s)) s.
Proof. done. Qed.

Lemma for_each_app {A} (f : A → M S E unit) l1 l2 :
  for_each f (l1 ++ l2) ≡ (for_each f l1 >> for_each f l2).
Proof.
  induction l1 as [|a l1 IH]; simpl; [by rewrite bind_ret_l|].
  rewrite bind_assoc. f_equiv. intros _. apply IH.
Qed.

(** ** Invariants and absence of exceptions

    [preserves I m]: [m] keeps the state predicate [I], whether it
    returns or throws.  [never_throws P m]: from a state in [P], [m]
    returns. *)

Definition preserves {A} (I : S → Prop) (m : M S E A) : Prop :=
  ∀ s, I s → I (exec m s).

Definition never_throws {A} (P : S → Prop) (m : M S E A) : Prop :=
  ∀ s, P s → is_ok (result m s) = true.

Lemma preserves_ret {A} I (a : A) : preserves I (ret a).
Proof. by intros s. Qed.

Lemma preserves_throw {A} I (e : E) : preserves I (@throw S E A e).
Proof. by intros s. Qed.

Lemma preserves_gets {A} I (f : S → A) : preserves I (gets f).
Proof. by intros s. Qed.

Lemma preserves_modify I (f : S → S) :
  (∀ s, I s → I (f s)) → preserves I (modify f).
Proof. intros Hf s. apply Hf. Qed.

Lemma preserves_bind {A B} I (m : M S E A) (k : A → M S E B) :
  preserves I m → (∀ a, preserves I (k a)) → preserves I (bind m k).
Proof.
  intros Hm Hk s Hs. specialize (Hm s Hs). unfold exec, bind in *.
  destruct (m s) as [[a|e] s1]; simpl in *; [by apply Hk|done].
Qed.

Lemma preserves_catch {A} I (m : M S E A) (h : E → M S E A) :
  preserves I m → (∀ e, preserves I (h e)) → preserves I (catch m h).
Proof.
  intros Hm Hh s Hs. specialize (Hm s Hs). unfold exec, catch in *.
  destruct (m s) as [[a|e] s1]; simpl in *; [done|by apply Hh].
Qed.

Lemma preserves_from_option {A} I (o : option A) (e : E) :
  preserves I (from_option_or o e).
Proof. destruct o; [apply preserves_ret|apply preserves_throw]. Qed.

Lemma preserves_for_each {A} I (f : A → M S E unit) l :
  (∀ a, preserves I (f a)) → preserves I (for_each f l).
Proof.
  intros Hf. induction l; simpl; [apply preserves_ret|].
  by apply preserves_bind.
Qed.

Lemma preserves_equiv {A} I (m1 m2 : M S E A) :
  m1 ≡ m2 → preserves I m1 → preserves I m2.
Proof. intros Hm H1 s Hs. rewrite <- Hm. by apply H1. Qed.

(** ** Triples

    [hoare P m Q R]: from a state in [P], [m] returns a value [a] in a
    state in [Q a], or throws [e] in a state in [R e]. *)

Definition hoare {A} (P : S → Prop) (m : M S E A) (Q : A → S → Prop)
    (R : E → S → Prop) : Prop :=
  ∀ s, P s → match m s with
             | (Ok a, s') => Q a s'
             | (Throw e, s') => R e s'
             end.

Lemma hoare_ret {A} (P : S → Prop) (a : A) Q R :
  (∀ s, P s → Q a s) → hoare P (ret a) Q R.
Proof. intros HQ s Hs. by apply HQ. Qed.

Lemma hoare_bind {A B} P (m : M S E A) (k : A → M S E B) Q' Q R :
  hoare P m Q' R → (∀ a, hoare (Q' a) (k a) Q R) → hoare P (bind m k) Q R.
Proof.
  intros Hm Hk s Hs. specialize (Hm s Hs). unfold bind.
  destruct (m s) as [[a|e] s1]; [by apply Hk|done].
Qed.

Lemma hoare_catch {A} P (m : M S E A) (h : E → M S E A) Q R' R :
  hoare P m Q R' → (∀ e, hoare (R' e) (h e) Q R) → hoare P (catch m h) Q R.
Proof.
  intros Hm Hh s Hs. specialize (Hm s Hs). unfold catch.
  destruct (m s) as [[a|e] s1]; [done|by apply Hh].
Qed.

Lemma hoare_consequence {A} (P P' : S → Prop) (m : M S E A) (Q Q' : A → S → Prop)
    (R R' : E → S → Prop) :
  hoare P' m Q' R' → (∀ s, P s → P' s) → (∀ a s, Q' a s → Q a s) →
  (∀ e s, R' e s → R e s) → hoare P m Q R.
Proof.
  intros Hm HP HQ HR s Hs. specialize (Hm s (HP s Hs)).
  destruct (m s) as [[a|e] s1]; auto.
Qed.

(** A fact that does not depend on the state. *)
Lemma hoare_pure {A} (φ : Prop) P (m : M S E A) Q R :
  (φ → hoare P m Q R) → hoare (λ s, φ ∧ P s) m Q R.
Proof. intros Hm s [Hφ Hs]. by apply Hm. Qed.

Lemma preserves_hoare {A} I (m : M S E A) :
  preserves I m ↔ hoare I m (λ _, I) (λ _, I).
Proof.
  unfold preserves, hoare, exec.
  split; intros Hm s Hs; specialize (Hm s Hs); by destruct (m s) as [[a|e] s1].
Qed.

(** A computation that keeps [I] and whose results are in [Q]. *)
Lemma hoare_preserves_result {A} I (m : M S E A) (Q : A → Prop) :
  preserves I m → (∀ s a s', m s = (Ok a, s') → Q a) →
  hoare I m (λ a s, Q a ∧ I s) (λ _, I).
Proof.
  intros Hm HQ s Hs. specialize (Hm s Hs). specialize (HQ s). unfold exec in Hm.
  destruct (m s) as [[a|e] s1]; [eauto|done].
Qed.

Lemma preserves_and {A} (I J : S → Prop) (m : M S E A) :
  preserves I m → preserves J m → preserves (λ s, I s ∧ J s) m.
Proof. intros HI HJ s [? ?]. split; [by apply HI|by apply HJ]. Qed.

(** What a triple says of a run. *)
Lemma hoare_run {A} P (m : M S E A) Q R s :
  hoare P m Q R → P s →
  match result m s with Ok a => Q a (exec m s) | Throw e => R e (exec m s) end.
Proof. intros Hm Hs. specialize (Hm s Hs). unfold result, exec. by destruct (m s) as [[a|e] s1]. Qed.

End laws.

Lemma preserves_zoom {S T E A} (I : S → Prop) (J : T → Prop)
    (get : S → option T) (put : T → S → S) (e : E) (m : M T E A) :
  (∀ s t, I s → get s = Some t → J t) →
  (∀ s t t', I s → get s = Some t → J t' → I (put t' s)) →
  preserves J m → preserves I (zoom get put e m).
Proof.
  intros Hget Hput Hm s Hs. unfold exec, zoom.
  destruct (get s) as [t|] eqn:Ht; [|done].
  specialize (Hm t (Hget s t Hs Ht)). unfold exec in Hm.
  destruct (m t) as [r t']. by eapply Hput.
Qed.

#[export] Hint Resolve preserves_ret preserves_throw preserves_gets
  preserves_bind preserves_catch preserves_from_option
  preserves_for_each preserves_modify preserves_zoom : page.

(** ** Lists and options shared by the components *)

Section lists.
Context {A : Type} `{EqDecision A}.

(** The number of elements of [l] equal to [a]. *)
Definition count_occ_of (a : A) (l : list A) : nat :=
  length (filter (λ x, x = a) l).

Lemma count_occ_of_app a (l1 l2 : list A) :
  count_occ_of a (l1 ++ l2) = count_occ_of a l1 + count_occ_of a l2.
Proof. unfold count_occ_of. by rewrite filter_app, length_app. Qed.

Lemma count_occ_of_zero a (l : list A) : count_occ_of a l = 0 ↔ a ∉ l.
Proof.
  unfold count_occ_of. rewrite length_zero_iff_nil. split.
  - intros Hnil. by eapply filter_nil_not_elem_of.
  - intros Hnin. apply elem_of_nil_inv.
    by intros x [-> Hx]%list_elem_of_filter.
Qed.

Lemma filter_ne_not_elem a (l : list A) : a ∉ l → filter (λ x, x ≠ a) l = l.
Proof.
  induction l as [|x l IH]; [done|]. intros Hnin.
  apply not_elem_of_cons in Hnin as [Hne Hnin].
  rewrite filter_cons_True by done. f_equal. by apply IH.
Qed.

Lemma filter_ne_app_singleton a (l : list A) :
  a ∉ l → filter (λ x, x ≠ a) (l ++ [a]) = l.
Proof.
  intros Hnin. rewrite filter_app, filter_ne_not_elem by done.
  rewrite filter_cons_False, filter_nil by naive_solver.
  apply app_nil_r.
Qed.

End lists.

Section updates.
Context {A : Type}.

(** An in-place update of a present element is an insertion. *)
Lemma alter_insert (f : A → A) (l : list A) (i : nat) (x : A) :
  l !! i = Some x → alter f i l = <[i:=f x]> l.
Proof.
  intros Hx. apply list_eq. intros j. rewrite list_lookup_alter, list_lookup_insert.
  pose proof (lookup_lt_Some _ _ _ Hx). destruct (decide (i = j)) as [->|].
  - by rewrite decide_True, Hx by done.
  - by rewrite decide_False by (intros []; congruence).
Qed.

(** Deleting past the end changes nothing. *)
Lemma list_delete_ge (l : list A) i : length l ≤ i → delete i l = l.
Proof.
  intros Hi. rewrite delete_take_drop, take_ge, drop_ge, app_nil_r by lia. done.
Qed.

End updates.

Section filters.
Context {A : Type} (P Q : A → Prop) `{∀ x, Decision (Q x)}.

(** A property of all elements holds of the elements a filter keeps. *)
Lemma Forall_filter_keep (l : list A) : Forall P l → Forall P (filter Q l).
Proof.
  rewrite !Forall_forall. intros Hall x [_ Hx]%list_elem_of_filter. by apply Hall.
Qed.

(** Filtering twice by the same predicate is filtering once. *)
Lemma filter_idemp (l : list A) : filter Q (filter Q l) = filter Q l.
Proof.
  induction l as [|x l IH]; [done|]. destruct (decide (Q x)).
  - rewrite !filter_cons_True by done. by rewrite IH.
  - by rewrite filter_cons_False.
Qed.

(** The index [list_find] returns is not changed by an update that
    keeps the predicate. *)
Lemma list_find_alter_index (f : A → A) (i : nat) (l : list A) :
  (∀ x, Q (f x) ↔ Q x) →
  fst <$> list_find Q (alter f i l) = fst <$> list_find Q l.
Proof.
  intros Hf. revert i. induction l as [|x l IH]; intros [|i]; cbn; try done.
  - destruct (decide (Q x)) as [Hx|Hx].
    + by rewrite decide_True by by apply Hf.
    + by rewrite decide_False by by rewrite Hf.
  - destruct (decide (Q x)); [done|].
    specialize (IH i). change (list_alter f i l) with (alter f i l).
    destruct (list_find Q (alter f i l)) as [[? ?]|],
      (list_find Q l) as [[? ?]|]; simpl in *; congruence.
Qed.

End filters.
