(* ===== verification/Js.v ===== *)
(** * JavaScript values and exceptions

    The primitive values edit.js handles (the entity id, names, the
    flags it passes to [xhttpreq]), the object literals it builds as
    request payloads, and the exceptions its calls can raise. *)

From stdpp Require Import base tactics option list strings.
From Stdlib Require Import ZArith.
From S2P Require Import Prelude.

(** Exceptions.  [TypeError] is what reading or setting a property of
    [null] throws, with the name of the property; [SyntaxError] and [InvalidCharacterError] are the
    [DOMException]s of [DOMTokenList]; [Dangling] is raised by the model
    alone, by an operation on a node that is not in the document, and is
    shown unreachable from well-formed pages. *)
Inductive exn : Type :=
| TypeError (property : string)
| SyntaxError
| InvalidCharacterError
| Dangling.

#[export] Instance exn_eq_dec : EqDecision exn.
Proof. solve_decision. Defined.

(** Primitive values.  Numbers are integers: ids and timestamps. *)
Inductive value : Type :=
| VUndefined
| VNull
| VBool (b : bool)
| VNum (z : Z)
| VStr (s : string).

#[export] Instance value_eq_dec : EqDecision value.
Proof. solve_decision. Defined.

(** An object literal with primitive fields, in insertion order. *)
Definition object : Type := list (string * value).

(** [o\[k\]]: the value of the own property [k], [undefined] without it. *)
Definition get_field (o : object) (k : string) : value :=
  match list_find (λ kv, kv.1 = k) o with
  | Some (_, (_, v)) => v
  | None => VUndefined
  end.

(** The monad of JavaScript code over a state [S]. *)
Abbreviation JS S := (M S exn).
