(* ===== verification/JsString.v ===== *)
(** * JavaScript string methods used by edit.js

    The input listener of [editEntity] calls [String.prototype.includes]
    and [String.prototype.replace] with a string pattern.  With a string
    pattern, [replace] rewrites the first occurrence only.  Strings are
    byte strings; the replacement text is taken literally (the script
    passes the empty string, which has no [$] pattern to expand). *)

From stdpp Require Import base tactics option list strings.
From Stdlib Require Import Ascii String Lia.
From S2P Require Import Prelude.

#[local] Open Scope string_scope.
#[local] Arguments String.append : simpl nomatch.

Module JsString.

(** The line feed, written ["\n"] in the script. *)
Definition LF : ascii := "010"%char.
Definition newline : string := String LF "".

(** [skip n s] is [s] without its first [n] bytes. *)
Fixpoint skip (n : nat) (s : string) : string :=
  match n, s with
  | 0, _ => s
  | S n', String _ s' => skip n' s'
  | S _, "" => ""
  end.

(** [s.includes(p)]: [p] occurs in [s]. *)
Fixpoint includes (s p : string) : bool :=
  String.prefix p s ||
  match s with
  | "" => false
  | String _ s' => includes s' p
  end.

(** [s.replace(p, r)] for a string [p]: the first occurrence of [p] in
    [s] is replaced by [r]; [s] is returned when there is none. *)
Fixpoint replace (s p r : string) : string :=
  if String.prefix p s then r +:+ skip (String.length p) s
  else match s with
       | "" => ""
       | String c s' => String c (replace s' p r)
       end.

(** The number of bytes of [s] equal to [c]. *)
Fixpoint count_char (c : ascii) (s : string) : nat :=
  match s with
  | "" => 0
  | String c' s' => (if decide (c' = c) then 1 else 0) + count_char c s'
  end.

(** ** Lemmas *)

Lemma prefix_app p s : String.prefix p (p +:+ s) = true.
Proof.
  induction p as [|c p IH]; simpl; [by destruct s|].
  by destruct (ascii_dec c c).
Qed.

Lemma prefix_split p s : String.prefix p s = true → s = p +:+ skip (String.length p) s.
Proof.
  revert s. induction p as [|c p IH]; intros [|c' s]; simpl; try done.
  destruct (ascii_dec c c') as [->|]; [|done]. intros Hp. simpl. f_equal. by apply IH.
Qed.

Lemma skip_app p s : skip (String.length p) (p +:+ s) = s.
Proof. induction p; simpl; auto. Qed.

Lemma app_assoc_s (a b c : string) : (a +:+ b) +:+ c = a +:+ (b +:+ c).
Proof. induction a; simpl; congruence. Qed.

Lemma app_nil_r_s (a : string) : a +:+ "" = a.
Proof. induction a; simpl; congruence. Qed.

Lemma length_app_s (a b : string) :
  String.length (a +:+ b) = String.length a + String.length b.
Proof. induction a; simpl; congruence. Qed.

Lemma count_char_app c a b : count_char c (a +:+ b) = count_char c a + count_char c b.
Proof. induction a; simpl; lia. Qed.

(** [includes] decides the existence of an occurrence. *)
Lemma includes_spec s p : includes s p = true ↔ ∃ a b, s = a +:+ p +:+ b.
Proof.
  induction s as [|c s IH]; cbn [includes].
  - rewrite orb_false_r. split.
    + intros Hp%prefix_split. by exists "", (skip (String.length p) "").
    + intros ([|??] & b & Hs); simpl in Hs; [rewrite Hs; apply prefix_app|done].
  - rewrite orb_true_iff, IH. split.
    + intros [Hp%prefix_split|(a & b & ->)].
      * by exists "", (skip (String.length p) (String c s)).
      * by exists (String c a), b.
    + intros ([|c' a] & b & Hs); simpl in Hs.
      * left. rewrite Hs. apply prefix_app.
      * right. exists a, b. congruence.
Qed.

Lemma includes_false_prefix s p : includes s p = false → String.prefix p s = false.
Proof. destruct s; cbn [includes]; by intros [? ?]%orb_false_iff. Qed.

(** Without an occurrence, [replace] returns its receiver. *)
Lemma replace_absent s p r : includes s p = false → replace s p r = s.
Proof.
  induction s as [|c s IH]; cbn [includes replace];
    intros [Hp Hs]%orb_false_iff; rewrite Hp; [done|].
  f_equal. by apply IH.
Qed.

(** With an occurrence, [replace] rewrites the first one: the text
    before it has no occurrence that starts in it. *)
Lemma replace_first s p r :
  includes s p = true →
  ∃ a b, s = a +:+ p +:+ b ∧ replace s p r = a +:+ r +:+ b ∧
         ∀ a1 a2, a = a1 +:+ a2 → a2 ≠ "" → String.prefix p (a2 +:+ p +:+ b) = false.
Proof.
  induction s as [|c s IH]; cbn [includes replace].
  - rewrite orb_false_r. intros Hp. rewrite Hp. exists "", (skip (String.length p) "").
    split_and!; [by apply prefix_split|done|]. by intros [|] [|] ?.
  - destruct (String.prefix p (String c s)) eqn:Hp; cbn [orb].
    + intros _. exists "", (skip (String.length p) (String c s)).
      split_and!; [by apply prefix_split|done|]. by intros [|] [|] ?.
    + intros (a & b & -> & Hr & Hfirst)%IH. exists (String c a), b.
      split_and!; [done|simpl; by rewrite Hr|].
      intros [|c1 a1] a2 Ha Ha2; simpl in Ha.
      * by subst a2.
      * injection Ha as -> ->. by apply (Hfirst a1 a2).
Qed.

Lemma count_char_includes c s : includes s (String c "") = true ↔ 0 < count_char c s.
Proof.
  induction s as [|c' s IH]; simpl; [split; [done|lia]|].
  destruct (ascii_dec c c') as [->|Hne].
  - rewrite decide_True by done. split; [lia|]. by destruct s.
  - rewrite decide_False by done. simpl. by rewrite IH.
Qed.

(** Replacing a byte by the empty string removes one occurrence of it. *)
Lemma count_char_replace c s :
  count_char c (replace s (String c "") "") = pred (count_char c s).
Proof.
  induction s as [|c' s IH]; simpl; [done|].
  destruct (ascii_dec c c') as [->|Hne].
  - rewrite decide_True by done. by destruct s.
  - simpl. rewrite decide_False by done. simpl. apply IH.
Qed.

Lemma length_replace_char c s :
  String.length (replace s (String c "") "") =
  String.length s - (if includes s (String c "") then 1 else 0).
Proof.
  induction s as [|c' s IH]; simpl; [done|].
  destruct (ascii_dec c c') as [->|Hne].
  - destruct s; simpl; lia.
  - simpl. rewrite IH. destruct (includes s (String c "")) eqn:Hi; [|lia].
    apply count_char_includes in Hi. destruct s; simpl in *; lia.
Qed.

(** Other bytes are neither added nor removed. *)
Lemma count_char_replace_other c d s :
  c ≠ d → count_char d (replace s (String c "") "") = count_char d s.
Proof.
  intros Hne. induction s as [|c' s IH]; simpl; [done|].
  destruct (ascii_dec c c') as [->|Hne'].
  - rewrite decide_False by done. by destruct s.
  - simpl. by rewrite IH.
Qed.

End JsString.

(** The first of two line feeds is removed and the second one stays. *)
Lemma replace_first_witness :
  ∃ a b, "ab
cd
ef" = a +:+ JsString.newline +:+ b ∧
    JsString.replace "ab
cd
ef" JsString.newline "" = a +:+ "" +:+ b ∧
    ∀ a1 a2, a = a1 +:+ a2 → a2 ≠ "" →
      String.prefix JsString.newline (a2 +:+ JsString.newline +:+ b) = false.
Proof. by apply (JsString.replace_first _ JsString.newline ""). Defined.

#[export] Hint Rewrite JsString.count_char_app JsString.count_char_replace
  JsString.length_app_s JsString.skip_app JsString.app_nil_r_s : page_rw.
