(* ===== verification/TokenList.v ===== *)
(** * DOMTokenList: the [classList] of an element

    The class list of an element is an ordered set of tokens.  The
    script calls [toggle] (in [toggleDeleteConfirm]) and [add] (in
    [deleteScrobble]); [contains] and [remove] complete the interface.
    Each mutator validates its token first: the empty string is a
    [SyntaxError], a token with ASCII whitespace an
    [InvalidCharacterError].  The operations are computations over the
    token list, lifted to an element of the document in [Dom].  They
    respect the order of the tokens up to permutation, and [toggle] of
    a token commutes with [add] of another up to it. *)

From stdpp Require Import base tactics option list strings sorting.
From Stdlib Require Import Ascii String.
From S2P Require Import Prelude Js.

#[local] Open Scope page_scope.

Module TokenList.

Abbreviation token_list := (list string).

(** ASCII whitespace of the DOM standard: TAB, LF, FF, CR, SPACE. *)
Definition is_ascii_whitespace (c : ascii) : bool :=
  match nat_of_ascii c with
  | 9 | 10 | 12 | 13 | 32 => true
  | _ => false
  end.

Fixpoint has_whitespace (s : string) : bool :=
  match s with
  | EmptyString => false
  | String c s' => is_ascii_whitespace c || has_whitespace s'
  end.

(** A token a mutator accepts. *)
Definition valid_token (t : string) : Prop :=
  t ≠ EmptyString ∧ has_whitespace t = false.

#[export] Instance valid_token_dec t : Decision (valid_token t).
Proof. unfold valid_token. apply _. Defined.

(** The validation steps shared by [add], [remove] and [toggle]. *)
Definition validate (t : string) : JS token_list unit :=
  if decide (t = EmptyString) then throw SyntaxError
  else if has_whitespace t then throw InvalidCharacterError
  else ret tt.

(** [list.contains(t)] *)
Definition contains (t : string) : JS token_list bool :=
  gets (λ l, bool_decide (t ∈ l)).

(** Appending to an ordered set: nothing changes if [t] is present. *)
Definition append_token (t : string) (l : token_list) : token_list :=
  if decide (t ∈ l) then l else l ++ [t].

Definition remove_token (t : string) (l : token_list) : token_list :=
  filter (λ x, x ≠ t) l.

(** [list.add(t)] *)
Definition add (t : string) : JS token_list unit :=
  validate t >> modify (append_token t).

(** [list.remove(t)] *)
Definition remove (t : string) : JS token_list unit :=
  validate t >> modify (remove_token t).

(** [list.toggle(t)] without the [force] argument: removes a present
    token and returns [false]; appends an absent one and returns [true]. *)
Definition toggle (t : string) : JS token_list bool :=
  validate t >>
  let* present := contains t in
  if present then modify (remove_token t) >> ret false
  else modify (append_token t) >> ret true.

(** The invariant of a class list: an ordered set of valid tokens. *)
Definition wf (l : token_list) : Prop :=
  NoDup l ∧ Forall valid_token l.

#[export] Instance wf_dec l : Decision (wf l).
Proof. unfold wf. apply _. Defined.

(** ** Validation *)

Lemma validate_valid t l : valid_token t → validate t l = (Ok tt, l).
Proof. intros [Hne Hws]. unfold validate. by rewrite decide_False, Hws. Qed.

Lemma validate_invalid t l :
  ¬ valid_token t → ∃ e, validate t l = (Throw e, l) ∧ (e = SyntaxError ∨ e = InvalidCharacterError).
Proof.
  intros Hinv. unfold validate. case_decide; [by eauto|].
  destruct (has_whitespace t) eqn:Hws; [by eauto|]. by destruct Hinv.
Qed.

Lemma validate_state t l : exec (validate t) l = l.
Proof.
  unfold validate, exec. case_decide; [done|]. by destruct (has_whitespace t).
Qed.

(** ** The set operations *)

Lemma elem_of_append_token t x l : x ∈ append_token t l ↔ x = t ∨ x ∈ l.
Proof.
  unfold append_token. destruct (decide (t ∈ l)) as [Hin|Hin].
  - split; [by right|]. by intros [->|?].
  - rewrite elem_of_app, list_elem_of_singleton. tauto.
Qed.

Lemma elem_of_remove_token t x l : x ∈ remove_token t l ↔ x ≠ t ∧ x ∈ l.
Proof. unfold remove_token. by rewrite list_elem_of_filter. Qed.

Lemma append_token_NoDup t l : NoDup l → NoDup (append_token t l).
Proof.
  intros Hnd. unfold append_token. case_decide; [done|].
  apply NoDup_app. split_and!; [done| |apply NoDup_singleton].
  by intros x Hx ->%list_elem_of_singleton.
Qed.

Lemma remove_token_NoDup t l : NoDup l → NoDup (remove_token t l).
Proof. apply NoDup_filter. Qed.

Lemma append_token_wf t l : valid_token t → wf l → wf (append_token t l).
Proof.
  intros Ht [Hnd Hall]. split; [by apply append_token_NoDup|].
  apply Forall_forall. intros x [->|Hx]%elem_of_append_token; [done|].
  by eapply Forall_forall in Hall.
Qed.

Lemma remove_token_wf t l : wf l → wf (remove_token t l).
Proof.
  intros [Hnd Hall]. split; [by apply remove_token_NoDup|].
  by apply Forall_filter_keep.
Qed.

Lemma append_token_present t l : t ∈ l → append_token t l = l.
Proof. intros. unfold append_token. by rewrite decide_True. Qed.

Lemma append_token_absent t l : t ∉ l → append_token t l = l ++ [t].
Proof. intros. unfold append_token. by rewrite decide_False. Qed.

Lemma remove_append_token t l : t ∉ l → remove_token t (append_token t l) = l.
Proof.
  intros Hnin. rewrite append_token_absent by done.
  by apply filter_ne_app_singleton.
Qed.

(** Removing a token of an ordered set and appending it again gives the
    same set, with the token moved to the end. *)
Lemma append_remove_token t l :
  NoDup l → t ∈ l → append_token t (remove_token t l) ≡ₚ l.
Proof.
  intros Hnd Hin. apply NoDup_Permutation; [|done|].
  - by apply append_token_NoDup, remove_token_NoDup.
  - intros x. rewrite elem_of_append_token, elem_of_remove_token.
    destruct (decide (x = t)) as [->|]; tauto.
Qed.

#[export] Instance append_token_perm t : Proper ((≡ₚ) ==> (≡ₚ)) (append_token t).
Proof.
  intros l1 l2 Hl. unfold append_token.
  assert (t ∈ l1 ↔ t ∈ l2) as Hin by by rewrite Hl.
  destruct (decide (t ∈ l1)) as [H1|H1], (decide (t ∈ l2)) as [H2|H2];
    [done|tauto|tauto|]. by apply Permutation_app_tail.
Qed.

#[export] Instance remove_token_perm t : Proper ((≡ₚ) ==> (≡ₚ)) (remove_token t).
Proof. intros l1 l2 Hl. unfold remove_token. by rewrite Hl. Qed.

(** ** The methods on every branch *)

Lemma contains_run t l : contains t l = (Ok (bool_decide (t ∈ l)), l).
Proof. done. Qed.

Lemma add_valid t l : valid_token t → add t l = (Ok tt, append_token t l).
Proof. intros Ht. unfold add. by erewrite bind_ok by by apply validate_valid. Qed.

Lemma remove_valid t l : valid_token t → remove t l = (Ok tt, remove_token t l).
Proof. intros Ht. unfold remove. by erewrite bind_ok by by apply validate_valid. Qed.

Lemma toggle_present t l :
  valid_token t → t ∈ l → toggle t l = (Ok false, remove_token t l).
Proof.
  intros Ht Hin. unfold toggle. erewrite bind_ok by by apply validate_valid.
  erewrite bind_ok by apply contains_run. by rewrite bool_decide_eq_true_2.
Qed.

Lemma toggle_absent t l :
  valid_token t → t ∉ l → toggle t l = (Ok true, l ++ [t]).
Proof.
  intros Ht Hin. unfold toggle. erewrite bind_ok by by apply validate_valid.
  erewrite bind_ok by apply contains_run. rewrite bool_decide_eq_false_2 by done.
  m_run. by rewrite append_token_absent.
Qed.

(** An invalid token makes every mutator throw and leaves the list. *)
Lemma add_invalid t l :
  ¬ valid_token t → ∃ e, add t l = (Throw e, l) ∧ (e = SyntaxError ∨ e = InvalidCharacterError).
Proof.
  intros (e & Hv & He)%(validate_invalid t l). exists e. split; [|done].
  unfold add. by erewrite bind_throws.
Qed.

Lemma toggle_invalid t l :
  ¬ valid_token t → ∃ e, toggle t l = (Throw e, l) ∧ (e = SyntaxError ∨ e = InvalidCharacterError).
Proof.
  intros (e & Hv & He)%(validate_invalid t l). exists e. split; [|done].
  unfold toggle. by erewrite bind_throws.
Qed.

(** The result of [toggle] tells whether the token is present after it. *)
Lemma toggle_result t l :
  valid_token t → NoDup l →
  ∃ b, result (toggle t) l = Ok b ∧ (b = true ↔ t ∈ exec (toggle t) l).
Proof.
  intros Ht Hnd. unfold result, exec. destruct (decide (t ∈ l)) as [Hin|Hin].
  - rewrite toggle_present by done. exists false. split; [done|]. simpl.
    rewrite elem_of_remove_token. intuition congruence.
  - rewrite toggle_absent by done. exists true. split; [done|]. simpl.
    rewrite elem_of_app, list_elem_of_singleton. intuition congruence.
Qed.

(** What [toggle] leaves in the list: the token if it was not there,
    every other token if it was. *)
Lemma elem_of_toggle t x l :
  valid_token t → x ∈ exec (toggle t) l ↔ if decide (x = t) then t ∉ l else x ∈ l.
Proof.
  intros Ht. unfold exec. destruct (decide (t ∈ l)) as [Hin|Hin].
  - rewrite toggle_present by done. simpl. rewrite elem_of_remove_token.
    case_decide; intuition congruence.
  - rewrite toggle_absent by done. simpl. rewrite elem_of_app, list_elem_of_singleton.
    case_decide; intuition congruence.
Qed.

(** ** Preservation of the invariant *)

Lemma validate_preserves (I : token_list → Prop) t : preserves I (validate t).
Proof. intros l Hl. by rewrite validate_state. Qed.

Lemma add_preserves_wf t : preserves wf (add t).
Proof.
  intros l Hl. unfold exec. destruct (decide (valid_token t)) as [Ht|Ht].
  - rewrite add_valid by done. by apply append_token_wf.
  - by destruct (add_invalid t l Ht) as (e & -> & _).
Qed.

Lemma remove_preserves_wf t : preserves wf (remove t).
Proof.
  unfold remove. apply preserves_bind; [apply validate_preserves|].
  intros _. apply preserves_modify. intros l. apply remove_token_wf.
Qed.

Lemma toggle_preserves_wf t : preserves wf (toggle t).
Proof.
  intros l Hl. unfold exec. destruct (decide (valid_token t)) as [Ht|Ht].
  - destruct (decide (t ∈ l)) as [Hin|Hin].
    + rewrite toggle_present by done. by apply remove_token_wf.
    + rewrite toggle_absent, <- append_token_absent by done.
      by apply append_token_wf.
  - by destruct (toggle_invalid t l Ht) as (e & -> & _).
Qed.

(** ** Toggling twice *)

(** Two toggles of an absent token restore the list itself. *)
Lemma toggle_toggle_absent t l :
  valid_token t → t ∉ l → (toggle t >> toggle t) l = (Ok false, l).
Proof.
  intros Ht Hin. erewrite bind_ok by by apply toggle_absent.
  rewrite toggle_present; [|done|apply elem_of_app; right; by left].
  by rewrite <- append_token_absent, remove_append_token.
Qed.

(** Two toggles of a present token move it to the end of the list. *)
Lemma toggle_toggle_present t l :
  valid_token t → t ∈ l →
  (toggle t >> toggle t) l = (Ok true, remove_token t l ++ [t]).
Proof.
  intros Ht Hin. erewrite bind_ok by by apply toggle_present.
  rewrite toggle_absent; [done..|]. rewrite elem_of_remove_token. intuition congruence.
Qed.

(** Two toggles give back the same set of classes, and the second
    reports the membership the token had at the start. *)
Lemma toggle_toggle t l :
  valid_token t → NoDup l →
  ∃ l', (toggle t >> toggle t) l = (Ok (bool_decide (t ∈ l)), l') ∧ l' ≡ₚ l.
Proof.
  intros Ht Hnd. destruct (decide (t ∈ l)) as [Hin|Hin].
  - rewrite toggle_toggle_present, bool_decide_eq_true_2 by done.
    eexists; split; [done|].
    rewrite <- append_token_absent by (rewrite elem_of_remove_token; intuition congruence).
    by apply append_remove_token.
  - rewrite toggle_toggle_absent, bool_decide_eq_false_2 by done. by eexists.
Qed.

Lemma toggle_toggle_exec t l :
  valid_token t →
  exec (toggle t >> toggle t) l = exec (toggle t) (exec (toggle t) l).
Proof.
  intros Ht. unfold exec, bind. destruct (decide (t ∈ l)).
  - by rewrite (toggle_present t l).
  - by rewrite (toggle_absent t l).
Qed.

Lemma toggle_toggle_perm t l :
  valid_token t → NoDup l → exec (toggle t >> toggle t) l ≡ₚ l.
Proof.
  intros Ht Hnd. destruct (toggle_toggle t l Ht Hnd) as (l' & Hl & Hperm).
  unfold exec. by rewrite Hl.
Qed.

(** ** Class lists up to the order of the tokens *)

(** What [toggle] leaves in the list, on every branch. *)
Lemma toggle_exec t l :
  exec (toggle t) l =
    if decide (valid_token t)
    then if decide (t ∈ l) then remove_token t l else l ++ [t]
    else l.
Proof.
  unfold exec. repeat case_decide.
  - by rewrite toggle_present.
  - by rewrite toggle_absent.
  - by destruct (toggle_invalid t l) as (e & -> & _).
Qed.

#[export] Instance toggle_perm t : Proper ((≡ₚ) ==> (≡ₚ)) (exec (toggle t)).
Proof.
  intros l1 l2 Hl. rewrite !toggle_exec. case_decide; [|done].
  assert (t ∈ l1 ↔ t ∈ l2) as Hin by by rewrite Hl.
  repeat case_decide; [by rewrite Hl|tauto|tauto|by rewrite Hl].
Qed.

Lemma remove_append_ne t u l :
  t ≠ u → remove_token t (append_token u l) = append_token u (remove_token t l).
Proof.
  intros Htu. unfold append_token. rewrite (decide_ext (u ∈ remove_token t l) (u ∈ l))
    by (rewrite elem_of_remove_token; intuition congruence).
  case_decide; [done|]. unfold remove_token. rewrite filter_app, filter_cons_True by done.
  by rewrite filter_nil.
Qed.

(** [toggle] of a token and [add] of another commute, up to the
    order of the two tokens when both are appended. *)
Lemma toggle_append_token t u l :
  t ≠ u → exec (toggle t) (append_token u l) ≡ₚ append_token u (exec (toggle t) l).
Proof.
  intros Htu. rewrite !toggle_exec. case_decide; [|done].
  rewrite (decide_ext (t ∈ append_token u l) (t ∈ l))
    by (rewrite elem_of_append_token; intuition congruence).
  case_decide; [by rewrite remove_append_ne|].
  unfold append_token. rewrite (decide_ext (u ∈ l ++ [t]) (u ∈ l))
    by (rewrite elem_of_app, list_elem_of_singleton; intuition congruence).
  case_decide; [done|]. rewrite <- !(assoc_L (++)). f_equiv. apply Permutation_swap.
Qed.

End TokenList.

#[export] Hint Resolve TokenList.add_preserves_wf TokenList.remove_preserves_wf
  TokenList.toggle_preserves_wf TokenList.validate_preserves : page.
