(* ===== verification/Markup.v ===== *)
(** * Markup: what [innerHTML] does to the children of an element

    The getter of [innerHTML] serialises the children of an element; the
    setter replaces them by the result of parsing a string as an HTML
    fragment.  The script reads and writes the name field through this
    property only, so the children of an element are kept abstract: the
    interface [MarkupPlatform] gives the parser and the serialiser with
    the laws the HTML standard fixes for text, and the whole model is
    parametric in it.

    - A [Text] node is serialised by escaping [&], [<], [>] and the
      no-break space ([html_escape]).
    - In the tokenizer's data state only [<], [&] followed by an ASCII
      alphanumeric or [#], NUL and CR are not taken literally: a string
      free of them ([markup_free]) parses to one text node with that
      string as its data.
    - Parsing the serialisation of a text node gives the text node back,
      when its data has no NUL and no CR ([clean_text]).
    - The four character references the serialiser writes are decoded
      by [html_unescape], its left inverse: the serialiser is
      injective, so the markup of a text node tells its data.

    The interface holds for elements whose content is parsed in the data
    state (headings, spans, divisions); maloja's name field is an [h1].
    [reference] is an instance that represents children by their
    serialisation.

    The interface also says whether the platform knows the
    [contentEditable] state ["plaintext-only"], which older browsers
    take for an invalid value; [KnowsPlaintextOnly] is the assumption
    that it does. *)

From stdpp Require Import base tactics option list strings.
From Stdlib Require Import Ascii String Lia.
From S2P Require Import Prelude Js JsString.

#[local] Open Scope string_scope.
#[local] Arguments String.append : simpl nomatch.

Module Markup.

(** Bytes with a role in markup. *)
Definition AMP : ascii := "&"%char.
Definition LT : ascii := "<"%char.
Definition GT : ascii := ">"%char.
Definition HASH : ascii := "#"%char.
Definition NUL : ascii := "000"%char.
Definition CR : ascii := "013"%char.
(** U+00A0 NO-BREAK SPACE is the two bytes C2 A0 in UTF-8. *)
Definition NBSP1 : ascii := "194"%char.
Definition NBSP2 : ascii := "160"%char.
Definition nbsp : string := String NBSP1 (String NBSP2 "").

(** The escape of one byte that is not part of a no-break space. *)
Definition escape_byte (c : ascii) : string :=
  if Ascii.eqb c AMP then "&amp;"
  else if Ascii.eqb c LT then "&lt;"
  else if Ascii.eqb c GT then "&gt;"
  else String c "".

(** "Escaping a string" of the HTML serialisation algorithm, outside
    attribute mode. *)
Fixpoint html_escape (s : string) : string :=
  match s with
  | "" => ""
  | String c s' =>
      match s' with
      | String d s'' =>
          if Ascii.eqb c NBSP1 && Ascii.eqb d NBSP2
          then "&nbsp;" +:+ html_escape s''
          else escape_byte c +:+ html_escape s'
      | "" => escape_byte c
      end
  end.

Definition is_ascii_alphanumeric (c : ascii) : bool :=
  let n := nat_of_ascii c in
  (((48 <=? n) && (n <=? 57)) || ((65 <=? n) && (n <=? 90))
   || ((97 <=? n) && (n <=? 122)))%nat.

(** [&] starts a character reference when an ASCII alphanumeric or [#]
    follows it. *)
Definition starts_reference (s : string) : bool :=
  match s with
  | String c (String d _) =>
      Ascii.eqb c AMP && (is_ascii_alphanumeric d || Ascii.eqb d HASH)
  | _ => false
  end.

(** [s] starts with [p]. *)
Fixpoint starts_with (p s : string) : bool :=
  match p, s with
  | "", _ => true
  | String a p', String b s' => Ascii.eqb a b && starts_with p' s'
  | String _ _, "" => false
  end.

(** The character references the serialiser writes, decoded as the
    tokenizer decodes them; [skip] bytes of a reference are still to
    be passed over. *)
Fixpoint decode_from (skip : nat) (s : string) : string :=
  match s with
  | "" => ""
  | String c s' =>
      match skip with
      | S k => decode_from k s'
      | 0 =>
          if starts_with "&amp;" s then String AMP (decode_from 4 s')
          else if starts_with "&lt;" s then String LT (decode_from 3 s')
          else if starts_with "&gt;" s then String GT (decode_from 3 s')
          else if starts_with "&nbsp;" s then nbsp +:+ decode_from 5 s'
          else String c (decode_from 0 s')
      end
  end.

Definition html_unescape (s : string) : string := decode_from 0 s.

(** A string the fragment parser takes literally, as one text node. *)
Fixpoint markup_free (s : string) : bool :=
  match s with
  | "" => true
  | String c s' =>
      negb (Ascii.eqb c LT) && negb (Ascii.eqb c NUL) && negb (Ascii.eqb c CR)
      && negb (starts_reference s) && markup_free s'
  end.

(** Text data that survives serialisation and parsing. *)
Fixpoint clean_text (s : string) : bool :=
  match s with
  | "" => true
  | String c s' => negb (Ascii.eqb c NUL) && negb (Ascii.eqb c CR) && clean_text s'
  end.

(** A string the serialiser leaves as it is. *)
Fixpoint escape_free (s : string) : bool :=
  match s with
  | "" => true
  | String c s' =>
      negb (Ascii.eqb c AMP) && negb (Ascii.eqb c LT) && negb (Ascii.eqb c GT)
      && negb (String.prefix nbsp s) && escape_free s'
  end.

(** The platform interface. *)
Class MarkupPlatform : Type := {
  children : Type;
  children_eq_dec :: EqDecision children;
  (** no child for the empty string, else one [Text] node *)
  text_node : string → children;
  (** the fragment parser behind the [innerHTML] setter *)
  parse_fragment : string → children;
  (** the serialiser behind the [innerHTML] getter *)
  serialize_fragment : children → string;
  (** the number of child nodes *)
  child_count : children → nat;
  serialize_text t : serialize_fragment (text_node t) = html_escape t;
  parse_markup_free s : markup_free s = true → parse_fragment s = text_node s;
  parse_serialized_text t :
    clean_text t = true → parse_fragment (html_escape t) = text_node t;
  child_count_text t :
    child_count (text_node t) = if decide (t = "") then 0 else 1;
  (** the [contentEditable] setter accepts ["plaintext-only"] *)
  plaintext_only : bool;
}.

(** ** Induction over a string two bytes at a time *)

Lemma string_ind2 (P : string → Prop) :
  P "" → (∀ c, P (String c "")) →
  (∀ c d s, P s → P (String d s) → P (String c (String d s))) →
  ∀ s, P s.
Proof.
  intros H0 H1 H2. cut (∀ s, P s ∧ ∀ c, P (String c s)); [intros H s; apply H|].
  induction s as [|d s [IH1 IH2]]; split; auto.
Qed.

(** One step of [html_escape], on each of its branches. *)
Lemma html_escape_nbsp s :
  html_escape (String NBSP1 (String NBSP2 s)) = "&nbsp;" +:+ html_escape s.
Proof. done. Qed.

Lemma prefix_nbsp c d s :
  String.prefix nbsp (String c (String d s)) = true → c = NBSP1 ∧ d = NBSP2.
Proof.
  unfold nbsp. cbn [String.prefix]. destruct (ascii_dec NBSP1 c); [|done].
  by destruct (ascii_dec NBSP2 d).
Qed.

Lemma html_escape_cons c s :
  String.prefix nbsp (String c s) = false →
  html_escape (String c s) = escape_byte c +:+ html_escape s.
Proof.
  destruct s as [|d s]; cbn [html_escape]; [by rewrite JsString.app_nil_r_s|].
  intros Hp. destruct (Ascii.eqb_spec c NBSP1) as [->|]; [|done].
  destruct (Ascii.eqb_spec d NBSP2) as [->|]; [|done].
  unfold nbsp in Hp. cbn in Hp. by destruct s.
Qed.

Lemma escape_byte_id c :
  Ascii.eqb c AMP = false → Ascii.eqb c LT = false → Ascii.eqb c GT = false →
  escape_byte c = String c "".
Proof. unfold escape_byte. by intros -> -> ->. Qed.

(** ** The serialiser has a left inverse *)

Lemma decode_skip p s : decode_from (String.length p) (p +:+ s) = decode_from 0 s.
Proof. induction p as [|a p IH]; [done|]. cbn. apply IH. Qed.

(** A byte that does not start a reference is taken literally. *)
Lemma decode_literal c s :
  c ≠ AMP → decode_from 0 (String c s) = String c (decode_from 0 s).
Proof.
  intros Hc. cbn [decode_from starts_with].
  by destruct (Ascii.eqb_spec "&" c) as [Heq|_]; [destruct Hc|].
Qed.

(** The four references. *)
Lemma decode_amp s : decode_from 0 ("&amp;" +:+ s) = String AMP (decode_from 0 s).
Proof. exact (f_equal (String AMP) (decode_skip "amp;" s)). Qed.

Lemma decode_lt s : decode_from 0 ("&lt;" +:+ s) = String LT (decode_from 0 s).
Proof. exact (f_equal (String LT) (decode_skip "lt;" s)). Qed.

Lemma decode_gt s : decode_from 0 ("&gt;" +:+ s) = String GT (decode_from 0 s).
Proof. exact (f_equal (String GT) (decode_skip "gt;" s)). Qed.

Lemma decode_nbsp s : decode_from 0 ("&nbsp;" +:+ s) = nbsp +:+ decode_from 0 s.
Proof. exact (f_equal (String.append nbsp) (decode_skip "nbsp;" s)). Qed.

Lemma decode_escape_byte c s :
  decode_from 0 (escape_byte c +:+ s) = String c (decode_from 0 s).
Proof.
  unfold escape_byte.
  destruct (Ascii.eqb_spec c AMP) as [->|Ha]; [apply decode_amp|].
  destruct (Ascii.eqb_spec c LT) as [->|Hl]; [apply decode_lt|].
  destruct (Ascii.eqb_spec c GT) as [->|Hg]; [apply decode_gt|].
  by apply decode_literal.
Qed.

(** Decoding the serialisation of a text gives the text back. *)
Lemma html_unescape_escape t : html_unescape (html_escape t) = t.
Proof.
  unfold html_unescape.
  induction t as [|c|c d t IH1 IH2] using string_ind2; [done| |].
  - cbn [html_escape]. by rewrite <- (JsString.app_nil_r_s (escape_byte c)), decode_escape_byte.
  - destruct (String.prefix nbsp (String c (String d t))) eqn:Hn.
    + apply prefix_nbsp in Hn as [-> ->]. by rewrite html_escape_nbsp, decode_nbsp, IH1.
    + by rewrite html_escape_cons, decode_escape_byte, IH2.
Qed.

(** The markup of a text node tells its data. *)
Lemma html_escape_inj t1 t2 : html_escape t1 = html_escape t2 → t1 = t2.
Proof.
  intros Ht. by rewrite <- (html_unescape_escape t1), Ht, html_unescape_escape.
Qed.

(** ** The serialiser is the identity exactly on escape-free strings *)

Lemma html_escape_free s : escape_free s = true → html_escape s = s.
Proof.
  induction s as [|c s IH]; [done|]. cbn [escape_free].
  rewrite !andb_true_iff, !negb_true_iff. intros [[[[Ha Hl] Hg] Hn] Hs].
  rewrite html_escape_cons, escape_byte_id, IH by done. done.
Qed.

Lemma escape_byte_length c : (1 ≤ String.length (escape_byte c))%nat.
Proof. unfold escape_byte. repeat case_match; simpl; lia. Qed.

(** Escaping never shortens a string. *)
Lemma length_html_escape s : (String.length s ≤ String.length (html_escape s))%nat.
Proof.
  induction s as [|c|c d s IH1 IH2] using string_ind2; [done|apply escape_byte_length|].
  destruct (String.prefix nbsp (String c (String d s))) eqn:Hn.
  - apply prefix_nbsp in Hn as [-> ->]. rewrite html_escape_nbsp. simpl. lia.
  - rewrite html_escape_cons, JsString.length_app_s by done.
    pose proof (escape_byte_length c). simpl in *. lia.
Qed.

Lemma escape_byte_fixed c s t :
  escape_byte c +:+ s = String c t → (String.length t ≤ String.length s)%nat →
  escape_byte c = String c "".
Proof.
  unfold escape_byte. repeat case_match; [..|done]; intros Hs Hlen;
    apply (f_equal String.length) in Hs; simpl in Hs; lia.
Qed.

Lemma escape_free_byte c s :
  escape_byte c = String c "" → String.prefix nbsp (String c s) = false →
  escape_free (String c s) = escape_free s.
Proof.
  intros Hc Hn. cbn [escape_free]. rewrite Hn. unfold escape_byte in Hc.
  by repeat case_match.
Qed.

(** A string the serialiser leaves as it is, is escape-free. *)
Lemma html_escape_fixed s : html_escape s = s → escape_free s = true.
Proof.
  induction s as [|c|c d s IH1 IH2] using string_ind2; [done| |].
  - cbn [html_escape]. intros Hc. rewrite escape_free_byte; [done..|].
    unfold nbsp. cbn [String.prefix]. by destruct (ascii_dec NBSP1 c).
  - destruct (String.prefix nbsp (String c (String d s))) eqn:Hn.
    + by apply prefix_nbsp in Hn as [-> ->].
    + rewrite html_escape_cons by done. intros Hs.
      pose proof (escape_byte_fixed _ _ _ Hs (length_html_escape (String d s))) as Hc.
      rewrite Hc in Hs. injection Hs as Hs. rewrite escape_free_byte by done. auto.
Qed.

Lemma html_escape_id s : html_escape s = s ↔ escape_free s = true.
Proof. split; [apply html_escape_fixed|apply html_escape_free]. Qed.

(** The escape of a byte the serialiser rewrites starts a reference. *)
Lemma escape_byte_reference c s :
  escape_byte c ≠ String c "" → starts_reference (escape_byte c +:+ s) = true.
Proof.
  unfold escape_byte.
  destruct (Ascii.eqb c AMP); [done|]. destruct (Ascii.eqb c LT); [done|].
  by destruct (Ascii.eqb c GT).
Qed.

Lemma markup_free_reference s : starts_reference s = true → markup_free s = false.
Proof.
  destruct s as [|c s]; [done|]. cbn [markup_free]. intros ->.
  by rewrite !andb_false_r.
Qed.

Lemma markup_free_cons c s : markup_free (String c s) = true → markup_free s = true.
Proof. cbn [markup_free]. by intros [_ ?]%andb_true_iff. Qed.

(** If the serialisation of a text is markup-free, nothing was escaped. *)
Lemma markup_free_escape s : markup_free (html_escape s) = true → html_escape s = s.
Proof.
  induction s as [|c|c d s IH1 IH2] using string_ind2; [done| |].
  - cbn [html_escape]. intros Hm. destruct (decide (escape_byte c = String c "")); [done|].
    by rewrite <- (JsString.app_nil_r_s (escape_byte c)), markup_free_reference in Hm
      by by apply escape_byte_reference.
  - destruct (String.prefix nbsp (String c (String d s))) eqn:Hn.
    + apply prefix_nbsp in Hn as [-> ->]. rewrite html_escape_nbsp. intros Hm.
      by rewrite markup_free_reference in Hm.
    + rewrite html_escape_cons by done. intros Hm.
      destruct (decide (escape_byte c = String c "")) as [Hc|Hc].
      * rewrite Hc in *. simpl in Hm. apply markup_free_cons in Hm.
        simpl. f_equal. by apply IH2.
      * by rewrite markup_free_reference in Hm by by apply escape_byte_reference.
Qed.

(** ** The reference instance

    Children are represented by their serialisation: a text node by its
    escaped data, other content by the markup that was parsed. *)

Definition reference_parse (s : string) : string :=
  if markup_free s then html_escape s else s.

Definition reference_count (c : string) : nat :=
  if decide (c = "") then 0 else 1.

Lemma reference_parse_free s :
  markup_free s = true → reference_parse s = html_escape s.
Proof. unfold reference_parse. by intros ->. Qed.

Lemma reference_parse_serialized t :
  clean_text t = true → reference_parse (html_escape t) = html_escape t.
Proof.
  intros _. unfold reference_parse.
  destruct (markup_free (html_escape t)) eqn:Hm; [|done].
  by rewrite !(markup_free_escape t Hm).
Qed.

Lemma html_escape_empty t : html_escape t = "" ↔ t = "".
Proof.
  split; [|by intros ->]. destruct t as [|c [|d s]]; [done|..]; cbn [html_escape];
    unfold escape_byte; by repeat case_match.
Qed.

Lemma reference_count_text t :
  reference_count (html_escape t) = if decide (t = "") then 0 else 1.
Proof.
  unfold reference_count. destruct (decide (t = "")) as [->|Hne]; [done|].
  rewrite decide_False; [done|]. by rewrite html_escape_empty.
Qed.

#[export] Instance reference : MarkupPlatform := {|
  children := string;
  text_node := html_escape;
  parse_fragment := reference_parse;
  serialize_fragment c := c;
  child_count := reference_count;
  serialize_text t := eq_refl;
  parse_markup_free := reference_parse_free;
  parse_serialized_text := reference_parse_serialized;
  child_count_text := reference_count_text;
  plaintext_only := true;
|}.

(** The reference platform without the state ["plaintext-only"]. *)
Definition legacy : MarkupPlatform := {|
  children := string;
  text_node := html_escape;
  parse_fragment := reference_parse;
  serialize_fragment c := c;
  child_count := reference_count;
  serialize_text t := eq_refl;
  parse_markup_free := reference_parse_free;
  parse_serialized_text := reference_parse_serialized;
  child_count_text := reference_count_text;
  plaintext_only := false;
|}.

End Markup.

Export Markup (MarkupPlatform, children, text_node, parse_fragment,
  serialize_fragment, child_count, plaintext_only).

(** The platform knows the state ["plaintext-only"]. *)
Class KnowsPlaintextOnly `{MP : !MarkupPlatform} : Prop :=
  plaintext_only_known : plaintext_only = true.

#[export] Hint Extern 1 KnowsPlaintextOnly => exact eq_refl : typeclass_instances.
