(* ===== verification/Url.v ===== *)
(** * URLSearchParams

    [doneEditing] builds a [URLSearchParams] from [window.location.search],
    calls [set] on it and, in the callback of the request, navigates to
    ["?"] followed by its [toString()].  The object is a list of
    name-value pairs; the constructor is the
    application/x-www-form-urlencoded parser of the URL standard (after
    removing a leading [?]) and [toString] its serialiser.  Strings are
    UTF-8 byte strings, so the standard's UTF-8 encode and decode steps
    are the identity here; ill-formed sequences are not replaced. *)

From stdpp Require Import base tactics option list strings.
From Stdlib Require Import Ascii String Lia.
From S2P Require Import Prelude Js JsString.

#[local] Open Scope string_scope.
#[local] Arguments String.append : simpl nomatch.

Module Url.

Abbreviation params := (list (string * string)).

Definition AMPERSAND : ascii := "&"%char.
Definition EQUALS : ascii := "="%char.
Definition PLUS : ascii := "+"%char.
Definition PERCENT : ascii := "%"%char.
Definition SPACE : ascii := " "%char.
Definition QUESTION : ascii := "?"%char.

(** ** Bytes and hexadecimal digits *)

Definition in_range (lo hi : nat) (c : ascii) : bool :=
  let n := nat_of_ascii c in ((lo <=? n) && (n <=? hi))%nat.

Definition is_alphanumeric (c : ascii) : bool :=
  in_range 48 57 c || in_range 65 90 c || in_range 97 122 c.

(** Bytes the serialiser leaves as they are: ASCII alphanumerics and
    [*], [-], [.], [_]. *)
Definition unreserved (c : ascii) : bool :=
  is_alphanumeric c
  || Ascii.eqb c "*" || Ascii.eqb c "-" || Ascii.eqb c "." || Ascii.eqb c "_".

(** The upper-case hexadecimal digit of a value below 16. *)
Definition hex_digit (n : nat) : ascii :=
  ascii_of_nat (if (n <? 10)%nat then 48 + n else 55 + n).

(** The value of a hexadecimal digit of either case. *)
Definition hex_value (c : ascii) : option nat :=
  let n := nat_of_ascii c in
  if in_range 48 57 c then Some (n - 48)
  else if in_range 65 70 c then Some (n - 55)
  else if in_range 97 102 c then Some (n - 87)
  else None.

(** ** Serialiser *)

(** Percent-encoding of one byte with the urlencoded set, space as [+]. *)
Definition encode_byte (c : ascii) : string :=
  if unreserved c then String c ""
  else if Ascii.eqb c SPACE then String PLUS ""
  else let n := nat_of_ascii c in
       String PERCENT (String (hex_digit (n / 16)) (String (hex_digit (n mod 16)) "")).

Fixpoint encode (s : string) : string :=
  match s with
  | "" => ""
  | String c s' => encode_byte c +:+ encode s'
  end.

Definition serialize_pair (p : string * string) : string :=
  encode p.1 +:+ String EQUALS (encode p.2).

(** [params.toString()]: the pairs joined by [&]. *)
Fixpoint serialize (l : params) : string :=
  match l with
  | [] => ""
  | [p] => serialize_pair p
  | p :: l' => serialize_pair p +:+ String AMPERSAND (serialize l')
  end.

(** ** Parser *)

(** [split_on c s]: the pieces of [s] between occurrences of [c]. *)
Fixpoint split_on (c : ascii) (s : string) : list string :=
  match s with
  | "" => [""]
  | String d s' =>
      if Ascii.eqb d c then "" :: split_on c s'
      else match split_on c s' with
           | x :: r => String d x :: r
           | [] => [String d ""]
           end
  end.

(** [split_first c s]: [s] up to its first [c], and what follows it;
    all of [s] and the empty string when [c] does not occur. *)
Fixpoint split_first (c : ascii) (s : string) : string * string :=
  match s with
  | "" => ("", "")
  | String d s' =>
      if Ascii.eqb d c then ("", s')
      else let '(a, b) := split_first c s' in (String d a, b)
  end.

Fixpoint plus_to_space (s : string) : string :=
  match s with
  | "" => ""
  | String c s' => String (if Ascii.eqb c PLUS then SPACE else c) (plus_to_space s')
  end.

(** Percent-decoding: [%] followed by two hexadecimal digits is the
    byte they denote; any other byte stands for itself. *)
Fixpoint percent_decode (s : string) : string :=
  match s with
  | "" => ""
  | String c s' =>
      if Ascii.eqb c PERCENT then
        match s' with
        | String h (String l s'') =>
            match hex_value h, hex_value l with
            | Some x, Some y => String (ascii_of_nat (16 * x + y)) (percent_decode s'')
            | _, _ => String c (percent_decode s')
            end
        | _ => String c (percent_decode s')
        end
      else String c (percent_decode s')
  end.

Definition decode (s : string) : string := percent_decode (plus_to_space s).

Definition parse_pair (s : string) : string * string :=
  let '(n, v) := split_first EQUALS s in (decode n, decode v).

(** The urlencoded parser: empty pieces are skipped. *)
Definition parse_urlencoded (s : string) : params :=
  parse_pair <$> filter (λ x, x ≠ "") (split_on AMPERSAND s).

(** [new URLSearchParams(init)] for a string [init]. *)
Definition parse (init : string) : params :=
  match init with
  | String c s' => if Ascii.eqb c QUESTION then parse_urlencoded s' else parse_urlencoded init
  | "" => []
  end.

(** ** Methods *)

(** [params.get(name)]: the value of the first pair named [name]. *)
Definition get (name : string) (l : params) : option string :=
  snd <$> (snd <$> list_find (λ p, p.1 = name) l).

(** [params.set(name, value)]: the first pair named [name] takes
    [value] and the other pairs of that name are removed; without such a
    pair, one is appended. *)
Fixpoint set (name value : string) (l : params) : params :=
  match l with
  | [] => [(name, value)]
  | p :: l' =>
      if decide (p.1 = name) then (name, value) :: filter (λ q, q.1 ≠ name) l'
      else p :: set name value l'
  end.

(** A string without the byte [c]. *)
Fixpoint free_of (c : ascii) (s : string) : bool :=
  match s with
  | "" => true
  | String d s' => negb (Ascii.eqb d c) && free_of c s'
  end.

(** ** Decoding an encoded string *)

Lemma decode_plain c r :
  Ascii.eqb c PERCENT = false → Ascii.eqb c PLUS = false →
  decode (String c r) = String c (decode r).
Proof.
  intros Hpc Hpl. unfold decode. cbn [plus_to_space percent_decode].
  by rewrite Hpl, Hpc.
Qed.

Lemma decode_plus r : decode (String PLUS r) = String SPACE (decode r).
Proof. done. Qed.

Lemma decode_percent h l x y r :
  hex_value h = Some x → hex_value l = Some y →
  Ascii.eqb h PLUS = false → Ascii.eqb l PLUS = false →
  decode (String PERCENT (String h (String l r)))
  = String (ascii_of_nat (16 * x + y)) (decode r).
Proof.
  intros Hh Hl Hhp Hlp. unfold decode. cbn [plus_to_space]. rewrite Hhp, Hlp.
  change (Ascii.eqb PERCENT PLUS) with false. cbn [percent_decode].
  change (Ascii.eqb PERCENT PERCENT) with true. by rewrite Hh, Hl.
Qed.

(** The three shapes of an encoded byte. *)
Inductive encoded_byte (c : ascii) : string → Prop :=
| encoded_plain :
    Ascii.eqb c PERCENT = false → Ascii.eqb c PLUS = false →
    encoded_byte c (String c "")
| encoded_space : c = SPACE → encoded_byte c (String PLUS "")
| encoded_percent h l x y :
    hex_value h = Some x → hex_value l = Some y →
    Ascii.eqb h PLUS = false → Ascii.eqb l PLUS = false →
    ascii_of_nat (16 * x + y) = c →
    encoded_byte c (String PERCENT (String h (String l ""))).

Lemma encode_byte_shape c : encoded_byte c (encode_byte c).
Proof.
  destruct c as [[] [] [] [] [] [] [] []];
    first [ by apply encoded_plain | by apply encoded_space
          | by eapply encoded_percent ].
Qed.

Lemma decode_encode_byte c r : decode (encode_byte c +:+ r) = String c (decode r).
Proof.
  destruct (encode_byte_shape c) as [Hpc Hpl| ->|h l x y Hh Hl Hhp Hlp <-];
    cbn [String.append].
  - by apply decode_plain.
  - apply decode_plus.
  - by apply decode_percent.
Qed.

Lemma decode_encode s : decode (encode s) = s.
Proof.
  induction s as [|c s IH]; [done|]. cbn [encode].
  by rewrite decode_encode_byte, IH.
Qed.

(** ** Encoded strings have no separator *)

Lemma free_of_app c a b : free_of c (a +:+ b) = free_of c a && free_of c b.
Proof. induction a as [|d a IH]; simpl; [done|]. by rewrite IH, andb_assoc. Qed.

Lemma encode_byte_free_amp c : free_of AMPERSAND (encode_byte c) = true.
Proof. destruct c as [[] [] [] [] [] [] [] []]; vm_compute; reflexivity. Qed.

Lemma encode_byte_free_equals c : free_of EQUALS (encode_byte c) = true.
Proof. destruct c as [[] [] [] [] [] [] [] []]; vm_compute; reflexivity. Qed.

Lemma encode_free_amp s : free_of AMPERSAND (encode s) = true.
Proof.
  induction s as [|c s IH]; [done|]. cbn [encode].
  by rewrite free_of_app, encode_byte_free_amp, IH.
Qed.

Lemma encode_free_equals s : free_of EQUALS (encode s) = true.
Proof.
  induction s as [|c s IH]; [done|]. cbn [encode].
  by rewrite free_of_app, encode_byte_free_equals, IH.
Qed.

Lemma serialize_pair_free_amp p : free_of AMPERSAND (serialize_pair p) = true.
Proof.
  unfold serialize_pair. rewrite free_of_app. cbn [free_of].
  by rewrite !encode_free_amp.
Qed.

Lemma serialize_pair_nonempty p : serialize_pair p ≠ "".
Proof. unfold serialize_pair. by destruct (encode p.1). Qed.

(** ** Splitting *)

Lemma split_first_free c a b :
  free_of c a = true → split_first c (a +:+ String c b) = (a, b).
Proof.
  induction a as [|d a IH]; simpl.
  - by rewrite Ascii.eqb_refl.
  - intros [Hd Ha]%andb_true_iff. apply negb_true_iff in Hd. by rewrite Hd, IH.
Qed.

Lemma split_on_free c a : free_of c a = true → split_on c a = [a].
Proof.
  induction a as [|d a IH]; simpl; [done|].
  intros [Hd Ha]%andb_true_iff. apply negb_true_iff in Hd. by rewrite Hd, IH.
Qed.

Lemma split_on_app c a b :
  free_of c a = true → split_on c (a +:+ String c b) = a :: split_on c b.
Proof.
  induction a as [|d a IH]; simpl.
  - by rewrite Ascii.eqb_refl.
  - intros [Hd Ha]%andb_true_iff. apply negb_true_iff in Hd. by rewrite Hd, IH.
Qed.

(** ** Parsing a serialised list *)

Lemma parse_serialize_pair p : parse_pair (serialize_pair p) = p.
Proof.
  unfold parse_pair, serialize_pair.
  rewrite split_first_free by apply encode_free_equals.
  rewrite !decode_encode. by destruct p.
Qed.

Lemma parse_urlencoded_serialize l : parse_urlencoded (serialize l) = l.
Proof.
  unfold parse_urlencoded. induction l as [|p l IH]; [done|].
  destruct l as [|q l].
  - cbn [serialize]. rewrite split_on_free by apply serialize_pair_free_amp.
    rewrite filter_cons_True by apply serialize_pair_nonempty.
    cbn. by rewrite parse_serialize_pair.
  - change (serialize (p :: q :: l))
      with (serialize_pair p +:+ String AMPERSAND (serialize (q :: l))).
    rewrite split_on_app by apply serialize_pair_free_amp.
    rewrite filter_cons_True by apply serialize_pair_nonempty.
    rewrite fmap_cons, IH. by rewrite parse_serialize_pair.
Qed.

(** The first byte of a serialised list is not [?]. *)
Lemma encode_byte_head c :
  ∃ d r, encode_byte c = String d r ∧ Ascii.eqb d QUESTION = false.
Proof. destruct c as [[] [] [] [] [] [] [] []]; vm_compute; eauto. Qed.

Lemma serialize_pair_head p :
  ∃ d r, serialize_pair p = String d r ∧ Ascii.eqb d QUESTION = false.
Proof.
  unfold serialize_pair. destruct (p.1) as [|c s]; [by eexists _, _|].
  cbn [encode]. destruct (encode_byte_head c) as (d & r & -> & Hd).
  by eexists _, _.
Qed.

Lemma serialize_head l :
  l ≠ [] → ∃ d r, serialize l = String d r ∧ Ascii.eqb d QUESTION = false.
Proof.
  destruct l as [|p [|q l]]; [done|..]; intros _; cbn [serialize];
    destruct (serialize_pair_head p) as (d & r & -> & Hd); by eexists _, _.
Qed.

(** [toString] followed by the constructor gives the pairs back. *)
Lemma parse_serialize l : parse (serialize l) = l.
Proof.
  destruct (decide (l = [])) as [->|Hne]; [done|].
  destruct (serialize_head l Hne) as (d & r & Hs & Hd).
  unfold parse. rewrite Hs, Hd, <- Hs. apply parse_urlencoded_serialize.
Qed.

(** The same through a URL: [location.search] of the page reached by
    navigating to ["?" + params.toString()]. *)
Lemma parse_query_serialize l : parse (String QUESTION (serialize l)) = l.
Proof. unfold parse. rewrite Ascii.eqb_refl. apply parse_urlencoded_serialize. Qed.

(** ** [get] and [set] *)

Lemma get_cons name p l :
  get name (p :: l) = if decide (p.1 = name) then Some p.2 else get name l.
Proof.
  unfold get. cbn [list_find]. case_decide; [done|].
  by destruct (list_find _ l) as [[? ?]|].
Qed.

Lemma get_set name value l : get name (set name value l) = Some value.
Proof.
  induction l as [|p l IH]; cbn [set].
  - rewrite get_cons. by rewrite decide_True.
  - case_decide; rewrite get_cons; [by rewrite decide_True|by rewrite decide_False].
Qed.

Lemma get_filter_ne name name' l :
  name' ≠ name → get name' (filter (λ q, q.1 ≠ name) l) = get name' l.
Proof.
  intros Hne. induction l as [|p l IH]; [done|].
  destruct (decide (p.1 = name)) as [Hp|Hp].
  - rewrite filter_cons_False by naive_solver.
    rewrite get_cons. case_decide; [congruence|apply IH].
  - rewrite filter_cons_True by done. rewrite !get_cons. by rewrite IH.
Qed.

Lemma get_set_ne name name' value l :
  name' ≠ name → get name' (set name value l) = get name' l.
Proof.
  intros Hne. induction l as [|p l IH]; cbn [set].
  - rewrite get_cons. by rewrite decide_False.
  - case_decide as Hp; rewrite !get_cons.
    + repeat case_decide; simpl in *; try congruence. by apply get_filter_ne.
    + by rewrite IH.
Qed.

(** After [set], exactly one pair has the name. *)
Lemma set_count name value l :
  List.length (filter (λ q, q.1 = name) (set name value l)) = 1.
Proof.
  induction l as [|p l IH]; cbn [set]; [by rewrite filter_cons_True|].
  case_decide as Hp.
  - rewrite filter_cons_True by done. cbn. f_equal. apply length_zero_iff_nil.
    apply elem_of_nil_inv. intros q [Hq [Hq' _]%list_elem_of_filter]%list_elem_of_filter.
    done.
  - by rewrite filter_cons_False.
Qed.

Lemma set_set name v1 v2 l : set name v2 (set name v1 l) = set name v2 l.
Proof.
  induction l as [|p l IH]; cbn [set]; [by rewrite decide_True|].
  case_decide as Hp; cbn [set].
  - rewrite decide_True by done. f_equal. apply filter_idemp.
  - rewrite decide_False by done. by rewrite IH.
Qed.

End Url.
