(* ===== verification/Dom.v ===== *)
(** * The document

    The part of the DOM edit.js reads and writes: elements with their
    parent, [id], class list, children, [contentEditable] state and
    event listeners; the focused element ([document.activeElement]); the
    selection.  An element reference is a [node]: the index of the
    element in the document's table, which lists the elements in tree
    order, so that a parent comes before its children.

    The type [L] of listeners is the script's: the document stores the
    closures it is given and never looks inside them.  The children of
    an element are those of the [MarkupPlatform], which also says
    whether the [contentEditable] setter knows ["plaintext-only"]. *)

From stdpp Require Import base tactics option list strings.
From S2P Require Import Prelude Js JsString TokenList Markup.

#[local] Open Scope page_scope.

Abbreviation node := nat.

(** The states of the [contentEditable] attribute. *)
Inductive editable : Type :=
| Inherit
| EditTrue
| EditFalse
| PlaintextOnly.

#[export] Instance editable_eq_dec : EqDecision editable.
Proof. solve_decision. Defined.

(** A range of the selection: a container and two offsets into its
    children.  The container [None] is the document node itself, where
    [document.createRange()] puts a new range. *)
Record range : Type := Range {
  rg_container : option node;
  rg_start : nat;
  rg_end : nat;
}.

#[export] Instance range_eq_dec : EqDecision range.
Proof. solve_decision. Defined.

Section dom.
Context `{MP : !MarkupPlatform} {L : Type}.

Record element : Type := Element {
  el_parent : option node;
  (** the [id] attribute; the empty string for an element without one *)
  el_id : string;
  el_classList : list string;
  el_children : children;
  el_contentEditable : editable;
  el_listeners : list L;
}.

Record document : Type := Document {
  doc_elements : list element;
  doc_active : option node;
  doc_selection : option range;
}.

(** ** Field updates *)

Definition el_set_classList (l : list string) (e : element) : element :=
  Element (el_parent e) (el_id e) l (el_children e) (el_contentEditable e)
    (el_listeners e).

Definition el_set_children (c : children) (e : element) : element :=
  Element (el_parent e) (el_id e) (el_classList e) c (el_contentEditable e)
    (el_listeners e).

Definition el_set_contentEditable (v : editable) (e : element) : element :=
  Element (el_parent e) (el_id e) (el_classList e) (el_children e) v
    (el_listeners e).

Definition el_add_listener (l : L) (e : element) : element :=
  Element (el_parent e) (el_id e) (el_classList e) (el_children e)
    (el_contentEditable e) (el_listeners e ++ [l]).

Definition doc_set_elements (els : list element) (d : document) : document :=
  Document els (doc_active d) (doc_selection d).

Definition doc_set_active (a : option node) (d : document) : document :=
  Document (doc_elements d) a (doc_selection d).

Definition doc_set_selection (s : option range) (d : document) : document :=
  Document (doc_elements d) (doc_active d) s.

(** ** Access to an element *)

(** The element a reference denotes; [Dangling] outside the table. *)
Definition the_element (n : node) : JS document element :=
  let* els := gets doc_elements in from_option_or (els !! n) Dangling.

(** In-place update of the element [n]. *)
Definition update_element (n : node) (f : element → element) : JS document unit :=
  the_element n >>
  modify (λ d, doc_set_elements (alter f n (doc_elements d)) d).

(** ** Properties and methods of an element *)

(** [n.parentElement] *)
Definition parentElement (n : node) : JS document (option node) :=
  let* e := the_element n in ret (el_parent e).

(** The first element in tree order with the id [id]; none for the
    empty string, which is the id of no element. *)
Definition find_id (id : string) (d : document) : option node :=
  if decide (id = ""%string) then None
  else fst <$> list_find (λ e, el_id e = id) (doc_elements d).

(** [document.getElementById(id)] *)
Definition getElementById (id : string) : JS document (option node) :=
  gets (find_id id).

(** The class list of [n] as a part of the document. *)
Definition get_classList (n : node) (d : document) : option (list string) :=
  el_classList <$> doc_elements d !! n.

Definition put_classList (n : node) (l : list string) (d : document) : document :=
  doc_set_elements (alter (el_set_classList l) n (doc_elements d)) d.

(** [n.classList.toggle(t)] *)
Definition classList_toggle (n : node) (t : string) : JS document bool :=
  zoom (get_classList n) (put_classList n) Dangling (TokenList.toggle t).

(** [n.classList.add(t)] *)
Definition classList_add (n : node) (t : string) : JS document unit :=
  zoom (get_classList n) (put_classList n) Dangling (TokenList.add t).

(** [n.classList.contains(t)] *)
Definition classList_contains (n : node) (t : string) : JS document bool :=
  zoom (get_classList n) (put_classList n) Dangling (TokenList.contains t).

(** The values the [contentEditable] setter accepts: a platform that
    does not know ["plaintext-only"] takes it for an invalid value. *)
Definition known_editable (v : editable) : bool :=
  match v with PlaintextOnly => plaintext_only | _ => true end.

(** [n.contentEditable = v]; an invalid value throws a [SyntaxError]. *)
Definition set_contentEditable (n : node) (v : editable) : JS document unit :=
  if known_editable v then update_element n (el_set_contentEditable v)
  else throw SyntaxError.

(** [n.innerHTML] *)
Definition get_innerHTML (n : node) : JS document string :=
  let* e := the_element n in ret (serialize_fragment (el_children e)).

(** A live range follows the removal of all children of [n]: boundary
    points inside [n] move to its start. *)
Definition collapse_into (n : node) (r : range) : range :=
  if decide (rg_container r = Some n) then Range (Some n) 0 0 else r.

(** [n.innerHTML = s]: the children of [n] are replaced by the parsed
    fragment. *)
Definition set_innerHTML (n : node) (s : string) : JS document unit :=
  update_element n (el_set_children (parse_fragment s)) >>
  modify (λ d, doc_set_selection (collapse_into n <$> doc_selection d) d).

(** [n.addEventListener(type, l)] with a new closure [l], whose type of
    event is part of [l]: the listener is appended. *)
Definition addEventListener (n : node) (l : L) : JS document unit :=
  update_element n (el_add_listener l).

(** The listeners of [n], as dispatch copies them before it runs them. *)
Definition listeners_of (n : node) : JS document (list L) :=
  let* e := the_element n in ret (el_listeners e).

(** The path of an event that bubbles: the target and its ancestors,
    innermost first.  A parent has a smaller index than its children,
    so [S n] steps reach the root from [n]. *)
Fixpoint path_from (fuel : nat) (els : list element) (n : node) : list node :=
  match fuel with
  | 0 => []
  | S fuel' =>
      n :: match els !! n ≫= el_parent with
           | Some p => path_from fuel' els p
           | None => []
           end
  end.

Definition event_path (n : node) : JS document (list node) :=
  gets (λ d, path_from (S n) (doc_elements d) n).

(** An editing host can take the focus. *)
Definition focusable (e : element) : bool :=
  match el_contentEditable e with
  | EditTrue | PlaintextOnly => true
  | Inherit | EditFalse => false
  end.

(** ** The selection *)

(** [document.createRange()] *)
Definition createRange : JS document range := ret (Range None 0 0).

(** [range.selectNodeContents(n)]: from the start of [n] to its end. *)
Definition selectNodeContents (r : range) (n : node) : JS document range :=
  let* e := the_element n in ret (Range (Some n) 0 (child_count (el_children e))).

(** [sel.removeAllRanges()] *)
Definition removeAllRanges : JS document unit :=
  modify (doc_set_selection None).

(** [sel.addRange(r)]: ignored when the selection has a range. *)
Definition addRange (r : range) : JS document unit :=
  modify (λ d, match doc_selection d with
               | None => doc_set_selection (Some r) d
               | Some _ => d
               end).

(** ** Ancestors

    [ancestor d k n] is the [k]-th ancestor of the node [n] of [d]:
    [n] itself for [k = 0], its parent for [k = 1].  It is how the
    theorems name the element a chain of [.parentElement] reaches. *)
Fixpoint ancestor (d : document) (k : nat) (n : node) : option node :=
  match k with
  | 0 => Some n
  | S k' => e ← doc_elements d !! n; p ← el_parent e; ancestor d k' p
  end.

(** ** Well-formed documents *)

Definition valid_node (d : document) (n : node) : Prop :=
  n < length (doc_elements d).

(** An element at index [n]: its class list is an ordered set of valid
    tokens and its parent comes before it. *)
Definition wf_element (n : node) (e : element) : Prop :=
  TokenList.wf (el_classList e) ∧
  match el_parent e with Some p => p < n | None => True end.

(** The number of children of a node; [None] outside the document. *)
Definition node_length (d : document) (n : node) : option nat :=
  (λ e, child_count (el_children e)) <$> doc_elements d !! n.

(** A range lies in the document: its offsets are in order and inside
    its container. *)
Definition wf_range (d : document) (r : range) : Prop :=
  rg_start r ≤ rg_end r ∧
  match rg_container r with
  | Some n => ∃ k, node_length d n = Some k ∧ rg_end r ≤ k
  | None => rg_end r = 0
  end.

Record wf (d : document) : Prop := Wf {
  wf_elements : ∀ n e, doc_elements d !! n = Some e → wf_element n e;
  wf_active : ∀ n, doc_active d = Some n → valid_node d n;
  wf_selection : ∀ r, doc_selection d = Some r → wf_range d r;
}.

(** A decision procedure for well-formedness, for concrete documents. *)
Definition check_element (ne : node * element) : bool :=
  bool_decide (TokenList.wf (el_classList ne.2)) &&
  match el_parent ne.2 with Some p => bool_decide (p < ne.1) | None => true end.

Definition check_range (d : document) (r : range) : bool :=
  bool_decide (rg_start r ≤ rg_end r) &&
  match rg_container r with
  | Some n => match node_length d n with
              | Some k => bool_decide (rg_end r ≤ k)
              | None => false
              end
  | None => bool_decide (rg_end r = 0)
  end.

Definition wf_check (d : document) : bool :=
  forallb check_element (imap pair (doc_elements d)) &&
  match doc_active d with
  | Some n => bool_decide (n < length (doc_elements d))
  | None => true
  end &&
  match doc_selection d with Some r => check_range d r | None => true end.

End dom.

Arguments element {_} L.
Arguments document {_} L.

(** ** Running the operations *)

Section dom_lemmas.
Context `{MP : !MarkupPlatform} {L : Type}.
Implicit Types (d : document L) (e : element L) (n : node).

Lemma valid_node_lookup d n : valid_node d n ↔ is_Some (doc_elements d !! n).
Proof. unfold valid_node. by rewrite lookup_lt_is_Some. Qed.

Lemma the_element_ok d n e :
  doc_elements d !! n = Some e → the_element n d = (Ok e, d).
Proof. intros He. unfold the_element. m_run. by rewrite He. Qed.

Lemma the_element_dangling d n :
  doc_elements d !! n = None → the_element n d = (Throw Dangling, d).
Proof. intros He. unfold the_element. m_run. by rewrite He. Qed.

Lemma update_element_ok d n e f :
  doc_elements d !! n = Some e →
  update_element n f d = (Ok tt, doc_set_elements (alter f n (doc_elements d)) d).
Proof.
  intros He. unfold update_element. by erewrite bind_ok by by apply the_element_ok.
Qed.

Lemma update_element_dangling d n f :
  doc_elements d !! n = None → update_element n f d = (Throw Dangling, d).
Proof.
  intros He. unfold update_element.
  by erewrite bind_throws by by apply the_element_dangling.
Qed.

Lemma parentElement_ok d n e :
  doc_elements d !! n = Some e → parentElement n d = (Ok (el_parent e), d).
Proof.
  intros He. unfold parentElement. by erewrite bind_ok by by apply the_element_ok.
Qed.

Lemma get_innerHTML_ok d n e :
  doc_elements d !! n = Some e →
  get_innerHTML n d = (Ok (serialize_fragment (el_children e)), d).
Proof.
  intros He. unfold get_innerHTML. by erewrite bind_ok by by apply the_element_ok.
Qed.

Lemma listeners_of_ok d n e :
  doc_elements d !! n = Some e → listeners_of n d = (Ok (el_listeners e), d).
Proof.
  intros He. unfold listeners_of. by erewrite bind_ok by by apply the_element_ok.
Qed.

Lemma set_innerHTML_ok d n e s :
  doc_elements d !! n = Some e →
  set_innerHTML n s d =
    (Ok tt, Document (alter (el_set_children (parse_fragment s)) n (doc_elements d))
              (doc_active d) (collapse_into n <$> doc_selection d)).
Proof.
  intros He. unfold set_innerHTML.
  by erewrite bind_ok by by eapply update_element_ok.
Qed.

Lemma selectNodeContents_ok d r n e :
  doc_elements d !! n = Some e →
  selectNodeContents r n d = (Ok (Range (Some n) 0 (child_count (el_children e))), d).
Proof.
  intros He. unfold selectNodeContents.
  by erewrite bind_ok by by apply the_element_ok.
Qed.

(** A method of the class list of [n] runs the method of [TokenList]
    on the list of the element. *)
Lemma zoom_classList_ok {A} d n e (m : JS (list string) A) :
  doc_elements d !! n = Some e →
  zoom (get_classList n) (put_classList n) Dangling m d =
    (result m (el_classList e), put_classList n (exec m (el_classList e)) d).
Proof.
  intros He. unfold zoom, get_classList, result, exec. rewrite He. simpl.
  by destruct (m (el_classList e)).
Qed.

Lemma zoom_classList_dangling {A} d n (m : JS (list string) A) :
  doc_elements d !! n = None →
  zoom (get_classList n) (put_classList n) Dangling m d = (Throw Dangling, d).
Proof. intros He. unfold zoom, get_classList. by rewrite He. Qed.

(** ** Reading the document after an update *)

Lemma lookup_put_classList d n l m :
  doc_elements (put_classList n l d) !! m =
  if decide (n = m) then el_set_classList l <$> doc_elements d !! n
  else doc_elements d !! m.
Proof. apply list_lookup_alter. Qed.

Lemma getElementById_run d id : getElementById id d = (Ok (find_id id d), d).
Proof. done. Qed.

(** An update that keeps the ids keeps the element an id denotes. *)
Lemma find_id_alter d n f id a s :
  (∀ e, el_id (f e) = el_id e) →
  find_id id (Document (alter f n (doc_elements d)) a s) = find_id id d.
Proof.
  intros Hf. unfold find_id. case_decide; [done|]. simpl.
  rewrite list_find_alter_index; [done|]. intros e. by rewrite Hf.
Qed.

(** Replacing an element by one with the same id does the same. *)
Lemma find_id_insert d n e e' id a s :
  doc_elements d !! n = Some e → el_id e' = el_id e →
  find_id id (Document (<[n:=e']> (doc_elements d)) a s) = find_id id d.
Proof.
  intros He Hid.
  set (f := λ x : element L, Element (el_parent e') (el_id x) (el_classList e')
    (el_children e') (el_contentEditable e') (el_listeners e')).
  assert (f e = e') as Hfe by (destruct e'; unfold f; simpl in *; congruence).
  rewrite <- Hfe, <- alter_insert by done. by apply find_id_alter.
Qed.

(** [find_id] returns a node of the document that has the id. *)
Lemma find_id_Some d id n :
  find_id id d = Some n →
  ∃ e, doc_elements d !! n = Some e ∧ el_id e = id ∧ id ≠ ""%string.
Proof.
  unfold find_id. case_decide; [done|].
  destruct (list_find _ _) as [[i e]|] eqn:Hfind; [|done].
  intros [= <-]. apply list_find_Some in Hfind as (? & ? & _). eauto.
Qed.

(** It is the first one. *)
Lemma find_id_first d id n m e :
  find_id id d = Some n → doc_elements d !! m = Some e → el_id e = id → n ≤ m.
Proof.
  unfold find_id. case_decide; [done|].
  destruct (list_find _ _) as [[i e']|] eqn:Hfind; [|done].
  intros [= <-] Hm He. apply list_find_Some in Hfind as (_ & _ & Hfirst).
  destruct (decide (i ≤ m)); [done|]. destruct (Hfirst m e Hm); [lia|done].
Qed.

(** ** Ancestors *)

Lemma ancestor_le d k n a : wf d → ancestor d k n = Some a → a ≤ n.
Proof.
  intros Hd. revert n. induction k as [|k IH]; intros n; cbn [ancestor].
  - by intros [= <-].
  - destruct (doc_elements d !! n) as [e|] eqn:He; [|done]. simpl.
    destruct (el_parent e) as [p|] eqn:Hp; [|done]. simpl. intros Ha%IH.
    destruct (wf_elements d Hd n e He) as [_ Hlt]. rewrite Hp in Hlt. lia.
Qed.

Lemma ancestor_add d j k n :
  ancestor d (j + k) n = ancestor d j n ≫= ancestor d k.
Proof.
  revert n. induction j as [|j IH]; intros n; [done|]. cbn [ancestor Nat.add].
  destruct (doc_elements d !! n) as [e|]; [|done]. simpl.
  destruct (el_parent e) as [p|]; [|done]. apply IH.
Qed.

(** The ancestors of a node of a well-formed document are nodes of it. *)
Lemma ancestor_valid d k n a :
  wf d → valid_node d n → ancestor d k n = Some a → valid_node d a.
Proof. intros Hd Hn Ha%ancestor_le; [|done]. unfold valid_node in *. lia. Qed.

Lemma ancestor_S d k n e :
  doc_elements d !! n = Some e →
  ancestor d (S k) n = el_parent e ≫= ancestor d k.
Proof. intros He. simpl. by rewrite He. Qed.

(** The ancestors depend on the parents only. *)
Lemma ancestor_ext d d' k n :
  (∀ m, el_parent <$> doc_elements d' !! m = el_parent <$> doc_elements d !! m) →
  ancestor d' k n = ancestor d k n.
Proof.
  intros Hp. revert n. induction k as [|k IH]; intros n; [done|]. cbn [ancestor].
  specialize (Hp n).
  destruct (doc_elements d' !! n) as [e'|], (doc_elements d !! n) as [e|];
    simplify_eq/=; [|done]. rewrite Hp. destruct (el_parent e); simpl; auto.
Qed.

(** In a well-formed document a proper ancestor comes before the node. *)
Lemma ancestor_lt d k n a : wf d → ancestor d (S k) n = Some a → a < n.
Proof.
  intros Hd. cbn [ancestor].
  destruct (doc_elements d !! n) as [e|] eqn:He; [|done]. simpl.
  destruct (el_parent e) as [p|] eqn:Hp; [|done]. simpl. intros Ha%ancestor_le; [|done].
  destruct (wf_elements d Hd n e He) as [_ Hlt]. rewrite Hp in Hlt. lia.
Qed.

(** ** Preservation of well-formedness *)

Lemma wf_alter d n f :
  (∀ e, doc_elements d !! n = Some e → wf_element n e → wf_element n (f e)) →
  (∀ e, doc_elements d !! n = Some e → el_children (f e) = el_children e) →
  wf d → wf (doc_set_elements (alter f n (doc_elements d)) d).
Proof.
  intros Hf Hc [Hels Hact Hsel]. split; simpl.
  - intros m e. rewrite list_lookup_alter. case_decide as Hnm; [subst m|by apply Hels].
    destruct (doc_elements d !! n) as [e0|] eqn:He0; [|done].
    intros [= <-]. by apply Hf, Hels.
  - intros m Hm. unfold valid_node. simpl. rewrite length_alter. by apply Hact.
  - intros r Hr. destruct (Hsel r Hr) as [Hle Hcont]. split; [done|].
    destruct (rg_container r) as [m|]; [|done].
    destruct Hcont as (k & Hk & Hcount). exists k. split; [|done].
    rewrite <- Hk. unfold node_length. simpl. destruct (decide (n = m)) as [->|Hnm].
    + rewrite list_lookup_alter_eq. destruct (doc_elements d !! m) eqn:Hm; [|done].
      simpl. by rewrite Hc.
    + by rewrite list_lookup_alter_ne.
Qed.

Lemma put_classList_wf d n l :
  wf d → TokenList.wf l → wf (put_classList n l d).
Proof.
  intros Hd Hl. apply wf_alter; [|done..]. by intros e _ [_ Hp].
Qed.

Lemma get_classList_wf d n l : wf d → get_classList n d = Some l → TokenList.wf l.
Proof.
  intros [Hels _ _]. unfold get_classList.
  destruct (doc_elements d !! n) as [e|] eqn:He; [|done].
  intros [= <-]. by apply (Hels n e He).
Qed.

Lemma the_element_preserves (I : document L → Prop) n : preserves I (the_element n).
Proof. unfold the_element. eauto with page. Qed.

Lemma update_element_preserves_wf n f :
  (∀ e, wf_element n e → wf_element n (f e)) →
  (∀ e, el_children (f e) = el_children e) →
  preserves (wf (L:=L)) (update_element n f).
Proof.
  intros Hf Hc. unfold update_element.
  apply preserves_bind; [apply the_element_preserves|].
  intros _. apply preserves_modify. intros d. apply wf_alter; auto.
Qed.

Lemma parentElement_preserves (I : document L → Prop) n : preserves I (parentElement n).
Proof. unfold parentElement. auto using the_element_preserves with page. Qed.

Lemma getElementById_preserves (I : document L → Prop) id :
  preserves I (getElementById id).
Proof. unfold getElementById. auto with page. Qed.

Lemma get_innerHTML_preserves (I : document L → Prop) n : preserves I (get_innerHTML n).
Proof. unfold get_innerHTML. auto using the_element_preserves with page. Qed.

Lemma listeners_of_preserves (I : document L → Prop) n : preserves I (listeners_of n).
Proof. unfold listeners_of. auto using the_element_preserves with page. Qed.

Lemma zoom_classList_preserves_wf {A} n (m : JS (list string) A) :
  preserves TokenList.wf m →
  preserves (wf (L:=L)) (zoom (get_classList n) (put_classList n) Dangling m).
Proof.
  intros Hm. eapply preserves_zoom; [| |done].
  - intros d l Hd. by apply get_classList_wf.
  - intros d l l' Hd _ Hl'. by apply put_classList_wf.
Qed.

Lemma classList_toggle_preserves_wf n t : preserves (wf (L:=L)) (classList_toggle n t).
Proof. apply zoom_classList_preserves_wf, TokenList.toggle_preserves_wf. Qed.

Lemma classList_add_preserves_wf n t : preserves (wf (L:=L)) (classList_add n t).
Proof. apply zoom_classList_preserves_wf, TokenList.add_preserves_wf. Qed.

Lemma set_contentEditable_preserves_wf n v : preserves (wf (L:=L)) (set_contentEditable n v).
Proof.
  unfold set_contentEditable. case_match; [by apply update_element_preserves_wf|].
  apply preserves_throw.
Qed.

Lemma addEventListener_preserves_wf n l : preserves (wf (L:=L)) (addEventListener n l).
Proof. by apply update_element_preserves_wf. Qed.

Lemma set_innerHTML_preserves_wf n s : preserves (wf (L:=L)) (set_innerHTML n s).
Proof.
  intros d Hd. unfold exec. destruct (doc_elements d !! n) as [e|] eqn:He.
  - rewrite (set_innerHTML_ok d n e) by done. destruct Hd as [Hels Hact Hsel].
    split; simpl.
    + intros m e'. rewrite list_lookup_alter. case_decide as Hnm; [subst m|by apply Hels].
      rewrite He. intros [= <-]. by apply (Hels n e).
    + intros m Hm. unfold valid_node. simpl. rewrite length_alter. by apply Hact.
    + intros r. destruct (doc_selection d) as [r0|] eqn:Hr0; [|done].
      intros [= <-]. unfold collapse_into. case_decide as Hc.
      * split; [done|]. simpl. eexists. unfold node_length. simpl.
        rewrite list_lookup_alter_eq, He. split; [done|lia].
      * destruct (Hsel r0 eq_refl) as [Hle Hcont]. split; [done|].
        destruct (rg_container r0) as [m|]; [|done].
        destruct Hcont as (k & Hk & Hcount). exists k. unfold node_length in *.
        simpl. by rewrite list_lookup_alter_ne by congruence.
  - unfold set_innerHTML. by erewrite bind_throws by by apply update_element_dangling.
Qed.

Lemma removeAllRanges_preserves_wf : preserves (wf (L:=L)) removeAllRanges.
Proof. apply preserves_modify. by intros d [Hels Hact Hsel]. Qed.

(** [addRange] keeps the document well-formed when the range lies in it. *)
Lemma addRange_wf d r : wf d → wf_range d r → wf (exec (addRange r) d).
Proof.
  intros Hd Hr. unfold addRange. m_run. destruct (doc_selection d) eqn:Hs; [done|].
  destruct Hd as [Hels Hact Hsel]. split; simpl; [done..|]. by intros ? [= <-].
Qed.

(** The range [selectNodeContents] returns lies in the document. *)
Lemma selectNodeContents_wf d r0 n r :
  result (selectNodeContents r0 n) d = Ok r → wf_range d r.
Proof.
  unfold result. destruct (doc_elements d !! n) as [e|] eqn:He.
  - rewrite (selectNodeContents_ok d r0 n e) by done. intros [= <-].
    split; simpl; [lia|]. unfold node_length. rewrite He. eauto.
  - unfold selectNodeContents. by erewrite bind_throws by by apply the_element_dangling.
Qed.

(** The checker is sound. *)
Lemma check_range_sound d r : check_range d r = true → wf_range d r.
Proof.
  unfold check_range, wf_range. intros [Hle Hc]%andb_true_iff.
  apply bool_decide_eq_true in Hle. split; [done|].
  destruct (rg_container r) as [n|]; [|by apply bool_decide_eq_true in Hc].
  destruct (node_length d n) as [k|]; [|done].
  apply bool_decide_eq_true in Hc. eauto.
Qed.

Lemma wf_check_sound d : wf_check d = true → wf d.
Proof.
  unfold wf_check. intros [[Hels Hact]%andb_true_iff Hsel]%andb_true_iff. split.
  - intros n e He. rewrite forallb_forall in Hels.
    assert ((n, e) ∈ imap pair (doc_elements d)) as Hin
      by by apply (elem_of_lookup_imap_2 pair).
    apply list_elem_of_In, Hels in Hin. unfold check_element in Hin. simpl in Hin.
    apply andb_true_iff in Hin as [Hcl Hp].
    apply bool_decide_eq_true in Hcl. split; [done|].
    destruct (el_parent e); [by apply bool_decide_eq_true in Hp|done].
  - intros n Hn. rewrite Hn in Hact. by apply bool_decide_eq_true in Hact.
  - intros r Hr. rewrite Hr in Hsel. by apply check_range_sound.
Qed.

End dom_lemmas.

#[export] Hint Resolve the_element_preserves parentElement_preserves
  getElementById_preserves get_innerHTML_preserves listeners_of_preserves
  classList_toggle_preserves_wf classList_add_preserves_wf
  set_contentEditable_preserves_wf addEventListener_preserves_wf
  set_innerHTML_preserves_wf removeAllRanges_preserves_wf : page.
