(* ===== verification/Path.v ===== *)
(** * The path of an event

    [Dom.path_from] walks from the target of an event to the root with
    a fuel of one more than the index of the target.  In a well-formed
    document that is enough: the walk ends at an element without a
    parent before the fuel runs out, more fuel changes nothing, and the
    path is the list of all ancestors of the target, innermost first. *)

From stdpp Require Import base tactics option list strings.
From Stdlib Require Import Lia Wf_nat.
From S2P Require Import Prelude Markup Dom.

Section path.
Context `{MP : !MarkupPlatform} {L : Type}.
Implicit Types (d : document L) (n m a : node).

(** The ancestors of [n] up to the [k]-th, [n] first: the reference
    definition of the path. *)
Definition ancestors d n (k : nat) : list node :=
  omap (λ j, ancestor d j n) (seq 0 k).

(** The parent of a node, [None] for a root and outside the document. *)
Definition parent d n : option node := doc_elements d !! n ≫= el_parent.

Lemma parent_lt d n m : Dom.wf d → parent d n = Some m → m < n.
Proof.
  intros Hd. unfold parent. destruct (doc_elements d !! n) as [e|] eqn:He; [|done].
  simpl. intros Hp. destruct (wf_elements d Hd n e He) as [_ Hlt]. by rewrite Hp in Hlt.
Qed.

Lemma ancestor_parent d k n : ancestor d (S k) n = parent d n ≫= ancestor d k.
Proof. unfold parent. simpl. by destruct (doc_elements d !! n) as [e|]. Qed.

Lemma ancestors_S d n k :
  ancestors d n (S k) =
    n :: match parent d n with Some m => ancestors d m k | None => [] end.
Proof.
  unfold ancestors. rewrite <- cons_seq, <- fmap_S_seq. simpl. f_equal.
  induction (seq 0 k) as [|j l IH]; [by destruct (parent d n)|].
  cbn [fmap list_fmap omap list_omap]. rewrite ancestor_parent.
  destruct (parent d n) as [m|]; simpl in *; [by rewrite IH|done].
Qed.

(** The walk and the reference definition agree, whatever the fuel. *)
Lemma path_from_ancestors d n fuel :
  path_from fuel (doc_elements d) n = ancestors d n fuel.
Proof.
  revert n. induction fuel as [|fuel IH]; intros n; [done|].
  rewrite ancestors_S. cbn [path_from]. fold (parent d n).
  by destruct (parent d n) as [m|]; [rewrite IH|].
Qed.

(** The nodes of the path come before the target. *)
Lemma path_from_le fuel d n m :
  Dom.wf d → m ∈ path_from fuel (doc_elements d) n → m ≤ n.
Proof.
  intros Hd. rewrite path_from_ancestors. unfold ancestors.
  intros (j & _ & Hj)%list_elem_of_omap. by eapply ancestor_le.
Qed.

(** With fuel for the target and its ancestors the walk has reached a
    root: no ancestor is left out. *)
Lemma ancestors_all d n k j a :
  Dom.wf d → n < k → ancestor d j n = Some a → a ∈ ancestors d n k.
Proof.
  intros Hd. revert n k. induction j as [|j IH]; intros n k Hk.
  { intros [= <-]. destruct k; [lia|]. rewrite ancestors_S. by left. }
  rewrite ancestor_parent. destruct (parent d n) as [m|] eqn:Hm; [simpl|done].
  intros Ha. destruct k; [lia|]. rewrite ancestors_S, Hm. right.
  apply IH; [|done]. apply parent_lt in Hm; [lia|done].
Qed.

(** More fuel than the index of the target changes nothing. *)
Lemma ancestors_fuel d n k1 k2 :
  Dom.wf d → n < k1 → n < k2 → ancestors d n k1 = ancestors d n k2.
Proof.
  intros Hd. revert n k2. induction k1 as [|k1 IH]; intros n k2 H1 H2; [lia|].
  destruct k2; [lia|]. rewrite !ancestors_S. f_equal.
  destruct (parent d n) as [m|] eqn:Hm; [|done].
  apply parent_lt in Hm; [|done]. apply IH; lia.
Qed.

(** The walk to the root ends within its fuel: in a well-formed
    document the path [event_path] computes from the node [n], with
    the fuel [S n], is the path computed with any larger fuel, and
    every ancestor of [n] is on it. *)
Theorem event_path_terminates d n fuel :
  Dom.wf d → n < fuel →
  result (event_path n) d = Ok (path_from fuel (doc_elements d) n) ∧
  ∀ j a, ancestor d j n = Some a → a ∈ path_from fuel (doc_elements d) n.
Proof.
  intros Hd Hn. unfold result, event_path, gets. cbn [fst].
  rewrite !path_from_ancestors. split.
  - f_equal. apply ancestors_fuel; [done|lia..].
  - intros j a. by apply ancestors_all.
Qed.

(** The path ends at a root. *)
Lemma event_path_root d n :
  Dom.wf d → ∃ r, last (path_from (S n) (doc_elements d) n) = Some r ∧ parent d r = None.
Proof.
  intros Hd. rewrite path_from_ancestors.
  induction (lt_wf n) as [n _ IH]. rewrite ancestors_S.
  destruct (parent d n) as [m|] eqn:Hm; [|by exists n].
  pose proof (parent_lt d n m Hd Hm) as Hlt. destruct (IH m Hlt) as (r & Hr & Hroot).
  exists r. split; [|done]. rewrite (ancestors_fuel d m n (S m)) by (done || lia).
  rewrite ancestors_S in *. by rewrite last_cons, Hr.
Qed.

End path.

(** ** Example *)

Section examples.
#[local] Existing Instance Markup.reference.
#[local] Open Scope string_scope.

(** A root, its child, its grandchild, and a second child. *)
Definition chain : document unit :=
  Document
    [ Element None "" [] (text_node "") Inherit [];
      Element (Some 0) "" [] (text_node "") Inherit [];
      Element (Some 1) "" [] (text_node "") Inherit [];
      Element (Some 0) "" [] (text_node "") Inherit [] ]
    None None.

Lemma event_path_terminates_witness :
  result (event_path 2) chain = Ok (path_from 10 (doc_elements chain) 2) ∧
  ∀ j a, ancestor chain j 2 = Some a → a ∈ path_from 10 (doc_elements chain) 2.
Proof.
  apply (event_path_terminates (MP:=Markup.reference) chain 2 10);
    [by apply wf_check_sound|lia].
Defined.

Example event_path_chain : result (event_path 2) chain = Ok [2; 1; 0].
Proof. done. Qed.

End examples.
