(* ===== verification/Page.v ===== *)
(** * The page

    The state a function of edit.js runs in: the globals of the page,
    the document, the location, the requests handed to [neo.xhttpreq]
    and not yet completed, the exceptions event dispatch reported, and
    the navigations the script asked for.

    The closures the script creates are data here: a [listener] is one
    of the three functions [editEntity] passes to [addEventListener], a
    [callback] one of the two arrow functions passed to [xhttpreq].
    What they do when called is defined in [Edit]. *)

From stdpp Require Import base tactics option list strings.
From Stdlib Require Import ZArith.
From S2P Require Import Prelude Js JsString TokenList Markup Url Dom.

#[local] Open Scope page_scope.

(** ** Closures *)

(** The listeners [editEntity] registers on the name field.  The first
    two capture the variable [namefield]. *)
Inductive listener : Type :=
| KeydownListener (namefield : node)
| InputListener (namefield : node)
| BlurListener.

#[export] Instance listener_eq_dec : EqDecision listener.
Proof. solve_decision. Defined.

(** The event type a listener was registered for. *)
Definition listener_type (l : listener) : string :=
  match l with
  | KeydownListener _ => "keydown"
  | InputListener _ => "input"
  | BlurListener => "blur"
  end.

(** The callbacks given to [xhttpreq]: [() => null] in [deleteScrobble],
    and the arrow function of [doneEditing], which captures
    [searchParams]. *)
Inductive callback : Type :=
| CbNull
| CbNavigate (searchParams : Url.params).

#[export] Instance callback_eq_dec : EqDecision callback.
Proof. solve_decision. Defined.

(** ** Events *)

(** An event object as the listeners see it: its type, the [key] of a
    keyboard event (the empty string for other events), and the
    canceled flag that [preventDefault] sets. *)
Record event : Type := Event {
  ev_type : string;
  ev_key : string;
  ev_defaultPrevented : bool;
}.

#[export] Instance event_eq_dec : EqDecision event.
Proof. solve_decision. Defined.

(** [e.preventDefault()] *)
Definition preventDefault (e : event) : event :=
  Event (ev_type e) (ev_key e) true.

(** ** Requests *)

(** The arguments of a call of [xhttpreq], in its parameter order.
    [None] is [undefined]. *)
Record request : Type := Request {
  rq_url : option string;
  rq_data : option object;
  rq_method : string;
  rq_callback : callback;
  rq_json : bool;
}.

#[export] Instance request_eq_dec : EqDecision request.
Proof. solve_decision. Defined.

(** ** Globals *)

(** [entity_type], [entity_id] and [entity_name] are set by the page.
    [newname] is created by [doneEditing]; [data], [method], [callback]
    and [json] by the assignments in the argument lists of the calls of
    [xhttpreq].  [None] is a global not assigned yet, or [undefined]. *)
Record globals : Type := Globals {
  entity_type : string;
  entity_id : value;
  entity_name : string;
  newname : option string;
  g_data : option object;
  g_method : option string;
  g_callback : option callback;
  g_json : option bool;
}.

(** The globals after [newname = s]. *)
Definition with_newname (s : string) (g : globals) : globals :=
  Globals (entity_type g) (entity_id g) (entity_name g) (Some s)
    (g_data g) (g_method g) (g_callback g) (g_json g).

(** The globals after the four assignments
    [data=…, method=…, callback=…, json=…] of a call of [xhttpreq]. *)
Definition with_call_globals (d : option object) (m : string) (c : callback)
    (j : bool) (g : globals) : globals :=
  Globals (entity_type g) (entity_id g) (entity_name g) (newname g)
    d (Some m) (Some c) (Some j).

Section page.
Context `{MP : !MarkupPlatform}.

Record page : Type := Page {
  pg_globals : globals;
  pg_doc : document listener;
  (** [window.location.search] *)
  pg_search : string;
  (** requests in flight, oldest first *)
  pg_pending : list request;
  (** exceptions thrown by listeners and reported by dispatch *)
  pg_reported : list exn;
  (** URLs assigned to [window.location], oldest first *)
  pg_navigations : list string;
}.

Definition pg_set_globals (g : globals) (p : page) : page :=
  Page g (pg_doc p) (pg_search p) (pg_pending p) (pg_reported p) (pg_navigations p).

Definition pg_set_doc (d : document listener) (p : page) : page :=
  Page (pg_globals p) d (pg_search p) (pg_pending p) (pg_reported p) (pg_navigations p).

Definition pg_set_pending (l : list request) (p : page) : page :=
  Page (pg_globals p) (pg_doc p) (pg_search p) l (pg_reported p) (pg_navigations p).

Definition pg_set_reported (l : list exn) (p : page) : page :=
  Page (pg_globals p) (pg_doc p) (pg_search p) (pg_pending p) l (pg_navigations p).

Definition pg_set_navigations (l : list string) (p : page) : page :=
  Page (pg_globals p) (pg_doc p) (pg_search p) (pg_pending p) (pg_reported p) l.

(** ** The document inside the page *)

(** A computation over the document, run in the page. *)
Definition in_doc {A} (m : JS (document listener) A) : JS page A :=
  zoom (λ p, Some (pg_doc p)) pg_set_doc Dangling m.

(** ** Globals *)

Definition global {A} (f : globals → A) : JS page A :=
  gets (λ p, f (pg_globals p)).

Definition set_newname (s : string) : JS page unit :=
  modify (λ p, pg_set_globals (with_newname s (pg_globals p)) p).

Definition set_call_globals (d : option object) (m : string) (c : callback)
    (j : bool) : JS page unit :=
  modify (λ p, pg_set_globals (with_call_globals d m c j (pg_globals p)) p).

(** ** The network and the location *)

(** [neo.xhttpreq(url, data, method, callback, json)]: the request is
    sent; its callback runs when the environment completes it. *)
Definition xhttpreq (url : option string) (data : option object)
    (method : string) (cb : callback) (json : bool) : JS page unit :=
  modify (λ p, pg_set_pending (pg_pending p ++ [Request url data method cb json]) p).

(** [window.location = url] *)
Definition assign_location (url : string) : JS page unit :=
  modify (λ p, pg_set_navigations (pg_navigations p ++ [url]) p).

(** ** Event dispatch *)

(** An exception a listener throws is reported and goes no further. *)
Definition report (e : exn) : JS page unit :=
  modify (λ p, pg_set_reported (pg_reported p ++ [e]) p).

(** One listener is called with the event, if it was registered for
    the type of the event.  The event comes back as the listener left
    it; after an exception, as it was before the call. *)
Definition invoke (run : listener → event → JS page event) (l : listener)
    (e : event) : JS page event :=
  if decide (listener_type l = ev_type e)
  then catch (run l e) (λ x, report x >> ret e)
  else ret e.

(** The listeners [ls] are called in order with the same event. *)
Fixpoint dispatch (run : listener → event → JS page event)
    (ls : list listener) (e : event) : JS page event :=
  match ls with
  | [] => ret e
  | l :: ls' => let* e' := invoke run l e in dispatch run ls' e'
  end.

(** [with_element n e p] is the page [p] with the element [n] of its
    document replaced by [e]. *)
Definition with_element (n : node) (e : element listener) (p : page) : page :=
  pg_set_doc (doc_set_elements (<[n:=e]> (doc_elements (pg_doc p))) (pg_doc p)) p.

(** ** Well-formed pages *)

(** The node a listener captured is a node of the document. *)
Definition wf_listener (d : document listener) (l : listener) : Prop :=
  match l with
  | KeydownListener n | InputListener n => valid_node d n
  | BlurListener => True
  end.

Record wf_page (p : page) : Prop := WfPage {
  wf_page_doc : Dom.wf (pg_doc p);
  wf_page_listeners : ∀ n e, doc_elements (pg_doc p) !! n = Some e →
    Forall (wf_listener (pg_doc p)) (el_listeners e);
}.

End page.

(** ** Lemmas *)

Section page_lemmas.
Context `{MP : !MarkupPlatform}.
Implicit Types (p : page) (d : document listener).

Lemma in_doc_run {A} (m : JS (document listener) A) p :
  in_doc m p = (result m (pg_doc p), pg_set_doc (exec m (pg_doc p)) p).
Proof. unfold in_doc, zoom, result, exec. by destruct (m (pg_doc p)). Qed.

Lemma in_doc_ok {A} (m : JS (document listener) A) p a d' :
  m (pg_doc p) = (Ok a, d') → in_doc m p = (Ok a, pg_set_doc d' p).
Proof. intros Hm. by rewrite in_doc_run; unfold result, exec; rewrite Hm. Qed.

Lemma in_doc_throws {A} (m : JS (document listener) A) p e d' :
  m (pg_doc p) = (Throw e, d') → in_doc m p = (Throw e, pg_set_doc d' p).
Proof. intros Hm. by rewrite in_doc_run; unfold result, exec; rewrite Hm. Qed.

Lemma pg_set_doc_id p : pg_set_doc (pg_doc p) p = p.
Proof. by destruct p. Qed.

Lemma in_doc_pure {A} (m : JS (document listener) A) p a :
  m (pg_doc p) = (Ok a, pg_doc p) → in_doc m p = (Ok a, p).
Proof. intros Hm. erewrite in_doc_ok by done. by rewrite pg_set_doc_id. Qed.

Lemma in_doc_throws_pure {A} (m : JS (document listener) A) p e :
  m (pg_doc p) = (Throw e, pg_doc p) → in_doc m p = (Throw e, p).
Proof. intros Hm. erewrite in_doc_throws by done. by rewrite pg_set_doc_id. Qed.

(** ** The page with an element replaced *)

Lemma with_element_lookup n e p :
  valid_node (pg_doc p) n →
  doc_elements (pg_doc (with_element n e p)) !! n = Some e.
Proof. intros Hn. simpl. by apply list_lookup_insert_eq. Qed.

Lemma with_element_lookup_ne n m e p :
  n ≠ m →
  doc_elements (pg_doc (with_element n e p)) !! m = doc_elements (pg_doc p) !! m.
Proof. intros Hn. simpl. by apply list_lookup_insert_ne. Qed.

Lemma with_element_twice n e1 e2 p :
  with_element n e2 (with_element n e1 p) = with_element n e2 p.
Proof. unfold with_element. simpl. by rewrite list_insert_insert_eq. Qed.

Lemma with_element_same n e p :
  doc_elements (pg_doc p) !! n = Some e → with_element n e p = p.
Proof.
  intros He. unfold with_element, doc_set_elements. rewrite list_insert_id by done.
  by destruct p as [? [] ? ? ? ?].
Qed.

Lemma with_element_valid n m e p :
  valid_node (pg_doc (with_element n e p)) m ↔ valid_node (pg_doc p) m.
Proof. unfold valid_node. simpl. by rewrite length_insert. Qed.

(** Replacing an element by one with the same id keeps what the ids
    denote. *)
Lemma with_element_find_id n e e' p id :
  doc_elements (pg_doc p) !! n = Some e → el_id e' = el_id e →
  find_id id (pg_doc (with_element n e' p)) = find_id id (pg_doc p).
Proof.
  intros He Hid. unfold with_element. simpl. by eapply find_id_insert.
Qed.

(** Replacing an element keeps the document well-formed when the new
    element is well-formed at that place and has the same children. *)
Lemma with_element_wf n e e' p :
  Dom.wf (pg_doc p) → doc_elements (pg_doc p) !! n = Some e →
  wf_element n e' → el_children e' = el_children e →
  Dom.wf (pg_doc (with_element n e' p)).
Proof.
  intros Hd He He' Hc. unfold with_element. simpl.
  rewrite <- (alter_insert (λ _, e') _ _ e) by done.
  apply wf_alter; [done| |done]. intros e0 He0. congruence.
Qed.

(** Replacing an element by one with the same parent keeps the
    ancestors. *)
Lemma with_element_ancestor n e e' p k m :
  doc_elements (pg_doc p) !! n = Some e → el_parent e' = el_parent e →
  ancestor (pg_doc (with_element n e' p)) k m = ancestor (pg_doc p) k m.
Proof.
  intros He Hp. apply ancestor_ext. intros j. simpl.
  destruct (decide (n = j)) as [->|].
  - rewrite list_lookup_insert_eq by by eapply lookup_lt_Some.
    rewrite He. simpl. by rewrite Hp.
  - by rewrite list_lookup_insert_ne.
Qed.

Lemma run_update_element p n e f :
  doc_elements (pg_doc p) !! n = Some e →
  in_doc (update_element n f) p = (Ok tt, with_element n (f e) p).
Proof.
  intros He. erewrite in_doc_ok by by eapply update_element_ok.
  unfold with_element. by rewrite (alter_insert _ _ _ e).
Qed.

(** The [contentEditable] setter with a value the platform knows,
    and with one it does not. *)
Lemma run_set_contentEditable p n e v :
  known_editable v = true → doc_elements (pg_doc p) !! n = Some e →
  in_doc (set_contentEditable n v) p =
    (Ok tt, with_element n (el_set_contentEditable v e) p).
Proof. intros Hv He. unfold set_contentEditable. rewrite Hv. by apply run_update_element. Qed.

Lemma run_set_contentEditable_unknown p n v :
  known_editable v = false →
  in_doc (set_contentEditable n v) p = (Throw SyntaxError, p).
Proof. intros Hv. apply in_doc_throws_pure. unfold set_contentEditable. by rewrite Hv. Qed.

Lemma invoke_ok run l e p : is_ok (result (invoke run l e) p) = true.
Proof.
  unfold invoke, result. case_decide; [|done]. unfold catch.
  by destruct (run l e p) as [[?|?] ?].
Qed.

(** Dispatch returns normally whatever the listeners do. *)
Lemma dispatch_ok run ls e p : is_ok (result (dispatch run ls e) p) = true.
Proof.
  revert e p. induction ls as [|l ls IH]; intros e p; [done|].
  cbn [dispatch]. unfold result, bind. pose proof (invoke_ok run l e p) as Hi.
  unfold result in Hi. destruct (invoke run l e p) as [[e'|?] p1]; [|done].
  apply IH.
Qed.

Lemma dispatch_app run l1 l2 e :
  dispatch run (l1 ++ l2) e ≡ (let* e' := dispatch run l1 e in dispatch run l2 e').
Proof.
  revert e. induction l1 as [|l l1 IH]; intros e; cbn [dispatch app].
  - by rewrite bind_ret_l.
  - rewrite bind_assoc. f_equiv. intros e'. apply IH.
Qed.

Lemma report_preserves (I : page → Prop) e :
  (∀ p l, I p → I (pg_set_reported l p)) → preserves I (report e).
Proof. intros HI. apply preserves_modify. intros p. apply HI. Qed.

Lemma invoke_preserves (I : page → Prop) run l e :
  (∀ l e, preserves I (run l e)) → (∀ x, preserves I (report x)) →
  preserves I (invoke run l e).
Proof. intros Hrun Hrep. unfold invoke. case_decide; auto with page. Qed.

Lemma dispatch_preserves (I : page → Prop) run ls e :
  (∀ l e, preserves I (run l e)) → (∀ x, preserves I (report x)) →
  preserves I (dispatch run ls e).
Proof.
  intros Hrun Hrep. revert e. induction ls; intros e; cbn [dispatch];
    auto using invoke_preserves with page.
Qed.

(** Dispatch of an event of type [ty] calls the listeners of that type,
    each with the event the listener before it has left; it keeps what
    they keep, of the page ([I]) and of the event ([J]). *)
Lemma dispatch_hoare (I : page → Prop) (J : event → Prop) (ty : string) run ls e :
  (∀ e', J e' → ev_type e' = ty) →
  (∀ l e', l ∈ ls → listener_type l = ty → J e' →
     hoare I (run l e') (λ e'' p, J e'' ∧ I p) (λ _, I)) →
  (∀ x, preserves I (report x)) →
  J e →
  hoare I (dispatch run ls e) (λ e' p, J e' ∧ I p) (λ _ _, False).
Proof.
  intros Hty Hrun Hrep. revert e. induction ls as [|l ls IH]; intros e He; cbn [dispatch].
  { by apply hoare_ret. }
  apply (hoare_bind _ _ _ (λ e' p, J e' ∧ I p)).
  - unfold invoke. case_decide as Hl; [|by apply hoare_ret].
    eapply hoare_catch; [apply Hrun; [left|rewrite Hl; auto|done]|].
    intros x p Hp. split; [done|]. apply (Hrep x p Hp).
  - intros e'. apply hoare_pure. intros He'. apply IH; [|done].
    intros l' e'' Hl'. apply Hrun. by right.
Qed.

(** When no listener throws, nothing is reported: dispatch keeps what
    the listeners keep, whatever a report would do to it. *)
Lemma dispatch_total (I : page → Prop) (J : event → Prop) (ty : string) run ls e :
  (∀ e', J e' → ev_type e' = ty) →
  (∀ l e', l ∈ ls → listener_type l = ty → J e' →
     hoare I (run l e') (λ e'' p, J e'' ∧ I p) (λ _ _, False)) →
  J e →
  hoare I (dispatch run ls e) (λ e' p, J e' ∧ I p) (λ _ _, False).
Proof.
  intros Hty Hrun. revert e. induction ls as [|l ls IH]; intros e He; cbn [dispatch].
  { by apply hoare_ret. }
  apply (hoare_bind _ _ _ (λ e' p, J e' ∧ I p)).
  - unfold invoke. case_decide as Hl; [|by apply hoare_ret].
    eapply hoare_catch; [apply Hrun; [left|rewrite Hl; auto|done]|]. by intros x p [].
  - intros e'. apply hoare_pure. intros He'. apply IH; [|done].
    intros l' e'' Hl'. apply Hrun. by right.
Qed.

End page_lemmas.
