(* ===== verification/Edit.v ===== *)
(** * edit.js

    One definition per function and per listener closure of
    [src/maloja/web/static/js/edit.js], in the order the calls nest:
    [doneEditing] first, then the blur listener and [blur()], which
    calls it, then the keydown and input listeners, [focus()],
    [selectAll] and [editEntity]; the two functions of the delete
    controls; the callbacks of the requests; and the events the
    environment fires (a key, an input, a request that completes or
    fails). *)

From stdpp Require Import base tactics option list strings.
From Stdlib Require Import ZArith.
From S2P Require Import Prelude Js JsString TokenList Markup Url Dom Page.

#[local] Open Scope page_scope.
#[local] Open Scope string_scope.

Section edit.
Context `{MP : !MarkupPlatform}.

(** ** Constants of the script *)

Definition main_entity_name : string := "main_entity_name".
Definition class_active : string := "active".
Definition class_removed : string := "removed".
Definition delete_endpoint : string := "/apis/mlj_1/delete_scrobble".
Definition edit_artist_endpoint : string := "/apis/mlj_1/edit_artist".
Definition edit_track_endpoint : string := "/apis/mlj_1/edit_track".

(** [o.property] for an [o] that may be [null]. *)
Definition deref (o : option node) (property : string) : JS page node :=
  from_option_or o (TypeError property).

(** ** Commit: [doneEditing] *)

(** The endpoint, the query parameters and the payload [doneEditing]
    chooses for an entity type.  For a type that is neither ['artist']
    nor ['track'] the variables [endpoint] and [payload] stay
    [undefined] and the parameters are not changed. *)
Definition commit_target (ty : string) (id : value) (name : string)
    (searchParams : Url.params) : option string * Url.params * option object :=
  if decide (ty = "artist") then
    (Some edit_artist_endpoint, Url.set "artist" name searchParams,
     Some [("id", id); ("name", VStr name)])
  else if decide (ty = "track") then
    (Some edit_track_endpoint, Url.set "title" name searchParams,
     Some [("id", id); ("title", VStr name)])
  else (None, searchParams, None).

Definition doneEditing : JS page unit :=
  let* namefield := in_doc (getElementById main_entity_name) in
  let* namefield := deref namefield "contentEditable" in
  in_doc (set_contentEditable namefield EditFalse) >>
  let* html := in_doc (get_innerHTML namefield) in
  set_newname html >>
  let* name := global entity_name in
  if decide (html ≠ name) then
    let* search := gets pg_search in
    let* ty := global entity_type in
    let* id := global entity_id in
    let '(endpoint, searchParams, payload) :=
      commit_target ty id html (Url.parse search) in
    set_call_globals payload "POST" (CbNavigate searchParams) true >>
    xhttpreq endpoint payload "POST" (CbNavigate searchParams) true
  else ret tt.

(** ** Listeners and [blur()] *)

(** The blur listener: [function(e){ doneEditing(); }] *)
Definition blur_listener (e : event) : JS page event :=
  doneEditing >> ret e.

(** What a blur event runs: the blur listeners; the others were
    registered for other types and [invoke] skips them. *)
Definition run_on_blur (l : listener) (e : event) : JS page event :=
  match l with
  | BlurListener => blur_listener e
  | KeydownListener _ | InputListener _ => ret e
  end.

(** [n.blur()]: when [n] has the focus, the focus moves to the body and
    a blur event is fired at [n]; it does not bubble. *)
Definition element_blur (n : node) : JS page unit :=
  let* active := gets (λ p, doc_active (pg_doc p)) in
  if decide (active = Some n) then
    in_doc (modify (doc_set_active None)) >>
    let* ls := in_doc (listeners_of n) in
    dispatch run_on_blur ls (Event "blur" "" false) >> ret tt
  else ret tt.

(** The keydown listener. *)
Definition keydown_listener (namefield : node) (e : event) : JS page event :=
  if decide (ev_key e = "Enter") then
    let e := preventDefault e in
    element_blur namefield >> ret e
  else if decide (ev_key e = "Escape" ∨ ev_key e = "Esc") then
    let e := preventDefault e in
    let* name := global entity_name in
    in_doc (set_innerHTML namefield name) >>
    element_blur namefield >> ret e
  else ret e.

(** The input listener. *)
Definition input_listener (namefield : node) (e : event) : JS page event :=
  let* html := in_doc (get_innerHTML namefield) in
  (if JsString.includes html JsString.newline then
     let* html := in_doc (get_innerHTML namefield) in
     in_doc (set_innerHTML namefield (JsString.replace html JsString.newline ""))
   else ret tt) >>
  ret e.

(** Calling a listener closure. *)
Definition run_listener (l : listener) (e : event) : JS page event :=
  match l with
  | KeydownListener namefield => keydown_listener namefield e
  | InputListener namefield => input_listener namefield e
  | BlurListener => blur_listener e
  end.

(** ** [focus()] and the selection *)

(** [n.focus()]: when [n] can take the focus and does not have it, the
    element that has it loses it, with a blur event, and [n] gets it. *)
Definition element_focus (n : node) : JS page unit :=
  let* e := in_doc (the_element n) in
  let* active := gets (λ p, doc_active (pg_doc p)) in
  if focusable e && negb (bool_decide (active = Some n)) then
    (match active with
     | Some old => element_blur old
     | None => ret tt
     end) >>
    in_doc (modify (doc_set_active (Some n)))
  else ret tt.

Definition selectAll (e : node) : JS page unit :=
  let* range := in_doc createRange in
  let* range := in_doc (selectNodeContents range e) in
  in_doc removeAllRanges >>
  in_doc (addRange range).

(** ** Edit-mode entry: [editEntity] *)

Definition editEntity : JS page unit :=
  let* namefield := in_doc (getElementById main_entity_name) in
  let* namefield := deref namefield "contentEditable" in
  in_doc (set_contentEditable namefield PlaintextOnly) >>
  in_doc (addEventListener namefield (KeydownListener namefield)) >>
  in_doc (addEventListener namefield (InputListener namefield)) >>
  in_doc (addEventListener namefield BlurListener) >>
  element_focus namefield >>
  selectAll namefield.

(** ** The delete controls *)

Definition toggleDeleteConfirm (element : node) : JS page unit :=
  let* p1 := in_doc (parentElement element) in
  let* p1 := deref p1 "parentElement" in
  let* p2 := in_doc (parentElement p1) in
  let* p2 := deref p2 "classList" in
  in_doc (classList_toggle p2 class_active) >> ret tt.

Definition deleteScrobble (id : value) (element : node) : JS page unit :=
  let* p1 := in_doc (parentElement element) in
  let* p1 := deref p1 "parentElement" in
  let* p2 := in_doc (parentElement p1) in
  let* p2 := deref p2 "parentElement" in
  let* p3 := in_doc (parentElement p2) in
  let* p3 := deref p3 "classList" in
  in_doc (classList_add p3 class_removed) >>
  let data := [("timestamp", id)] in
  set_call_globals (Some data) "POST" CbNull true >>
  xhttpreq (Some delete_endpoint) (Some data) "POST" CbNull true.

(** ** Callbacks and the environment *)

(** Calling a callback closure. *)
Definition run_callback (cb : callback) : JS page unit :=
  match cb with
  | CbNull => ret tt
  | CbNavigate searchParams =>
      assign_location (String Url.QUESTION (Url.serialize searchParams))
  end.

(** The request at position [i] of the requests in flight completes:
    its callback is called, and an exception it throws is reported. *)
Definition complete (i : nat) : JS page unit :=
  let* pending := gets pg_pending in
  match pending !! i with
  | Some rq =>
      modify (pg_set_pending (delete i pending)) >>
      catch (run_callback (rq_callback rq)) report
  | None => ret tt
  end.

(** The request at position [i] fails: it is no longer in flight, and
    its callback is never called. *)
Definition fail_request (i : nat) : JS page unit :=
  modify (λ p, pg_set_pending (delete i (pg_pending p)) p).

(** An event of type [ty] that bubbles is fired at [target]: the
    listeners of the target and of its ancestors are called, innermost
    first.  The result is the event after dispatch. *)
Definition fire (target : node) (e : event) : JS page event :=
  let* path := in_doc (event_path target) in
  let* ls := in_doc (gets (λ d,
    concat ((λ n, default [] (el_listeners <$> doc_elements d !! n)) <$> path))) in
  dispatch run_listener ls e.

(** The user presses [key] in the focused element.  When no listener
    cancels the keydown, the browser goes on with the key's default
    action, which this model leaves to [input_text]. *)
Definition press_key (key : string) : JS page event :=
  let* active := gets (λ p, doc_active (pg_doc p)) in
  match active with
  | Some n => fire n (Event "keydown" key false)
  | None => ret (Event "keydown" key false)
  end.

(** The user's editing leaves [text] in the focused element, with the
    caret at its end, and the input event is fired. *)
Definition input_text (text : string) : JS page unit :=
  let* active := gets (λ p, doc_active (pg_doc p)) in
  match active with
  | Some n =>
      in_doc (update_element n (el_set_children (text_node text))) >>
      let caret := child_count (text_node text) in
      in_doc (modify (doc_set_selection (Some (Range (Some n) caret caret)))) >>
      fire n (Event "input" "" false) >> ret tt
  | None => ret tt
  end.

(** The user clicks outside of the focused element. *)
Definition click_away : JS page unit :=
  let* active := gets (λ p, doc_active (pg_doc p)) in
  match active with
  | Some n => element_blur n
  | None => ret tt
  end.

End edit.
