(* ===== verification/Examples.v ===== *)
(** * Example pages

    Pages as maloja renders them, on any platform, for the examples
    of the theorems: the page of an artist and of a track with
    a list of scrobbles, and the page of an artist whose name has an
    ampersand.  Tree of the document:

    - 0: the root
      - 1: the heading with id [main_entity_name]
      - 2: the list of scrobbles
        - 3: a row
          - 4: its cell with the delete controls
            - 5: the confirmation area
              - 6: the button that calls [deleteScrobble] *)

From stdpp Require Import base tactics option list strings.
From Stdlib Require Import ZArith.
From S2P Require Import Prelude Js JsString TokenList Markup Url Dom Page Edit.

#[local] Open Scope string_scope.

Module Examples.

Section pages.
Context `{MP : !MarkupPlatform}.

Definition plain (parent : option node) (id : string) (classes : list string)
    (text : string) : element listener :=
  Element parent id classes (text_node text) Inherit [].

Definition doc_of (name : string) : document listener :=
  Document
    [ plain None "" [] "";
      plain (Some 0) "main_entity_name" ["headerwithextra"] name;
      plain (Some 0) "" ["scrobbles"] "";
      plain (Some 2) "" [] "";
      plain (Some 3) "" ["delete_area"] "";
      plain (Some 4) "" [] "";
      plain (Some 5) "" [] "" ]
    None None.

Definition page_of (ty : string) (id : Z) (name search : string) : page :=
  Page (Globals ty (VNum id) name None None None None None)
    (doc_of name) search [] [] [].

Definition artist_page : page :=
  page_of "artist" 7 "Radiohead" "?artist=Radiohead".

Definition track_page : page :=
  page_of "track" 12 "Creep" "?title=Creep&artist=Radiohead".

Definition ampersand_page : page :=
  page_of "artist" 8 "Simon & Garfunkel" "?artist=Simon+%26+Garfunkel".

(** A page whose entity type the script does not know. *)
Definition album_page : page :=
  page_of "album" 3 "OK Computer" "?albumtitle=OK+Computer".

(** A page without a name field. *)
Definition bare_page : page :=
  Page (Globals "artist" (VNum 7) "Radiohead" None None None None None)
    (Document [plain None "" [] ""] None None) "" [] [] [].

(** The name field in edit mode, showing [shown]: what [editEntity]
    leaves, and what the user has typed since. *)
Definition editing_field (shown : string) : element listener :=
  Element (Some 0) "main_entity_name" ["headerwithextra"] (text_node shown)
    PlaintextOnly [KeydownListener 1; InputListener 1; BlurListener].

(** The page [p] with its name field in edit mode, focused and with
    its content selected. *)
Definition editing (shown : string) (p : page) : page :=
  pg_set_doc
    (Document (<[1:=editing_field shown]> (doc_elements (pg_doc p))) (Some 1)
       (Some (Range (Some 1) 0 1))) p.

(** The name field of the example pages, and the delete button. *)
Definition namefield : node := 1.
Definition button : node := 6.

End pages.

End Examples.
