(* ===== verification/Run.v ===== *)
(** * Running the primitives in a page

    The equations by which the theorems about edit.js evaluate a call of
    a DOM method inside a page: what it returns and the page it leaves,
    for a node that is in the document. *)

From stdpp Require Import base tactics option list strings sorting.
From Stdlib Require Import ZArith.
From S2P Require Import Prelude Js JsString TokenList Markup Url Dom Page Edit.

#[local] Open Scope page_scope.
#[local] Open Scope string_scope.

(** ** Running the primitives in a page *)

Section run.
Context `{MP : !MarkupPlatform}.
Implicit Types (p : page) (d : document listener) (n : node).

Lemma run_getElementById p id :
  in_doc (getElementById id) p = (Ok (find_id id (pg_doc p)), p).
Proof. by apply in_doc_pure. Qed.

Lemma run_parentElement p n e :
  doc_elements (pg_doc p) !! n = Some e →
  in_doc (parentElement n) p = (Ok (el_parent e), p).
Proof. intros He. by apply in_doc_pure, parentElement_ok. Qed.

Lemma run_get_innerHTML p n e :
  doc_elements (pg_doc p) !! n = Some e →
  in_doc (get_innerHTML n) p = (Ok (serialize_fragment (el_children e)), p).
Proof. intros He. by apply in_doc_pure, get_innerHTML_ok. Qed.

Lemma run_listeners_of p n e :
  doc_elements (pg_doc p) !! n = Some e →
  in_doc (listeners_of n) p = (Ok (el_listeners e), p).
Proof. intros He. by apply in_doc_pure, listeners_of_ok. Qed.

(** The page after the children of [n] were removed: a selection
    inside [n] has collapsed to its start. *)
Definition collapsed (n : node) (p : page) : page :=
  pg_set_doc
    (doc_set_selection (collapse_into n <$> doc_selection (pg_doc p)) (pg_doc p)) p.

(** The page after [n.innerHTML = s], for the element [e] at [n]. *)
Definition with_markup (n : node) (e : element listener) (s : string) (p : page) : page :=
  collapsed n (with_element n (el_set_children (parse_fragment s) e) p).

Lemma run_set_innerHTML p n e s :
  doc_elements (pg_doc p) !! n = Some e →
  in_doc (set_innerHTML n s) p = (Ok tt, with_markup n e s p).
Proof.
  intros He. erewrite in_doc_ok by by eapply set_innerHTML_ok.
  unfold with_markup, collapsed, with_element. simpl.
  by rewrite (alter_insert _ _ _ e).
Qed.

Lemma with_markup_lookup p n e s :
  doc_elements (pg_doc p) !! n = Some e →
  doc_elements (pg_doc (with_markup n e s p)) !! n =
    Some (el_set_children (parse_fragment s) e).
Proof. intros He. simpl. apply list_lookup_insert_eq. by eapply lookup_lt_Some. Qed.

Lemma with_markup_find_id p n e s id :
  doc_elements (pg_doc p) !! n = Some e →
  find_id id (pg_doc (with_markup n e s p)) = find_id id (pg_doc p).
Proof. intros He. by apply (with_element_find_id n e). Qed.

Lemma run_deref_some p n property : deref (Some n) property p = (Ok n, p).
Proof. done. Qed.

Lemma run_deref_none p property :
  deref None property p = (Throw (TypeError property), p).
Proof. done. Qed.

(** One link of a chain [x.parentElement.y]: the parent of [n], or the
    [TypeError] of reading [y] from [null]. *)
Lemma run_parent_link {A} p n property (k : node → JS page A) :
  valid_node (pg_doc p) n →
  (let* x := in_doc (parentElement n) in let* x := deref x property in k x) p =
  match ancestor (pg_doc p) 1 n with
  | Some a => k a p
  | None => (Throw (TypeError property), p)
  end.
Proof.
  intros [e He]%valid_node_lookup. erewrite bind_ok by by apply run_parentElement.
  rewrite (ancestor_S _ _ _ e He). by destruct (el_parent e).
Qed.

Lemma valid_class_active : TokenList.valid_token class_active.
Proof. by vm_compute. Qed.

Lemma valid_class_removed : TokenList.valid_token class_removed.
Proof. by vm_compute. Qed.

(** A chain of [.parentElement] reaches an ancestor or stops at the
    first [null] with a [TypeError]; the page is not changed. *)
Lemma run_parent_chain2 {A} p n y1 y2 (k : node → JS page A) :
  Dom.wf (pg_doc p) → valid_node (pg_doc p) n →
  (let* x := in_doc (parentElement n) in let* x := deref x y1 in
   let* x := in_doc (parentElement x) in let* x := deref x y2 in k x) p =
  match ancestor (pg_doc p) 2 n with
  | Some a => k a p
  | None => (Throw (TypeError (if ancestor (pg_doc p) 1 n is Some _ then y2 else y1)), p)
  end.
Proof.
  intros Hd Hn. rewrite run_parent_link by done.
  rewrite (ancestor_add _ 1 1). destruct (ancestor (pg_doc p) 1 n) as [a|] eqn:Ha; [|done].
  rewrite run_parent_link by by eapply ancestor_valid. simpl.
  by destruct (ancestor (pg_doc p) 1 a).
Qed.

Lemma run_parent_chain3 {A} p n y1 y2 y3 (k : node → JS page A) :
  Dom.wf (pg_doc p) → valid_node (pg_doc p) n →
  (let* x := in_doc (parentElement n) in let* x := deref x y1 in
   let* x := in_doc (parentElement x) in let* x := deref x y2 in
   let* x := in_doc (parentElement x) in let* x := deref x y3 in k x) p =
  match ancestor (pg_doc p) 3 n with
  | Some a => k a p
  | None => (Throw (TypeError (if ancestor (pg_doc p) 2 n is Some _ then y3
                               else if ancestor (pg_doc p) 1 n is Some _ then y2
                               else y1)), p)
  end.
Proof.
  intros Hd Hn. rewrite run_parent_link by done.
  rewrite (ancestor_add _ 1 2), (ancestor_add _ 1 1).
  destruct (ancestor (pg_doc p) 1 n) as [a|] eqn:Ha; [|done].
  rewrite run_parent_chain2 by by try eapply ancestor_valid. simpl.
  by destruct (ancestor (pg_doc p) 2 a).
Qed.

Lemma run_classList {A} (m : JS (list string) A) p n e :
  doc_elements (pg_doc p) !! n = Some e →
  in_doc (zoom (get_classList n) (put_classList n) Dangling m) p =
    (result m (el_classList e),
     with_element n (el_set_classList (exec m (el_classList e)) e) p).
Proof.
  intros He. rewrite in_doc_run. unfold result at 1, exec at 1.
  rewrite (zoom_classList_ok _ n e) by done. unfold put_classList, with_element.
  by rewrite (alter_insert _ _ _ e).
Qed.

Lemma run_classList_toggle p n e t :
  doc_elements (pg_doc p) !! n = Some e → TokenList.valid_token t →
  in_doc (classList_toggle n t) p =
    (Ok (negb (bool_decide (t ∈ el_classList e))),
     with_element n (el_set_classList (exec (TokenList.toggle t) (el_classList e)) e) p).
Proof.
  intros He Ht. unfold classList_toggle. rewrite (run_classList _ p n e He).
  f_equal. unfold result. destruct (decide (t ∈ el_classList e)).
  - by rewrite TokenList.toggle_present, bool_decide_eq_true_2.
  - by rewrite TokenList.toggle_absent, bool_decide_eq_false_2.
Qed.

Lemma run_classList_add p n e t :
  doc_elements (pg_doc p) !! n = Some e → TokenList.valid_token t →
  in_doc (classList_add n t) p =
    (Ok tt, with_element n (el_set_classList (TokenList.append_token t (el_classList e)) e) p).
Proof.
  intros He Ht. unfold classList_add. rewrite (run_classList _ p n e He).
  unfold result, exec. by rewrite TokenList.add_valid.
Qed.

End run.
