(* ===== verification/DeleteProps.v ===== *)
(** * The delete controls

    [toggleDeleteConfirm] and [deleteScrobble]: the class they set on
    the ancestor of the button, the request that is sent, and the
    [TypeError] when the ancestor is missing. *)

From stdpp Require Import base tactics option list strings sorting.
From Stdlib Require Import ZArith.
From S2P Require Import Prelude Js JsString TokenList Markup Url Dom Page Edit.
From S2P Require Import Examples Run.

#[local] Open Scope page_scope.
#[local] Open Scope string_scope.

Section delete.
Context `{MP : !MarkupPlatform}.
Implicit Types (p : page) (n : node).

(** The class list of the row after a toggle of [active]. *)
Definition toggled (e : element listener) : element listener :=
  el_set_classList (exec (TokenList.toggle class_active) (el_classList e)) e.

(** The row after [deleteScrobble]. *)
Definition removed (e : element listener) : element listener :=
  el_set_classList (TokenList.append_token class_removed (el_classList e)) e.

(** The request [deleteScrobble] sends for the scrobble [id]. *)
Definition delete_request (id : value) : request :=
  Request (Some delete_endpoint) (Some [("timestamp", id)]) "POST" CbNull true.

(** The page after [deleteScrobble id] has marked the row [row]. *)
Definition deleted (id : value) (row : node) (e : element listener) (p : page) : page :=
  Page (with_call_globals (Some [("timestamp", id)]) "POST" CbNull true (pg_globals p))
    (pg_doc (with_element row (removed e) p))
    (pg_search p) (pg_pending p ++ [delete_request id])%list
    (pg_reported p) (pg_navigations p).

(** [toggleDeleteConfirm] on every branch. *)
Lemma run_toggleDeleteConfirm p element :
  Dom.wf (pg_doc p) → valid_node (pg_doc p) element →
  toggleDeleteConfirm element p =
  match ancestor (pg_doc p) 2 element with
  | Some row =>
      match doc_elements (pg_doc p) !! row with
      | Some e => (Ok tt, with_element row (toggled e) p)
      | None => (Throw Dangling, p)
      end
  | None =>
      (Throw (TypeError (if ancestor (pg_doc p) 1 element is Some _
                         then "classList" else "parentElement")), p)
  end.
Proof.
  intros Hd Hn. unfold toggleDeleteConfirm. rewrite run_parent_chain2 by done.
  destruct (ancestor (pg_doc p) 2 element) as [row|] eqn:Hrow; [|done].
  pose proof (ancestor_valid _ _ _ _ Hd Hn Hrow) as [e He]%valid_node_lookup.
  rewrite He. by erewrite bind_ok by by apply run_classList_toggle, valid_class_active.
Qed.

(** [deleteScrobble] on every branch. *)
Lemma run_deleteScrobble p id element :
  Dom.wf (pg_doc p) → valid_node (pg_doc p) element →
  deleteScrobble id element p =
  match ancestor (pg_doc p) 3 element with
  | Some row =>
      match doc_elements (pg_doc p) !! row with
      | Some e => (Ok tt, deleted id row e p)
      | None => (Throw Dangling, p)
      end
  | None =>
      (Throw (TypeError (if ancestor (pg_doc p) 2 element is Some _ then "classList"
                         else "parentElement")), p)
  end.
Proof.
  intros Hd Hn. unfold deleteScrobble. rewrite run_parent_chain3 by done.
  destruct (ancestor (pg_doc p) 3 element) as [row|] eqn:Hrow.
  - pose proof (ancestor_valid _ _ _ _ Hd Hn Hrow) as [e He]%valid_node_lookup.
    rewrite He. by erewrite bind_ok by by apply run_classList_add, valid_class_removed.
  - by destruct (ancestor (pg_doc p) 2 element), (ancestor (pg_doc p) 1 element).
Qed.

(** [toggleDeleteConfirm] on an element with a grandparent toggles
    the class [active] of the grandparent and changes nothing else. *)
Theorem toggleDeleteConfirm_toggles p element row e :
  Dom.wf (pg_doc p) → valid_node (pg_doc p) element →
  ancestor (pg_doc p) 2 element = Some row →
  doc_elements (pg_doc p) !! row = Some e →
  toggleDeleteConfirm element p = (Ok tt, with_element row (toggled e) p).
Proof. intros Hd Hn Hrow He. by rewrite run_toggleDeleteConfirm, Hrow, He. Qed.

(** Without a grandparent [toggleDeleteConfirm] throws a
    [TypeError] and leaves the page as it is. *)
Theorem toggleDeleteConfirm_throws p element :
  Dom.wf (pg_doc p) → valid_node (pg_doc p) element →
  ancestor (pg_doc p) 2 element = None →
  ∃ property, toggleDeleteConfirm element p = (Throw (TypeError property), p).
Proof. intros Hd Hn Hrow. rewrite run_toggleDeleteConfirm, Hrow by done. eauto. Qed.

(** C21.  Two calls of [toggleDeleteConfirm] leave the row with the same
    set of classes, and the page itself when [active] was not set. *)
Theorem toggleDeleteConfirm_twice p element row e :
  Dom.wf (pg_doc p) → valid_node (pg_doc p) element →
  ancestor (pg_doc p) 2 element = Some row →
  doc_elements (pg_doc p) !! row = Some e →
  ∃ classes,
    (toggleDeleteConfirm element >> toggleDeleteConfirm element) p =
      (Ok tt, with_element row (el_set_classList classes e) p) ∧
    classes ≡ₚ el_classList e ∧
    (class_active ∉ el_classList e → classes = el_classList e).
Proof.
  intros Hd Hn Hrow He. destruct (wf_elements _ Hd row e He) as [[Hnd Hval] Hpar].
  assert (valid_node (pg_doc p) row) as Hvalid by (apply valid_node_lookup; eauto).
  pose proof (TokenList.toggle_preserves_wf class_active _ (conj Hnd Hval)) as Hwf1.
  erewrite bind_ok by by rewrite run_toggleDeleteConfirm, Hrow, He.
  rewrite run_toggleDeleteConfirm;
    [|by eapply with_element_wf|by apply with_element_valid].
  erewrite with_element_ancestor, Hrow, with_element_lookup by done.
  rewrite with_element_twice. eexists; split; [done|]. simpl.
  rewrite <- TokenList.toggle_toggle_exec by apply valid_class_active. split.
  - by apply TokenList.toggle_toggle_perm; [apply valid_class_active|].
  - intros Habsent. unfold exec.
    by rewrite TokenList.toggle_toggle_absent by auto using valid_class_active.
Qed.

(** C8.  [deleteScrobble] on an element with a great-grandparent adds
    the class [removed] to it and sends one POST to the delete endpoint
    with the payload [{timestamp: id}] and a callback that does
    nothing. *)
Theorem deleteScrobble_posts p id element row e :
  Dom.wf (pg_doc p) → valid_node (pg_doc p) element →
  ancestor (pg_doc p) 3 element = Some row →
  doc_elements (pg_doc p) !! row = Some e →
  deleteScrobble id element p = (Ok tt, deleted id row e p).
Proof. intros Hd Hn Hrow He. by rewrite run_deleteScrobble, Hrow, He. Qed.

(** C39.  Without a great-grandparent [deleteScrobble] throws a
    [TypeError] before anything is changed: no class is added and no
    request is sent. *)
Theorem deleteScrobble_throws p id element :
  Dom.wf (pg_doc p) → valid_node (pg_doc p) element →
  ancestor (pg_doc p) 3 element = None →
  ∃ property, deleteScrobble id element p = (Throw (TypeError property), p).
Proof. intros Hd Hn Hrow. rewrite run_deleteScrobble, Hrow by done. eauto. Qed.

(** When the request of [deleteScrobble] completes, its callback
    does nothing: the page neither navigates nor changes. *)
Theorem deleteScrobble_completes p id element row e :
  Dom.wf (pg_doc p) → valid_node (pg_doc p) element →
  ancestor (pg_doc p) 3 element = Some row →
  doc_elements (pg_doc p) !! row = Some e →
  (deleteScrobble id element >> complete (length (pg_pending p))) p =
    (Ok tt, pg_set_pending (pg_pending p) (deleted id row e p)).
Proof.
  intros Hd Hn Hrow He. erewrite bind_ok by by rewrite run_deleteScrobble, Hrow, He.
  unfold complete. m_run. rewrite lookup_app_r, Nat.sub_diag by done. simpl.
  m_run. by rewrite delete_middle, app_nil_r.
Qed.

End delete.

(** ** Examples: the delete button of the page of an artist *)

Section examples.
#[local] Existing Instance Markup.reference.

Lemma toggleDeleteConfirm_toggles_witness :
  toggleDeleteConfirm Examples.button Examples.artist_page =
    (Ok tt, with_element 4
       (Examples.plain (Some 3) "" ["delete_area"; "active"] "") Examples.artist_page).
Proof.
  by apply (toggleDeleteConfirm_toggles (MP:=Markup.reference) Examples.artist_page
    Examples.button 4 (Examples.plain (Some 3) "" ["delete_area"] ""));
    [apply wf_check_sound|vm_compute; lia|..].
Defined.

Lemma toggleDeleteConfirm_throws_witness :
  ∃ property,
    toggleDeleteConfirm (MP:=Markup.reference) 2 Examples.artist_page =
      (Throw (TypeError property), Examples.artist_page).
Proof.
  by apply (toggleDeleteConfirm_throws (MP:=Markup.reference) Examples.artist_page 2);
    [apply wf_check_sound|vm_compute; lia|].
Defined.

Lemma toggleDeleteConfirm_twice_witness :
  ∃ classes,
    (toggleDeleteConfirm Examples.button >> toggleDeleteConfirm Examples.button)
      Examples.artist_page =
      (Ok tt, with_element 4
         (el_set_classList classes (Examples.plain (Some 3) "" ["delete_area"] ""))
         Examples.artist_page) ∧
    classes ≡ₚ ["delete_area"] ∧
    (class_active ∉ ["delete_area"] → classes = ["delete_area"]).
Proof.
  by apply (toggleDeleteConfirm_twice (MP:=Markup.reference) Examples.artist_page
    Examples.button 4 (Examples.plain (Some 3) "" ["delete_area"] ""));
    [apply wf_check_sound|vm_compute; lia|..].
Defined.

Lemma deleteScrobble_posts_witness :
  deleteScrobble (VNum 12345) Examples.button Examples.artist_page =
    (Ok tt, deleted (VNum 12345) 3 (Examples.plain (Some 2) "" [] "") Examples.artist_page).
Proof.
  by apply (deleteScrobble_posts (MP:=Markup.reference) Examples.artist_page
    (VNum 12345) Examples.button 3 (Examples.plain (Some 2) "" [] ""));
    [apply wf_check_sound|vm_compute; lia|..].
Defined.

Lemma deleteScrobble_throws_witness :
  ∃ property,
    deleteScrobble (MP:=Markup.reference) (VNum 12345) 3 Examples.artist_page =
      (Throw (TypeError property), Examples.artist_page).
Proof.
  by apply (deleteScrobble_throws (MP:=Markup.reference) Examples.artist_page (VNum 12345) 3);
    [apply wf_check_sound|vm_compute; lia|].
Defined.

Lemma deleteScrobble_completes_witness :
  (deleteScrobble (VNum 12345) Examples.button >> complete 0) Examples.artist_page =
    (Ok tt, pg_set_pending []
       (deleted (VNum 12345) 3 (Examples.plain (Some 2) "" [] "") Examples.artist_page)).
Proof.
  by apply (deleteScrobble_completes (MP:=Markup.reference) Examples.artist_page
    (VNum 12345) Examples.button 3 (Examples.plain (Some 2) "" [] ""));
    [apply wf_check_sound|vm_compute; lia|..].
Defined.

End examples.
