(* ===== verification/CommitProps.v ===== *)
(** * Commit

    [doneEditing]: what it sends for a changed name, that it sends
    nothing for an unchanged one, and where the page goes when the
    request completes. *)

From stdpp Require Import base tactics option list strings sorting.
From Stdlib Require Import ZArith.
From S2P Require Import Prelude Js JsString TokenList Markup Url Dom Page Edit.
From S2P Require Import Examples Run.

#[local] Open Scope page_scope.
#[local] Open Scope string_scope.

Section commit.
Context `{MP : !MarkupPlatform}.
Implicit Types (p : page) (n : node) (g : globals).

(** The name field after [doneEditing]: locked. *)
Definition locked (e : element listener) : element listener :=
  el_set_contentEditable EditFalse e.

(** The page after the first statements of [doneEditing], up to the
    assignment of [newname]. *)
Definition locked_page (n : node) (e : element listener) (p : page) : page :=
  pg_set_globals
    (with_newname (serialize_fragment (el_children e)) (pg_globals p))
    (with_element n (locked e) p).

(** The request [doneEditing] sends for the markup [html] of the field. *)
Definition commit_request (g : globals) (search html : string) : request :=
  let '(endpoint, searchParams, payload) :=
    commit_target (entity_type g) (entity_id g) html (Url.parse search) in
  Request endpoint payload "POST" (CbNavigate searchParams) true.

(** The page after a call that sent [rq]: the globals its argument list
    assigns, and the request in flight. *)
Definition sent (rq : request) (p : page) : page :=
  pg_set_pending (pg_pending p ++ [rq])%list
    (pg_set_globals
       (with_call_globals (rq_data rq) (rq_method rq) (rq_callback rq) (rq_json rq)
          (pg_globals p)) p).

(** The page after a [doneEditing] that found the name changed. *)
Definition committed_page (n : node) (e : element listener) (p : page) : page :=
  sent (commit_request (pg_globals p) (pg_search p) (serialize_fragment (el_children e)))
    (locked_page n e p).

(** ** The target of a commit *)

Lemma commit_request_artist g search html :
  entity_type g = "artist" →
  commit_request g search html =
    Request (Some edit_artist_endpoint) (Some [("id", entity_id g); ("name", VStr html)])
      "POST" (CbNavigate (Url.set "artist" html (Url.parse search))) true.
Proof. intros Hty. unfold commit_request, commit_target. by rewrite Hty. Qed.

Lemma commit_request_track g search html :
  entity_type g = "track" →
  commit_request g search html =
    Request (Some edit_track_endpoint) (Some [("id", entity_id g); ("title", VStr html)])
      "POST" (CbNavigate (Url.set "title" html (Url.parse search))) true.
Proof. intros Hty. unfold commit_request, commit_target. by rewrite Hty. Qed.

Lemma commit_request_other g search html :
  entity_type g ≠ "artist" → entity_type g ≠ "track" →
  commit_request g search html =
    Request None None "POST" (CbNavigate (Url.parse search)) true.
Proof.
  intros Ha Ht. unfold commit_request, commit_target.
  by rewrite !decide_False by done.
Qed.

(** Whatever the type, the request is a POST with a JSON body whose
    callback navigates. *)
Lemma commit_request_shape g search html :
  let rq := commit_request g search html in
  rq_method rq = "POST" ∧ rq_json rq = true ∧ ∃ sp, rq_callback rq = CbNavigate sp.
Proof.
  unfold commit_request. destruct (commit_target _ _ _ _) as [[? sp] ?].
  simpl. eauto.
Qed.

(** ** [doneEditing] *)

(** [doneEditing] on a page with a name field. *)
Lemma run_doneEditing p n e :
  find_id main_entity_name (pg_doc p) = Some n →
  doc_elements (pg_doc p) !! n = Some e →
  doneEditing p =
    (Ok tt,
     if decide (serialize_fragment (el_children e) ≠ entity_name (pg_globals p))
     then committed_page n e p else locked_page n e p).
Proof.
  intros Hn He. unfold doneEditing.
  erewrite bind_ok by apply run_getElementById. rewrite Hn.
  erewrite bind_ok by apply run_deref_some.
  erewrite bind_ok by by apply run_update_element.
  erewrite bind_ok.
  2:{ apply run_get_innerHTML, with_element_lookup, valid_node_lookup. eauto. }
  m_run. case_decide; [|done]. unfold committed_page, commit_request. simpl.
  by destruct (commit_target _ _ _ _) as [[endpoint searchParams] payload].
Qed.

(** What a second [doneEditing] sees is what the first one saw. *)
Lemma locked_page_find_id p n e id :
  doc_elements (pg_doc p) !! n = Some e →
  find_id id (pg_doc (locked_page n e p)) = find_id id (pg_doc p).
Proof. intros He. by apply with_element_find_id with e. Qed.

Lemma locked_page_lookup p n e :
  doc_elements (pg_doc p) !! n = Some e →
  doc_elements (pg_doc (locked_page n e p)) !! n = Some (locked e).
Proof. intros He. apply with_element_lookup, valid_node_lookup. eauto. Qed.

Lemma locked_page_twice p n e :
  locked_page n (locked e) (locked_page n e p) = locked_page n e p.
Proof. unfold locked_page, with_element. simpl. by rewrite list_insert_insert_eq. Qed.

(** C7.  A commit with an unchanged name: when the markup of the name
    field equals [entity_name], [doneEditing] locks the field, records
    the name in [newname] and does nothing else; no request is sent. *)
Theorem doneEditing_unchanged p n e :
  find_id main_entity_name (pg_doc p) = Some n →
  doc_elements (pg_doc p) !! n = Some e →
  serialize_fragment (el_children e) = entity_name (pg_globals p) →
  doneEditing p = (Ok tt, locked_page n e p) ∧
  pg_pending (locked_page n e p) = pg_pending p.
Proof.
  intros Hn He Hsame. rewrite (run_doneEditing p n e) by done.
  by rewrite decide_False by by intros [].
Qed.

(** C4.  A commit with a changed name locks the field and sends one
    request, the one [commit_request] builds from the globals, the query
    string of the page and the markup of the field. *)
Theorem doneEditing_commits p n e :
  find_id main_entity_name (pg_doc p) = Some n →
  doc_elements (pg_doc p) !! n = Some e →
  serialize_fragment (el_children e) ≠ entity_name (pg_globals p) →
  doneEditing p = (Ok tt, committed_page n e p) ∧
  pg_pending (committed_page n e p) =
    (pg_pending p ++
     [commit_request (pg_globals p) (pg_search p) (serialize_fragment (el_children e))])%list.
Proof.
  intros Hn He Hdiff. rewrite (run_doneEditing p n e) by done.
  by rewrite decide_True by done.
Qed.

(** C33.  Renaming an artist: the request goes to the artist endpoint with
    the payload [{id: entity_id, name: newname}], and its callback
    navigates with the query parameter [artist] set to the new name. *)
Theorem doneEditing_renames_artist p n e :
  find_id main_entity_name (pg_doc p) = Some n →
  doc_elements (pg_doc p) !! n = Some e →
  entity_type (pg_globals p) = "artist" →
  serialize_fragment (el_children e) ≠ entity_name (pg_globals p) →
  let html := serialize_fragment (el_children e) in
  result doneEditing p = Ok tt ∧
  pg_pending (exec doneEditing p) =
    (pg_pending p ++
     [Request (Some edit_artist_endpoint)
        (Some [("id", entity_id (pg_globals p)); ("name", VStr html)]) "POST"
        (CbNavigate (Url.set "artist" html (Url.parse (pg_search p)))) true])%list.
Proof.
  intros Hn He Hty Hdiff. unfold result, exec. rewrite (run_doneEditing p n e) by done.
  rewrite decide_True by done. simpl. by rewrite commit_request_artist.
Qed.

(** Renaming a track: the request goes to the track endpoint with
    the payload [{id: entity_id, title: newname}], and its callback
    navigates with the query parameter [title] set to the new name. *)
Theorem doneEditing_renames_track p n e :
  find_id main_entity_name (pg_doc p) = Some n →
  doc_elements (pg_doc p) !! n = Some e →
  entity_type (pg_globals p) = "track" →
  serialize_fragment (el_children e) ≠ entity_name (pg_globals p) →
  let html := serialize_fragment (el_children e) in
  result doneEditing p = Ok tt ∧
  pg_pending (exec doneEditing p) =
    (pg_pending p ++
     [Request (Some edit_track_endpoint)
        (Some [("id", entity_id (pg_globals p)); ("title", VStr html)]) "POST"
        (CbNavigate (Url.set "title" html (Url.parse (pg_search p)))) true])%list.
Proof.
  intros Hn He Hty Hdiff. unfold result, exec. rewrite (run_doneEditing p n e) by done.
  rewrite decide_True by done. simpl. by rewrite commit_request_track.
Qed.

(** C38.  For an entity type that is neither [artist] nor [track] a
    changed name still sends a request: its URL and its payload are
    [undefined], and its callback navigates to the query string the page
    had. *)
Theorem doneEditing_unknown_type p n e :
  find_id main_entity_name (pg_doc p) = Some n →
  doc_elements (pg_doc p) !! n = Some e →
  entity_type (pg_globals p) ≠ "artist" → entity_type (pg_globals p) ≠ "track" →
  serialize_fragment (el_children e) ≠ entity_name (pg_globals p) →
  pg_pending (exec doneEditing p) =
    (pg_pending p ++
     [Request None None "POST" (CbNavigate (Url.parse (pg_search p))) true])%list.
Proof.
  intros Hn He Ha Ht Hdiff. unfold exec. rewrite (run_doneEditing p n e) by done.
  rewrite decide_True by done. simpl. by rewrite commit_request_other.
Qed.

(** Without an element with the id [main_entity_name],
    [doneEditing] throws a [TypeError] and changes nothing. *)
Theorem doneEditing_missing p :
  find_id main_entity_name (pg_doc p) = None →
  doneEditing p = (Throw (TypeError "contentEditable"), p).
Proof.
  intros Hn. unfold doneEditing. erewrite bind_ok by apply run_getElementById.
  by rewrite Hn.
Qed.

(** ** Completion of a request *)

(** The URL the callback of a commit assigns to [window.location]. *)
Definition target_url (searchParams : Url.params) : string :=
  String Url.QUESTION (Url.serialize searchParams).

(** The page after the callback [cb] has run. *)
Definition called_back (cb : callback) (p : page) : page :=
  match cb with
  | CbNull => p
  | CbNavigate searchParams =>
      pg_set_navigations (pg_navigations p ++ [target_url searchParams])%list p
  end.

Lemma run_callback_run cb p : run_callback cb p = (Ok tt, called_back cb p).
Proof. by destruct cb. Qed.

(** [complete] on every branch. *)
Lemma run_complete p i :
  complete i p =
    (Ok tt,
     match pg_pending p !! i with
     | Some rq => called_back (rq_callback rq) (pg_set_pending (delete i (pg_pending p)) p)
     | None => p
     end).
Proof.
  unfold complete. m_run. destruct (pg_pending p !! i) as [rq|]; [|done].
  m_run. unfold catch. by rewrite run_callback_run.
Qed.

(** The query string a navigation leads to reads back as the
    parameters the callback captured. *)
Lemma parse_target_url searchParams : Url.parse (target_url searchParams) = searchParams.
Proof. apply Url.parse_query_serialize. Qed.

(** The last request sent completes. *)
Lemma complete_sent rq p :
  complete (length (pg_pending p)) (sent rq p) =
    (Ok tt, called_back (rq_callback rq)
       (pg_set_globals (pg_globals (sent rq p)) p)).
Proof.
  rewrite run_complete. simpl. rewrite lookup_app_r, Nat.sub_diag by done. simpl.
  by rewrite delete_middle, app_nil_r.
Qed.

(** C22.  When the request of a rename completes, the page navigates
    once, to its own path with a query string in which the parameter
    of the entity ([artist] for an artist, [title] for a track) is the
    new name and every other parameter is as it was. *)
Theorem rename_navigates p n e key :
  find_id main_entity_name (pg_doc p) = Some n →
  doc_elements (pg_doc p) !! n = Some e →
  serialize_fragment (el_children e) ≠ entity_name (pg_globals p) →
  (entity_type (pg_globals p) = "artist" ∧ key = "artist") ∨
  (entity_type (pg_globals p) = "track" ∧ key = "title") →
  ∃ url,
    pg_navigations (exec (doneEditing >> complete (length (pg_pending p))) p) =
      (pg_navigations p ++ [url])%list ∧
    pg_pending (exec (doneEditing >> complete (length (pg_pending p))) p) = pg_pending p ∧
    Url.get key (Url.parse url) = Some (serialize_fragment (el_children e)) ∧
    ∀ k, k ≠ key → Url.get k (Url.parse url) = Url.get k (Url.parse (pg_search p)).
Proof.
  intros Hn He Hdiff Hty. unfold exec. erewrite bind_ok by by apply run_doneEditing.
  rewrite decide_True by done. unfold committed_page.
  rewrite (complete_sent _ (locked_page n e p)).
  destruct Hty as [[Hty ->]|[Hty ->]];
    [rewrite commit_request_artist by done|rewrite commit_request_track by done];
    (eexists; split_and!; [done..| |]); rewrite parse_target_url;
    auto using Url.get_set, Url.get_set_ne.
Qed.

End commit.

(** ** Examples: a rename on the page of the artist Radiohead *)

Section examples.
#[local] Existing Instance Markup.reference.

(** The page of the artist after the user has typed [name] into the
    name field. *)
Definition typed (name : string) (p : page) : page :=
  with_element Examples.namefield
    (Element (Some 0) "main_entity_name" ["headerwithextra"] (text_node name) Inherit []) p.

Lemma doneEditing_unchanged_witness :
  doneEditing Examples.artist_page =
    (Ok tt, locked_page 1 (Examples.plain (Some 0) "main_entity_name" ["headerwithextra"]
                             "Radiohead") Examples.artist_page) ∧
  pg_pending (locked_page 1 (Examples.plain (Some 0) "main_entity_name" ["headerwithextra"]
                               "Radiohead") Examples.artist_page) = [].
Proof. by apply (doneEditing_unchanged (MP:=Markup.reference) Examples.artist_page 1). Defined.

Lemma doneEditing_renames_artist_witness :
  result doneEditing (typed "Radiohead Remastered" Examples.artist_page) = Ok tt ∧
  pg_pending (exec doneEditing (typed "Radiohead Remastered" Examples.artist_page)) =
    [Request (Some "/apis/mlj_1/edit_artist")
       (Some [("id", VNum 7); ("name", VStr "Radiohead Remastered")]) "POST"
       (CbNavigate [("artist", "Radiohead Remastered")]) true].
Proof.
  by apply (doneEditing_renames_artist (MP:=Markup.reference)
    (typed "Radiohead Remastered" Examples.artist_page) 1
    (Examples.plain (Some 0) "main_entity_name" ["headerwithextra"] "Radiohead Remastered")).
Defined.

Lemma doneEditing_commits_witness :
  let e := Examples.plain (Some 0) "main_entity_name" ["headerwithextra"] "Radiohead 2" in
  let p := typed "Radiohead 2" Examples.artist_page in
  doneEditing p = (Ok tt, committed_page 1 e p) ∧
  pg_pending (committed_page 1 e p) =
    (pg_pending p ++ [commit_request (pg_globals p) (pg_search p) "Radiohead 2"])%list.
Proof.
  by apply (doneEditing_commits (MP:=Markup.reference)
    (typed "Radiohead 2" Examples.artist_page) 1).
Defined.

Lemma doneEditing_renames_track_witness :
  result doneEditing (typed "Creep (Acoustic)" Examples.track_page) = Ok tt ∧
  pg_pending (exec doneEditing (typed "Creep (Acoustic)" Examples.track_page)) =
    [Request (Some "/apis/mlj_1/edit_track")
       (Some [("id", VNum 12); ("title", VStr "Creep (Acoustic)")]) "POST"
       (CbNavigate [("title", "Creep (Acoustic)"); ("artist", "Radiohead")]) true].
Proof.
  by apply (doneEditing_renames_track (MP:=Markup.reference)
    (typed "Creep (Acoustic)" Examples.track_page) 1
    (Examples.plain (Some 0) "main_entity_name" ["headerwithextra"] "Creep (Acoustic)")).
Defined.

Lemma doneEditing_unknown_type_witness :
  pg_pending (exec doneEditing (typed "Kid A" Examples.album_page)) =
    [Request None None "POST" (CbNavigate [("albumtitle", "OK Computer")]) true].
Proof.
  by apply (doneEditing_unknown_type (MP:=Markup.reference)
    (typed "Kid A" Examples.album_page) 1
    (Examples.plain (Some 0) "main_entity_name" ["headerwithextra"] "Kid A")).
Defined.

Lemma doneEditing_missing_witness :
  doneEditing Examples.bare_page = (Throw (TypeError "contentEditable"), Examples.bare_page).
Proof. by apply (doneEditing_missing (MP:=Markup.reference) Examples.bare_page). Defined.

Lemma rename_navigates_witness :
  let p := typed "Radiohead Remastered" Examples.artist_page in
  ∃ url,
    pg_navigations (exec (doneEditing >> complete 0) p) = [url] ∧
    pg_pending (exec (doneEditing >> complete 0) p) = [] ∧
    Url.get "artist" (Url.parse url) = Some "Radiohead Remastered" ∧
    ∀ k, k ≠ "artist" → Url.get k (Url.parse url) = Url.get k [("artist", "Radiohead")].
Proof.
  apply (rename_navigates (MP:=Markup.reference)
    (typed "Radiohead Remastered" Examples.artist_page) 1
    (Examples.plain (Some 0) "main_entity_name" ["headerwithextra"] "Radiohead Remastered")
    "artist"); [done..|by left].
Defined.

End examples.
