(* ===== verification/ListenerProps.v ===== *)
(** * The listeners and [blur()]

    The blur listener and the blur event that commits; the keydown
    listener on Enter, Escape and every other key; the input listener
    and the line feed it removes. *)

From stdpp Require Import base tactics option list strings sorting.
From Stdlib Require Import ZArith.
From S2P Require Import Prelude Js JsString TokenList Markup Url Dom Page Edit.
From S2P Require Import Examples Run CommitProps.

#[local] Open Scope page_scope.
#[local] Open Scope string_scope.

Section blur.
Context `{MP : !MarkupPlatform}.
Implicit Types (p : page) (n : node) (ls : list listener) (ev : event).

(** The blur event [blur()] fires. *)
Definition blur_event : event := Event "blur" "" false.

(** What one blur listener does to the page: [doneEditing], whose
    exception dispatch reports. *)
Definition commit_step : JS page unit := catch doneEditing report.

(** The number of blur listeners among [ls]. *)
Definition blur_count (ls : list listener) : nat :=
  count_occ_of BlurListener ls.

(** The page after the focus has left its element. *)
Definition unfocused (p : page) : page :=
  pg_set_doc (doc_set_active None (pg_doc p)) p.

(** ** Dispatch of a blur event *)

Lemma invoke_skip run l ev p :
  listener_type l ≠ ev_type ev → invoke run l ev p = (Ok ev, p).
Proof. intros Hty. unfold invoke. by rewrite decide_False. Qed.

Lemma invoke_blur_listener run ev p :
  (∀ e, run BlurListener e = blur_listener e) → ev_type ev = "blur" →
  invoke run BlurListener ev p = (Ok ev, exec commit_step p).
Proof.
  intros Hrun Hty. unfold invoke. rewrite decide_True by done.
  rewrite Hrun. unfold blur_listener, commit_step, exec, catch, bind.
  by destruct (doneEditing p) as [[[]|x] p'].
Qed.

(** A blur event runs [doneEditing] once for each blur listener, in
    order; the listeners of the other types are not called. *)
Lemma dispatch_blur run ls ev p :
  (∀ e, run BlurListener e = blur_listener e) → ev_type ev = "blur" →
  dispatch run ls ev p = (Ok ev, Nat.iter (blur_count ls) (exec commit_step) p).
Proof.
  intros Hrun Hty. revert p. induction ls as [|l ls IH]; intros p; [done|].
  cbn [dispatch]. destruct (decide (l = BlurListener)) as [->|Hl].
  - erewrite bind_ok by by apply invoke_blur_listener.
    rewrite IH. unfold blur_count, count_occ_of. rewrite filter_cons_True by done.
    by rewrite <- Nat.iter_succ_r.
  - erewrite bind_ok by (apply invoke_skip; rewrite Hty; by destruct l).
    rewrite IH. unfold blur_count, count_occ_of. by rewrite filter_cons_False.
Qed.

(** [blur()] calls the listeners through [run_on_blur]; for a blur
    event that is what [run_listener] does. *)
Lemma dispatch_run_on_blur ls ev :
  ev_type ev = "blur" →
  dispatch run_on_blur ls ev ≡ dispatch run_listener ls ev.
Proof. intros Hty p. by rewrite !dispatch_blur. Qed.

(** ** [blur()] *)

Lemma run_element_blur p n e :
  doc_active (pg_doc p) = Some n → doc_elements (pg_doc p) !! n = Some e →
  element_blur n p =
    (Ok tt, Nat.iter (blur_count (el_listeners e)) (exec commit_step) (unfocused p)).
Proof.
  intros Ha He. unfold element_blur. erewrite bind_ok by done.
  rewrite decide_True by done. erewrite bind_ok by done. fold (unfocused p).
  erewrite bind_ok by by apply run_listeners_of.
  erewrite bind_ok by by apply dispatch_blur. done.
Qed.

Lemma run_element_blur_inactive p n :
  doc_active (pg_doc p) ≠ Some n → element_blur n p = (Ok tt, p).
Proof. intros Ha. unfold element_blur. m_run. by rewrite decide_False. Qed.

(** ** Blur listeners on a page with a name field *)

Section name_field.
Context (p : page) (n : node) (e : element listener).
Context (Hn : find_id main_entity_name (pg_doc p) = Some n).
Context (He : doc_elements (pg_doc p) !! n = Some e).

(** The markup of the name field, and the request a commit sends. *)
Let html : string := serialize_fragment (el_children e).
Let rq : request := commit_request (pg_globals p) (pg_search p) html.

(** The locked page with [k] copies of the request of the commit in
    flight. *)
Definition resent (k : nat) : page :=
  let q := locked_page n e p in
  pg_set_pending (pg_pending p ++ replicate k rq)%list
    (pg_set_globals
       (with_call_globals (rq_data rq) (rq_method rq) (rq_callback rq) (rq_json rq)
          (pg_globals q)) q).

Lemma commit_step_first :
  exec commit_step p =
    if decide (html ≠ entity_name (pg_globals p)) then resent 1 else locked_page n e p.
Proof.
  unfold commit_step, exec, catch. rewrite (run_doneEditing p n e) by done.
  simpl. fold html. by case_decide.
Qed.

Lemma commit_step_locked :
  html = entity_name (pg_globals p) →
  exec commit_step (locked_page n e p) = locked_page n e p.
Proof.
  intros Hsame. unfold commit_step, exec, catch.
  rewrite (run_doneEditing _ n (locked e))
    by (by rewrite ?locked_page_find_id, ?locked_page_lookup).
  simpl. rewrite decide_False by (by intros []). apply locked_page_twice.
Qed.

Lemma commit_step_resent k :
  html ≠ entity_name (pg_globals p) →
  exec commit_step (resent k) = resent (S k).
Proof.
  intros Hdiff. unfold commit_step, exec, catch.
  rewrite (run_doneEditing _ n (locked e));
    [|by rewrite <- Hn; apply (locked_page_find_id p)|by apply (locked_page_lookup p)].
  simpl. rewrite decide_True by done.
  unfold committed_page, sent, resent, locked_page, with_element, commit_request. simpl.
  fold html. destruct (commit_target _ _ _ _) as [[endpoint searchParams] payload] eqn:Hc.
  subst rq. unfold commit_request. rewrite Hc. simpl.
  by rewrite list_insert_insert_eq, <- (assoc_L (++)), <- replicate_cons_app.
Qed.

(** [k+1] blur listeners in a row. *)
Lemma commit_steps k :
  Nat.iter (S k) (exec commit_step) p =
    if decide (html ≠ entity_name (pg_globals p)) then resent (S k) else locked_page n e p.
Proof.
  induction k as [|k IH]; [apply commit_step_first|].
  rewrite Nat.iter_succ, IH. case_decide as Hdiff.
  - by apply commit_step_resent.
  - apply commit_step_locked. by destruct (decide (html = entity_name (pg_globals p))).
Qed.

End name_field.

End blur.

(** ** The keydown listener *)

Section keydown.
Context `{MP : !MarkupPlatform}.
Implicit Types (p : page) (n : node) (ev : event).

(** The keys that revert the edit. *)
Definition is_escape (key : string) : Prop := key = "Escape" ∨ key = "Esc".

(** The keydown listener on every branch. *)
Lemma run_keydown_listener p n e ev :
  doc_elements (pg_doc p) !! n = Some e →
  keydown_listener n ev p =
    if decide (ev_key ev = "Enter") then
      (element_blur n >> ret (preventDefault ev)) p
    else if decide (is_escape (ev_key ev)) then
      (element_blur n >> ret (preventDefault ev))
        (with_markup n e (entity_name (pg_globals p)) p)
    else (Ok ev, p).
Proof.
  intros He. unfold keydown_listener, is_escape. repeat case_decide; try done.
  erewrite bind_ok by done. by erewrite bind_ok by by apply run_set_innerHTML.
Qed.

(** [blur()] on the focused name field with [k+1] blur listeners. *)
Lemma run_blur_name_field p n e k :
  find_id main_entity_name (pg_doc p) = Some n →
  doc_elements (pg_doc p) !! n = Some e →
  doc_active (pg_doc p) = Some n →
  blur_count (el_listeners e) = S k →
  element_blur n p =
    (Ok tt,
     if decide (serialize_fragment (el_children e) ≠ entity_name (pg_globals p))
     then resent (unfocused p) n e (S k) else locked_page n e (unfocused p)).
Proof.
  intros Hn He Ha Hk. rewrite (run_element_blur p n e), Hk by done.
  by rewrite (commit_steps (unfocused p) n e).
Qed.

(** The name field showing the text [entity_name] again, and the page
    that has it, before the blur. *)
Definition original (e : element listener) (p : page) : element listener :=
  el_set_children (text_node (entity_name (pg_globals p))) e.

Definition reverted (n : node) (e : element listener) (p : page) : page :=
  collapsed n (with_element n (original e p) p).

Lemma with_markup_free p n e s :
  Markup.markup_free s = true →
  with_markup n e s p = collapsed n (with_element n (el_set_children (text_node s) e) p).
Proof. intros Hs. unfold with_markup. by rewrite Markup.parse_markup_free. Qed.

Section focused.
Context (p : page) (n : node) (e : element listener) (k : nat) (ev : event).
Context (Hn : find_id main_entity_name (pg_doc p) = Some n).
Context (He : doc_elements (pg_doc p) !! n = Some e).
Context (Ha : doc_active (pg_doc p) = Some n).
Context (Hk : blur_count (el_listeners e) = S k).

(** Escape on a name without markup: the field shows the name again
    and is blurred. *)
Lemma run_keydown_escape :
  is_escape (ev_key ev) → Markup.markup_free (entity_name (pg_globals p)) = true →
  keydown_listener n ev p =
    (Ok (preventDefault ev),
     if decide (Markup.html_escape (entity_name (pg_globals p)) ≠ entity_name (pg_globals p))
     then resent (unfocused (reverted n e p)) n (original e p) (S k)
     else locked_page n (original e p) (unfocused (reverted n e p))).
Proof.
  intros Hkey Hfree. rewrite (run_keydown_listener p n e) by done.
  rewrite decide_False by (intros ?; destruct Hkey; congruence).
  rewrite decide_True, with_markup_free by done. fold (original e p) (reverted n e p).
  erewrite bind_ok.
  2:{ apply (run_blur_name_field _ n (original e p) k); [|by apply with_element_lookup, valid_node_lookup|done..].
      by rewrite <- Hn; apply (with_element_find_id n e). }
  simpl. by rewrite Markup.serialize_text.
Qed.

(** Enter in the focused name field, after the name was changed:
    the default action of the key is prevented, the field loses the
    focus and is locked, and one rename request is sent for each blur
    listener the field has. *)
Theorem enter_commits :
  ev_key ev = "Enter" →
  serialize_fragment (el_children e) ≠ entity_name (pg_globals p) →
  keydown_listener n ev p = (Ok (preventDefault ev), resent (unfocused p) n e (S k)) ∧
  pg_pending (resent (unfocused p) n e (S k)) =
    (pg_pending p ++ replicate (S k)
       (commit_request (pg_globals p) (pg_search p) (serialize_fragment (el_children e))))%list.
Proof.
  intros Hkey Hdiff. rewrite (run_keydown_listener p n e), decide_True by done.
  erewrite bind_ok by by apply (run_blur_name_field p n e k).
  by rewrite decide_True.
Qed.

(** Enter in the focused name field with the name unchanged: the
    field loses the focus and is locked, and no request is sent. *)
Theorem enter_unchanged :
  ev_key ev = "Enter" →
  serialize_fragment (el_children e) = entity_name (pg_globals p) →
  keydown_listener n ev p = (Ok (preventDefault ev), locked_page n e (unfocused p)) ∧
  pg_pending (locked_page n e (unfocused p)) = pg_pending p.
Proof.
  intros Hkey Hsame. rewrite (run_keydown_listener p n e), decide_True by done.
  erewrite bind_ok by by apply (run_blur_name_field p n e k).
  by rewrite decide_False by by intros [].
Qed.

(** Escape in the focused name field of an entity whose name has
    no markup and no character the serialiser escapes: whatever was
    typed, the field shows [entity_name] again, loses the focus and is
    locked, and no request is sent. *)
Theorem escape_reverts :
  is_escape (ev_key ev) →
  Markup.markup_free (entity_name (pg_globals p)) = true →
  Markup.escape_free (entity_name (pg_globals p)) = true →
  keydown_listener n ev p =
    (Ok (preventDefault ev), locked_page n (original e p) (unfocused (reverted n e p))) ∧
  pg_pending (locked_page n (original e p) (unfocused (reverted n e p))) = pg_pending p.
Proof.
  intros Hkey Hfree Hesc. rewrite run_keydown_escape by done.
  by rewrite decide_False by by rewrite Markup.html_escape_free; [intros []|].
Qed.

(** C37.  Escape in the focused name field of an entity whose name has a
    character the serialiser escapes ([&], [<], [>] or a no-break
    space): the reverted field reads back with the character escaped,
    which differs from [entity_name], and a rename to the escaped name
    is sent for each blur listener. *)
Theorem escape_sends_escaped_name :
  is_escape (ev_key ev) →
  Markup.markup_free (entity_name (pg_globals p)) = true →
  Markup.escape_free (entity_name (pg_globals p)) = false →
  Markup.html_escape (entity_name (pg_globals p)) ≠ entity_name (pg_globals p) ∧
  pg_pending (exec (keydown_listener n ev) p) =
    (pg_pending p ++ replicate (S k)
       (commit_request (pg_globals p) (pg_search p)
          (Markup.html_escape (entity_name (pg_globals p)))))%list.
Proof.
  intros Hkey Hfree Hesc.
  assert (Markup.html_escape (entity_name (pg_globals p)) ≠ entity_name (pg_globals p))
    as Hne by (rewrite Markup.html_escape_id; congruence).
  split; [done|]. unfold exec. rewrite run_keydown_escape by done.
  rewrite decide_True by done. simpl. by rewrite Markup.serialize_text.
Qed.

End focused.

(** Any key other than Enter, Escape and Esc: the listener does
    nothing, and the default action of the key is not prevented. *)
Theorem keydown_other_key p n ev :
  ev_key ev ≠ "Enter" → ¬ is_escape (ev_key ev) → keydown_listener n ev p = (Ok ev, p).
Proof. intros He Hesc. unfold keydown_listener. by rewrite !decide_False. Qed.

(** Enter or Escape while the name field does not have the focus:
    [blur()] has no effect, so nothing is committed. *)
Theorem enter_without_focus p n e ev :
  doc_elements (pg_doc p) !! n = Some e → doc_active (pg_doc p) ≠ Some n →
  ev_key ev = "Enter" →
  keydown_listener n ev p = (Ok (preventDefault ev), p).
Proof.
  intros He Ha Hkey. rewrite (run_keydown_listener p n e), decide_True by done.
  by erewrite bind_ok by by apply run_element_blur_inactive.
Qed.

End keydown.

(** ** The input listener *)

Section input.
Context `{MP : !MarkupPlatform}.
Implicit Types (p : page) (n : node) (ev : event).

(** The input listener on both branches. *)
Lemma run_input_listener p n e ev :
  doc_elements (pg_doc p) !! n = Some e →
  input_listener n ev p =
    (Ok ev,
     let html := serialize_fragment (el_children e) in
     if JsString.includes html JsString.newline
     then with_markup n e (JsString.replace html JsString.newline "") p else p).
Proof.
  intros He. unfold input_listener. erewrite bind_ok by by apply run_get_innerHTML.
  simpl. destruct (JsString.includes _ _); [|done].
  erewrite bind_ok; [done|].
  erewrite bind_ok by by apply run_get_innerHTML. by apply run_set_innerHTML.
Qed.

(** An input event on a field without a line feed: the listener
    changes nothing, and the selection stays where it is. *)
Theorem input_without_newline p n e ev :
  doc_elements (pg_doc p) !! n = Some e →
  JsString.includes (serialize_fragment (el_children e)) JsString.newline = false →
  input_listener n ev p = (Ok ev, p).
Proof. intros He Hnl. rewrite (run_input_listener p n e) by done. simpl. by rewrite Hnl. Qed.

(** C35.  An input event on a field whose text [t] has a line feed: the
    field is left with [t] without its first line feed, one line feed
    fewer than before, and a selection inside the field collapses to
    its start.  The text has no character the serialiser escapes, and
    what is left of it has no markup. *)
Theorem input_strips_newline p n e ev t :
  doc_elements (pg_doc p) !! n = Some e →
  el_children e = text_node t →
  Markup.escape_free t = true →
  JsString.includes t JsString.newline = true →
  Markup.markup_free (JsString.replace t JsString.newline "") = true →
  let t' := JsString.replace t JsString.newline "" in
  input_listener n ev p =
    (Ok ev, collapsed n (with_element n (el_set_children (text_node t') e) p)) ∧
  S (JsString.count_char JsString.LF t') = JsString.count_char JsString.LF t.
Proof.
  intros He Ht Hesc Hnl Hfree. rewrite (run_input_listener p n e) by done. simpl.
  rewrite Ht, Markup.serialize_text, Markup.html_escape_free, Hnl by done.
  unfold with_markup. rewrite Markup.parse_markup_free by done. split; [done|].
  apply JsString.count_char_includes in Hnl. rewrite JsString.count_char_replace. lia.
Qed.

End input.

(** ** Examples: keys and input in the name field of an artist *)

Section examples.
#[local] Existing Instance Markup.reference.

Definition key (k : string) : event := Event "keydown" k false.

Lemma dispatch_run_on_blur_witness :
  dispatch run_on_blur [KeydownListener 1; InputListener 1; BlurListener] blur_event ≡
  dispatch run_listener [KeydownListener 1; InputListener 1; BlurListener] blur_event.
Proof. by apply (dispatch_run_on_blur (MP:=Markup.reference)). Defined.

Lemma enter_commits_witness :
  let p := Examples.editing "Radiohead Remastered" Examples.artist_page in
  let e := Examples.editing_field "Radiohead Remastered" in
  keydown_listener 1 (key "Enter") p =
    (Ok (preventDefault (key "Enter")), resent (unfocused p) 1 e 1) ∧
  pg_pending (resent (unfocused p) 1 e 1) =
    [commit_request (pg_globals p) (pg_search p) "Radiohead Remastered"].
Proof.
  by apply (enter_commits (MP:=Markup.reference)
    (Examples.editing "Radiohead Remastered" Examples.artist_page) 1
    (Examples.editing_field "Radiohead Remastered") 0 (key "Enter")).
Defined.

Lemma enter_unchanged_witness :
  let p := Examples.editing "Radiohead" Examples.artist_page in
  let e := Examples.editing_field "Radiohead" in
  keydown_listener 1 (key "Enter") p =
    (Ok (preventDefault (key "Enter")), locked_page 1 e (unfocused p)) ∧
  pg_pending (locked_page 1 e (unfocused p)) = [].
Proof.
  by apply (enter_unchanged (MP:=Markup.reference)
    (Examples.editing "Radiohead" Examples.artist_page) 1
    (Examples.editing_field "Radiohead") 0 (key "Enter")).
Defined.

Lemma escape_reverts_witness :
  let p := Examples.editing "New Title" Examples.artist_page in
  let e := Examples.editing_field "New Title" in
  keydown_listener 1 (key "Escape") p =
    (Ok (preventDefault (key "Escape")),
     locked_page 1 (original e p) (unfocused (reverted 1 e p))) ∧
  pg_pending (locked_page 1 (original e p) (unfocused (reverted 1 e p))) = [].
Proof.
  apply (escape_reverts (MP:=Markup.reference)
    (Examples.editing "New Title" Examples.artist_page) 1
    (Examples.editing_field "New Title") 0 (key "Escape")); try done. by left.
Defined.

Lemma escape_sends_escaped_name_witness :
  let p := Examples.editing "Simon & Garfunkel" Examples.ampersand_page in
  Markup.html_escape "Simon & Garfunkel" ≠ "Simon & Garfunkel" ∧
  pg_pending (exec (keydown_listener 1 (key "Escape")) p) =
    [commit_request (pg_globals p) (pg_search p) "Simon &amp; Garfunkel"].
Proof.
  apply (escape_sends_escaped_name (MP:=Markup.reference)
    (Examples.editing "Simon & Garfunkel" Examples.ampersand_page) 1
    (Examples.editing_field "Simon & Garfunkel") 0 (key "Escape")); try done. by left.
Defined.

Lemma keydown_other_key_witness :
  let p := Examples.editing "Radiohead" Examples.artist_page in
  keydown_listener 1 (key "a") p = (Ok (key "a"), p).
Proof.
  apply (keydown_other_key (MP:=Markup.reference)); [done|]. by intros [|].
Defined.

Lemma enter_without_focus_witness :
  keydown_listener 1 (key "Enter") Examples.artist_page =
    (Ok (preventDefault (key "Enter")), Examples.artist_page).
Proof.
  by apply (enter_without_focus (MP:=Markup.reference) Examples.artist_page 1
    (Examples.plain (Some 0) "main_entity_name" ["headerwithextra"] "Radiohead")).
Defined.

Lemma input_without_newline_witness :
  let p := Examples.editing "Radiohead" Examples.artist_page in
  input_listener 1 (Event "input" "" false) p = (Ok (Event "input" "" false), p).
Proof.
  by apply (input_without_newline (MP:=Markup.reference)
    (Examples.editing "Radiohead" Examples.artist_page) 1 (Examples.editing_field "Radiohead")).
Defined.

(** Two lines pasted into the field, and a third. *)
Definition pasted : string :=
  "Radio" +:+ JsString.newline +:+ "head" +:+ JsString.newline +:+ "!".

Lemma input_strips_newline_witness :
  let p := Examples.editing pasted Examples.artist_page in
  let t' := JsString.replace pasted JsString.newline "" in
  input_listener 1 (Event "input" "" false) p =
    (Ok (Event "input" "" false),
     collapsed 1 (with_element 1
       (el_set_children (text_node t') (Examples.editing_field pasted)) p)) ∧
  S (JsString.count_char JsString.LF t') = JsString.count_char JsString.LF pasted.
Proof.
  by apply (input_strips_newline (MP:=Markup.reference)
    (Examples.editing pasted Examples.artist_page) 1 (Examples.editing_field pasted)).
Defined.

End examples.
