(* ===== verification/EntryProps.v ===== *)
(** * Edit-mode entry

    [focus()], [selectAll] and [editEntity]: the field becomes editable
    as plain text, gets its three listeners, the focus and a selection
    over its content. *)

From stdpp Require Import base tactics option list strings sorting.
From Stdlib Require Import ZArith.
From S2P Require Import Prelude Js JsString TokenList Markup Url Dom Page Edit.
From S2P Require Import Examples Run CommitProps ListenerProps.

#[local] Open Scope page_scope.
#[local] Open Scope string_scope.

Section entry.
Context `{MP : !MarkupPlatform}.
Implicit Types (p : page) (n : node) (e : element listener).

(** The page with the focus in [n]. *)
Definition focused (n : node) (p : page) : page :=
  pg_set_doc (doc_set_active (Some n) (pg_doc p)) p.

(** The page with the content of [n] selected. *)
Definition selected (n : node) (e : element listener) (p : page) : page :=
  pg_set_doc
    (doc_set_selection (Some (Range (Some n) 0 (child_count (el_children e)))) (pg_doc p)) p.

(** The name field as [editEntity] leaves it. *)
Definition editable_field (n : node) (e : element listener) : element listener :=
  el_add_listener BlurListener
    (el_add_listener (InputListener n)
       (el_add_listener (KeydownListener n) (el_set_contentEditable PlaintextOnly e))).

(** The page as [editEntity] leaves it. *)
Definition edit_mode (n : node) (e : element listener) (p : page) : page :=
  selected n e (focused n (with_element n (editable_field n e) p)).

(** No element other than [n] that has the focus has a blur listener:
    taking the focus from it runs no script. *)
Definition quiet_focus (n : node) (p : page) : Prop :=
  ∀ old eo, doc_active (pg_doc p) = Some old → old ≠ n →
    doc_elements (pg_doc p) !! old = Some eo → blur_count (el_listeners eo) = 0.

(** ** [selectAll] *)

Lemma run_selectAll p n e :
  doc_elements (pg_doc p) !! n = Some e → selectAll n p = (Ok tt, selected n e p).
Proof.
  intros He. unfold selectAll. erewrite bind_ok by done.
  erewrite bind_ok by by apply in_doc_pure, selectNodeContents_ok.
  by erewrite bind_ok by done.
Qed.

(** ** [focus()] *)

Lemma focused_active p n : doc_active (pg_doc p) = Some n → focused n p = p.
Proof. intros Ha. unfold focused, doc_set_active. rewrite <- Ha. by destruct p as [? [] ? ? ? ?]. Qed.

Lemma run_element_focus p n e :
  Dom.wf (pg_doc p) → doc_elements (pg_doc p) !! n = Some e → focusable e = true →
  quiet_focus n p → element_focus n p = (Ok tt, focused n p).
Proof.
  intros Hd He Hf Hq. unfold element_focus.
  erewrite bind_ok by by apply in_doc_pure, the_element_ok.
  erewrite bind_ok by done. rewrite Hf. simpl.
  destruct (doc_active (pg_doc p)) as [old|] eqn:Ha; [|by rewrite bool_decide_eq_false_2].
  destruct (decide (old = n)) as [->|Hne].
  { rewrite bool_decide_eq_true_2 by done. by rewrite focused_active. }
  rewrite bool_decide_eq_false_2 by congruence. simpl.
  pose proof (wf_active _ Hd old Ha) as [eo Heo]%valid_node_lookup.
  erewrite bind_ok by by apply (run_element_blur p old eo).
  by rewrite (Hq old eo).
Qed.

Lemma run_element_focus_locked p n e :
  doc_elements (pg_doc p) !! n = Some e → focusable e = false →
  element_focus n p = (Ok tt, p).
Proof.
  intros He Hf. unfold element_focus.
  erewrite bind_ok by by apply in_doc_pure, the_element_ok.
  erewrite bind_ok by done. by rewrite Hf.
Qed.

(** ** [editEntity] *)

(** On a platform that does not know ["plaintext-only"] the
    assignment of line 29 throws: no listener is registered and the
    field does not become editable. *)
Lemma run_editEntity_legacy p n :
  plaintext_only = false →
  find_id main_entity_name (pg_doc p) = Some n →
  editEntity p = (Throw SyntaxError, p).
Proof.
  intros Hlegacy Hn. unfold editEntity. erewrite bind_ok by apply run_getElementById.
  rewrite Hn. erewrite bind_ok by apply run_deref_some.
  by erewrite bind_throws by by apply run_set_contentEditable_unknown.
Qed.

(** From here on the platform knows ["plaintext-only"]. *)
Context `{KP : !KnowsPlaintextOnly}.

(** The statements of [editEntity] before [focus()]. *)
Lemma run_editEntity_setup p n e (k : node → JS page unit) :
  find_id main_entity_name (pg_doc p) = Some n →
  doc_elements (pg_doc p) !! n = Some e →
  (let* namefield := in_doc (getElementById main_entity_name) in
   let* namefield := deref namefield "contentEditable" in
   in_doc (set_contentEditable namefield PlaintextOnly) >>
   in_doc (addEventListener namefield (KeydownListener namefield)) >>
   in_doc (addEventListener namefield (InputListener namefield)) >>
   in_doc (addEventListener namefield BlurListener) >> k namefield) p =
  k n (with_element n (editable_field n e) p).
Proof.
  intros Hn He. assert (valid_node (pg_doc p) n) as Hv by (apply valid_node_lookup; eauto).
  erewrite bind_ok by apply run_getElementById. rewrite Hn.
  erewrite bind_ok by apply run_deref_some.
  erewrite bind_ok by by apply run_set_contentEditable.
  do 3 (erewrite bind_ok;
    [|by apply run_update_element; first [apply with_element_lookup|done]];
    rewrite ?with_element_twice).
  done.
Qed.

Lemma quiet_focus_with_element p n e :
  quiet_focus n p → quiet_focus n (with_element n e p).
Proof.
  intros Hq old eo Ha Hne Heo. rewrite with_element_lookup_ne in Heo by done.
  by apply (Hq old eo).
Qed.

Lemma editable_field_wf p n e :
  Dom.wf (pg_doc p) → doc_elements (pg_doc p) !! n = Some e →
  Dom.wf (pg_doc (with_element n (editable_field n e) p)).
Proof.
  intros Hd He. apply (with_element_wf n e); [done..| |done].
  apply (wf_elements _ Hd n e He).
Qed.

(** [editEntity] on a page with a name field. *)
Lemma run_editEntity p n e :
  Dom.wf (pg_doc p) →
  find_id main_entity_name (pg_doc p) = Some n →
  doc_elements (pg_doc p) !! n = Some e →
  quiet_focus n p →
  editEntity p = (Ok tt, edit_mode n e p).
Proof.
  intros Hd Hn He Hq. unfold editEntity.
  rewrite (run_editEntity_setup p n e (λ x, element_focus x >> selectAll x)) by done.
  assert (valid_node (pg_doc p) n) as Hv by (apply valid_node_lookup; eauto).
  erewrite bind_ok.
  2:{ apply (run_element_focus _ n (editable_field n e));
        auto using editable_field_wf, quiet_focus_with_element, with_element_lookup. }
  by rewrite (run_selectAll _ n (editable_field n e)) by by apply with_element_lookup.
Qed.

Lemma edit_mode_lookup p n e :
  doc_elements (pg_doc p) !! n = Some e →
  doc_elements (pg_doc (edit_mode n e p)) !! n = Some (editable_field n e).
Proof. intros He. apply with_element_lookup, valid_node_lookup. eauto. Qed.

Lemma edit_mode_lookup_ne p n e m :
  n ≠ m →
  doc_elements (pg_doc (edit_mode n e p)) !! m = doc_elements (pg_doc p) !! m.
Proof. intros Hne. by apply with_element_lookup_ne. Qed.

Lemma edit_mode_find_id p n e id :
  doc_elements (pg_doc p) !! n = Some e →
  find_id id (pg_doc (edit_mode n e p)) = find_id id (pg_doc p).
Proof. intros He. by apply (with_element_find_id n e). Qed.

Lemma blur_count_editable n e :
  blur_count (el_listeners (editable_field n e)) = S (blur_count (el_listeners e)).
Proof.
  unfold blur_count. simpl. rewrite <- !(assoc_L (++)), count_occ_of_app. simpl.
  unfold count_occ_of at 2. simpl. lia.
Qed.

(** C34.  [editEntity] on a page with a name field: the field becomes
    editable as plain text, a keydown, an input and a blur listener are
    appended to its listeners, it gets the focus, and its content is
    selected.  Nothing is sent. *)
Theorem editEntity_enters p n e :
  Dom.wf (pg_doc p) →
  find_id main_entity_name (pg_doc p) = Some n →
  doc_elements (pg_doc p) !! n = Some e →
  quiet_focus n p →
  ∃ e',
    result editEntity p = Ok tt ∧
    doc_elements (pg_doc (exec editEntity p)) !! n = Some e' ∧
    el_contentEditable e' = PlaintextOnly ∧
    el_listeners e' =
      (el_listeners e ++ [KeydownListener n; InputListener n; BlurListener])%list ∧
    el_children e' = el_children e ∧
    doc_active (pg_doc (exec editEntity p)) = Some n ∧
    doc_selection (pg_doc (exec editEntity p)) =
      Some (Range (Some n) 0 (child_count (el_children e))) ∧
    pg_pending (exec editEntity p) = pg_pending p.
Proof.
  intros Hd Hn He Hq. unfold result, exec. rewrite (run_editEntity p n e) by done.
  exists (editable_field n e). split_and!; try done.
  - by apply edit_mode_lookup.
  - simpl. by rewrite <- !(assoc_L (++)).
Qed.

(** [editEntity] on a page without an element with the id
    [main_entity_name] throws a [TypeError] and changes nothing. *)
Theorem editEntity_missing p :
  find_id main_entity_name (pg_doc p) = None →
  editEntity p = (Throw (TypeError "contentEditable"), p).
Proof.
  intros Hn. unfold editEntity. erewrite bind_ok by apply run_getElementById.
  by rewrite Hn.
Qed.

(** C40.  [selectAll] replaces the selection by one range over the
    content of the element, from its start to its end. *)
Theorem selectAll_selects p n e :
  doc_elements (pg_doc p) !! n = Some e →
  selectAll n p = (Ok tt, selected n e p) ∧
  doc_selection (pg_doc (selected n e p)) =
    Some (Range (Some n) 0 (child_count (el_children e))).
Proof. intros He. by rewrite (run_selectAll p n e). Qed.

End entry.

(** ** Examples *)

Section examples.
#[local] Existing Instance Markup.reference.

Lemma run_editEntity_example :
  editEntity Examples.artist_page =
    (Ok tt, Examples.editing "Radiohead" Examples.artist_page).
Proof.
  apply (run_editEntity (MP:=Markup.reference) Examples.artist_page 1
    (Examples.plain (Some 0) "main_entity_name" ["headerwithextra"] "Radiohead"));
    [by apply wf_check_sound|done..|by intros old eo ?].
Qed.

Lemma editEntity_enters_witness :
  ∃ e',
    result editEntity Examples.artist_page = Ok tt ∧
    doc_elements (pg_doc (exec editEntity Examples.artist_page)) !! 1 = Some e' ∧
    el_contentEditable e' = PlaintextOnly ∧
    el_listeners e' = [KeydownListener 1; InputListener 1; BlurListener] ∧
    el_children e' = text_node "Radiohead" ∧
    doc_active (pg_doc (exec editEntity Examples.artist_page)) = Some 1 ∧
    doc_selection (pg_doc (exec editEntity Examples.artist_page)) =
      Some (Range (Some 1) 0 1) ∧
    pg_pending (exec editEntity Examples.artist_page) = [].
Proof.
  apply (editEntity_enters (MP:=Markup.reference) Examples.artist_page 1
    (Examples.plain (Some 0) "main_entity_name" ["headerwithextra"] "Radiohead"));
    [by apply wf_check_sound|done..|by intros old eo ?].
Defined.

Lemma editEntity_missing_witness :
  editEntity Examples.bare_page = (Throw (TypeError "contentEditable"), Examples.bare_page).
Proof. by apply (editEntity_missing (MP:=Markup.reference)). Defined.

Lemma selectAll_selects_witness :
  let e := Examples.plain (Some 0) "main_entity_name" ["headerwithextra"] "Radiohead" in
  selectAll 1 Examples.artist_page = (Ok tt, selected 1 e Examples.artist_page) ∧
  doc_selection (pg_doc (selected 1 e Examples.artist_page)) = Some (Range (Some 1) 0 1).
Proof. by apply (selectAll_selects (MP:=Markup.reference) Examples.artist_page 1). Defined.

End examples.
