(* ===== verification/Invariants.v ===== *)
(** * Invariants

    A well-formed page stays well-formed: the document keeps its tree
    order, its class lists stay ordered sets of valid tokens, the focus
    and the selection stay inside the document, and every node a
    listener has captured stays a node of the document.  Shown for each
    function of edit.js, for each listener and for each event of the
    environment. *)

From stdpp Require Import base tactics option list strings sorting.
From Stdlib Require Import ZArith.
From S2P Require Import Prelude Js JsString TokenList Markup Url Dom Page Edit.
From S2P Require Import Examples Run CommitProps ListenerProps EntryProps.

#[local] Open Scope page_scope.
#[local] Open Scope string_scope.

Section document.
Context `{MP : !MarkupPlatform}.
Implicit Types (p : page) (d : document listener) (n : node).

(** The nodes the listeners of [d] have captured are nodes of [d]. *)
Definition listeners_ok (d : document listener) : Prop :=
  ∀ n e, doc_elements d !! n = Some e → Forall (wf_listener d) (el_listeners e).

(** The invariant of the document of a page. *)
Definition wf_doc (d : document listener) : Prop := Dom.wf d ∧ listeners_ok d.

Lemma wf_page_doc_iff p : wf_page p ↔ wf_doc (pg_doc p).
Proof. split; [by intros []|by intros []]. Qed.

(** [wf_listener] looks at the number of elements only. *)
Lemma wf_listener_length d d' l :
  length (doc_elements d') = length (doc_elements d) →
  wf_listener d l → wf_listener d' l.
Proof. intros Hlen. destruct l; unfold wf_listener, valid_node; by rewrite ?Hlen. Qed.

(** An update of one element keeps the listeners valid when the
    listeners it adds are. *)
Lemma alter_listeners_ok d n f :
  listeners_ok d →
  (∀ e, doc_elements d !! n = Some e → Forall (wf_listener d) (el_listeners e) →
        Forall (wf_listener d) (el_listeners (f e))) →
  listeners_ok (doc_set_elements (alter f n (doc_elements d)) d).
Proof.
  intros Hd Hf m e. simpl. rewrite list_lookup_alter. case_decide as Hnm.
  - subst m. destruct (doc_elements d !! n) as [e0|] eqn:He0; [|done].
    intros [= <-]. eapply Forall_impl; [by apply Hf, (Hd n)|].
    intros l. apply wf_listener_length. simpl. by rewrite length_alter.
  - intros He. eapply Forall_impl; [by apply (Hd m)|].
    intros l. apply wf_listener_length. simpl. by rewrite length_alter.
Qed.

Lemma update_element_listeners_ok n f :
  (∀ d e, doc_elements d !! n = Some e → Forall (wf_listener d) (el_listeners e) →
          Forall (wf_listener d) (el_listeners (f e))) →
  preserves listeners_ok (update_element n f).
Proof.
  intros Hf. unfold update_element. apply preserves_bind; [apply the_element_preserves|].
  intros _. apply preserves_modify. intros d Hd. apply alter_listeners_ok; auto.
Qed.

(** Focus and selection are not part of [listeners_ok]. *)
Lemma listeners_ok_elements d d' :
  doc_elements d' = doc_elements d → listeners_ok d → listeners_ok d'.
Proof.
  intros Hels Hd n e. rewrite Hels. intros He.
  eapply Forall_impl; [by apply (Hd n)|]. intros l. apply wf_listener_length. by rewrite Hels.
Qed.

Lemma modify_listeners_ok (f : document listener → document listener) :
  (∀ d, doc_elements (f d) = doc_elements d) →
  preserves listeners_ok (modify f : JS (document listener) unit).
Proof. intros Hf. apply preserves_modify. intros d. by apply listeners_ok_elements. Qed.

(** ** The methods of the document *)

Lemma set_contentEditable_listeners_ok n v :
  preserves listeners_ok (set_contentEditable n v).
Proof.
  unfold set_contentEditable. case_match; [by apply update_element_listeners_ok|].
  apply preserves_throw.
Qed.

Lemma set_innerHTML_listeners_ok n s : preserves listeners_ok (set_innerHTML n s).
Proof.
  unfold set_innerHTML. apply preserves_bind; [by apply update_element_listeners_ok|].
  intros _. by apply modify_listeners_ok.
Qed.

Lemma classList_listeners_ok {A} n (m : JS (list string) A) :
  preserves listeners_ok (zoom (get_classList n) (put_classList n) Dangling m).
Proof.
  apply (preserves_zoom _ (λ _, True)); [done| |done].
  intros d l l' Hd _ _. by apply alter_listeners_ok.
Qed.

Lemma addEventListener_listeners_ok n l :
  (∀ d, valid_node d n → wf_listener d l) →
  preserves listeners_ok (addEventListener n l).
Proof.
  intros Hl. apply update_element_listeners_ok. intros d e He Hls. simpl.
  apply Forall_app. split; [done|]. apply Forall_singleton, Hl, valid_node_lookup. eauto.
Qed.

(** ** The skeleton of the document

    The script creates and removes no element and changes no parent
    and no id: the skeleton of the document stays as the page was
    rendered. *)

Definition skeleton (d : document listener) : list (option node * string) :=
  (λ e, (el_parent e, el_id e)) <$> doc_elements d.

Definition has_skeleton (sk : list (option node * string)) (d : document listener) : Prop :=
  skeleton d = sk.

Lemma skeleton_valid sk d n : has_skeleton sk d → valid_node d n ↔ n < length sk.
Proof. intros <-. unfold valid_node, skeleton. by rewrite length_fmap. Qed.

Lemma skeleton_alter d n f :
  (∀ e, el_parent (f e) = el_parent e ∧ el_id (f e) = el_id e) →
  skeleton (doc_set_elements (alter f n (doc_elements d)) d) = skeleton d.
Proof.
  intros Hf. unfold skeleton. simpl. apply list_eq. intros i.
  rewrite !list_lookup_fmap, list_lookup_alter. case_decide; [subst i|done].
  destruct (doc_elements d !! n) as [e|]; [simpl|done]. by destruct (Hf e) as [-> ->].
Qed.

Lemma skeleton_find_id d d' id : skeleton d' = skeleton d → find_id id d' = find_id id d.
Proof.
  unfold skeleton, find_id. intros Hsk. case_decide; [done|].
  assert (∀ l : list (element listener),
    fst <$> list_find (λ e, el_id e = id) l
    = fst <$> list_find (λ q, q.2 = id) ((λ e, (el_parent e, el_id e)) <$> l)) as Hfind.
  { intros l. rewrite list_find_fmap. by destruct (list_find _ l) as [[? ?]|]. }
  by rewrite !Hfind, Hsk.
Qed.

Lemma update_element_skeleton sk n f :
  (∀ e, el_parent (f e) = el_parent e ∧ el_id (f e) = el_id e) →
  preserves (has_skeleton sk) (update_element n f).
Proof.
  intros Hf. unfold update_element. apply preserves_bind; [apply the_element_preserves|].
  intros _. apply preserves_modify. intros d <-. by apply skeleton_alter.
Qed.

Lemma modify_skeleton sk (f : document listener → document listener) :
  (∀ d, doc_elements (f d) = doc_elements d) →
  preserves (has_skeleton sk) (modify f : JS (document listener) unit).
Proof.
  intros Hf. apply preserves_modify. intros d <-. unfold has_skeleton, skeleton.
  by rewrite Hf.
Qed.

Lemma classList_skeleton {A} sk n (m : JS (list string) A) :
  preserves (has_skeleton sk) (zoom (get_classList n) (put_classList n) Dangling m).
Proof.
  apply (preserves_zoom _ (λ _, True)); [done| |done].
  intros d l l' <- _ _. by apply skeleton_alter.
Qed.

Lemma set_innerHTML_skeleton sk n s : preserves (has_skeleton sk) (set_innerHTML n s).
Proof.
  unfold set_innerHTML. apply preserves_bind; [by apply update_element_skeleton|].
  intros _. by apply modify_skeleton.
Qed.

(** ** The invariant *)

(** A well-formed document with valid listeners and the skeleton [sk]. *)
Definition inv_doc (sk : list (option node * string)) (d : document listener) : Prop :=
  Dom.wf d ∧ listeners_ok d ∧ has_skeleton sk d.

Lemma preserves_inv_doc {A} sk (m : JS (document listener) A) :
  preserves Dom.wf m → preserves listeners_ok m → preserves (has_skeleton sk) m →
  preserves (inv_doc sk) m.
Proof. intros H1 H2 H3 d (? & ? & ?). split_and!; auto. Qed.

End document.

#[export] Hint Resolve set_contentEditable_listeners_ok set_innerHTML_listeners_ok
  classList_listeners_ok addEventListener_listeners_ok modify_listeners_ok
  update_element_skeleton modify_skeleton classList_skeleton set_innerHTML_skeleton
  : page.

(** ** Methods of the document keep the invariant *)

Section methods.
Context `{MP : !MarkupPlatform}.
Context (sk : list (option node * string)).
Implicit Types (p : page) (d : document listener) (n : node).

Lemma set_contentEditable_skeleton n v :
  preserves (has_skeleton sk) (set_contentEditable n v).
Proof.
  unfold set_contentEditable. case_match; [by apply update_element_skeleton|].
  apply preserves_throw.
Qed.

Lemma set_contentEditable_inv n v : preserves (inv_doc sk) (set_contentEditable n v).
Proof. apply preserves_inv_doc; auto using set_contentEditable_skeleton with page. Qed.

Lemma addEventListener_inv n l :
  (∀ d, valid_node d n → wf_listener d l) →
  preserves (inv_doc sk) (addEventListener n l).
Proof. intros Hl. apply preserves_inv_doc; auto with page. by apply update_element_skeleton. Qed.

Lemma set_innerHTML_inv n s : preserves (inv_doc sk) (set_innerHTML n s).
Proof. apply preserves_inv_doc; auto with page. Qed.

Lemma classList_toggle_inv n t : preserves (inv_doc sk) (classList_toggle n t).
Proof. apply preserves_inv_doc; auto with page; apply classList_listeners_ok || apply classList_skeleton. Qed.

Lemma classList_add_inv n t : preserves (inv_doc sk) (classList_add n t).
Proof. apply preserves_inv_doc; auto with page; apply classList_listeners_ok || apply classList_skeleton. Qed.

Lemma selectNodeContents_preserves (I : document listener → Prop) r n :
  preserves I (selectNodeContents r n).
Proof. unfold selectNodeContents. auto with page. Qed.

Lemma blur_active_inv :
  preserves (inv_doc sk) (modify (doc_set_active None) : JS (document listener) unit).
Proof.
  apply preserves_modify. intros d ([Hels Hact Hsel] & Hl & Hsk).
  split_and!; [by split|by eapply listeners_ok_elements|done].
Qed.

Lemma removeAllRanges_inv : preserves (inv_doc sk) removeAllRanges.
Proof. apply preserves_inv_doc; [auto with page|by apply modify_listeners_ok|by apply modify_skeleton]. Qed.

(** Taking the focus keeps the invariant when the node is in the
    document. *)
Lemma focus_active_inv n :
  n < length sk →
  preserves (inv_doc sk) (modify (doc_set_active (Some n)) : JS (document listener) unit).
Proof.
  intros Hn. apply preserves_modify. intros d ([Hels Hact Hsel] & Hl & Hsk).
  split_and!; [split; try done|by eapply listeners_ok_elements|done].
  intros m [= <-]. by apply (skeleton_valid sk).
Qed.

(** A selection over the content of a node of the document. *)
Lemma select_inv d n e :
  inv_doc sk d → doc_elements d !! n = Some e →
  inv_doc sk
    (doc_set_selection (Some (Range (Some n) 0 (child_count (el_children e)))) d).
Proof.
  intros ([Hels Hact Hsel] & Hl & Hsk) He.
  split_and!; [split; try done|by eapply listeners_ok_elements|done].
  intros r [= <-]. split; simpl; [lia|]. unfold node_length. simpl. rewrite He. eauto.
Qed.

(** New content for a node, with the caret at its end. *)
Lemma retext_inv d n e c :
  inv_doc sk d → doc_elements d !! n = Some e →
  inv_doc sk
    (doc_set_selection (Some (Range (Some n) (child_count c) (child_count c)))
       (doc_set_elements (alter (el_set_children c) n (doc_elements d)) d)).
Proof.
  intros ([Hels Hact Hsel] & Hl & Hsk) He. split_and!.
  - split; simpl.
    + intros m e'. rewrite list_lookup_alter. case_decide as Hnm; [subst m|by apply Hels].
      rewrite He. intros [= <-]. by apply (Hels n e).
    + intros m Hm. unfold valid_node. simpl. rewrite length_alter. by apply Hact.
    + intros r [= <-]. split; [done|]. simpl. exists (child_count c).
      unfold node_length. simpl. by rewrite list_lookup_alter_eq, He.
  - eapply listeners_ok_elements; [|by apply (alter_listeners_ok d n (el_set_children c))].
    done.
  - unfold has_skeleton. rewrite <- Hsk. by apply (skeleton_alter d n).
Qed.

End methods.

#[export] Hint Resolve set_contentEditable_inv set_innerHTML_inv classList_toggle_inv
  classList_add_inv selectNodeContents_preserves blur_active_inv removeAllRanges_inv
  : page.

(** ** The invariant of the page *)

Section pages.
Context `{MP : !MarkupPlatform}.
Context (sk : list (option node * string)).
Implicit Types (p : page) (d : document listener) (n : node).

(** The page is well-formed and its document has the skeleton [sk]. *)
Definition inv (p : page) : Prop := inv_doc sk (pg_doc p).

Lemma in_doc_inv {A} (m : JS (document listener) A) :
  preserves (inv_doc sk) m → preserves inv (in_doc m).
Proof. intros Hm p Hp. unfold exec. rewrite in_doc_run. by apply Hm. Qed.

(** Globals, requests, reports and navigations are not part of it. *)
Lemma modify_inv (f : page → page) :
  (∀ p, pg_doc (f p) = pg_doc p) → preserves inv (modify f : JS page unit).
Proof. intros Hf. apply preserves_modify. intros p. unfold inv. by rewrite Hf. Qed.

Lemma set_newname_inv s : preserves inv (set_newname s).
Proof. by apply modify_inv. Qed.

Lemma set_call_globals_inv data m c j : preserves inv (set_call_globals data m c j).
Proof. by apply modify_inv. Qed.

Lemma xhttpreq_inv url data m c j : preserves inv (xhttpreq url data m c j).
Proof. by apply modify_inv. Qed.

Lemma assign_location_inv url : preserves inv (assign_location url).
Proof. by apply modify_inv. Qed.

Lemma report_inv x : preserves inv (report x).
Proof. by apply modify_inv. Qed.

Lemma global_inv {A} (f : globals → A) : preserves inv (global f).
Proof. apply preserves_gets. Qed.

Lemma deref_inv o property : preserves inv (deref o property).
Proof. apply preserves_from_option. Qed.

End pages.

#[export] Hint Resolve in_doc_inv set_newname_inv set_call_globals_inv xhttpreq_inv
  assign_location_inv report_inv global_inv deref_inv : page.

(** ** The script keeps the invariant *)

(** One statement of a sequence whose invariance the hints prove. *)
Ltac step_bind := apply preserves_bind; [solve [auto with page]|intros ?].

Section script.
Context `{MP : !MarkupPlatform}.
Context (sk : list (option node * string)).
Implicit Types (p : page) (n : node) (ev : event).

Lemma doneEditing_inv : preserves (inv sk) doneEditing.
Proof.
  unfold doneEditing. repeat step_bind. case_decide; [|auto with page].
  repeat step_bind. destruct (commit_target _ _ _ _) as [[? ?] ?]. auto with page.
Qed.

Lemma run_on_blur_inv l ev : preserves (inv sk) (run_on_blur l ev).
Proof. destruct l; simpl; unfold blur_listener; auto using doneEditing_inv with page. Qed.

Lemma dispatch_inv run ls ev :
  (∀ l e, preserves (inv sk) (run l e)) → preserves (inv sk) (dispatch run ls ev).
Proof. intros Hrun. apply dispatch_preserves; auto with page. Qed.

Lemma element_blur_inv n : preserves (inv sk) (element_blur n).
Proof.
  unfold element_blur. step_bind. case_decide; [|auto with page].
  repeat step_bind. apply preserves_bind; [|auto with page].
  apply dispatch_inv, run_on_blur_inv.
Qed.

Lemma keydown_listener_inv n ev : preserves (inv sk) (keydown_listener n ev).
Proof.
  unfold keydown_listener. repeat case_decide; repeat step_bind;
    auto using element_blur_inv with page.
Qed.

Lemma input_listener_inv n ev : preserves (inv sk) (input_listener n ev).
Proof.
  unfold input_listener. step_bind.
  apply preserves_bind; [|auto with page]. case_match; auto 6 with page.
Qed.

Lemma run_listener_inv l ev : preserves (inv sk) (run_listener l ev).
Proof.
  destruct l; simpl; unfold blur_listener;
    auto using keydown_listener_inv, input_listener_inv, doneEditing_inv with page.
Qed.

(** [selectAll] selects inside the document, or throws before it has
    changed the selection. *)
Lemma selectAll_inv n : preserves (inv sk) (selectAll n).
Proof.
  intros p Hp. unfold exec. destruct (doc_elements (pg_doc p) !! n) as [e|] eqn:He.
  - rewrite (run_selectAll p n e) by done. by apply select_inv.
  - unfold selectAll. erewrite bind_ok by by apply in_doc_pure.
    erewrite bind_throws; [done|]. apply in_doc_throws_pure.
    unfold selectNodeContents. by erewrite bind_throws by by apply the_element_dangling.
Qed.

(** [focus()] gives the focus to a node of the document, or throws
    before it has changed anything. *)
Lemma element_focus_inv n : preserves (inv sk) (element_focus n).
Proof.
  intros p Hp. unfold exec, element_focus.
  destruct (doc_elements (pg_doc p) !! n) as [e|] eqn:He.
  - assert (n < length sk) as Hn.
    { destruct Hp as (_ & _ & Hsk). apply (skeleton_valid sk _ n Hsk), valid_node_lookup. eauto. }
    erewrite bind_ok by by apply in_doc_pure, the_element_ok.
    erewrite bind_ok by done. case_match; [|done].
    refine (preserves_bind (inv sk) _ _ _ _ p Hp).
    + destruct (doc_active _); auto using element_blur_inv with page.
    + intros _. by apply in_doc_inv, focus_active_inv.
  - by erewrite bind_throws by by apply in_doc_throws_pure, the_element_dangling.
Qed.

Lemma editEntity_inv : preserves (inv sk) editEntity.
Proof.
  unfold editEntity. repeat step_bind.
  repeat (apply preserves_bind; [by apply in_doc_inv, addEventListener_inv|intros _]).
  apply preserves_bind; [apply element_focus_inv|intros _; apply selectAll_inv].
Qed.

Lemma toggleDeleteConfirm_inv element : preserves (inv sk) (toggleDeleteConfirm element).
Proof. unfold toggleDeleteConfirm. repeat step_bind. auto with page. Qed.

Lemma deleteScrobble_inv id element : preserves (inv sk) (deleteScrobble id element).
Proof. unfold deleteScrobble. repeat step_bind. auto with page. Qed.

(** ** The events of the environment keep the invariant *)

Lemma run_callback_inv cb : preserves (inv sk) (run_callback cb).
Proof. destruct cb; simpl; auto with page. Qed.

Lemma complete_inv i : preserves (inv sk) (complete i).
Proof.
  unfold complete. step_bind. case_match; [|auto with page].
  apply preserves_bind; [by apply modify_inv|intros _].
  apply preserves_catch; auto using run_callback_inv with page.
Qed.

Lemma fail_request_inv i : preserves (inv sk) (fail_request i).
Proof. by apply modify_inv. Qed.

Lemma fire_inv target ev : preserves (inv sk) (fire target ev).
Proof.
  unfold fire, event_path. repeat step_bind. apply dispatch_inv, run_listener_inv.
Qed.

Lemma press_key_inv key : preserves (inv sk) (press_key key).
Proof. unfold press_key. step_bind. case_match; auto using fire_inv with page. Qed.

Lemma click_away_inv : preserves (inv sk) click_away.
Proof. unfold click_away. step_bind. case_match; auto using element_blur_inv with page. Qed.

Lemma input_text_inv text : preserves (inv sk) (input_text text).
Proof.
  intros p Hp. unfold exec, input_text. erewrite bind_ok by done.
  destruct (doc_active (pg_doc p)) as [n|] eqn:Ha; [|done].
  pose proof Hp as ([_ Hact _] & _ & _).
  apply Hact, valid_node_lookup in Ha as [e He].
  erewrite bind_ok by by eapply in_doc_ok, update_element_ok.
  erewrite bind_ok by done.
  refine (preserves_bind (inv sk) _ _ (fire_inv _ _) _ _ _); [auto with page|].
  by apply (retext_inv sk (pg_doc p) n e).
Qed.

End script.

(** ** What the script never changes

    The three globals the page sets and the query string of the page
    are read and never written: a name the server has changed is not
    the name later commits are compared with. *)

Section constants.
Context `{MP : !MarkupPlatform}.
Context (c : string * value * string * string).
Implicit Types (p : page) (n : node) (ev : event).

Definition constants (p : page) : string * value * string * string :=
  (entity_type (pg_globals p), entity_id (pg_globals p), entity_name (pg_globals p),
   pg_search p).

Definition has_constants (p : page) : Prop := constants p = c.

Lemma in_doc_constants {A} (m : JS (document listener) A) :
  preserves has_constants (in_doc m).
Proof. intros p Hp. unfold exec. by rewrite in_doc_run. Qed.

Lemma modify_constants (f : page → page) :
  (∀ p, constants (f p) = constants p) →
  preserves has_constants (modify f : JS page unit).
Proof. intros Hf. apply preserves_modify. intros p. unfold has_constants. by rewrite Hf. Qed.

Lemma set_newname_constants s : preserves has_constants (set_newname s).
Proof. by apply modify_constants. Qed.

Lemma set_call_globals_constants data m cb j :
  preserves has_constants (set_call_globals data m cb j).
Proof. by apply modify_constants. Qed.

Lemma xhttpreq_constants url data m cb j : preserves has_constants (xhttpreq url data m cb j).
Proof. by apply modify_constants. Qed.

Lemma assign_location_constants url : preserves has_constants (assign_location url).
Proof. by apply modify_constants. Qed.

Lemma report_constants x : preserves has_constants (report x).
Proof. by apply modify_constants. Qed.

Lemma global_constants {A} (f : globals → A) : preserves has_constants (global f).
Proof. apply preserves_gets. Qed.

Lemma deref_constants o property : preserves has_constants (deref o property).
Proof. apply preserves_from_option. Qed.

#[local] Hint Resolve in_doc_constants set_newname_constants set_call_globals_constants
  xhttpreq_constants assign_location_constants report_constants global_constants
  deref_constants : page.

Lemma doneEditing_constants : preserves has_constants doneEditing.
Proof.
  unfold doneEditing. repeat step_bind. case_decide; [|auto with page].
  repeat step_bind. destruct (commit_target _ _ _ _) as [[? ?] ?]. auto with page.
Qed.

Lemma fail_request_constants i : preserves has_constants (fail_request i).
Proof. by apply modify_constants. Qed.

Lemma complete_constants i : preserves has_constants (complete i).
Proof.
  unfold complete. step_bind. case_match; [|auto with page].
  apply preserves_bind; [by apply modify_constants|intros _].
  apply preserves_catch; [destruct (rq_callback _); simpl|]; auto with page.
Qed.

End constants.
