(* ===== verification/Frame.v ===== *)
(** * Invariants of what the script leaves outside the document

    [Frame I] says that [I] is an invariant of the five ways the script
    touches the page outside of the document: any use of the
    document, the globals of an argument list, a reported exception, a
    call of [doneEditing], and the request of [deleteScrobble]; and of
    a request that fails.  Every other function, listener and event of
    [Edit] but the completion of a request is composed of these, so an
    instance of [Frame] is an invariant of all of them.  The
    constants of the page are the first instance; [Requests] has the
    provenance of requests and navigations. *)

From stdpp Require Import base tactics option list strings.
From Stdlib Require Import ZArith.
From S2P Require Import Prelude Js JsString TokenList Markup Url Dom Page Edit.
From S2P Require Import Invariants.

#[local] Open Scope page_scope.
#[local] Open Scope string_scope.

Class Frame `{MP : !MarkupPlatform} (I : page → Prop) : Prop := {
  frame_doc {A} (m : JS (document listener) A) : preserves I (in_doc m);
  frame_call_globals data m cb j : preserves I (set_call_globals data m cb j);
  frame_report x : preserves I (report x);
  frame_commit : preserves I doneEditing;
  frame_delete id :
    preserves I (xhttpreq (Some delete_endpoint) (Some [("timestamp", id)]) "POST" CbNull true);
  frame_failure i : preserves I (fail_request i);
}.

Section frame.
Context `{MP : !MarkupPlatform} (I : page → Prop) `{HI : !Frame I}.
Implicit Types (p : page) (n : node) (ev : event).

#[local] Hint Resolve frame_doc frame_call_globals frame_report frame_commit
  frame_delete : page.

Lemma global_frame {A} (f : globals → A) : preserves I (global f).
Proof. apply preserves_gets. Qed.

Lemma deref_frame o property : preserves I (deref o property).
Proof. apply preserves_from_option. Qed.

#[local] Hint Resolve global_frame deref_frame : page.

Lemma dispatch_frame run ls ev :
  (∀ l e, preserves I (run l e)) → preserves I (dispatch run ls ev).
Proof. intros Hrun. apply dispatch_preserves; auto with page. Qed.

Lemma element_blur_frame n : preserves I (element_blur n).
Proof.
  unfold element_blur. step_bind. case_decide; [|auto with page].
  repeat step_bind. apply preserves_bind; [|auto with page].
  apply dispatch_frame. intros [] ?; simpl; unfold blur_listener; auto with page.
Qed.

#[local] Hint Resolve element_blur_frame : page.

Lemma run_listener_frame l ev : preserves I (run_listener l ev).
Proof.
  destruct l; simpl; unfold keydown_listener, input_listener, blur_listener;
    repeat case_decide; repeat step_bind; auto with page.
  apply preserves_bind; [case_match|]; auto with page.
Qed.

Lemma element_focus_frame n : preserves I (element_focus n).
Proof.
  unfold element_focus. repeat step_bind. case_match; [|auto with page].
  apply preserves_bind; [case_match|]; auto with page.
Qed.

Lemma selectAll_frame n : preserves I (selectAll n).
Proof. unfold selectAll. repeat step_bind. auto with page. Qed.

Lemma editEntity_frame : preserves I editEntity.
Proof.
  unfold editEntity. repeat step_bind.
  apply preserves_bind; [apply element_focus_frame|intros _; apply selectAll_frame].
Qed.

Lemma toggleDeleteConfirm_frame element : preserves I (toggleDeleteConfirm element).
Proof. unfold toggleDeleteConfirm. repeat step_bind. auto with page. Qed.

Lemma deleteScrobble_frame id element : preserves I (deleteScrobble id element).
Proof. unfold deleteScrobble. repeat step_bind. auto with page. Qed.

Lemma fire_frame target ev : preserves I (fire target ev).
Proof. unfold fire. do 2 step_bind. apply dispatch_frame, run_listener_frame. Qed.

Lemma press_key_frame key : preserves I (press_key key).
Proof. unfold press_key. step_bind. case_match; auto using fire_frame with page. Qed.

Lemma input_text_frame text : preserves I (input_text text).
Proof.
  unfold input_text. step_bind. case_match; [|auto with page]. do 2 step_bind.
  auto using fire_frame with page.
Qed.

Lemma click_away_frame : preserves I click_away.
Proof. unfold click_away. step_bind. case_match; auto with page. Qed.

End frame.

(** The conjunction of two invariants. *)
#[export] Instance frame_and `{MP : !MarkupPlatform} (I J : page → Prop) :
  Frame I → Frame J → Frame (λ p, I p ∧ J p).
Proof.
  intros HI HJ. split; intros; apply preserves_and;
    first [apply frame_doc|apply frame_call_globals|apply frame_report
          |apply frame_commit|apply frame_delete|apply frame_failure].
Qed.

(** The constants of the page. *)
#[export] Instance constants_frame `{MP : !MarkupPlatform} c : Frame (has_constants c).
Proof.
  split; intros;
    first [apply in_doc_constants|apply set_call_globals_constants|apply report_constants
          |apply doneEditing_constants|apply xhttpreq_constants
          |apply fail_request_constants].
Qed.
