(* ===== verification/Actions.v ===== *)
(** * The page as a transition system

    The actions of the user and of the network, the handler each one
    runs, and the step relation they generate.  A request in flight
    completes, and its callback runs, or fails, and it does not.  An
    exception that leaves an [onclick] handler is reported like one
    that leaves a listener.  The invariant of [Invariants] holds in every reachable
    page. *)

From stdpp Require Import base tactics option list strings sorting.
From Stdlib Require Import ZArith.
From S2P Require Import Prelude Js JsString TokenList Markup Url Dom Page Edit.
From S2P Require Import Examples Run CommitProps ListenerProps EntryProps Invariants Frame.

#[local] Open Scope page_scope.
#[local] Open Scope string_scope.

(** What happens to the page. *)
Inductive action : Type :=
  | ClickToggle (element : node)
  | ClickDelete (id : value) (element : node)
  | ClickEdit
  | PressKey (key : string)
  | TypeText (text : string)
  | ClickAway
  | Complete (i : nat)
  | Failure (i : nat).

#[export] Instance action_eq_dec : EqDecision action.
Proof. solve_decision. Defined.

(** The completions of requests. *)
Definition is_completion (a : action) : Prop :=
  match a with Complete _ => True | _ => False end.

#[export] Instance is_completion_dec a : Decision (is_completion a).
Proof. destruct a; apply _. Defined.

(** The actions of the network: a request completes or fails. *)
Definition is_network (a : action) : Prop :=
  match a with Complete _ | Failure _ => True | _ => False end.

#[export] Instance is_network_dec a : Decision (is_network a).
Proof. destruct a; apply _. Defined.

Section actions.
Context `{MP : !MarkupPlatform} `{KP : !KnowsPlaintextOnly}.
Implicit Types (p q : page) (a : action) (n : node).

(** The script an action runs. *)
Definition handler (a : action) : JS page unit :=
  match a with
  | ClickToggle element => toggleDeleteConfirm element
  | ClickDelete id element => deleteScrobble id element
  | ClickEdit => editEntity
  | PressKey key => press_key key >> ret tt
  | TypeText text => input_text text
  | ClickAway => click_away
  | Complete i => complete i
  | Failure i => fail_request i
  end.

(** An action runs its handler; the environment reports an exception
    that leaves it. *)
Definition perform (a : action) : JS page unit := catch (handler a) report.

(** When an action can happen: a click needs its element, a key and a
    text need an element with the focus, which for a text must be
    editable, and only a request in flight completes. *)
Definition enabled (a : action) (p : page) : Prop :=
  match a with
  | ClickToggle element | ClickDelete _ element => valid_node (pg_doc p) element
  | ClickEdit | ClickAway => True
  | PressKey _ => is_Some (doc_active (pg_doc p))
  | TypeText _ =>
      match doc_active (pg_doc p) ≫= (doc_elements (pg_doc p) !!.) with
      | Some e => focusable e = true
      | None => False
      end
  | Complete i | Failure i => is_Some (pg_pending p !! i)
  end.

(** The keydown of [key] is cancelled: a listener has called
    [preventDefault], and the browser does not go on with the default
    action of the key. *)
Definition default_prevented (key : string) (p : page) : bool :=
  match result (press_key key) p with
  | Ok ev => ev_defaultPrevented ev
  | Throw _ => false
  end.

#[export] Instance enabled_dec a p : Decision (enabled a p).
Proof. destruct a; simpl; unfold valid_node; try case_match; apply _. Defined.

(** One step of the page. *)
Inductive step : page → action → page → Prop :=
  | Step p a : enabled a p → step p a (exec (perform a) p).

(** A sequence of steps. *)
Inductive steps : page → list action → page → Prop :=
  | steps_nil p : steps p [] p
  | steps_cons p a q l r : step p a q → steps q l r → steps p (a :: l) r.

(** The page after the actions [l], each performed whether enabled or
    not. *)
Fixpoint run_actions (l : list action) (p : page) : page :=
  match l with
  | [] => p
  | a :: l' => run_actions l' (exec (perform a) p)
  end.

(** Every action of [l] is enabled when its turn comes. *)
Fixpoint all_enabled (l : list action) (p : page) : bool :=
  match l with
  | [] => true
  | a :: l' => bool_decide (enabled a p) && all_enabled l' (exec (perform a) p)
  end.

End actions.

(** ** Lemmas *)

Section action_lemmas.
Context `{MP : !MarkupPlatform} `{KP : !KnowsPlaintextOnly}.
Implicit Types (p q : page) (a : action) (n : node).

Lemma perform_ok a p : is_ok (result (perform a) p) = true.
Proof. unfold perform, result, catch. by destruct (handler a p) as [[[]|x] q]. Qed.

(** The step relation is a function of the page and the action. *)
Lemma step_deterministic p a q1 q2 : step p a q1 → step p a q2 → q1 = q2.
Proof. by intros [] Hs; inversion Hs. Qed.

Lemma steps_run_actions p l q : steps p l q → q = run_actions l p.
Proof. induction 1 as [|p a q l r [] _ IH]; [done|by rewrite IH]. Qed.

Lemma steps_app p l1 q l2 r : steps p l1 q → steps q l2 r → steps p (l1 ++ l2) r.
Proof. induction 1; simpl; eauto using steps. Qed.

Lemma run_actions_app l1 l2 p : run_actions (l1 ++ l2) p = run_actions l2 (run_actions l1 p).
Proof. revert p. induction l1 as [|a l1 IH]; intros p; simpl; [done|apply IH]. Qed.

Lemma handler_inv sk a : preserves (inv sk) (handler a).
Proof.
  destruct a; simpl;
    auto using toggleDeleteConfirm_inv, deleteScrobble_inv, editEntity_inv, press_key_inv,
      input_text_inv, click_away_inv, complete_inv, fail_request_inv with page.
Qed.

Lemma perform_inv sk a : preserves (inv sk) (perform a).
Proof. apply preserves_catch; auto using handler_inv with page. Qed.

Lemma step_inv sk p a q : step p a q → inv sk p → inv sk q.
Proof. intros [] Hp. by apply perform_inv. Qed.

(** An invariant of what is outside the document that completions
    keep is an invariant of every handler. *)
Lemma handler_frame (I : page → Prop) `{!Frame I} a :
  (∀ i, a = Complete i → preserves I (complete i)) → preserves I (handler a).
Proof.
  intros Hc. destruct a; simpl;
    auto using toggleDeleteConfirm_frame, deleteScrobble_frame, editEntity_frame,
      press_key_frame, input_text_frame, click_away_frame, frame_failure with page.
Qed.

Lemma perform_frame (I : page → Prop) `{!Frame I} a :
  (∀ i, a = Complete i → preserves I (complete i)) → preserves I (perform a).
Proof. intros Hc. apply preserves_catch; [by apply handler_frame|apply frame_report]. Qed.

Lemma steps_frame (I : page → Prop) `{!Frame I} p l q :
  (∀ i, Complete i ∈ l → preserves I (complete i)) → steps p l q → I p → I q.
Proof.
  intros Hc Hsteps. induction Hsteps as [|p a q l r [p' a' _] _ IH]; [done|].
  intros Hp. apply IH; [intros i Hi; apply Hc; by right|].
  apply perform_frame; [done| |done]. intros i ->. apply Hc. by left.
Qed.

(** The same for a run without completions, whatever they do. *)
Lemma steps_frame_quiet (I : page → Prop) `{!Frame I} p l q :
  Forall (λ a, ¬ is_completion a) l → steps p l q → I p → I q.
Proof.
  intros Hl. apply steps_frame; [done|]. intros i Hi.
  rewrite Forall_forall in Hl. by destruct (Hl _ Hi).
Qed.

Lemma perform_constants c a : preserves (has_constants c) (perform a).
Proof. apply perform_frame; [apply _|]. intros i _. apply complete_constants. Qed.

Lemma run_actions_steps l p : all_enabled l p = true → steps p l (run_actions l p).
Proof.
  revert p. induction l as [|a l IH]; intros p; simpl; [constructor|].
  intros [Ha Hl]%andb_true_iff. apply bool_decide_eq_true in Ha.
  eauto using steps, step.
Qed.

Lemma steps_all_enabled p l q : steps p l q → all_enabled l p = true.
Proof.
  induction 1 as [|p a q l r [p' a' Ha] _ IH]; simpl; [done|].
  by rewrite bool_decide_true.
Qed.

(** The runs of the page are the sequences of actions that are
    enabled when their turn comes. *)
Lemma steps_iff p l q : steps p l q ↔ all_enabled l p = true ∧ q = run_actions l p.
Proof.
  split; [eauto using steps_all_enabled, steps_run_actions|].
  intros [Hl ->]. by apply run_actions_steps.
Qed.

(** C9.  Whatever the user and the network do, in any order, a
    well-formed page stays well-formed; no element is created, removed
    or moved and no id changes, so the name field stays the element it
    was; and the entity globals and the query string of the page keep
    their values. *)
Theorem steps_keep_invariant p l q :
  wf_page p → steps p l q →
  wf_page q ∧ skeleton (pg_doc q) = skeleton (pg_doc p) ∧
  find_id main_entity_name (pg_doc q) = find_id main_entity_name (pg_doc p) ∧
  constants q = constants p.
Proof.
  intros Hp Hsteps.
  assert (inv (skeleton (pg_doc p)) q ∧ has_constants (constants p) q) as [Hq Hc].
  { assert (inv (skeleton (pg_doc p)) p ∧ has_constants (constants p) p) as Hstart
      by by apply wf_page_doc_iff in Hp as [? ?].
    revert Hstart. generalize (skeleton (pg_doc p)) (constants p). clear Hp.
    induction Hsteps as [|p a q l r [p' a' _] _ IH]; intros sk c [Hi Hc]; [done|].
    apply IH. split; [by apply perform_inv|by apply perform_constants]. }
  destruct Hq as (Hd & Hl & Hsk). split_and!; [by split|done| |done].
  by apply skeleton_find_id.
Qed.

End action_lemmas.

(** ** Example: a rename, from the click on the pencil to the reload *)

Section examples.
#[local] Existing Instance Markup.reference.

Definition rename_actions : list action :=
  [ClickEdit; TypeText "Radiohead Remastered"; PressKey "Enter"; Complete 0].

Lemma steps_keep_invariant_witness :
  let q := run_actions rename_actions Examples.artist_page in
  wf_page q ∧ skeleton (pg_doc q) = skeleton (pg_doc Examples.artist_page) ∧
  find_id main_entity_name (pg_doc q) = Some 1 ∧
  constants q = ("artist", VNum 7, "Radiohead", "?artist=Radiohead").
Proof.
  apply (steps_keep_invariant (MP:=Markup.reference) Examples.artist_page rename_actions).
  - apply wf_page_doc_iff. split; [by apply wf_check_sound|].
    intros n e He. by repeat (destruct n as [|n]; [injection He as <-; constructor|]).
  - by apply run_actions_steps.
Defined.

(** The rename of the example ends with one navigation, to the page of
    the new name. *)
Example rename_actions_navigate :
  pg_navigations (run_actions rename_actions Examples.artist_page) =
    ["?artist=Radiohead+Remastered"] ∧
  pg_pending (run_actions rename_actions Examples.artist_page) = [].
Proof. by vm_compute. Qed.

End examples.
