(* ===== verification/Requests.v ===== *)
(** * The requests and the navigations of a page

    Every request in flight was sent by [deleteScrobble] or by
    [doneEditing] for a name that differs from [entity_name], with the
    type, the id and the query string of the page; and every navigation
    is the callback of such a rename.  So on the page of an artist or
    of a track every request is one the three endpoints accept, and the
    page goes nowhere but to the query string of a rename whose request
    has completed. *)

From stdpp Require Import base tactics option list strings sorting.
From Stdlib Require Import ZArith.
From S2P Require Import Prelude Js JsString TokenList Markup Url Dom Page Edit.
From S2P Require Import Examples Run DeleteProps CommitProps Invariants Frame Actions.

#[local] Open Scope page_scope.
#[local] Open Scope string_scope.

(** ** Navigations happen at completions only *)

Section navigations.
Context `{MP : !MarkupPlatform} `{KP : !KnowsPlaintextOnly}.
Context (P : list string → Prop).

(** What is said of the navigations of the page. *)
Definition of_navigations (p : page) : Prop := P (pg_navigations p).

Lemma modify_navigations (f : page → page) :
  (∀ p, pg_navigations (f p) = pg_navigations p) →
  preserves of_navigations (modify f : JS page unit).
Proof. intros Hf. apply preserves_modify. intros p. unfold of_navigations. by rewrite Hf. Qed.

Lemma in_doc_navigations {A} (m : JS (document listener) A) :
  preserves of_navigations (in_doc m).
Proof. intros p Hp. unfold exec. by rewrite in_doc_run. Qed.

Lemma xhttpreq_navigations endpoint data m cb j :
  preserves of_navigations (xhttpreq endpoint data m cb j).
Proof. by apply modify_navigations. Qed.

Lemma set_call_globals_navigations data m cb j :
  preserves of_navigations (set_call_globals data m cb j).
Proof. by apply modify_navigations. Qed.

Lemma doneEditing_navigations : preserves of_navigations doneEditing.
Proof.
  unfold doneEditing, deref, global.
  repeat (apply preserves_bind; [|intros ?]);
    try first [apply in_doc_navigations|by apply modify_navigations]; auto with page.
  case_decide; [|auto with page].
  repeat (apply preserves_bind; [|intros ?]); auto with page.
  destruct (commit_target _ _ _ _) as [[? ?] ?].
  apply preserves_bind;
    auto using set_call_globals_navigations, xhttpreq_navigations.
Qed.

#[export] Instance navigations_frame : Frame of_navigations.
Proof.
  split; intros;
    first [apply in_doc_navigations|apply doneEditing_navigations|by apply modify_navigations].
Qed.

End navigations.

(** ** Where requests and navigations come from *)

Section provenance.
Context `{MP : !MarkupPlatform} `{KP : !KnowsPlaintextOnly}.
Context (ty : string) (id : value) (name search : string).
Implicit Types (p q : page) (rq : request) (html url : string).

(** The request of a rename to [html] on a page with these constants. *)
Definition rename_request (html : string) : request :=
  let '(endpoint, searchParams, payload) :=
    commit_target ty id html (Url.parse search) in
  Request endpoint payload "POST" (CbNavigate searchParams) true.

(** Where its callback navigates. *)
Definition rename_target (html : string) : string :=
  target_url (commit_target ty id html (Url.parse search)).1.2.

(** A request the script sends. *)
Definition from_script (rq : request) : Prop :=
  (∃ t, rq = delete_request t) ∨ (∃ html, html ≠ name ∧ rq = rename_request html).

(** A navigation the script causes. *)
Definition from_rename (url : string) : Prop :=
  ∃ html, html ≠ name ∧ url = rename_target html.

(** The requests in flight were sent by the script. *)
Definition sent_by_script (p : page) : Prop :=
  has_constants (ty, id, name, search) p ∧ Forall from_script (pg_pending p).

(** So were the requests whose callbacks have navigated. *)
Definition provenance (p : page) : Prop :=
  sent_by_script p ∧ of_navigations (Forall from_rename) p.

(** What the endpoints accept: a POST with a JSON body that is
    [{timestamp}] for a delete, [{id, name}] for the rename of an
    artist and [{id, title}] for the rename of a track, the id being
    the id of the entity of the page. *)
Definition api_request (rq : request) : bool :=
  bool_decide (rq_method rq = "POST") && rq_json rq &&
  match rq_url rq, rq_data rq with
  | Some endpoint, Some [(k, _)] =>
      bool_decide (endpoint = delete_endpoint ∧ k = "timestamp")
  | Some endpoint, Some [(k1, i); (k2, VStr _)] =>
      bool_decide (k1 = "id" ∧ i = id ∧
        ((ty = "artist" ∧ endpoint = edit_artist_endpoint ∧ k2 = "name") ∨
         (ty = "track" ∧ endpoint = edit_track_endpoint ∧ k2 = "title")))
  | _, _ => false
  end.

(** ** The invariant *)

Lemma modify_sent (f : page → page) :
  (∀ p, constants (f p) = constants p ∧ pg_pending (f p) = pg_pending p) →
  preserves sent_by_script (modify f : JS page unit).
Proof.
  intros Hf. apply preserves_modify. intros p (Hc & Hp).
  destruct (Hf p) as (Hc' & Hp'). unfold sent_by_script, has_constants.
  by rewrite Hc', Hp'.
Qed.

Lemma in_doc_sent {A} (m : JS (document listener) A) : preserves sent_by_script (in_doc m).
Proof. intros p Hp. unfold exec. by rewrite in_doc_run. Qed.

Lemma xhttpreq_sent endpoint data cb j :
  from_script (Request endpoint data "POST" cb j) →
  preserves sent_by_script (xhttpreq endpoint data "POST" cb j).
Proof.
  intros Hrq. apply preserves_modify. intros p (Hc & Hp).
  split; [done|]. simpl. apply Forall_app. split; [done|by constructor].
Qed.

Lemma set_call_globals_sent data m cb j :
  preserves sent_by_script (set_call_globals data m cb j).
Proof. by apply modify_sent. Qed.

(** [doneEditing] sends a rename to markup that is not the name. *)
Lemma doneEditing_sent : preserves sent_by_script doneEditing.
Proof.
  unfold doneEditing, global.
  do 5 (apply preserves_bind;
    [first [apply in_doc_sent|apply preserves_from_option|by apply modify_sent]
    |intros ?]).
  intros p Hp. pose proof Hp as ([= Hty Hid Hname Hsearch] & _).
  rewrite exec_bind_gets, Hname. case_decide as Hnew; [|done].
  rewrite !exec_bind_gets, Hsearch, Hty, Hid.
  assert (from_script (rename_request a2)) as Hrq by (right; eauto).
  unfold rename_request in Hrq. destruct (commit_target _ _ _ _) as [[endpoint sp] payload].
  apply (preserves_bind sent_by_script);
    [apply set_call_globals_sent|intros _; by apply xhttpreq_sent|done].
Qed.

(** A request that fails leaves the others in flight. *)
Lemma fail_request_sent i : preserves sent_by_script (fail_request i).
Proof. apply preserves_modify. intros p (Hc & Hp). split; [done|by apply Forall_delete]. Qed.

#[export] Instance sent_frame : Frame sent_by_script.
Proof.
  split; intros;
    first [apply in_doc_sent|apply doneEditing_sent|apply fail_request_sent
          |by apply modify_sent|idtac].
  apply xhttpreq_sent. left. by eexists.
Qed.

#[export] Instance provenance_frame : Frame provenance.
Proof. apply frame_and; apply _. Qed.

Lemma complete_sent_by_script i : preserves sent_by_script (complete i).
Proof.
  intros p (Hc & Hp). unfold exec. rewrite run_complete.
  destruct (pg_pending p !! i) as [rq|]; [|done].
  assert (sent_by_script (pg_set_pending (delete i (pg_pending p)) p))
    by (split; [done|by apply Forall_delete]).
  by destruct (rq_callback rq).
Qed.

(** The callback of a request the script sent navigates where the
    rename leads, or nowhere. *)
Lemma called_back_from_rename rq l :
  from_script rq → Forall from_rename l →
  ∀ p, pg_navigations p = l →
    Forall from_rename (pg_navigations (called_back (rq_callback rq) p)).
Proof.
  intros [[t ->] | (html & Hnew & ->)] Hl p <-; [done|].
  unfold rename_request, called_back.
  destruct (commit_target _ _ _ _) as [[endpoint sp] payload] eqn:Ht. simpl.
  apply Forall_app. split; [done|]. constructor; [|done].
  exists html. split; [done|]. unfold rename_target. by rewrite Ht.
Qed.

Lemma complete_provenance i : preserves provenance (complete i).
Proof.
  intros p [Hs Hn]. split; [by apply complete_sent_by_script|].
  unfold of_navigations, exec. rewrite run_complete.
  destruct (pg_pending p !! i) as [rq|] eqn:Hi; [|done]. simpl.
  apply (called_back_from_rename rq (pg_navigations p)); [|done..].
  destruct Hs as [_ Hp]. rewrite Forall_forall in Hp.
  by eapply Hp, list_elem_of_lookup_2.
Qed.

(** The invariants hold along every run. *)
Lemma steps_sent_by_script p l q : steps p l q → sent_by_script p → sent_by_script q.
Proof. apply (steps_frame sent_by_script). intros i _. apply complete_sent_by_script. Qed.

Lemma steps_provenance p l q : steps p l q → provenance p → provenance q.
Proof. apply (steps_frame provenance). intros i _. apply complete_provenance. Qed.

(** ** What the endpoints get *)

Lemma api_delete_request t : api_request (delete_request t) = true.
Proof. by vm_compute. Qed.

Lemma api_rename_request html :
  ty = "artist" ∨ ty = "track" → api_request (rename_request html) = true.
Proof.
  intros Hty. unfold api_request, rename_request, commit_target.
  destruct Hty as [-> | ->]; simpl; apply bool_decide_eq_true_2; auto 10.
Qed.


Lemma from_script_api rq :
  ty = "artist" ∨ ty = "track" → from_script rq → api_request rq = true.
Proof.
  intros Hty [[t ->] | (html & _ & ->)];
    [apply api_delete_request|by apply api_rename_request].
Qed.

(** C10.  On the page of an artist or of a track with nothing in flight,
    whatever the user and the network do, every request in flight is
    one the endpoints accept: a POST with a JSON body, to the delete
    endpoint with a timestamp, or to the rename endpoint of the type of
    the entity with the id of the entity and a name. *)
Theorem requests_well_formed p l q :
  constants p = (ty, id, name, search) → ty = "artist" ∨ ty = "track" →
  pg_pending p = [] → steps p l q →
  Forall (λ rq, api_request rq = true) (pg_pending q).
Proof.
  intros Hc Hty Hp Hsteps.
  destruct (steps_sent_by_script p l q Hsteps) as [_ Hq]; [split; [done|by rewrite Hp]|].
  eapply Forall_impl; [done|]. intros rq. by apply from_script_api.
Qed.

(** C17.  The page navigates nowhere but where a rename leads: after
    any run from a page with nothing in flight, every navigation is to
    the query string that [doneEditing] has built, with the type and
    the query string of the page, for a name that is not the name of
    the entity. *)
Theorem navigations_are_renames p l q url :
  constants p = (ty, id, name, search) →
  pg_pending p = [] → pg_navigations p = [] → steps p l q →
  url ∈ pg_navigations q →
  ∃ html, html ≠ name ∧
    Url.parse url = (commit_target ty id html (Url.parse search)).1.2.
Proof.
  intros Hc Hp Hn Hsteps Hurl.
  destruct (steps_provenance p l q Hsteps) as [_ Hq].
  { split; [split; [done|by rewrite Hp]|]. unfold of_navigations. by rewrite Hn. }
  unfold of_navigations in Hq. rewrite Forall_forall in Hq.
  destruct (Hq url Hurl) as (html & Hnew & ->). exists html. split; [done|].
  apply parse_target_url.
Qed.

End provenance.

Section quiet.
Context `{MP : !MarkupPlatform} `{KP : !KnowsPlaintextOnly}.

(** C23.  The script itself never navigates: along a run without a
    completion the page stays where it is, so a rename whose request
    fails or never completes is never followed by a reload. *)
Theorem no_completion_no_navigation p l q :
  steps p l q → Forall (λ a, ¬ is_completion a) l →
  pg_navigations q = pg_navigations p.
Proof.
  intros Hsteps Hl.
  by apply (steps_frame_quiet (of_navigations (λ l, l = pg_navigations p)) p l q).
Qed.

End quiet.

(** ** Examples *)

Section examples.
#[local] Existing Instance Markup.reference.

Definition rename_and_delete : list action :=
  [ClickEdit; TypeText "Radiohead Remastered"; PressKey "Enter";
   ClickDelete (VNum 1700000000) 6].

Lemma requests_well_formed_witness :
  Forall (λ rq, api_request "artist" (VNum 7) rq = true)
    (pg_pending (run_actions rename_and_delete Examples.artist_page)).
Proof.
  apply (requests_well_formed (MP:=Markup.reference) "artist" (VNum 7) "Radiohead"
    "?artist=Radiohead" Examples.artist_page rename_and_delete);
    [done|by left|done|by apply run_actions_steps].
Defined.

Lemma navigations_are_renames_witness :
  ∃ html, html ≠ "Radiohead" ∧
    Url.parse "?artist=Radiohead+Remastered" =
      (commit_target "artist" (VNum 7) html (Url.parse "?artist=Radiohead")).1.2.
Proof.
  apply (navigations_are_renames (MP:=Markup.reference) "artist" (VNum 7) "Radiohead"
    "?artist=Radiohead" Examples.artist_page rename_actions
    (run_actions rename_actions Examples.artist_page));
    [done..|by apply run_actions_steps|vm_compute; by left].
Defined.

Lemma no_completion_no_navigation_witness :
  pg_navigations (run_actions rename_and_delete Examples.artist_page) = [].
Proof.
  apply (no_completion_no_navigation (MP:=Markup.reference) Examples.artist_page
    rename_and_delete); [by apply run_actions_steps|].
  repeat constructor; by intros [].
Defined.

End examples.

