(* ===== verification/Session.v ===== *)
(** * Sessions

    What the user does with the page, one action after the other: the
    events of the environment run the listeners the script has
    registered.  The scenarios of the specification are proved for any
    page that is rendered the way maloja renders it; the invariant is
    proved for every sequence of actions. *)

From stdpp Require Import base tactics option list strings sorting.
From Stdlib Require Import ZArith.
From S2P Require Import Prelude Js JsString TokenList Markup Url Dom Path Page Edit.
From S2P Require Import Examples Run CommitProps ListenerProps EntryProps Invariants.

#[local] Open Scope page_scope.
#[local] Open Scope string_scope.

(** ** Events *)

Section events.
Context `{MP : !MarkupPlatform} `{KP : !KnowsPlaintextOnly}.
Implicit Types (p : page) (n : node) (ev : event) (ls : list listener).

Lemma dispatch_cons_run run l ls ev p ev' p' :
  listener_type l = ev_type ev → run l ev p = (Ok ev', p') →
  dispatch run (l :: ls) ev p = dispatch run ls ev' p'.
Proof.
  intros Hty Hrun. cbn [dispatch]. erewrite bind_ok; [done|].
  unfold invoke, catch. by rewrite decide_True, Hrun.
Qed.

Lemma dispatch_cons_skip run l ls ev p :
  listener_type l ≠ ev_type ev →
  dispatch run (l :: ls) ev p = dispatch run ls ev p.
Proof. intros Hty. cbn [dispatch]. by erewrite bind_ok by by apply invoke_skip. Qed.

(** Only the element [n] has listeners. *)
Definition only_listener (n : node) (p : page) : Prop :=
  ∀ m em, m ≠ n → doc_elements (pg_doc p) !! m = Some em → el_listeners em = [].

Lemma only_listener_quiet n p : only_listener n p → quiet_focus n p.
Proof. intros Hq old eo _ Hne Heo. by rewrite (Hq old eo). Qed.

(** An event fired at the only element with listeners runs its
    listeners. *)
Lemma run_fire p n e ev :
  Dom.wf (pg_doc p) → doc_elements (pg_doc p) !! n = Some e → only_listener n p →
  fire n ev p = dispatch run_listener (el_listeners e) ev p.
Proof.
  intros Hd He Hq. unfold fire, event_path. erewrite bind_ok by by apply in_doc_pure.
  erewrite bind_ok by by apply in_doc_pure. f_equal. simpl. rewrite He. simpl.
  rewrite <- (app_nil_r (el_listeners e)) at 2. f_equal.
  destruct (el_parent e) as [q|] eqn:Hq'; [|done].
  apply concat_nil_Forall, Forall_fmap, Forall_forall. intros m Hm%(path_from_le _ _ _ _ Hd).
  destruct (wf_elements _ Hd n e He) as [_ Hlt]. rewrite Hq' in Hlt. simpl.
  destruct (doc_elements (pg_doc p) !! m) as [em|] eqn:Hem; [|done].
  simpl. apply (Hq m em); [lia|done].
Qed.

End events.

(** ** The name field during a session *)

Section field.
Context `{MP : !MarkupPlatform} `{KP : !KnowsPlaintextOnly}.
Context (sk : list (option node * string)).
Implicit Types (p q : page) (n : node) (e : element listener) (ls : list listener).

(** The listeners [editEntity] registers on the field [n]. *)
Definition own_listeners (n : node) (ls : list listener) : Prop :=
  Forall (λ l, l = KeydownListener n ∨ l = InputListener n ∨ l = BlurListener) ls.

(** The page [p] is well-formed, [n] is its name field, [e] the element
    at [n], and the only listeners of the page are those [editEntity]
    has registered on the field. *)
Record at_field (n : node) (e : element listener) (p : page) : Prop := AtField {
  af_inv : inv sk p;
  af_id : find_id main_entity_name (pg_doc p) = Some n;
  af_lookup : doc_elements (pg_doc p) !! n = Some e;
  af_only : only_listener n p;
  af_own : own_listeners n (el_listeners e);
}.

(** A step that keeps the invariant and changes no element but the
    field. *)
Lemma at_field_step n e p e' q :
  at_field n e p → inv sk q →
  doc_elements (pg_doc q) !! n = Some e' →
  (∀ m, m ≠ n → doc_elements (pg_doc q) !! m = doc_elements (pg_doc p) !! m) →
  own_listeners n (el_listeners e') →
  at_field n e' q.
Proof.
  intros [Hp Hn He Hq Hown] Hinv He' Hothers Hown'. split; try done.
  - rewrite <- Hn. apply skeleton_find_id.
    destruct Hp as (_ & _ & ->). by destruct Hinv as (_ & _ & ?).
  - intros m em Hm. rewrite Hothers by done. by apply Hq.
Qed.

Lemma at_field_wf n e p : at_field n e p → Dom.wf (pg_doc p).
Proof. by intros [(? & _) _ _ _ _]. Qed.

(** A step that changes the page outside of its document. *)
Lemma at_field_same_doc n e p q :
  at_field n e p → pg_doc q = pg_doc p → at_field n e q.
Proof. intros [Hp Hn He Hq Hown] Hdoc. split; unfold inv, only_listener; by rewrite ?Hdoc. Qed.

Lemma own_listeners_editable n e :
  own_listeners n (el_listeners e) → own_listeners n (el_listeners (editable_field n e)).
Proof. intros Hown. simpl. repeat (apply Forall_app; split; [|by apply Forall_singleton; auto]). done. Qed.

Lemma at_field_edit_mode n e p :
  at_field n e p → quiet_focus n p →
  at_field n (editable_field n e) (edit_mode n e p).
Proof.
  intros Hp Hq. apply (at_field_step n e p); try done.
  - pose proof (editEntity_inv sk p (af_inv _ _ _ Hp)) as H. unfold exec in H.
    by rewrite (run_editEntity p n e) in H; [|eapply at_field_wf|apply Hp..|].
  - apply edit_mode_lookup, Hp.
  - intros m Hm. by apply edit_mode_lookup_ne.
  - apply own_listeners_editable, Hp.
Qed.

Lemma at_field_unfocused n e p : at_field n e p → at_field n e (unfocused p).
Proof.
  intros Hp. apply (at_field_step n e p); try done; try apply Hp.
  apply (in_doc_inv sk _ (blur_active_inv sk)), Hp.
Qed.

Lemma at_field_locked n e p : at_field n e p → at_field n (locked e) (locked_page n e p).
Proof.
  intros Hp. apply (at_field_step n e p); try done.
  - pose proof (in_doc_inv sk _ (set_contentEditable_inv sk n EditFalse) p (af_inv _ _ _ Hp)) as H.
    unfold exec in H.
    by rewrite (run_set_contentEditable p n e) in H by (done || apply Hp).
  - apply locked_page_lookup, Hp.
  - intros m Hm. by apply with_element_lookup_ne.
  - apply Hp.
Qed.

Lemma at_field_resent n e p k :
  at_field n e p → at_field n (locked e) (resent p n e k).
Proof.
  intros Hp. by apply (at_field_same_doc n (locked e) (locked_page n e p));
    [apply at_field_locked|].
Qed.

Lemma at_field_with_markup n e p s :
  at_field n e p →
  at_field n (el_set_children (parse_fragment s) e) (with_markup n e s p).
Proof.
  intros Hp. apply (at_field_step n e p); try done.
  - pose proof (in_doc_inv sk _ (set_innerHTML_inv sk n s) p (af_inv _ _ _ Hp)) as H.
    unfold exec in H. by rewrite (run_set_innerHTML p n e) in H by apply Hp.
  - apply with_markup_lookup, Hp.
  - intros m Hm. by apply with_element_lookup_ne.
  - apply Hp.
Qed.

(** *** Typing *)

Definition input_event : event := Event "input" "" false.

(** The page after the user has left the text [t] in the field. *)
Definition typed_page (n : node) (e : element listener) (t : string) (p : page) : page :=
  let caret := child_count (text_node t) in
  let q := with_element n (el_set_children (text_node t) e) p in
  pg_set_doc (doc_set_selection (Some (Range (Some n) caret caret)) (pg_doc q)) q.

Lemma at_field_typed n e p t :
  at_field n e p → at_field n (el_set_children (text_node t) e) (typed_page n e t p).
Proof.
  intros Hp. apply (at_field_step n e p); try done.
  - pose proof (retext_inv sk _ n e (text_node t) (af_inv _ _ _ Hp) (af_lookup _ _ _ Hp)) as H.
    unfold inv, typed_page, with_element. simpl.
    by rewrite (alter_insert _ _ _ e) in H by apply Hp.
  - apply with_element_lookup, valid_node_lookup. by rewrite (af_lookup _ _ _ Hp).
  - intros m Hm. by apply with_element_lookup_ne.
  - apply Hp.
Qed.

(** The input listeners of a field without a line feed do nothing. *)
Lemma dispatch_input_quiet n e p ls :
  doc_elements (pg_doc p) !! n = Some e →
  JsString.includes (serialize_fragment (el_children e)) JsString.newline = false →
  own_listeners n ls →
  dispatch run_listener ls input_event p = (Ok input_event, p).
Proof.
  intros He Hnl. induction 1 as [|l ls Hl _ IH]; [done|].
  destruct Hl as [-> | [-> | ->]].
  - by rewrite dispatch_cons_skip.
  - erewrite dispatch_cons_run; [done..|]. simpl.
    rewrite (run_input_listener p n e) by done. simpl. by rewrite Hnl.
  - by rewrite dispatch_cons_skip.
Qed.

Lemma run_input_text n e p t :
  at_field n e p → doc_active (pg_doc p) = Some n →
  JsString.includes (Markup.html_escape t) JsString.newline = false →
  input_text t p = (Ok tt, typed_page n e t p).
Proof.
  intros Hp Ha Hnl. pose proof (at_field_typed n e p t Hp) as Hq.
  unfold input_text. erewrite bind_ok by done. rewrite Ha.
  erewrite bind_ok by by apply run_update_element, Hp.
  erewrite bind_ok by done. fold (typed_page n e t p).
  erewrite bind_ok; [done|].
  rewrite (run_fire _ n (el_set_children (text_node t) e));
    [|by eapply at_field_wf|apply Hq..].
  apply (dispatch_input_quiet n (el_set_children (text_node t) e)); [apply Hq| |apply Hq].
  simpl. by rewrite Markup.serialize_text.
Qed.

(** *** Keys and clicks *)

Lemma run_press_key n e p key :
  at_field n e p → doc_active (pg_doc p) = Some n →
  press_key key p = dispatch run_listener (el_listeners e) (Event "keydown" key false) p.
Proof.
  intros Hp Ha. unfold press_key. erewrite bind_ok by done. rewrite Ha.
  apply run_fire; [by eapply at_field_wf|apply Hp..].
Qed.

Lemma run_click_away n e p k :
  at_field n e p → doc_active (pg_doc p) = Some n →
  blur_count (el_listeners e) = S k →
  click_away p =
    (Ok tt,
     if decide (serialize_fragment (el_children e) ≠ entity_name (pg_globals p))
     then resent (unfocused p) n e (S k) else locked_page n e (unfocused p)).
Proof.
  intros Hp Ha Hk. unfold click_away. erewrite bind_ok by done. rewrite Ha.
  apply run_blur_name_field; [apply Hp..|done|done].
Qed.

End field.

(** ** Sessions on a rendered page *)

Section sessions.
Context `{MP : !MarkupPlatform} `{KP : !KnowsPlaintextOnly}.
Implicit Types (p q : page) (n : node) (e : element listener).

(** The page as maloja renders it: well-formed, with the name field
    [e] at [n] showing [entity_name] as text, without listeners and
    without focus. *)
Record rendered (n : node) (e : element listener) (p : page) : Prop := Rendered {
  rd_wf : wf_page p;
  rd_id : find_id main_entity_name (pg_doc p) = Some n;
  rd_lookup : doc_elements (pg_doc p) !! n = Some e;
  rd_listeners : Forall (λ em, el_listeners em = []) (doc_elements (pg_doc p));
  rd_active : doc_active (pg_doc p) = None;
  rd_text : el_children e = text_node (entity_name (pg_globals p));
}.

Lemma rendered_at_field n e p :
  rendered n e p → at_field (skeleton (pg_doc p)) n e p ∧ el_listeners e = [].
Proof.
  intros [[Hd Hl] Hn He Hls Ha Ht].
  assert (el_listeners e = []) as Hnone by by eapply (Forall_lookup_1 _ _ n e Hls).
  split; [split|]; try done.
  - intros m em _ Hm. by eapply (Forall_lookup_1 _ _ m em Hls).
  - rewrite Hnone. apply Forall_nil_2.
Qed.

(** The first [editEntity] of a rendered page. *)
Lemma run_first_editEntity n e p :
  rendered n e p →
  let e0 := editable_field n e in
  editEntity p = (Ok tt, edit_mode n e p) ∧
  at_field (skeleton (pg_doc p)) n e0 (edit_mode n e p) ∧
  blur_count (el_listeners e0) = 1.
Proof.
  intros Hr. destruct (rendered_at_field n e p Hr) as [Hp Hnone].
  assert (quiet_focus n p) as Hq by (intros old eo Ha; by rewrite (rd_active _ _ _ Hr) in Ha).
  split_and!.
  - apply run_editEntity; [by eapply at_field_wf|apply Hr..|done].
  - by apply at_field_edit_mode.
  - by rewrite blur_count_editable, Hnone.
Qed.

(** Edit, then click away. *)
Lemma run_unchanged_session n e p :
  rendered n e p →
  let q := unfocused (edit_mode n e p) in
  let name := entity_name (pg_globals p) in
  (editEntity >> click_away) p =
    (Ok tt,
     if decide (Markup.html_escape name ≠ name)
     then resent q n (editable_field n e) 1 else locked_page n (editable_field n e) q).
Proof.
  intros Hr. destruct (run_first_editEntity n e p Hr) as (Hrun & Hq & Hk).
  erewrite bind_ok by done. erewrite run_click_away by done.
  simpl. by rewrite (rd_text _ _ _ Hr), Markup.serialize_text.
Qed.

(** Edit, type [t], then click away. *)
Lemma run_rename_session n e p t :
  rendered n e p →
  JsString.includes (Markup.html_escape t) JsString.newline = false →
  let e1 := el_set_children (text_node t) (editable_field n e) in
  let q := unfocused (typed_page n (editable_field n e) t (edit_mode n e p)) in
  (editEntity >> input_text t >> click_away) p =
    (Ok tt,
     if decide (Markup.html_escape t ≠ entity_name (pg_globals p))
     then resent q n e1 1 else locked_page n e1 q).
Proof.
  intros Hr Hnl. destruct (run_first_editEntity n e p Hr) as (Hrun & Hq & Hk).
  erewrite bind_ok by done. erewrite bind_ok by by eapply run_input_text.
  erewrite run_click_away; [|by eapply at_field_typed|done..].
  simpl. by rewrite Markup.serialize_text.
Qed.

(** C12.  Entering edit mode and clicking away without a change, on a
    rendered page whose entity name has no character the serialiser
    escapes: no request is sent and the page does not navigate; the
    field is locked again with its content as it was, and nothing has
    the focus. *)
Theorem unchanged_session_sends_nothing n e p :
  rendered n e p →
  Markup.escape_free (entity_name (pg_globals p)) = true →
  let q := exec (editEntity >> click_away) p in
  result (editEntity >> click_away) p = Ok tt ∧
  pg_pending q = pg_pending p ∧ pg_navigations q = pg_navigations p ∧
  doc_active (pg_doc q) = None ∧
  ∃ e', doc_elements (pg_doc q) !! n = Some e' ∧
        el_contentEditable e' = EditFalse ∧ el_children e' = el_children e.
Proof.
  intros Hr Hesc. unfold result, exec. rewrite (run_unchanged_session n e p Hr).
  rewrite decide_False by (by rewrite Markup.html_escape_free; [intros []|]).
  split_and!; try done. eexists.
  split; [apply (locked_page_lookup (unfocused (edit_mode n e p))), edit_mode_lookup, Hr|done].
Qed.

(** C36.  Entering edit mode and clicking away without a change, on a
    rendered page whose entity name has a character the serialiser
    escapes ([&], [<], [>] or a no-break space): the markup of the field
    differs from [entity_name], and a rename to the escaped name is
    sent. *)
Theorem unchanged_session_escaped_name n e p :
  rendered n e p →
  Markup.escape_free (entity_name (pg_globals p)) = false →
  let name := entity_name (pg_globals p) in
  Markup.html_escape name ≠ name ∧
  pg_pending (exec (editEntity >> click_away) p) =
    (pg_pending p ++
     [commit_request (pg_globals p) (pg_search p) (Markup.html_escape name)])%list.
Proof.
  intros Hr Hesc name.
  assert (Markup.html_escape name ≠ name) as Hne
    by (rewrite Markup.html_escape_id; subst name; congruence).
  split; [done|]. unfold exec. rewrite (run_unchanged_session n e p Hr).
  rewrite decide_True by done. simpl.
  by rewrite (rd_text _ _ _ Hr), Markup.serialize_text.
Qed.

(** C1.  Entering edit mode, typing a new name [t] and clicking away:
    one rename request is sent, for the serialisation of [t]; when it
    completes, the page navigates to a query string in which the
    parameter of the entity is the new name. *)
Theorem rename_session n e p t key :
  rendered n e p →
  JsString.includes (Markup.html_escape t) JsString.newline = false →
  Markup.html_escape t ≠ entity_name (pg_globals p) →
  (entity_type (pg_globals p) = "artist" ∧ key = "artist") ∨
  (entity_type (pg_globals p) = "track" ∧ key = "title") →
  let session := editEntity >> input_text t >> click_away in
  pg_pending (exec session p) =
    (pg_pending p ++
     [commit_request (pg_globals p) (pg_search p) (Markup.html_escape t)])%list ∧
  ∃ url,
    pg_navigations (exec (session >> complete (length (pg_pending p))) p) =
      (pg_navigations p ++ [url])%list ∧
    Url.get key (Url.parse url) = Some (Markup.html_escape t).
Proof.
  intros Hr Hnl Hdiff Hty session. unfold exec.
  assert (session p = _) as Hrun by by apply (run_rename_session n e p t).
  rewrite decide_True in Hrun by done.
  erewrite bind_ok by done. rewrite Hrun. simpl. rewrite Markup.serialize_text.
  split; [done|]. rewrite run_complete. simpl.
  rewrite lookup_app_r, Nat.sub_diag by done. simpl.
  destruct Hty as [[Hty ->]|[Hty ->]];
    [rewrite commit_request_artist by done|rewrite commit_request_track by done];
    simpl; (eexists; split; [done|]);
    rewrite parse_target_url, Markup.serialize_text; apply Url.get_set.
Qed.

(** Edit, type [t], then press Escape. *)
(** C13.  An edit session sends a rename exactly when the text has
    changed: on a rendered page whose entity name needs no escaping,
    entering edit mode, typing [t] and clicking away sends one rename
    request when [t] is not the name of the entity and none when it
    is, because the serialiser is injective. *)
Theorem session_sends_iff_changed n e p t :
  rendered n e p →
  Markup.escape_free (entity_name (pg_globals p)) = true →
  JsString.includes (Markup.html_escape t) JsString.newline = false →
  let session := editEntity >> input_text t >> click_away in
  pg_pending (exec session p) =
    (pg_pending p ++
     if decide (t = entity_name (pg_globals p)) then []
     else [commit_request (pg_globals p) (pg_search p) (Markup.html_escape t)])%list.
Proof.
  intros Hr Hname%Markup.html_escape_free Hnl session. unfold exec, session.
  rewrite (run_rename_session n e p t Hr Hnl). simpl.
  destruct (decide (t = entity_name (pg_globals p))) as [->|Ht].
  - rewrite decide_False by (by intros []). simpl. by rewrite app_nil_r.
  - rewrite decide_True by (rewrite <- Hname; by intros ?%Markup.html_escape_inj).
    simpl. by rewrite Markup.serialize_text.
Qed.

Lemma run_escape_session n e p t :
  rendered n e p →
  JsString.includes (Markup.html_escape t) JsString.newline = false →
  Markup.markup_free (entity_name (pg_globals p)) = true →
  Markup.escape_free (entity_name (pg_globals p)) = true →
  let e1 := el_set_children (text_node t) (editable_field n e) in
  let q := typed_page n (editable_field n e) t (edit_mode n e p) in
  (editEntity >> input_text t >> press_key "Escape") p =
    (Ok (preventDefault (Event "keydown" "Escape" false)),
     locked_page n (original e1 q) (unfocused (reverted n e1 q))).
Proof.
  intros Hr Hnl Hfree Hesc e1 q.
  destruct (run_first_editEntity n e p Hr) as (Hrun & Hq & Hk).
  destruct (rendered_at_field n e p Hr) as [_ Hnone].
  pose proof (at_field_typed _ n _ _ t Hq) as Hq1. fold e1 q in Hq1.
  erewrite bind_ok by done. erewrite bind_ok by by eapply run_input_text.
  assert (el_listeners e1 = [KeydownListener n; InputListener n; BlurListener]) as Hls
    by (simpl; by rewrite Hnone).
  erewrite run_press_key by done. fold e1 q. rewrite Hls.
  erewrite dispatch_cons_run; [|done|].
  2:{ apply (run_keydown_escape q n e1 0); [apply Hq1..|done|done|by left|done]. }
  rewrite !dispatch_cons_skip by done. simpl.
  by rewrite decide_False by (by rewrite Markup.html_escape_free; [intros []|]).
Qed.

(** C14.  Entering edit mode, typing [t] and pressing Escape, on a
    rendered page whose entity name has no markup and no character the
    serialiser escapes: the default action of the key is prevented, the
    field shows [entity_name] again and is locked, nothing has the
    focus, and no request is sent. *)
Theorem escape_session n e p t :
  rendered n e p →
  JsString.includes (Markup.html_escape t) JsString.newline = false →
  Markup.markup_free (entity_name (pg_globals p)) = true →
  Markup.escape_free (entity_name (pg_globals p)) = true →
  let session := editEntity >> input_text t >> press_key "Escape" in
  (∃ ev, result session p = Ok ev ∧ ev_defaultPrevented ev = true) ∧
  pg_pending (exec session p) = pg_pending p ∧
  pg_navigations (exec session p) = pg_navigations p ∧
  doc_active (pg_doc (exec session p)) = None ∧
  ∃ e', doc_elements (pg_doc (exec session p)) !! n = Some e' ∧
        el_contentEditable e' = EditFalse ∧
        el_children e' = text_node (entity_name (pg_globals p)).
Proof.
  intros Hr Hnl Hfree Hesc session. unfold result, exec, session.
  rewrite (run_escape_session n e p t) by done.
  split_and!; [by eexists|done..|]. eexists.
  split; [simpl; apply list_lookup_insert_eq; rewrite !length_insert;
          by eapply lookup_lt_Some, Hr|done].
Qed.

(** Edit and click away, then edit again, type [t] and click away. *)
Lemma run_second_session n e p t :
  rendered n e p →
  Markup.escape_free (entity_name (pg_globals p)) = true →
  JsString.includes (Markup.html_escape t) JsString.newline = false →
  Markup.html_escape t ≠ entity_name (pg_globals p) →
  ∃ q e', pg_pending q = pg_pending p ∧ pg_globals q = with_newname (entity_name (pg_globals p)) (pg_globals p) ∧
    pg_search q = pg_search p ∧ el_children e' = text_node t ∧
    (editEntity >> click_away >> editEntity >> input_text t >> click_away) p =
      (Ok tt, resent q n e' 2).
Proof.
  intros Hr Hesc Hnl Hdiff.
  destruct (run_first_editEntity n e p Hr) as (_ & Hq0 & Hk0).
  set (e0 := editable_field n e) in *. set (q0 := edit_mode n e p) in *.
  pose proof (at_field_locked _ n e0 _ (at_field_unfocused _ n e0 q0 Hq0)) as Hr1.
  set (r1 := locked_page n e0 (unfocused q0)) in *.
  assert (quiet_focus n r1) as Hquiet by by intros old eo Ha.
  pose proof (at_field_edit_mode _ n _ r1 Hr1 Hquiet) as Hq2.
  set (e2 := editable_field n (locked e0)) in *. set (q2 := edit_mode n (locked e0) r1) in *.
  assert ((editEntity >> click_away) p = (Ok tt, r1)) as Hfirst.
  { rewrite (run_unchanged_session n e p Hr).
    by rewrite decide_False by (by rewrite Markup.html_escape_free; [intros []|]). }
  exists (unfocused (typed_page n e2 t q2)), (el_set_children (text_node t) e2).
  split_and!; [done| |done..|].
  { simpl. by rewrite (rd_text _ _ _ Hr), Markup.serialize_text, Markup.html_escape_free. }
  rewrite <- (bind_assoc editEntity _ _ p). erewrite bind_ok by apply Hfirst.
  erewrite bind_ok
    by (apply run_editEntity; [by eapply at_field_wf|apply Hr1..|done]).
  erewrite bind_ok by by eapply run_input_text.
  erewrite (run_click_away _ n _ _ 1); [|by eapply at_field_typed|done|].
  - simpl. by rewrite Markup.serialize_text, decide_True.
  - change (blur_count (el_listeners e2) = 2). unfold e2.
    rewrite blur_count_editable. f_equal. exact Hk0.
Qed.

(** A second edit session on the same page: after entering edit
    mode and clicking away without a change, entering edit mode again,
    typing a new name [t] and clicking away sends the rename request
    twice, because the listeners of the first session are still
    registered. *)
Theorem second_session_sends_twice n e p t :
  rendered n e p →
  Markup.escape_free (entity_name (pg_globals p)) = true →
  JsString.includes (Markup.html_escape t) JsString.newline = false →
  Markup.html_escape t ≠ entity_name (pg_globals p) →
  let rq := commit_request (pg_globals p) (pg_search p) (Markup.html_escape t) in
  pg_pending
    (exec (editEntity >> click_away >> editEntity >> input_text t >> click_away) p) =
    (pg_pending p ++ [rq; rq])%list.
Proof.
  intros Hr Hesc Hnl Hdiff.
  destruct (run_second_session n e p t) as (q & e' & Hpend & Hg & Hs & Hc & Hrun); [done..|].
  unfold exec. rewrite Hrun. simpl. by rewrite Hpend, Hg, Hs, Hc, Markup.serialize_text.
Qed.

End sessions.

(** ** Examples: sessions on the pages of [Examples] *)

Section example_pages.
Context `{MP : !MarkupPlatform}.

(** The name field of the example pages, as rendered. *)
Definition heading (name : string) : element listener :=
  Examples.plain (Some 0) "main_entity_name" ["headerwithextra"] name.

(** The example pages are rendered pages, on every platform. *)
Lemma rendered_page_of ty id name search :
  rendered 1 (heading name) (Examples.page_of ty id name search).
Proof.
  split; try done.
  - apply wf_page_doc_iff. split; [by apply wf_check_sound|].
    intros n e He. by repeat (destruct n as [|n]; [injection He as <-; constructor|]).
  - by repeat constructor.
Qed.

End example_pages.

Section examples.
#[local] Existing Instance Markup.reference.

Lemma unchanged_session_sends_nothing_witness :
  let q := exec (editEntity >> click_away) Examples.artist_page in
  result (editEntity >> click_away) Examples.artist_page = Ok tt ∧
  pg_pending q = [] ∧ pg_navigations q = [] ∧ doc_active (pg_doc q) = None ∧
  ∃ e', doc_elements (pg_doc q) !! 1 = Some e' ∧
        el_contentEditable e' = EditFalse ∧ el_children e' = text_node "Radiohead".
Proof.
  by apply (unchanged_session_sends_nothing (MP:=Markup.reference) 1 (heading "Radiohead")
    Examples.artist_page (rendered_page_of _ _ _ _)).
Defined.

Lemma unchanged_session_escaped_name_witness :
  Markup.html_escape "Simon & Garfunkel" ≠ "Simon & Garfunkel" ∧
  pg_pending (exec (editEntity >> click_away) Examples.ampersand_page) =
    [Request (Some "/apis/mlj_1/edit_artist")
       (Some [("id", VNum 8); ("name", VStr "Simon &amp; Garfunkel")]) "POST"
       (CbNavigate [("artist", "Simon &amp; Garfunkel")]) true].
Proof.
  by apply (unchanged_session_escaped_name (MP:=Markup.reference) 1
    (heading "Simon & Garfunkel") Examples.ampersand_page (rendered_page_of _ _ _ _)).
Defined.

Lemma rename_session_witness :
  let session := editEntity >> input_text "Radiohead Remastered" >> click_away in
  pg_pending (exec session Examples.artist_page) =
    [Request (Some "/apis/mlj_1/edit_artist")
       (Some [("id", VNum 7); ("name", VStr "Radiohead Remastered")]) "POST"
       (CbNavigate [("artist", "Radiohead Remastered")]) true] ∧
  ∃ url,
    pg_navigations (exec (session >> complete 0) Examples.artist_page) = [url] ∧
    Url.get "artist" (Url.parse url) = Some "Radiohead Remastered".
Proof.
  apply (rename_session (MP:=Markup.reference) 1 (heading "Radiohead")
    Examples.artist_page "Radiohead Remastered" "artist" (rendered_page_of _ _ _ _));
    [done..|by left].
Defined.

Lemma session_sends_iff_changed_witness :
  pg_pending (exec (editEntity >> input_text "Radiohead" >> click_away)
    Examples.artist_page) = [] ∧
  pg_pending (exec (editEntity >> input_text "Radiohead Remastered" >> click_away)
    Examples.artist_page) =
    [Request (Some "/apis/mlj_1/edit_artist")
       (Some [("id", VNum 7); ("name", VStr "Radiohead Remastered")]) "POST"
       (CbNavigate [("artist", "Radiohead Remastered")]) true].
Proof.
  split.
  - by apply (session_sends_iff_changed (MP:=Markup.reference) 1 (heading "Radiohead")
      Examples.artist_page "Radiohead" (rendered_page_of _ _ _ _)).
  - by apply (session_sends_iff_changed (MP:=Markup.reference) 1 (heading "Radiohead")
      Examples.artist_page "Radiohead Remastered" (rendered_page_of _ _ _ _)).
Defined.

Lemma escape_session_witness :
  let session := editEntity >> input_text "New Title" >> press_key "Escape" in
  (∃ ev, result session Examples.artist_page = Ok ev ∧ ev_defaultPrevented ev = true) ∧
  pg_pending (exec session Examples.artist_page) = [] ∧
  pg_navigations (exec session Examples.artist_page) = [] ∧
  doc_active (pg_doc (exec session Examples.artist_page)) = None ∧
  ∃ e', doc_elements (pg_doc (exec session Examples.artist_page)) !! 1 = Some e' ∧
        el_contentEditable e' = EditFalse ∧ el_children e' = text_node "Radiohead".
Proof.
  by apply (escape_session (MP:=Markup.reference) 1 (heading "Radiohead")
    Examples.artist_page "New Title" (rendered_page_of _ _ _ _)).
Defined.

Lemma second_session_sends_twice_witness :
  let rq := Request (Some "/apis/mlj_1/edit_artist")
       (Some [("id", VNum 7); ("name", VStr "Radiohead Remastered")]) "POST"
       (CbNavigate [("artist", "Radiohead Remastered")]) true in
  pg_pending
    (exec (editEntity >> click_away >> editEntity >>
           input_text "Radiohead Remastered" >> click_away) Examples.artist_page) =
    [rq; rq].
Proof.
  by apply (second_session_sends_twice (MP:=Markup.reference) 1 (heading "Radiohead")
    Examples.artist_page "Radiohead Remastered" (rendered_page_of _ _ _ _)).
Defined.

End examples.
