(* ===== verification/Machine.v ===== *)
(** * The name field as a state machine

    The specification describes the name field by three phases,
    Viewing, Editing and Committing.  [field_state] is the abstract
    state behind them: whether the field is in edit mode, how many edit
    sessions the page has had, and how many renames are in flight.
    [field_step] is the abstract machine, [represents] relates its
    states to pages, [step_simulation] shows that every step of the page
    ([Actions.step]) is a step of the machine, [refinement] that
    every run from a rendered page is a run of the machine, and
    [renames_bounded] how many renames can be in flight after a number
    of sessions. *)

From stdpp Require Import base tactics option list strings sorting.
From Stdlib Require Import ZArith Lia.
From S2P Require Import Prelude Js JsString TokenList Markup Url Dom Page Edit.
From S2P Require Import Examples Run CommitProps ListenerProps EntryProps Invariants.
From S2P Require Import Actions Session.

#[local] Open Scope page_scope.
#[local] Open Scope string_scope.

(** ** What the machine sees of a page *)

Section shape.
Context `{MP : !MarkupPlatform} `{KP : !KnowsPlaintextOnly}.
Implicit Types (p q : page) (d : document listener) (n : node) (e : element listener).

(** A request whose callback navigates is a rename. *)
Definition is_rename (rq : request) : Prop :=
  match rq_callback rq with CbNavigate _ => True | CbNull => False end.

#[export] Instance is_rename_dec rq : Decision (is_rename rq).
Proof. unfold is_rename. destruct (rq_callback rq); apply _. Defined.

Definition rename_count (l : list request) : nat := length (filter is_rename l).

(** Editability and listeners of every element, the focus, and the
    number of renames in flight. *)
Definition flags (d : document listener) : list (editable * list listener) :=
  (λ e, (el_contentEditable e, el_listeners e)) <$> doc_elements d.

Definition shape_of (p : page) : list (editable * list listener) * option node * nat :=
  (flags (pg_doc p), doc_active (pg_doc p), rename_count (pg_pending p)).

Definition has_shape (v : list (editable * list listener) * option node * nat)
    (p : page) : Prop :=
  shape_of p = v.

(** The part of the shape that is in the document. *)
Definition has_flags (w : list (editable * list listener) * option node)
    (d : document listener) : Prop :=
  (flags d, doc_active d) = w.

Lemma rename_count_app l1 l2 :
  rename_count (l1 ++ l2) = rename_count l1 + rename_count l2.
Proof. unfold rename_count. by rewrite filter_app, length_app. Qed.

Lemma rename_count_replicate k rq :
  is_rename rq → rename_count (replicate k rq) = k.
Proof.
  intros Hrq. unfold rename_count. induction k as [|k IH]; [done|].
  simpl. rewrite filter_cons_True by done. simpl. by rewrite IH.
Qed.

Lemma rename_count_delete l i rq :
  l !! i = Some rq →
  rename_count l = rename_count (delete i l) + (if decide (is_rename rq) then 1 else 0).
Proof.
  intros Hi. rewrite <- (take_drop_middle l i rq Hi) at 1.
  rewrite delete_take_drop, !rename_count_app. unfold rename_count at 2.
  case_decide; [rewrite filter_cons_True by done|rewrite filter_cons_False by done];
    simpl; fold (rename_count (drop (S i) l)); lia.
Qed.

Lemma flags_alter d n f :
  (∀ e, el_contentEditable (f e) = el_contentEditable e ∧ el_listeners (f e) = el_listeners e) →
  flags (doc_set_elements (alter f n (doc_elements d)) d) = flags d.
Proof.
  intros Hf. unfold flags. simpl. apply list_eq. intros i.
  rewrite !list_lookup_fmap, list_lookup_alter. case_decide; [subst i|done].
  destruct (doc_elements d !! n) as [e|]; [simpl|done]. by destruct (Hf e) as [-> ->].
Qed.

(** *** Methods of the document that keep the flags *)

Lemma update_element_flags w n f :
  (∀ e, el_contentEditable (f e) = el_contentEditable e ∧ el_listeners (f e) = el_listeners e) →
  preserves (has_flags w) (update_element n f).
Proof.
  intros Hf. unfold update_element. apply preserves_bind; [apply the_element_preserves|].
  intros _. apply preserves_modify. intros d <-. unfold has_flags.
  by rewrite flags_alter.
Qed.

Lemma modify_selection_flags w (f : document listener → document listener) :
  (∀ d, doc_elements (f d) = doc_elements d ∧ doc_active (f d) = doc_active d) →
  preserves (has_flags w) (modify f : JS (document listener) unit).
Proof.
  intros Hf. apply preserves_modify. intros d <-. unfold has_flags, flags.
  by destruct (Hf d) as [-> ->].
Qed.

Lemma set_innerHTML_flags w n s : preserves (has_flags w) (set_innerHTML n s).
Proof.
  unfold set_innerHTML. apply preserves_bind; [by apply update_element_flags|].
  intros _. by apply modify_selection_flags.
Qed.

Lemma classList_flags {A} w n (m : JS (list string) A) :
  preserves (has_flags w) (zoom (get_classList n) (put_classList n) Dangling m).
Proof.
  apply (preserves_zoom _ (λ _, True)); [done| |done].
  intros d l l' <- _ _. unfold has_flags, put_classList. by rewrite flags_alter.
Qed.

(** *** The page *)

Lemma in_doc_shape {A} v (m : JS (document listener) A) :
  (∀ w, preserves (has_flags w) m) → preserves (has_shape v) (in_doc m).
Proof.
  intros Hm p <-. unfold exec. rewrite in_doc_run. unfold has_shape, shape_of. simpl.
  by injection (Hm _ (pg_doc p) eq_refl) as -> ->.
Qed.

Lemma modify_shape v (f : page → page) :
  (∀ p, shape_of (f p) = shape_of p) → preserves (has_shape v) (modify f : JS page unit).
Proof. intros Hf. apply preserves_modify. intros p. unfold has_shape. by rewrite Hf. Qed.

(** A request that is no rename. *)
Lemma xhttpreq_shape v url data m j : preserves (has_shape v) (xhttpreq url data m CbNull j).
Proof.
  apply modify_shape. intros p. unfold shape_of. simpl.
  rewrite rename_count_app. unfold rename_count at 2.
  rewrite filter_cons_False by by intros []. simpl. by rewrite Nat.add_0_r.
Qed.

Lemma set_newname_shape v s : preserves (has_shape v) (set_newname s).
Proof. by apply modify_shape. Qed.

Lemma set_call_globals_shape v data m cb j :
  preserves (has_shape v) (set_call_globals data m cb j).
Proof. by apply modify_shape. Qed.

Lemma report_shape v x : preserves (has_shape v) (report x).
Proof. by apply modify_shape. Qed.

Lemma assign_location_shape v url : preserves (has_shape v) (assign_location url).
Proof. by apply modify_shape. Qed.

Lemma classList_toggle_shape v n t : preserves (has_shape v) (in_doc (classList_toggle n t)).
Proof. apply in_doc_shape. intros w. apply classList_flags. Qed.

Lemma classList_add_shape v n t : preserves (has_shape v) (in_doc (classList_add n t)).
Proof. apply in_doc_shape. intros w. apply classList_flags. Qed.

Lemma set_innerHTML_shape v n s : preserves (has_shape v) (in_doc (set_innerHTML n s)).
Proof. apply in_doc_shape. intros w. apply set_innerHTML_flags. Qed.

Lemma reader_shape {A} v (m : JS (document listener) A) :
  (∀ I, preserves I m) → preserves (has_shape v) (in_doc m).
Proof. intros Hm. by apply in_doc_shape. Qed.

(** *** Functions of the script that keep the shape *)

Lemma toggleDeleteConfirm_shape v element :
  preserves (has_shape v) (toggleDeleteConfirm element).
Proof.
  unfold toggleDeleteConfirm, deref.
  repeat (apply preserves_bind; [|intros ?]);
    auto using reader_shape, classList_toggle_shape with page.
Qed.

Lemma deleteScrobble_shape v id element :
  preserves (has_shape v) (deleteScrobble id element).
Proof.
  unfold deleteScrobble, deref.
  repeat (apply preserves_bind; [|intros ?]);
    auto using reader_shape, classList_add_shape, set_call_globals_shape,
      xhttpreq_shape with page.
Qed.

Lemma input_listener_shape v n ev : preserves (has_shape v) (input_listener n ev).
Proof.
  unfold input_listener.
  apply preserves_bind; [auto using reader_shape with page|intros html].
  apply preserves_bind; [|auto with page]. case_match; [|auto with page].
  apply preserves_bind; [|intros ?]; auto using reader_shape, set_innerHTML_shape with page.
Qed.

(** [blur()] on an element that does not have the focus. *)
Lemma element_blur_shape v n :
  v.1.2 ≠ Some n → preserves (has_shape v) (element_blur n).
Proof.
  intros Hv p <-. unfold exec. by rewrite run_element_blur_inactive.
Qed.

(** The keydown listener of a field that does not have the focus. *)
Lemma keydown_listener_shape v n ev :
  v.1.2 ≠ Some n → preserves (has_shape v) (keydown_listener n ev).
Proof.
  intros Hv. pose proof (element_blur_shape v n Hv) as Hblur.
  unfold keydown_listener, global. case_decide; [|case_decide]; [| |auto with page].
  - apply preserves_bind; auto with page.
  - apply preserves_bind; [apply preserves_gets|intros name].
    apply preserves_bind; [apply set_innerHTML_shape|intros _].
    apply preserves_bind; auto with page.
Qed.

End shape.

(** ** The abstract machine *)

(** The state of the name field: in edit mode or not, the number of
    edit sessions the page has had, the number of renames in flight. *)
Record field_state : Type := FieldState {
  fs_editing : bool;
  fs_sessions : nat;
  fs_renames : nat;
}.

(** The phases of the specification. *)
Inductive phase : Type := Viewing | Editing | Committing.

Definition phase_of (s : field_state) : phase :=
  if fs_editing s then Editing
  else if decide (fs_renames s = 0) then Viewing else Committing.

(** The actions that take the focus from the field, or try to. *)
Definition leaves_field (a : action) : Prop :=
  a = ClickAway ∨ a = PressKey "Enter" ∨ a = PressKey "Escape" ∨ a = PressKey "Esc".

#[export] Instance leaves_field_dec a : Decision (leaves_field a).
Proof. unfold leaves_field. apply _. Defined.

(** The machine.  Entering edit mode starts a session.  Leaving the
    field in edit mode ends the edit: nothing is sent, or one rename
    for each session the page has had.  A completion or a failure
    takes a rename out of flight, or a delete.  Every other action
    leaves the state. *)
Inductive field_step : field_state → action → field_state → Prop :=
  | FsEdit s :
      field_step s ClickEdit (FieldState true (S (fs_sessions s)) (fs_renames s))
  | FsCommit s a j :
      leaves_field a → fs_editing s = true → j = 0 ∨ j = fs_sessions s →
      field_step s a (FieldState false (fs_sessions s) (fs_renames s + j))
  | FsDone s a :
      is_network a → 0 < fs_renames s →
      field_step s a (FieldState (fs_editing s) (fs_sessions s) (pred (fs_renames s)))
  | FsIdle s a :
      a ≠ ClickEdit → (leaves_field a → fs_editing s = false) → field_step s a s.

Inductive field_steps : field_state → list action → field_state → Prop :=
  | field_steps_nil s : field_steps s [] s
  | field_steps_cons s a s1 l s2 :
      field_step s a s1 → field_steps s1 l s2 → field_steps s (a :: l) s2.

(** The listeners of a field after [k] sessions. *)
Definition session_listeners (n : node) (k : nat) : list listener :=
  concat (replicate k [KeydownListener n; InputListener n; BlurListener]).

(** ** The pages a state of the machine stands for *)

Section represents.
Context `{MP : !MarkupPlatform} `{KP : !KnowsPlaintextOnly}.
Context (sk : list (option node * string)) (n : node).
Implicit Types (p q : page) (e : element listener) (s : field_state).

(** The page [p], with the name field [e] at [n], is in the state [s]. *)
Record represents (s : field_state) (e : element listener) (p : page) : Prop :=
  Represents {
    rp_field : at_field sk n e p;
    rp_listeners : el_listeners e = session_listeners n (fs_sessions s);
    rp_editable : focusable e = fs_editing s;
    rp_active : doc_active (pg_doc p) = if fs_editing s then Some n else None;
    rp_sessions : fs_editing s = true → 0 < fs_sessions s;
    rp_renames : rename_count (pg_pending p) = fs_renames s;
  }.

Lemma session_listeners_S k :
  session_listeners n (S k) =
    (session_listeners n k ++ [KeydownListener n; InputListener n; BlurListener])%list.
Proof.
  unfold session_listeners. by rewrite replicate_S, replicate_cons_app, concat_app.
Qed.

Lemma own_listeners_session k : own_listeners n (session_listeners n k).
Proof.
  unfold own_listeners, session_listeners. induction k as [|k IH]; simpl; [done|].
  repeat (apply Forall_cons; split; [by auto|]). done.
Qed.

Lemma blur_count_session k : blur_count (session_listeners n k) = k.
Proof.
  induction k as [|k IH]; [done|]. rewrite session_listeners_S.
  unfold blur_count in *. rewrite count_occ_of_app, IH. unfold count_occ_of. simpl. lia.
Qed.

(** A page with the same shape and the same skeleton is in the same
    state. *)
Lemma represents_same s e p q :
  represents s e p → inv sk q → shape_of q = shape_of p →
  ∃ e', represents s e' q.
Proof.
  intros [Hp Hls Hed Hact Hk Hr] Hq [= Hflags Hactive Hrenames].
  assert (∀ m em, doc_elements (pg_doc p) !! m = Some em →
    ∃ em', doc_elements (pg_doc q) !! m = Some em' ∧
           el_contentEditable em' = el_contentEditable em ∧
           el_listeners em' = el_listeners em) as Hsame.
  { intros m em Hm. apply (f_equal (.!! m)) in Hflags. unfold flags in Hflags.
    rewrite !list_lookup_fmap, Hm in Hflags.
    destruct (doc_elements (pg_doc q) !! m) as [em'|]; [|done].
    injection Hflags as ? ?. eauto. }
  destruct (Hsame n e (af_lookup _ _ _ _ Hp)) as (e' & He' & Hce & Hle).
  exists e'. split; try congruence.
  - split; [done| |done| |].
    + rewrite <- (af_id _ _ _ _ Hp). apply skeleton_find_id.
      destruct Hq as (_ & _ & ->). by destruct (af_inv _ _ _ _ Hp) as (_ & _ & ?).
    + intros m em' Hm Hem'.
      assert (is_Some (doc_elements (pg_doc p) !! m)) as [em Hem].
      { apply lookup_lt_is_Some. apply lookup_lt_Some in Hem'.
        apply (f_equal length) in Hflags. unfold flags in Hflags.
        rewrite !length_fmap in Hflags. lia. }
      destruct (Hsame m em Hem) as (em2 & Hem2 & _ & Hl2).
      rewrite Hem' in Hem2. injection Hem2 as <-. rewrite Hl2.
      by apply (af_only _ _ _ _ Hp m).
    + rewrite Hle, Hls. apply own_listeners_session.
  - unfold focusable in *. by rewrite Hce.
  - done.
Qed.

End represents.

(** ** The transitions of the page *)

Section transitions.
Context `{MP : !MarkupPlatform} `{KP : !KnowsPlaintextOnly}.
Context (sk : list (option node * string)) (n : node).
Implicit Types (p q : page) (e : element listener) (s : field_state) (ev : event).

Lemma is_rename_commit_request g search html : is_rename (commit_request g search html).
Proof.
  destruct (commit_request_shape g search html) as (_ & _ & sp & Hsp).
  unfold is_rename. by rewrite Hsp.
Qed.

(** The page after [blur()] on the field [e] in edit mode, after [k]
    sessions. *)
Definition blurred (k : nat) e p : page :=
  if decide (serialize_fragment (el_children e) ≠ entity_name (pg_globals p))
  then resent (unfocused p) n e k else locked_page n e (unfocused p).

(** [blur()] on the field in edit mode ends the edit: the field is
    locked, and markup that is not the name is sent once for each
    session. *)
Lemma run_blur_represents s e p :
  represents sk n s e p → fs_editing s = true →
  element_blur n p = (Ok tt, blurred (fs_sessions s) e p) ∧
  represents sk n
    (FieldState false (fs_sessions s) (rename_count (pg_pending (blurred (fs_sessions s) e p))))
    (locked e) (blurred (fs_sessions s) e p).
Proof.
  intros [Hp Hls Hed Hact Hk Hr] Hs. rewrite Hs in *.
  destruct (fs_sessions s) as [|k] eqn:Hsess; [specialize (Hk eq_refl); lia|].
  pose proof (at_field_unfocused _ _ _ _ Hp) as Hu.
  rewrite (run_blur_name_field p n e k);
    [|apply Hp..|done|by rewrite Hls, blur_count_session].
  unfold blurred. split; [done|].
  case_decide; split; simpl; try done; first [by apply at_field_resent|by apply at_field_locked].
Qed.

Lemma blurred_renames k e p :
  rename_count (pg_pending (blurred k e p)) = rename_count (pg_pending p) + k ∨
  rename_count (pg_pending (blurred k e p)) = rename_count (pg_pending p) + 0.
Proof.
  unfold blurred. case_decide; [left|right; simpl; lia]. simpl.
  rewrite rename_count_app. f_equal. apply rename_count_replicate, is_rename_commit_request.
Qed.

Lemma blur_represents s e p :
  represents sk n s e p → fs_editing s = true →
  ∃ j e' q, (j = 0 ∨ j = fs_sessions s) ∧ element_blur n p = (Ok tt, q) ∧
    represents sk n (FieldState false (fs_sessions s) (fs_renames s + j)) e' q.
Proof.
  intros Hp Hs. destruct (run_blur_represents s e p Hp Hs) as [Hrun Hq].
  rewrite <- (rp_renames _ _ _ _ _ Hp).
  destruct (blurred_renames (fs_sessions s) e p) as [Hj|Hj]; rewrite Hj in Hq; eauto 10.
Qed.

(** An assignment to [innerHTML] of the field leaves the state. *)
Lemma markup_represents s e p t :
  represents sk n s e p →
  represents sk n s (el_set_children (parse_fragment t) e) (with_markup n e t p).
Proof.
  intros [Hp Hls Hed Hact Hk Hr]. split; try done. by apply at_field_with_markup.
Qed.

(** So does the user's typing. *)
Lemma typed_represents s e p t :
  represents sk n s e p →
  represents sk n s (el_set_children (text_node t) e) (typed_page n e t p).
Proof.
  intros [Hp Hls Hed Hact Hk Hr]. split; try done. by apply at_field_typed.
Qed.

(** [editEntity] starts a session. *)
Lemma edit_represents s e p :
  represents sk n s e p →
  editEntity p = (Ok tt, edit_mode n e p) ∧
  represents sk n (FieldState true (S (fs_sessions s)) (fs_renames s))
    (editable_field n e) (edit_mode n e p).
Proof.
  intros [Hp Hls Hed Hact Hk Hr].
  pose proof (only_listener_quiet n p (af_only _ _ _ _ Hp)) as Hq.
  split; [apply run_editEntity; [by eapply at_field_wf|apply Hp..|done]|].
  split; simpl; try done; [by apply at_field_edit_mode| |lia].
  by rewrite Hls, session_listeners_S, <- !(assoc_L (++)).
Qed.

(** A page that differs by a request that has left the network. *)
Lemma settled_represents s e p i rq q :
  represents sk n s e p → pg_pending p !! i = Some rq →
  pg_doc q = pg_doc p → pg_pending q = delete i (pg_pending p) →
  represents sk n
    (FieldState (fs_editing s) (fs_sessions s)
       (fs_renames s - if decide (is_rename rq) then 1 else 0))
    e q.
Proof.
  intros [Hp Hls Hed Hact Hk Hr] Hi Hdoc Hpend.
  pose proof (rename_count_delete _ _ _ Hi) as Hcount.
  split; rewrite ?Hdoc, ?Hpend; simpl; try done.
  - by eapply at_field_same_doc.
  - case_decide; lia.
Qed.

(** The completion of a request takes it out of flight. *)
Lemma complete_represents s e p i rq :
  represents sk n s e p → pg_pending p !! i = Some rq →
  represents sk n
    (FieldState (fs_editing s) (fs_sessions s)
       (fs_renames s - if decide (is_rename rq) then 1 else 0))
    e (exec (complete i) p).
Proof.
  intros Hp Hi. apply (settled_represents s e p i rq); [done..| |];
    unfold exec; rewrite run_complete, Hi; by destruct (rq_callback rq).
Qed.

(** So does its failure. *)
Lemma fail_request_represents s e p i rq :
  represents sk n s e p → pg_pending p !! i = Some rq →
  represents sk n
    (FieldState (fs_editing s) (fs_sessions s)
       (fs_renames s - if decide (is_rename rq) then 1 else 0))
    e (exec (fail_request i) p).
Proof. intros Hp Hi. by apply (settled_represents s e p i rq). Qed.

(** What a listener returns is the event it got, with its default
    action prevented or not. *)
Lemma keydown_listener_result m ev p ev' q :
  keydown_listener m ev p = (Ok ev', q) →
  ev_type ev' = ev_type ev ∧ ev_key ev' = ev_key ev.
Proof.
  unfold keydown_listener, bind, ret. repeat case_decide; repeat case_match;
    by intros [= <- <-].
Qed.

Lemma input_listener_result m ev p ev' q :
  input_listener m ev p = (Ok ev', q) → ev' = ev.
Proof. unfold input_listener, bind, ret. repeat case_match; by intros [= <- <-]. Qed.

End transitions.

(** ** Simulation *)

Section simulation.
Context `{MP : !MarkupPlatform} `{KP : !KnowsPlaintextOnly}.
Context (sk : list (option node * string)) (n : node).
Implicit Types (p q : page) (e : element listener) (s : field_state) (ev : event)
  (a : action) (ls : list listener).

(** The page keeps its invariant and its shape. *)
Definition stays (v : list (editable * list listener) * option node * nat)
    (p : page) : Prop :=
  inv sk p ∧ has_shape v p.

Lemma stays_represents s e p q :
  represents sk n s e p → stays (shape_of p) q → ∃ e', represents sk n s e' q.
Proof. intros Hp [Hq Hv]. by eapply represents_same. Qed.

Lemma stays_start s e p : represents sk n s e p → stays (shape_of p) p.
Proof. intros Hp. split; [apply Hp|done]. Qed.

Lemma report_stays v x : preserves (stays v) (report x).
Proof. apply preserves_and; [apply report_inv|apply report_shape]. Qed.

(** An action whose handler keeps the invariant and the shape leaves
    the state. *)
Lemma sim_frame s e p a :
  represents sk n s e p →
  preserves (inv sk) (handler a) → preserves (has_shape (shape_of p)) (handler a) →
  ∃ e', represents sk n s e' (exec (perform a) p).
Proof.
  intros Hp Hi Hs. eapply stays_represents; [done|].
  apply (preserves_catch (stays (shape_of p))); [by apply preserves_and| |by eapply stays_start].
  apply report_stays.
Qed.

Lemma sim_edit s e p :
  represents sk n s e p →
  ∃ e', represents sk n (FieldState true (S (fs_sessions s)) (fs_renames s)) e'
          (exec (perform ClickEdit) p).
Proof.
  intros Hp. destruct (edit_represents sk n s e p Hp) as [Hrun Hq].
  exists (editable_field n e). unfold exec, perform, catch. simpl. by rewrite Hrun.
Qed.

Lemma sim_away s e p :
  represents sk n s e p →
  ∃ s' e', field_step s ClickAway s' ∧ represents sk n s' e' (exec (perform ClickAway) p).
Proof.
  intros Hp. unfold exec, perform, catch, handler, click_away.
  erewrite bind_ok by done. rewrite (rp_active _ _ _ _ _ Hp).
  destruct (fs_editing s) eqn:Hs.
  - destruct (blur_represents sk n s e p Hp Hs) as (j & e' & q & Hj & Hrun & Hq).
    rewrite Hrun. eexists _, e'. split; [|done]. apply FsCommit; [by left|done..].
  - exists s, e. split; [|done]. by apply FsIdle.
Qed.

(** The step of the machine when the request [rq] leaves the network. *)
Lemma field_step_network s a rq l i :
  is_network a → l !! i = Some rq → rename_count l = fs_renames s →
  field_step s a
    (FieldState (fs_editing s) (fs_sessions s)
       (fs_renames s - if decide (is_rename rq) then 1 else 0)).
Proof.
  intros Ha Hi Hl. pose proof (rename_count_delete _ _ _ Hi) as Hcount.
  rewrite Hl in Hcount. case_decide.
  - replace (fs_renames s - 1) with (pred (fs_renames s)) by lia. apply FsDone; [done|lia].
  - rewrite Nat.sub_0_r. destruct s. apply FsIdle; [by destruct a|].
    intros [->|[->|[->| ->]]]; by destruct Ha.
Qed.

Lemma sim_complete s e p i :
  represents sk n s e p → is_Some (pg_pending p !! i) →
  ∃ s', field_step s (Complete i) s' ∧ represents sk n s' e (exec (perform (Complete i)) p).
Proof.
  intros Hp [rq Hi]. pose proof (complete_represents sk n s e p i rq Hp Hi) as Hq.
  assert (exec (perform (Complete i)) p = exec (complete i) p) as ->.
  { unfold exec, perform, catch. simpl. by rewrite run_complete. }
  eexists. split; [|done]. by apply (field_step_network s _ rq (pg_pending p) i), Hp.
Qed.

Lemma sim_failure s e p i :
  represents sk n s e p → is_Some (pg_pending p !! i) →
  ∃ s', field_step s (Failure i) s' ∧ represents sk n s' e (exec (perform (Failure i)) p).
Proof.
  intros Hp [rq Hi]. pose proof (fail_request_represents sk n s e p i rq Hp Hi) as Hq.
  eexists. split; [|done]. by apply (field_step_network s _ rq (pg_pending p) i), Hp.
Qed.

(** *** Keys *)

Definition keydown (key : string) : event := Event "keydown" key false.

(** The first keydown listener of the field in edit mode, on Enter or
    Escape, ends the edit. *)
Lemma first_keydown s e p ev :
  represents sk n s e p → fs_editing s = true →
  ev_key ev = "Enter" ∨ is_escape (ev_key ev) →
  ∃ j e' q, (j = 0 ∨ j = fs_sessions s) ∧
    keydown_listener n ev p = (Ok (preventDefault ev), q) ∧
    represents sk n (FieldState false (fs_sessions s) (fs_renames s + j)) e' q.
Proof.
  intros Hp Hs Hkey. rewrite (run_keydown_listener p n e) by apply Hp.
  case_decide as Henter.
  - destruct (blur_represents sk n s e p Hp Hs) as (j & e' & q & Hj & Hrun & Hq).
    exists j, e', q. split_and!; [done| |done]. by erewrite bind_ok.
  - destruct Hkey as [|Hkey]; [done|]. rewrite decide_True by done.
    pose proof (markup_represents sk n s e p (entity_name (pg_globals p)) Hp) as Hm.
    destruct (blur_represents sk n s _ _ Hm Hs) as (j & e' & q & Hj & Hrun & Hq).
    exists j, e', q. split_and!; [done| |done]. by erewrite bind_ok.
Qed.

(** The keydown listeners of a field without the focus keep the
    state. *)
Lemma dispatch_unfocused v ls ev :
  v.1.2 ≠ Some n → own_listeners n ls → ev_type ev = "keydown" →
  hoare (stays v) (dispatch run_listener ls ev)
    (λ ev' q, ev_type ev' = "keydown" ∧ stays v q) (λ _ _, False).
Proof.
  intros Hv Hls Hty.
  apply (dispatch_hoare _ (λ ev', ev_type ev' = "keydown") "keydown");
    [done| |apply report_stays|done].
  intros l ev' Hl Hlty Hty'. unfold own_listeners in Hls. rewrite Forall_forall in Hls.
  destruct (Hls l Hl) as [-> | [-> | ->]]; try done. simpl.
  apply (hoare_preserves_result _ _ (λ ev'', ev_type ev'' = "keydown")).
  - apply preserves_and; [apply keydown_listener_inv|by apply keydown_listener_shape].
  - intros q ev'' q' [Hres _]%keydown_listener_result. congruence.
Qed.

(** Another key runs through the listeners without effect. *)
Lemma dispatch_other_key ls ev p :
  own_listeners n ls → ev_type ev = "keydown" →
  ev_key ev ≠ "Enter" → ¬ is_escape (ev_key ev) →
  dispatch run_listener ls ev p = (Ok ev, p).
Proof.
  intros Hls Hty Henter Hesc. induction Hls as [|l ls Hl _ IH]; [done|].
  destruct Hl as [-> | [-> | ->]]; [|by rewrite dispatch_cons_skip by by rewrite Hty..].
  erewrite dispatch_cons_run; [done..|]. simpl. unfold keydown_listener, is_escape in *.
  by rewrite !decide_False.
Qed.

Lemma leaves_field_key key : key = "Enter" ∨ is_escape key ↔ leaves_field (PressKey key).
Proof.
  unfold leaves_field, is_escape. split.
  - intros [-> | [-> | ->]]; auto.
  - intros [? | [? | [? | ?]]]; simplify_eq; auto.
Qed.

Lemma key_represents s e p key :
  represents sk n s e p → fs_editing s = true →
  ∃ ev' q s' e', press_key key p = (Ok ev', q) ∧
    field_step s (PressKey key) s' ∧ represents sk n s' e' q.
Proof.
  intros Hp Hs. pose proof (rp_active _ _ _ _ _ Hp) as Ha. rewrite Hs in Ha.
  rewrite (run_press_key sk n e p key) by (done || apply Hp).
  rewrite (rp_listeners _ _ _ _ _ Hp).
  destruct (decide (key = "Enter" ∨ is_escape key)) as [Hkey|Hkey].
  - destruct (first_keydown s e p (keydown key) Hp Hs Hkey)
      as (j & e1 & q1 & Hj & Hrun & Hq1).
    destruct (fs_sessions s) as [|k] eqn:Hk; [pose proof (rp_sessions _ _ _ _ _ Hp Hs); lia|].
    change (session_listeners n (S k)) with
      (KeydownListener n :: InputListener n :: BlurListener :: session_listeners n k).
    erewrite dispatch_cons_run by done.
    pose proof (dispatch_unfocused (shape_of q1)
      (InputListener n :: BlurListener :: session_listeners n k)
      (preventDefault (keydown key))) as Hrest.
    specialize (Hrest ltac:(simpl; by rewrite (rp_active _ _ _ _ _ Hq1))
      ltac:(repeat (apply Forall_cons; split; [by auto|]); apply own_listeners_session)
      eq_refl q1 (stays_start _ _ _ Hq1)).
    destruct (dispatch _ _ _ q1) as [[ev2|x] q2]; [|done]. destruct Hrest as [_ Hstay].
    destruct (stays_represents _ _ _ _ Hq1 Hstay) as [e2 Hq2].
    exists ev2, q2, (FieldState false (S k) (fs_renames s + j)), e2.
    split_and!; [done| |done]. rewrite <- Hk in *.
    by apply FsCommit; [apply leaves_field_key|..].
  - rewrite dispatch_other_key; [|apply own_listeners_session|done|tauto..].
    exists (keydown key), p, s, e. split_and!; [done| |done].
    apply FsIdle; [done|]. by intros ?%leaves_field_key.
Qed.

Lemma sim_key s e p key :
  represents sk n s e p → is_Some (doc_active (pg_doc p)) →
  ∃ s' e', field_step s (PressKey key) s' ∧
    represents sk n s' e' (exec (perform (PressKey key)) p).
Proof.
  intros Hp Hactive. pose proof (rp_active _ _ _ _ _ Hp) as Ha.
  destruct (fs_editing s) eqn:Hs; [|by rewrite Ha in Hactive; destruct Hactive].
  destruct (key_represents s e p key Hp Hs) as (ev' & q & s' & e' & Hrun & Hstep & Hq).
  exists s', e'. split; [done|]. unfold exec, perform, catch, handler.
  by erewrite bind_ok by done.
Qed.

(** *** Typing *)

Lemma dispatch_input v ls ev :
  own_listeners n ls → ev_type ev = "input" →
  hoare (stays v) (dispatch run_listener ls ev)
    (λ ev' q, ev_type ev' = "input" ∧ stays v q) (λ _ _, False).
Proof.
  intros Hls Hty.
  apply (dispatch_hoare _ (λ ev', ev_type ev' = "input") "input");
    [done| |apply report_stays|done].
  intros l ev' Hl Hlty Hty'. unfold own_listeners in Hls. rewrite Forall_forall in Hls.
  destruct (Hls l Hl) as [-> | [-> | ->]]; try done. simpl.
  apply (hoare_preserves_result _ _ (λ ev'', ev_type ev'' = "input")).
  - apply preserves_and; [apply input_listener_inv|apply input_listener_shape].
  - by intros q ev'' q' ->%input_listener_result.
Qed.

Lemma type_represents s e p t :
  represents sk n s e p → fs_editing s = true →
  ∃ q e', input_text t p = (Ok tt, q) ∧ represents sk n s e' q.
Proof.
  intros Hp Hs. pose proof (rp_active _ _ _ _ _ Hp) as Ha. rewrite Hs in Ha.
  pose proof (typed_represents sk n s e p t Hp) as Hq1.
  unfold input_text. erewrite bind_ok by done. rewrite Ha.
  erewrite bind_ok by by apply run_update_element, Hp.
  erewrite bind_ok by done. fold (typed_page n e t p). unfold bind.
  rewrite (run_fire _ n (el_set_children (text_node t) e));
    [|by eapply at_field_wf, Hq1|apply Hq1..].
  pose proof (dispatch_input (shape_of (typed_page n e t p))
    (el_listeners (el_set_children (text_node t) e)) input_event
    (af_own _ _ _ _ (rp_field _ _ _ _ _ Hq1)) eq_refl _ (stays_start _ _ _ Hq1)) as Hrest.
  destruct (dispatch _ _ _ _) as [[ev2|x] q2]; [|done].
  destruct Hrest as [_ Hstay]. destruct (stays_represents _ _ _ _ Hq1 Hstay) as [e2 Hq2].
  by exists q2, e2.
Qed.

Lemma sim_type s e p t :
  represents sk n s e p → enabled (TypeText t) p →
  ∃ e', represents sk n s e' (exec (perform (TypeText t)) p).
Proof.
  intros Hp Hen. pose proof (rp_active _ _ _ _ _ Hp) as Ha. simpl in Hen.
  destruct (fs_editing s) eqn:Hs; [|by rewrite Ha in Hen].
  destruct (type_represents s e p t Hp Hs) as (q & e' & Hrun & Hq).
  exists e'. unfold exec, perform, catch, handler. by rewrite Hrun.
Qed.

(** *** The page refines the machine *)

(** Every step of the page but the click on the pencil is a step of
    the machine, on every platform. *)
Lemma step_simulation_other s e p a q :
  a ≠ ClickEdit → represents sk n s e p → step p a q →
  ∃ s' e', field_step s a s' ∧ represents sk n s' e' q.
Proof.
  intros Ha Hp Hstep. destruct Hstep as [p a Hen].
  assert (∀ b, b ≠ ClickEdit → ¬ leaves_field b → field_step s b s) as Hidle
    by (intros; by apply FsIdle).
  destruct a; simpl in Hen.
  - destruct (sim_frame s e p (ClickToggle element) Hp) as [e' He'];
      [apply toggleDeleteConfirm_inv|apply toggleDeleteConfirm_shape|].
    exists s, e'. split; [apply Hidle; [done|by intros [|[|[|]]]]|done].
  - destruct (sim_frame s e p (ClickDelete id element) Hp) as [e' He'];
      [apply deleteScrobble_inv|apply deleteScrobble_shape|].
    exists s, e'. split; [apply Hidle; [done|by intros [|[|[|]]]]|done].
  - done.
  - by apply (sim_key s e p).
  - destruct (sim_type s e p text Hp Hen) as [e' He'].
    exists s, e'. split; [apply Hidle; [done|by intros [|[|[|]]]]|done].
  - by apply (sim_away s e p).
  - destruct (sim_complete s e p i Hp Hen) as (s' & Hs' & Hq). by exists s', e.
  - destruct (sim_failure s e p i Hp Hen) as (s' & Hs' & Hq). by exists s', e.
Qed.

(** Every step of the page is a step of the machine. *)
Lemma step_simulation s e p a q :
  represents sk n s e p → step p a q →
  ∃ s' e', field_step s a s' ∧ represents sk n s' e' q.
Proof.
  intros Hp Hstep.
  destruct (decide (a = ClickEdit)) as [->|Ha]; [|by apply (step_simulation_other s e p)].
  inversion Hstep; subst. destruct (sim_edit s e p Hp) as [e' He'].
  eexists _, e'. split; [apply FsEdit|done].
Qed.

(** So is every sequence of steps. *)
Lemma steps_simulation s e p l q :
  represents sk n s e p → steps p l q →
  ∃ s' e', field_steps s l s' ∧ represents sk n s' e' q.
Proof.
  intros Hp Hsteps. revert s e Hp.
  induction Hsteps as [p|p a q l r Hstep _ IH]; intros s e Hp.
  { exists s, e. split; [constructor|done]. }
  destruct (step_simulation s e p a q Hp Hstep) as (s1 & e1 & Hs1 & Hq).
  destruct (IH s1 e1 Hq) as (s2 & e2 & Hs2 & Hr).
  exists s2, e2. split; [by econstructor|done].
Qed.

End simulation.



(** ** What the machine says of the phases and of the requests *)

(** The transitions between the phases: those of the specification,
    and the return to edit mode while a rename is in flight. *)
Inductive phase_step : phase → phase → Prop :=
  | PsEdit : phase_step Viewing Editing
  | PsCommit : phase_step Editing Committing
  | PsCancel : phase_step Editing Viewing
  | PsDone : phase_step Committing Viewing
  | PsReedit : phase_step Committing Editing.

Lemma field_step_phase s a s' :
  field_step s a s' → phase_of s = phase_of s' ∨ phase_step (phase_of s) (phase_of s').
Proof.
  destruct 1 as [s|s a j _ Hb _|s i Hr|]; [..|by left];
    destruct s as [[] k r]; unfold phase_of; simpl in *; try done;
    repeat case_decide; first [by left|right; constructor|lia].
Qed.

(** The renames in flight after a run of the machine, by the number
    [k] of sessions the run starts.  A commit sends at most as many
    renames as the page has had sessions, and between two commits a
    session starts: from a state with [m] sessions the commits of the
    run send at most [(m + 1) + ... + (m + k)] renames, and [m] more
    when the run starts in edit mode. *)
Lemma field_steps_renames s l s' :
  field_steps s l s' →
  let k := count_occ_of ClickEdit l in
  let m := if fs_editing s then pred (fs_sessions s) else fs_sessions s in
  (2 * fs_renames s' + m * (m + 1) ≤
    2 * fs_renames s + (fs_sessions s + k) * (fs_sessions s + k + 1))%nat.
Proof.
  induction 1 as [s|s a s1 l s2 Hstep _ IH]; simpl in *; [destruct (fs_editing s); nia|].
  assert (count_occ_of ClickEdit (a :: l) =
    (if decide (a = ClickEdit) then 1 else 0) + count_occ_of ClickEdit l) as ->.
  { unfold count_occ_of.
    by case_decide; [rewrite filter_cons_True|rewrite filter_cons_False]. }
  revert IH. generalize (count_occ_of ClickEdit l). intros c IH.
  destruct Hstep as [s|s a j Ha Hb Hj|s i Hr|s a Ha _]; simpl in *.
  - destruct (fs_editing s); nia.
  - case_decide as Hc; [subst a; by destruct Ha as [|[|[|]]]|]. rewrite Hb.
    destruct (fs_sessions s); simpl in *; nia.
  - destruct (fs_editing s); nia.
  - by rewrite decide_False.
Qed.

Section sessions.
Context `{MP : !MarkupPlatform} `{KP : !KnowsPlaintextOnly}.

(** A rendered page stands for the initial state of the machine. *)
Lemma rendered_represents n e p :
  rendered n e p → focusable e = false →
  represents (skeleton (pg_doc p)) n (FieldState false 0 (rename_count (pg_pending p))) e p.
Proof.
  intros Hr Hf. destruct (rendered_at_field n e p Hr) as [Hp Hnone].
  split; simpl; try done. apply Hr.
Qed.

(** C3.  The page refines the machine: every sequence of enabled actions
    from a rendered page leads to a page that stands for a state the
    machine reaches by the same actions from its initial state: not in
    edit mode, no session yet. *)
Theorem refinement n e p l q :
  rendered n e p → focusable e = false → steps p l q →
  ∃ s' e',
    field_steps (FieldState false 0 (rename_count (pg_pending p))) l s' ∧
    represents (skeleton (pg_doc p)) n s' e' q.
Proof.
  intros Hr Hf Hsteps. by eapply steps_simulation; [apply rendered_represents|].
Qed.

(** On a rendered page without a rename in flight, as long as edit
    mode is entered at most once, at most one rename is in flight,
    whatever the user and the network do. *)
Theorem one_session_one_rename n e p l q :
  rendered n e p → focusable e = false → rename_count (pg_pending p) = 0 →
  (count_occ_of ClickEdit l ≤ 1)%nat → steps p l q →
  (rename_count (pg_pending q) ≤ 1)%nat.
Proof.
  intros Hr Hf H0 Hl Hsteps.
  destruct (steps_simulation _ n _ e p l q (rendered_represents n e p Hr Hf) Hsteps)
    as (s' & e' & Hs' & Hq).
  rewrite (rp_renames _ _ _ _ _ Hq). apply field_steps_renames in Hs'. simpl in Hs'.
  rewrite H0 in Hs'. nia.
Qed.

(** C15.  The renames in flight are bounded by the number of edit
    sessions: after [k] calls of [editEntity] on a rendered page at
    most [1 + 2 + ... + k] renames are in flight, the [i]-th session
    sending at most [i]. *)
Theorem renames_bounded n e p l q :
  rendered n e p → focusable e = false → rename_count (pg_pending p) = 0 →
  steps p l q →
  let k := count_occ_of ClickEdit l in
  (2 * rename_count (pg_pending q) ≤ k * (k + 1))%nat.
Proof.
  intros Hr Hf H0 Hsteps.
  destruct (steps_simulation _ n _ e p l q (rendered_represents n e p Hr Hf) Hsteps)
    as (s' & e' & Hs' & Hq).
  rewrite (rp_renames _ _ _ _ _ Hq). apply field_steps_renames in Hs'. simpl in Hs'.
  rewrite H0 in Hs'. simpl. lia.
Qed.

End sessions.


(** ** Examples *)

Section examples.
#[local] Existing Instance Markup.reference.

Lemma refinement_witness :
  ∃ s' e',
    field_steps (FieldState false 0 0) rename_actions s' ∧
    represents (skeleton (pg_doc Examples.artist_page)) 1 s' e'
      (run_actions rename_actions Examples.artist_page).
Proof.
  by apply (refinement (MP:=Markup.reference) 1 (heading "Radiohead") Examples.artist_page
    rename_actions _ (rendered_page_of _ _ _ _) eq_refl), run_actions_steps.
Defined.

Definition until_enter : list action :=
  [ClickEdit; TypeText "Radiohead Remastered"; PressKey "Enter"].

Lemma one_session_one_rename_witness :
  (rename_count (pg_pending (run_actions until_enter Examples.artist_page)) ≤ 1)%nat.
Proof.
  apply (one_session_one_rename (MP:=Markup.reference) 1 (heading "Radiohead")
    Examples.artist_page until_enter _ (rendered_page_of _ _ _ _) eq_refl eq_refl);
    [by vm_compute|by apply run_actions_steps].
Defined.

Definition three_sessions : list action :=
  [ClickEdit; TypeText "Radiohead 2"; ClickAway;
   ClickEdit; TypeText "Radiohead 3"; ClickAway;
   ClickEdit; TypeText "Radiohead 4"; ClickAway].

Lemma renames_bounded_witness :
  (2 * rename_count (pg_pending (run_actions three_sessions Examples.artist_page)) ≤
    count_occ_of ClickEdit three_sessions * (count_occ_of ClickEdit three_sessions + 1))%nat.
Proof.
  apply (renames_bounded (MP:=Markup.reference) 1 (heading "Radiohead")
    Examples.artist_page three_sessions _ (rendered_page_of _ _ _ _) eq_refl eq_refl).
  by apply run_actions_steps.
Defined.

(** The bound is reached: three sessions that each change the name
    leave six renames in flight. *)
Example renames_bound_reached :
  rename_count (pg_pending (run_actions three_sessions Examples.artist_page)) = 6.
Proof. by vm_compute. Qed.

(** Edit mode can be entered again while a rename is in flight, a
    transition the phases of the specification do not have; committing
    then sends the new name twice, with the first rename still in
    flight. *)
Example reedit_while_committing :
  let l := [ClickEdit; TypeText "Radiohead 2"; ClickAway; ClickEdit] in
  let q := run_actions l Examples.artist_page in
  all_enabled l Examples.artist_page = true ∧
  (el_contentEditable <$> doc_elements (pg_doc q) !! 1) = Some PlaintextOnly ∧
  rename_count (pg_pending q) = 1 ∧
  rename_count
    (pg_pending (run_actions [TypeText "Radiohead 3"; ClickAway] q)) = 3.
Proof. by vm_compute. Qed.

End examples.
