(* ===== verification/Legacy.v ===== *)
(** * A platform without the state plaintext-only

    [editEntity] assigns ["plaintext-only"] to [contentEditable]
    (edit.js, line 29) before it registers a listener.  On a platform
    whose setter does not know that state ([plaintext_only = false],
    [Markup.legacy]) the assignment throws: the handler ends there, the
    name field gets no listener and never becomes editable.  Every
    step of such a page is a step of the machine of [Machine] that
    stays in the phase Viewing ([legacy_step]), and
    [legacy_never_edits] states it of every run from a rendered
    page. *)

From stdpp Require Import base tactics option list strings sorting.
From Stdlib Require Import ZArith Lia.
From S2P Require Import Prelude Js Markup Dom Page.
From S2P Require Import Examples EntryProps.
From S2P Require Import Actions Session Machine.

#[local] Open Scope page_scope.
#[local] Open Scope string_scope.

Section legacy.
Context `{MP : !MarkupPlatform} (Hlegacy : plaintext_only = false).
Context (sk : list (option node * string)) (n : node).
Implicit Types (p q : page) (e : element listener) (s : field_state) (a : action).

(** A page that differs outside of its document and of the requests
    in flight is in the same state. *)
Lemma represents_outside s e p q :
  represents sk n s e p → pg_doc q = pg_doc p → pg_pending q = pg_pending p →
  represents sk n s e q.
Proof.
  intros [Hp Hls Hed Hact Hk Hr] Hdoc Hpend. split; rewrite ?Hdoc, ?Hpend; try done.
  by eapply at_field_same_doc.
Qed.

(** The click on the pencil reports the exception of the setter. *)
Lemma legacy_edit s e p :
  represents sk n s e p → exec (perform ClickEdit) p = exec (report SyntaxError) p.
Proof.
  intros Hp. unfold exec, perform, catch. simpl.
  by rewrite (run_editEntity_legacy p n Hlegacy (af_id _ _ _ _ (rp_field _ _ _ _ _ Hp))).
Qed.

(** What the machine does outside of edit mode when no session starts. *)
Lemma field_step_viewing s a s' :
  field_step s a s' → a ≠ ClickEdit → fs_editing s = false →
  fs_editing s' = false ∧ fs_sessions s' = fs_sessions s ∧ (fs_renames s' ≤ fs_renames s)%nat.
Proof.
  intros Hstep Ha Hs.
  destruct Hstep; simpl; [done|congruence|split_and!; [done..|lia]|split_and!; [done..|lia]].
Qed.

Lemma legacy_step s e p a q :
  fs_editing s = false → represents sk n s e p → step p a q →
  ∃ s' e', represents sk n s' e' q ∧
    fs_editing s' = false ∧ fs_sessions s' = fs_sessions s ∧ (fs_renames s' ≤ fs_renames s)%nat.
Proof.
  intros Hs Hp Hstep. destruct (decide (a = ClickEdit)) as [->|Ha].
  - inversion Hstep; subst. exists s, e. rewrite (legacy_edit s e p Hp).
    split; [by apply (represents_outside s e p)|done].
  - destruct (step_simulation_other sk n s e p a q Ha Hp Hstep) as (s' & e' & Hs' & Hq).
    exists s', e'. split; [done|by apply (field_step_viewing s a)].
Qed.

Lemma legacy_steps s e p l q :
  fs_editing s = false → represents sk n s e p → steps p l q →
  ∃ s' e', represents sk n s' e' q ∧
    fs_editing s' = false ∧ fs_sessions s' = fs_sessions s ∧ (fs_renames s' ≤ fs_renames s)%nat.
Proof.
  intros Hs Hp Hsteps. revert s e Hs Hp.
  induction Hsteps as [p|p a q l r Hstep _ IH]; intros s e Hs Hp; [by exists s, e|].
  destruct (legacy_step s e p a q Hs Hp Hstep) as (s1 & e1 & Hq & Hs1 & Hk1 & Hr1).
  destruct (IH s1 e1 Hs1 Hq) as (s2 & e2 & Hr & Hs2 & Hk2 & Hr2).
  exists s2, e2. split; [done|]. split; [done|]. split; [congruence|lia].
Qed.

End legacy.

Section legacy_pages.
Context `{MP : !MarkupPlatform}.

(** C29.  On a platform that does not know the [contentEditable] state
    plaintext-only the rename is dead: whatever the user and the
    network do on a rendered page, the click on the pencil only
    reports the [SyntaxError] of the assignment of line 29; the name
    field never becomes editable, gets no listener and no focus, and
    no rename is sent. *)
Theorem legacy_never_edits n e p l q :
  plaintext_only = false → rendered n e p → focusable e = false → steps p l q →
  ∃ e', doc_elements (pg_doc q) !! n = Some e' ∧ focusable e' = false ∧
    el_listeners e' = [] ∧ doc_active (pg_doc q) = None ∧
    (rename_count (pg_pending q) ≤ rename_count (pg_pending p))%nat.
Proof.
  intros Hlegacy Hr Hf Hsteps.
  destruct (legacy_steps Hlegacy _ n (FieldState false 0 (rename_count (pg_pending p)))
    e p l q eq_refl (rendered_represents n e p Hr Hf) Hsteps)
    as (s & e' & [Hq Hls Hed Hact _ Hren] & Hs & Hk & Hle).
  rewrite Hs in *. rewrite Hk in Hls. rewrite Hren. exists e'.
  split; [apply Hq|done].
Qed.

End legacy_pages.

(** ** Examples *)

Section legacy_examples.
#[local] Existing Instance Markup.legacy.

Lemma legacy_never_edits_witness :
  let p := Examples.artist_page in
  let q := run_actions [ClickEdit; ClickToggle 6; ClickEdit; ClickAway] p in
  ∃ e', doc_elements (pg_doc q) !! 1 = Some e' ∧ focusable e' = false ∧
    el_listeners e' = [] ∧ doc_active (pg_doc q) = None ∧
    (rename_count (pg_pending q) ≤ rename_count (pg_pending p))%nat.
Proof.
  apply (legacy_never_edits (MP:=Markup.legacy) 1 (heading "Radiohead")
    Examples.artist_page [ClickEdit; ClickToggle 6; ClickEdit; ClickAway] _ eq_refl
    (rendered_page_of _ _ _ _) eq_refl).
  by apply run_actions_steps.
Defined.

(** Each click on the pencil reports the exception of the setter. *)
Example legacy_edit_reports :
  pg_reported (run_actions [ClickEdit; ClickEdit] Examples.artist_page) =
    [SyntaxError; SyntaxError].
Proof. by vm_compute. Qed.

End legacy_examples.
