(* ===== verification/Progress.v ===== *)
(** * Progress: the network quiesces and the field settles

    The callbacks of the script send no request, so a run of
    completions and failures is as long as the list of requests in
    flight at most;
    and from every page a run reaches a click away and the completion
    of what is in flight lead back to the phase Viewing. *)

From stdpp Require Import base tactics option list strings sorting.
From Stdlib Require Import ZArith Lia.
From S2P Require Import Prelude Js JsString TokenList Markup Url Dom Page Edit.
From S2P Require Import Examples Run CommitProps ListenerProps EntryProps Invariants.
From S2P Require Import Actions Session Machine.

#[local] Open Scope page_scope.
#[local] Open Scope string_scope.

Section progress.
Context `{MP : !MarkupPlatform} `{KP : !KnowsPlaintextOnly}.
Implicit Types (p q : page) (a : action) (n : node) (s : field_state)
  (e : element listener).

(** The network completes every request in flight, oldest first. *)
Definition drain (p : page) : list action :=
  replicate (length (pg_pending p)) (Complete 0).

(** The user clicks away and the network completes what is in flight. *)
Definition settle (p : page) : list action :=
  ClickAway :: drain (exec (perform ClickAway) p).

(** ** Completions *)

Lemma perform_complete i p : exec (perform (Complete i)) p = exec (complete i) p.
Proof. unfold exec, perform, catch. simpl. by rewrite run_complete. Qed.

(** A completion takes its request out of flight and sends none. *)
Lemma complete_pending i p :
  is_Some (pg_pending p !! i) →
  pg_pending (exec (perform (Complete i)) p) = delete i (pg_pending p).
Proof.
  intros [rq Hi]. rewrite perform_complete. unfold exec. rewrite run_complete, Hi.
  by destruct (rq_callback rq).
Qed.

(** So does a failure. *)
Lemma failure_pending i p :
  pg_pending (exec (perform (Failure i)) p) = delete i (pg_pending p).
Proof. done. Qed.

(** An action of the network takes one request out of flight. *)
Lemma network_length a p :
  is_network a → enabled a p →
  S (length (pg_pending (exec (perform a) p))) = length (pg_pending p).
Proof.
  destruct a as [| | | | | |i|i]; try done; intros _ Hi;
    rewrite ?complete_pending, ?failure_pending by done; destruct Hi as [rq Hi];
    rewrite length_delete by eauto; apply lookup_lt_Some in Hi; lia.
Qed.

Lemma drain_cons rq p :
  pg_pending p = rq :: pg_pending (exec (perform (Complete 0)) p) →
  drain p = Complete 0 :: drain (exec (perform (Complete 0)) p).
Proof. intros Hp. unfold drain. by rewrite Hp at 1. Qed.

Lemma pending_head p rq l :
  pg_pending p = rq :: l → pg_pending (exec (perform (Complete 0)) p) = l.
Proof. intros Hp. rewrite complete_pending by (rewrite Hp; eauto). by rewrite Hp. Qed.

(** The run of [drain]: every action is enabled, and nothing is left
    in flight. *)
Lemma drain_run p :
  steps p (drain p) (run_actions (drain p) p) ∧
  pg_pending (run_actions (drain p) p) = [].
Proof.
  remember (pg_pending p) as l eqn:Hl. revert p Hl.
  induction l as [|rq l IH]; intros p Hl.
  { unfold drain. rewrite <- Hl. simpl. split; [constructor|done]. }
  symmetry in Hl. pose proof (pending_head p rq l Hl) as Hq.
  rewrite (drain_cons rq p) by by rewrite Hq. simpl.
  destruct (IH (exec (perform (Complete 0)) p)) as [Hsteps Hnone]; [done|].
  split; [|done]. econstructor; [|done]. constructor. simpl. rewrite Hl. eauto.
Qed.

(** The completions leave the field as it is. *)
Lemma drain_represents sk n s e p :
  represents sk n s e p →
  represents sk n (FieldState (fs_editing s) (fs_sessions s) 0) e
    (run_actions (drain p) p).
Proof.
  remember (pg_pending p) as l eqn:Hl. revert s p Hl.
  induction l as [|rq l IH]; intros s p Hl Hp.
  { unfold drain. rewrite <- Hl. simpl. destruct Hp as [? ? ? ? ? Hr].
    split; try done. simpl. by rewrite <- Hl. }
  symmetry in Hl. pose proof (pending_head p rq l Hl) as Hq.
  rewrite (drain_cons rq p) by by rewrite Hq. simpl.
  apply (IH (FieldState (fs_editing s) (fs_sessions s)
    (fs_renames s - if decide (is_rename rq) then 1 else 0))); [done|].
  rewrite perform_complete. apply (complete_represents sk n s e p 0 rq Hp).
  by rewrite Hl.
Qed.

(** A click away ends edit mode in the machine. *)
Lemma field_step_away s s' : field_step s ClickAway s' → fs_editing s' = false.
Proof.
  inversion 1 as [|? ? ? ? ? ?|? ? Hnet|? ? ? Hidle]; subst; [done|by destruct Hnet|].
  apply Hidle. by left.
Qed.

(** ** Termination of the network *)

(** C25.  A run of the network alone ends: each completion and each
    failure takes a request out of flight and no callback sends one,
    so the run is as long as the requests in flight at its start at
    most, and what is left in flight is shorter by the length of the
    run. *)
Theorem network_terminates p l q :
  steps p l q → Forall is_network l →
  length (pg_pending q) + length l = length (pg_pending p).
Proof.
  induction 1 as [p|p a q l r Hstep _ IH]; intros Hl; [simpl; lia|].
  apply Forall_cons in Hl as [Ha Hl]. specialize (IH Hl).
  destruct Hstep as [p a Hen]. pose proof (network_length a p Ha Hen). simpl. lia.
Qed.

(** ** The field settles *)

(** The run of [settle] from a page that stands for a state of the
    machine: every action is enabled, nothing is left in flight and the
    field is in the phase Viewing. *)
Lemma settle_run sk n s e p :
  represents sk n s e p →
  let q := run_actions (settle p) p in
  steps p (settle p) q ∧ pg_pending q = [] ∧
  ∃ s' e', represents sk n s' e' q ∧ phase_of s' = Viewing.
Proof.
  intros Hp. simpl.
  destruct (sim_away sk n s e p Hp) as (s1 & e1 & Hstep%field_step_away & Hq1).
  destruct (drain_run (exec (perform ClickAway) p)) as [Hsteps Hnone].
  split_and!; [by econstructor; [by constructor|]|done|].
  eexists _, e1. split; [by apply drain_represents|].
  unfold phase_of. simpl. by rewrite Hstep.
Qed.

(** C16.  From every page that a run from a rendered page reaches, the
    field can return to the phase Viewing: a click away and the
    completion of the requests in flight are enabled one after the
    other and lead to a page with nothing in flight whose name field is
    not in edit mode. *)
Theorem can_settle n e p l q :
  rendered n e p → focusable e = false → steps p l q →
  let r := run_actions (settle q) q in
  steps q (settle q) r ∧ pg_pending r = [] ∧
  ∃ s' e', represents (skeleton (pg_doc p)) n s' e' r ∧ phase_of s' = Viewing.
Proof.
  intros Hr Hf Hsteps.
  destruct (steps_simulation _ n _ e p l q (rendered_represents n e p Hr Hf) Hsteps)
    as (s & e1 & _ & Hq).
  by eapply settle_run.
Qed.

End progress.

(** ** Examples *)

Section examples.
#[local] Existing Instance Markup.reference.

Definition two_deletes : list action :=
  [ClickDelete (VNum 1700000000) 6; ClickDelete (VNum 1700000001) 6].

Lemma network_terminates_witness :
  let p := run_actions two_deletes Examples.artist_page in
  length (pg_pending (run_actions [Failure 1; Complete 0] p)) + 2 = length (pg_pending p).
Proof.
  apply (network_terminates (MP:=Markup.reference)
    (run_actions two_deletes Examples.artist_page) [Failure 1; Complete 0]).
  - by apply run_actions_steps.
  - by repeat constructor.
Defined.

Lemma can_settle_witness :
  let q := run_actions until_enter Examples.artist_page in
  let r := run_actions (settle q) q in
  steps q (settle q) r ∧ pg_pending r = [] ∧
  ∃ s' e', represents (skeleton (pg_doc Examples.artist_page)) 1 s' e' r ∧
    phase_of s' = Viewing.
Proof.
  apply (can_settle (MP:=Markup.reference) 1 (heading "Radiohead") Examples.artist_page
    until_enter _ (rendered_page_of _ _ _ _) eq_refl).
  by apply run_actions_steps.
Defined.

End examples.
