(* ===== verification/Model.v ===== *)
(** * The name field as a function

    [Machine] says what the page may do; this file says what it does.
    [field_model] is what the script does to the page: the content of
    the name field, whether it is in edit mode, how many sessions the
    page has had, the class lists, the globals, the requests in
    flight, the reported exceptions and the navigations.
    [model_step] is a function on it, one clause for each action, and
    [abstraction] is what the model sees of a page.  In the [k]-th
    session of a page an input event strips up to [k] line feeds and a
    commit sends [k] copies of its request; the lemmas of the second
    part compute the model on edit sessions.  [model_enabled] says
    which actions the model takes in a state.  States are compared up
    to the order of the tokens of the class lists: every step respects
    that equivalence, and a toggle that has its row commutes with
    every action up to it ([toggle_commutes_perm]).  [Exact] relates
    the model to the page step by step, and [Adequacy] states what
    follows for the runs of a rendered page. *)

From stdpp Require Import base tactics option list strings sorting.
From Stdlib Require Import ZArith Lia.
From S2P Require Import Prelude Js JsString TokenList Markup Dom Page Edit.
From S2P Require Import DeleteProps CommitProps ListenerProps.
From S2P Require Import Actions.

#[local] Open Scope page_scope.
#[local] Open Scope string_scope.

(** ** The model *)

Section model.
Context `{MP : !MarkupPlatform} `{KP : !KnowsPlaintextOnly}.

Record field_model : Type := FieldModel {
  (** the children of the name field *)
  fm_content : children;
  (** the name field is in edit mode *)
  fm_editing : bool;
  (** the number of calls of [editEntity] *)
  fm_sessions : nat;
  (** the class list of every element *)
  fm_classes : list (list string);
  fm_globals : globals;
  fm_pending : list request;
  fm_reported : list exn;
  fm_navigations : list string;
}.

Definition fm_set_content (content : children) (m : field_model) : field_model :=
  FieldModel content (fm_editing m) (fm_sessions m) (fm_classes m) (fm_globals m)
    (fm_pending m) (fm_reported m) (fm_navigations m).

Definition fm_set_classes (classes : list (list string)) (m : field_model) : field_model :=
  FieldModel (fm_content m) (fm_editing m) (fm_sessions m) classes (fm_globals m)
    (fm_pending m) (fm_reported m) (fm_navigations m).

Definition fm_report (x : exn) (m : field_model) : field_model :=
  FieldModel (fm_content m) (fm_editing m) (fm_sessions m) (fm_classes m) (fm_globals m)
    (fm_pending m) (fm_reported m ++ [x]) (fm_navigations m).

(** A call of [xhttpreq] with assignments in its argument list. *)
Definition fm_send (k : nat) (rq : request) (m : field_model) : field_model :=
  FieldModel (fm_content m) (fm_editing m) (fm_sessions m) (fm_classes m)
    (with_call_globals (rq_data rq) (rq_method rq) (rq_callback rq) (rq_json rq)
       (fm_globals m))
    (fm_pending m ++ replicate k rq) (fm_reported m) (fm_navigations m).

(** What the model takes from the page it is the model of: the query
    string and the ancestors of the elements. *)
Record setting : Type := Setting {
  st_search : string;
  st_ancestor : nat → node → option node;
}.

Context (c : setting).

(** What one input listener does to the content. *)
Definition strip (content : children) : children :=
  let html := serialize_fragment content in
  if JsString.includes html JsString.newline
  then parse_fragment (JsString.replace html JsString.newline "") else content.

(** What the blur listeners of the sessions do together: the field is
    locked, [newname] is assigned, and markup that is not the name is
    sent once for each session. *)
Definition commit (m : field_model) : field_model :=
  let html := serialize_fragment (fm_content m) in
  let locked :=
    FieldModel (fm_content m) false (fm_sessions m) (fm_classes m)
      (with_newname html (fm_globals m)) (fm_pending m) (fm_reported m)
      (fm_navigations m) in
  if decide (html ≠ entity_name (fm_globals m))
  then fm_send (fm_sessions m) (commit_request (fm_globals m) (st_search c) html) locked
  else locked.

(** The navigation of a callback. *)
Definition navigation (cb : callback) : list string :=
  match cb with CbNull => [] | CbNavigate searchParams => [target_url searchParams] end.

(** The exception of a chain of [parentElement] that ends before its
    [k+1]-th ancestor: the property that is read from [null]. *)
Definition missing (k : nat) (element : node) : exn :=
  TypeError (if st_ancestor c k element is Some _ then "classList" else "parentElement").

Definition model_step (a : action) (m : field_model) : field_model :=
  match a with
  | ClickToggle element =>
      match st_ancestor c 2 element with
      | Some row =>
          fm_set_classes
            (alter (λ l, exec (TokenList.toggle class_active) l) row (fm_classes m)) m
      | None => fm_report (missing 1 element) m
      end
  | ClickDelete t element =>
      match st_ancestor c 3 element with
      | Some row =>
          fm_send 1 (delete_request t)
            (fm_set_classes
               (alter (TokenList.append_token class_removed) row (fm_classes m)) m)
      | None => fm_report (missing 2 element) m
      end
  | ClickEdit =>
      FieldModel (fm_content m) true (S (fm_sessions m)) (fm_classes m) (fm_globals m)
        (fm_pending m) (fm_reported m) (fm_navigations m)
  | PressKey key =>
      if fm_editing m then
        if decide (key = "Enter") then commit m
        else if decide (is_escape key)
        then commit (fm_set_content (parse_fragment (entity_name (fm_globals m))) m)
        else m
      else m
  | TypeText text =>
      if fm_editing m
      then fm_set_content (Nat.iter (fm_sessions m) strip (text_node text)) m else m
  | ClickAway => if fm_editing m then commit m else m
  | Complete i =>
      match fm_pending m !! i with
      | Some rq =>
          FieldModel (fm_content m) (fm_editing m) (fm_sessions m) (fm_classes m)
            (fm_globals m) (delete i (fm_pending m)) (fm_reported m)
            (fm_navigations m ++ navigation (rq_callback rq))
      | None => m
      end
  | Failure i =>
      FieldModel (fm_content m) (fm_editing m) (fm_sessions m) (fm_classes m)
        (fm_globals m) (delete i (fm_pending m)) (fm_reported m) (fm_navigations m)
  end.

Definition model_run (l : list action) (m : field_model) : field_model :=
  foldl (λ m a, model_step a m) m l.

(** The actions the model takes in a state: a click on an element of
    the document, a key or a text when the field is in edit mode, the
    completion or the failure of a request in flight. *)
Definition model_enabled (a : action) (m : field_model) : Prop :=
  match a with
  | ClickToggle element | ClickDelete _ element => element < length (fm_classes m)
  | ClickEdit | ClickAway => True
  | PressKey _ | TypeText _ => fm_editing m = true
  | Complete i | Failure i => is_Some (fm_pending m !! i)
  end.

#[export] Instance model_enabled_dec a m : Decision (model_enabled a m).
Proof. destruct a; simpl; apply _. Defined.

(** The model takes every action of [l] when its turn comes. *)
Fixpoint accepts (l : list action) (m : field_model) : bool :=
  match l with
  | [] => true
  | a :: l' => bool_decide (model_enabled a m) && accepts l' (model_step a m)
  end.

(** What a state of the model says of the page outside of the name
    field. *)
Definition fm_outside (m : field_model) :
    list (list string) * globals * list request * list exn * list string :=
  (fm_classes m, fm_globals m, fm_pending m, fm_reported m, fm_navigations m).

End model.

(** The page outside of the name field: the class lists, the globals,
    the requests in flight, the reported exceptions, the navigations. *)
Definition outside `{MP : !MarkupPlatform} (p : page) :
    list (list string) * globals * list request * list exn * list string :=
  (el_classList <$> doc_elements (pg_doc p), pg_globals p, pg_pending p, pg_reported p,
   pg_navigations p).

(** What the model sees of a page with its name field at [n]. *)
Definition abstraction `{MP : !MarkupPlatform} (n : node) (p : page) : option field_model :=
  e ← doc_elements (pg_doc p) !! n;
  Some (FieldModel (el_children e) (focusable e) (blur_count (el_listeners e))
          (el_classList <$> doc_elements (pg_doc p)) (pg_globals p) (pg_pending p)
          (pg_reported p) (pg_navigations p)).

(** The setting of the model of a page. *)
Definition setting_of `{MP : !MarkupPlatform} (p : page) : setting :=
  Setting (pg_search p) (ancestor (pg_doc p)).

(** ** What the model says *)

(** An edit session: the click on the pencil, a text, a click away. *)
Definition session (t : string) : list action := [ClickEdit; TypeText t; ClickAway].

Section model_lemmas.
Context `{MP : !MarkupPlatform} `{KP : !KnowsPlaintextOnly}.
Context (c : setting).
Implicit Types (m : field_model) (a : action).

(** The delete control of an action has its row. *)
Definition placed (a : action) : Prop :=
  match a with
  | ClickToggle element => is_Some (st_ancestor c 2 element)
  | ClickDelete _ element => is_Some (st_ancestor c 3 element)
  | _ => True
  end.

#[export] Instance placed_dec a : Decision (placed a).
Proof. destruct a; apply _. Defined.

Lemma commit_reported m : fm_reported (commit c m) = fm_reported m.
Proof. unfold commit. by case_decide. Qed.

(** Only a delete control without its row reports an exception. *)
Lemma model_step_reported a m :
  placed a → fm_reported (model_step c a m) = fm_reported m.
Proof.
  destruct a; simpl; try done.
  - by intros [row ->].
  - by intros [row ->].
  - intros _. repeat case_match; by rewrite ?commit_reported.
  - intros _. by case_match.
  - intros _. case_match; by rewrite ?commit_reported.
  - intros _. by case_match.
Qed.

Lemma model_run_reported l m :
  Forall placed l → fm_reported (model_run c l m) = fm_reported m.
Proof.
  intros Hl. revert m. induction Hl as [|a l Ha _ IH]; intros m; [done|].
  simpl. by rewrite IH, model_step_reported.
Qed.

(** The model after an edit session. *)
Lemma model_run_session t m :
  model_run c (session t) m =
    commit c
      (FieldModel (Nat.iter (S (fm_sessions m)) strip (text_node t)) true (S (fm_sessions m))
         (fm_classes m) (fm_globals m) (fm_pending m) (fm_reported m) (fm_navigations m)).
Proof. done. Qed.

(** The model of a first session whose rename fails. *)
Lemma failed_session t m :
  fm_sessions m = 0 →
  let content := strip (text_node t) in
  serialize_fragment content ≠ entity_name (fm_globals m) →
  let m1 := model_run c (session t) m in
  fm_pending m1 !! length (fm_pending m) =
    Some (commit_request (fm_globals m) (st_search c) (serialize_fragment content)) ∧
  let m2 := model_step c (Failure (length (fm_pending m))) m1 in
  fm_content m2 = content ∧ fm_editing m2 = false ∧
  fm_pending m2 = fm_pending m ∧ fm_navigations m2 = fm_navigations m ∧
  fm_reported m2 = fm_reported m ∧
  entity_name (fm_globals m2) = entity_name (fm_globals m).
Proof.
  intros Hm content Hnew. rewrite model_run_session, Hm. unfold commit. simpl.
  fold content. rewrite decide_True by done. simpl.
  split; [by rewrite lookup_app_r, Nat.sub_diag|]. by rewrite delete_middle, app_nil_r.
Qed.

(** *** The delete controls and the name field are independent *)

(** The action [a] is not a click on a delete control of the row of
    the toggle [x]. *)
Definition apart (x : node) (a : action) : Prop :=
  match a with
  | ClickDelete _ y => st_ancestor c 3 y ≠ st_ancestor c 2 x
  | _ => True
  end.

#[export] Instance apart_dec x a : Decision (apart x a).
Proof. destruct a; simpl; apply _. Defined.

Lemma commit_set_classes cl m :
  commit c (fm_set_classes cl m) = fm_set_classes cl (commit c m).
Proof. unfold commit. simpl. by case_decide. Qed.

Lemma commit_classes m : fm_classes (commit c m) = fm_classes m.
Proof. unfold commit. by case_decide. Qed.

(** No step of the model changes the number of the elements. *)
Lemma model_step_elements a m :
  length (fm_classes (model_step c a m)) = length (fm_classes m).
Proof.
  destruct a; simpl; repeat case_match; simpl;
    by rewrite ?commit_classes, ?length_alter.
Qed.

(** The clicks on the delete controls. *)
Definition on_row (a : action) : Prop :=
  match a with ClickToggle _ | ClickDelete _ _ => True | _ => False end.

#[export] Instance on_row_dec a : Decision (on_row a).
Proof. destruct a; simpl; apply _. Defined.

(** The other actions leave the class lists as they are, and what
    they do does not depend on the class lists. *)
Lemma model_step_classes a m : ¬ on_row a → fm_classes (model_step c a m) = fm_classes m.
Proof.
  intros Ha. destruct a; simpl; try (by destruct Ha);
    repeat case_match; by rewrite ?commit_classes.
Qed.

Lemma model_step_set_classes cl a m :
  ¬ on_row a → model_step c a (fm_set_classes cl m) = fm_set_classes cl (model_step c a m).
Proof.
  intros Ha. destruct a; simpl; try (by destruct Ha);
    repeat case_match; by rewrite <- ?commit_set_classes.
Qed.

Lemma toggle_step x row m :
  st_ancestor c 2 x = Some row →
  model_step c (ClickToggle x) m =
    fm_set_classes (alter (λ l, exec (TokenList.toggle class_active) l) row (fm_classes m)) m.
Proof. simpl. by intros ->. Qed.

(** A toggle that has its row commutes with every action but a click
    on a delete control of the same row. *)
Lemma toggle_commutes x a m :
  placed (ClickToggle x) → apart x a →
  model_step c a (model_step c (ClickToggle x) m) =
    model_step c (ClickToggle x) (model_step c a m).
Proof.
  intros [row Hx] Ha. rewrite !(toggle_step x row) by done.
  destruct a as [y|t y| |key|text| |i|i].
  3-8: by rewrite model_step_set_classes, model_step_classes by (by intros []).
  - simpl. destruct (st_ancestor c 2 y) as [row'|]; [|done]. simpl.
    destruct (decide (row' = row)) as [->|Hrow]; [done|].
    by rewrite list_alter_alter_ne.
  - simpl in *. rewrite Hx in Ha. destruct (st_ancestor c 3 y) as [row'|]; [|done]. simpl.
    rewrite list_alter_alter_ne; [done|congruence].
Qed.

(** What the model takes does not depend on the class lists. *)
Lemma model_enabled_set_classes cl a m :
  length cl = length (fm_classes m) →
  model_enabled a (fm_set_classes cl m) ↔ model_enabled a m.
Proof. intros Hcl. destruct a; simpl; by rewrite ?Hcl. Qed.

Lemma model_enabled_toggle x a m :
  placed (ClickToggle x) →
  model_enabled a (model_step c (ClickToggle x) m) ↔ model_enabled a m.
Proof.
  intros [row Hx]. rewrite (toggle_step x row) by done.
  apply model_enabled_set_classes, length_alter.
Qed.

Lemma toggle_enabled x a m :
  model_enabled (ClickToggle x) (model_step c a m) ↔ model_enabled (ClickToggle x) m.
Proof. simpl. by rewrite model_step_elements. Qed.

Lemma model_run_cons a l m : model_run c (a :: l) m = model_run c l (model_step c a m).
Proof. done. Qed.

Lemma model_run_app l1 l2 m : model_run c (l1 ++ l2) m = model_run c l2 (model_run c l1 m).
Proof. apply foldl_app. Qed.

Lemma accepts_app l1 l2 m :
  accepts c (l1 ++ l2) m = accepts c l1 m && accepts c l2 (model_run c l1 m).
Proof.
  revert m. induction l1 as [|a l1 IH]; intros m; simpl; [done|].
  by rewrite IH, andb_assoc.
Qed.

Lemma model_run_swap l1 x a l2 m :
  placed (ClickToggle x) → apart x a →
  model_run c (l1 ++ ClickToggle x :: a :: l2) m = model_run c (l1 ++ a :: ClickToggle x :: l2) m.
Proof.
  intros Hx Ha. rewrite !model_run_app, !model_run_cons. by rewrite (toggle_commutes x a).
Qed.

(** *** States up to the order of the class tokens *)

(** Two states are equivalent when they differ in the order of the
    tokens of the class lists at most. *)
#[export] Instance fm_equiv : Equiv field_model := λ m m',
  Forall2 (≡ₚ) (fm_classes m) (fm_classes m') ∧ fm_set_classes [] m = fm_set_classes [] m'.

#[export] Instance fm_equivalence : Equivalence (≡@{field_model}).
Proof.
  split.
  - by intros m.
  - by intros m m' [].
  - intros m1 m2 m3 [] []. split; [by etrans|congruence].
Qed.

(** An equivalent state is the state with other class lists. *)
Lemma fm_equiv_classes m m' :
  m ≡ m' → m' = fm_set_classes (fm_classes m') m.
Proof. intros [_ H]. destruct m, m'. unfold fm_set_classes in *. simpl in *. congruence. Qed.

Lemma fm_equiv_set_classes cl cl' m :
  Forall2 (≡ₚ) cl cl' → fm_set_classes cl m ≡ fm_set_classes cl' m.
Proof. done. Qed.

#[export] Instance fm_report_proper x : Proper ((≡) ==> (≡)) (fm_report x).
Proof.
  intros m m' [Hcl H]. split; [done|]. destruct m, m'. unfold fm_set_classes in *.
  simpl in *. congruence.
Qed.

#[export] Instance fm_send_proper k rq : Proper ((≡) ==> (≡)) (fm_send k rq).
Proof.
  intros m m' [Hcl H]. split; [done|]. destruct m, m'. unfold fm_set_classes in *.
  simpl in *. congruence.
Qed.

#[export] Instance fm_set_classes_proper :
  Proper (Forall2 (≡ₚ) ==> (≡) ==> (≡)) fm_set_classes.
Proof.
  intros cl cl' Hcl m m' [_ H]. split; [done|]. destruct m, m'.
  unfold fm_set_classes in *. simpl in *. congruence.
Qed.

(** The class lists after a click on a control of the row [row]. *)
Lemma alter_classes_proper (f : list string → list string) row m m' :
  Proper ((≡ₚ) ==> (≡ₚ)) f → m ≡ m' →
  Forall2 (≡ₚ) (alter f row (fm_classes m)) (alter f row (fm_classes m')).
Proof. intros Hf [Hcl _]. apply Forall2_alter; [done|]. intros l l' _ _ Hl. by apply Hf. Qed.

#[export] Instance model_step_proper a : Proper ((≡) ==> (≡)) (model_step c a).
Proof.
  intros m m' Hm. destruct (decide (on_row a)) as [Ha|Ha].
  - destruct a; try done; simpl; case_match; try (by apply fm_report_proper);
      [|apply fm_send_proper]; (apply fm_set_classes_proper; [|done]);
      (apply alter_classes_proper; [|done]);
      [apply TokenList.toggle_perm|apply TokenList.append_token_perm].
  - rewrite (fm_equiv_classes m m' Hm), model_step_set_classes by done.
    split; [|done]. simpl. rewrite model_step_classes by done. apply Hm.
Qed.

#[export] Instance model_run_proper l : Proper ((≡) ==> (≡)) (model_run c l).
Proof.
  induction l as [|a l IH]; intros m m' Hm; [done|].
  rewrite !model_run_cons. by apply IH, model_step_proper.
Qed.

#[export] Instance model_enabled_proper a : Proper ((≡) ==> iff) (model_enabled a).
Proof.
  intros m m' Hm. rewrite (fm_equiv_classes m m' Hm).
  symmetry. apply model_enabled_set_classes. symmetry. apply (Forall2_length (≡ₚ)), Hm.
Qed.

#[export] Instance accepts_proper l : Proper ((≡) ==> (=)) (accepts c l).
Proof.
  induction l as [|a l IH]; intros m m' Hm; simpl; [done|].
  by rewrite (bool_decide_ext _ _ (model_enabled_proper a m m' Hm)),
    (IH _ _ (model_step_proper a m m' Hm)).
Qed.

(** A toggle that has its row commutes with every action, up to the
    order of the tokens [active] and [removed] of the row. *)
Lemma toggle_commutes_perm x a m :
  placed (ClickToggle x) →
  model_step c a (model_step c (ClickToggle x) m) ≡
    model_step c (ClickToggle x) (model_step c a m).
Proof.
  intros Hx. destruct (decide (apart x a)) as [Ha|Ha]; [by rewrite toggle_commutes|].
  destruct Hx as [row Hx]. destruct a as [|t y| | | | | |]; try by destruct Ha.
  simpl in *. rewrite Hx in *. destruct (st_ancestor c 3 y) as [row'|]; [|done].
  destruct (decide (row' = row)) as [->|Hrow]; [|destruct Ha; congruence].
  split; [simpl|done]. rewrite !list_alter_alter_eq.
  apply Forall2_alter; [done|]. intros l l' Hl Hl' _. simplify_eq. simpl. symmetry.
  by apply TokenList.toggle_append_token.
Qed.

(** A run and the run with the toggle one action later: the model
    takes both or none, and reaches the same state up to the order of
    the class tokens. *)
Lemma accepts_swap l1 x a l2 m :
  placed (ClickToggle x) →
  accepts c (l1 ++ ClickToggle x :: a :: l2) m = accepts c (l1 ++ a :: ClickToggle x :: l2) m.
Proof.
  intros Hx. rewrite !accepts_app. f_equal. cbn [accepts].
  rewrite (accepts_proper l2 _ _ (toggle_commutes_perm x a _ Hx)). rewrite !andb_assoc. f_equal.
  rewrite (bool_decide_ext _ _ (model_enabled_toggle x a _ Hx)).
  rewrite (bool_decide_ext _ _ (toggle_enabled x a _)). apply andb_comm.
Qed.

Lemma model_run_swap_perm l1 x a l2 m :
  placed (ClickToggle x) →
  model_run c (l1 ++ ClickToggle x :: a :: l2) m ≡
    model_run c (l1 ++ a :: ClickToggle x :: l2) m.
Proof.
  intros Hx. rewrite !model_run_app, !model_run_cons.
  by apply model_run_proper, toggle_commutes_perm.
Qed.

End model_lemmas.

(** The request of a commit depends on the type and the id of the
    entity only. *)
Lemma commit_request_ext (g g' : globals) search html :
  entity_type g = entity_type g' → entity_id g = entity_id g' →
  commit_request g search html = commit_request g' search html.
Proof. unfold commit_request. by intros -> ->. Qed.

(** What an edit session does to the number of sessions, to the
    requests in flight and to the constants. *)
Lemma model_session `{MP : !MarkupPlatform} `{KP : !KnowsPlaintextOnly} c t m :
  fm_sessions (model_run c (session t) m) = S (fm_sessions m) ∧
  fm_pending (model_run c (session t) m) =
    (fm_pending m ++
     if decide (serialize_fragment (Nat.iter (S (fm_sessions m)) strip (text_node t)) ≠
                entity_name (fm_globals m))
     then replicate (S (fm_sessions m))
            (commit_request (fm_globals m) (st_search c)
               (serialize_fragment (Nat.iter (S (fm_sessions m)) strip (text_node t))))
     else [])%list ∧
  entity_type (fm_globals (model_run c (session t) m)) = entity_type (fm_globals m) ∧
  entity_id (fm_globals (model_run c (session t) m)) = entity_id (fm_globals m) ∧
  entity_name (fm_globals (model_run c (session t) m)) = entity_name (fm_globals m).
Proof.
  rewrite model_run_session. unfold commit.
  cbn [fm_content fm_globals]. case_decide; simpl; by rewrite ?app_nil_r.
Qed.

(** Two edit sessions without a completion between them: the rename
    of the first and two copies of the rename of the second are in
    flight. *)
Lemma two_sessions `{MP : !MarkupPlatform} `{KP : !KnowsPlaintextOnly} c t1 t2 m :
  fm_sessions m = 0 →
  let h1 := serialize_fragment (strip (text_node t1)) in
  let h2 := serialize_fragment (strip (strip (text_node t2))) in
  h1 ≠ entity_name (fm_globals m) → h2 ≠ entity_name (fm_globals m) →
  fm_pending (model_run c (session t1 ++ session t2) m) =
    (fm_pending m ++
     [commit_request (fm_globals m) (st_search c) h1;
      commit_request (fm_globals m) (st_search c) h2;
      commit_request (fm_globals m) (st_search c) h2])%list.
Proof.
  intros Hm h1 h2 H1 H2. rewrite model_run_app.
  pose proof (model_session c t1 m) as (Hs1 & Hp1 & Hty & Hid & Hname).
  pose proof (model_session c t2 (model_run c (session t1) m)) as (_ & Hp2 & _).
  rewrite (commit_request_ext _ (fm_globals m)) in Hp2 by done.
  rewrite Hp2, Hp1, Hs1, Hname, Hm. cbn [Nat.iter]. fold h1 h2.
  rewrite !decide_True by done. by rewrite <- (assoc_L (++)).
Qed.
