(* ===== verification/Exact.v ===== *)
(** * The page computes the model, step by step

    [exact c sk n m p] says that the page [p], with its name field at
    the node [n] of a document of skeleton [sk], is the page the state
    [m] of [Model.field_model] stands for: the abstraction of [p] is
    [m], the listeners of the field are those [k] sessions leave, the
    requests in flight are well formed.  Every action of
    [Actions.action] that is enabled takes a page that is exact for
    [m] to a page that is exact for [model_step c a m] ([step_exact]),
    and so does every run ([steps_exact]).  An action is enabled on
    the page exactly when the model takes it ([exact_enabled]).  On
    the way the file shows what the keydown listeners do to an event
    ([key_exact]). *)

From stdpp Require Import base tactics option list strings sorting.
From Stdlib Require Import ZArith Lia.
From S2P Require Import Prelude Markup Dom Page Edit.
From S2P Require Import Run DeleteProps CommitProps ListenerProps EntryProps.
From S2P Require Import Invariants Actions Session Machine Model.

#[local] Open Scope page_scope.
#[local] Open Scope string_scope.

(** ** The pages a state of the model stands for *)

(** The goal, in which [H : outside p = fm_outside m] has replaced the
    components of the state [m] by those of the page [p]. *)
Ltac same_outside H :=
  unfold outside, fm_outside in *; simpl;
  let Hcl := fresh in let Hg := fresh in let Hp := fresh in
  let Hr := fresh in let Hn := fresh in
  injection H as Hcl Hg Hp Hr Hn;
  rewrite <- ?Hcl, <- ?Hg, <- ?Hp, <- ?Hr, <- ?Hn.

Section exact.
Context `{MP : !MarkupPlatform} `{KP : !KnowsPlaintextOnly}.
Context (sk : list (option node * string)) (n : node).
Context (c : setting).
Implicit Types (p q : page) (e : element listener) (m : field_model) (a : action)
  (ev : event) (ls : list listener).

(** The page [p], with the name field [e] at [n], is in the state [m]
    of the model. *)
Record exact m e p : Prop := Exact {
  ex_field :
    represents sk n
      (FieldState (fm_editing m) (fm_sessions m) (rename_count (pg_pending p))) e p;
  ex_content : el_children e = fm_content m;
  ex_outside : outside p = fm_outside m;
  ex_search : pg_search p = st_search c;
}.

Lemma exact_intro m s e p :
  represents sk n s e p →
  fs_editing s = fm_editing m → fs_sessions s = fm_sessions m →
  el_children e = fm_content m → outside p = fm_outside m → pg_search p = st_search c →
  exact m e p.
Proof.
  intros [Hp Hls Hed Hact Hk Hr] He Hs Hc Hout Hsearch.
  split; [split; simpl; rewrite <- ?He, <- ?Hs; done|done..].
Qed.

Lemma exact_lookup m e p : exact m e p → doc_elements (pg_doc p) !! n = Some e.
Proof. intros Hp. apply Hp. Qed.

Lemma exact_globals m e p : exact m e p → pg_globals p = fm_globals m.
Proof. by intros [_ _ [= _ ? _ _ _] _]. Qed.

Lemma exact_pending m e p : exact m e p → pg_pending p = fm_pending m.
Proof. by intros [_ _ [= _ _ ? _ _] _]. Qed.

Lemma exact_unfocused m e p :
  exact m e p → fm_editing m = false → doc_active (pg_doc p) ≠ Some n.
Proof. intros Hp Hm. rewrite (rp_active _ _ _ _ _ (ex_field _ _ _ Hp)). simpl. by rewrite Hm. Qed.

Lemma exact_focused m e p :
  exact m e p → fm_editing m = true → doc_active (pg_doc p) = Some n.
Proof. intros Hp Hm. rewrite (rp_active _ _ _ _ _ (ex_field _ _ _ Hp)). simpl. by rewrite Hm. Qed.

(** The page of a state has that state as its abstraction. *)
Lemma exact_abstraction m e p : exact m e p → abstraction n p = Some m.
Proof.
  intros [[Hp Hls Hed Hact Hk _] Hc [= Hcl Hg Hpend Hrep Hnav] _]. unfold abstraction.
  rewrite (af_lookup _ _ _ _ Hp). simpl in *.
  rewrite Hc, Hed, Hls, blur_count_session, Hcl, Hg, Hpend, Hrep, Hnav. by destruct m.
Qed.

(** The class lists of a document in which an element is replaced by
    one with the same class list. *)
Lemma classes_insert (l : list (element listener)) k e e' :
  l !! k = Some e → el_classList e' = el_classList e →
  el_classList <$> <[k:=e']> l = el_classList <$> l.
Proof.
  intros He Hcl. rewrite list_fmap_insert, Hcl.
  apply list_insert_id. by rewrite list_lookup_fmap, He.
Qed.

(** The same with another class list. *)
Lemma classes_alter (l : list (element listener)) k e (f : list string → list string) :
  l !! k = Some e →
  el_classList <$> <[k:=el_set_classList (f (el_classList e)) e]> l =
    alter f k (el_classList <$> l).
Proof.
  intros He. rewrite list_fmap_insert. simpl. apply list_eq. intros j.
  rewrite list_lookup_alter. destruct (decide (k = j)) as [<-|Hj].
  - rewrite list_lookup_insert_eq by (rewrite length_fmap; by eapply lookup_lt_Some).
    by rewrite list_lookup_fmap, He.
  - by rewrite list_lookup_insert_ne by done.
Qed.

(** [editEntity] *)
Lemma edit_exact m e p :
  exact m e p →
  editEntity p = (Ok tt, edit_mode n e p) ∧
  exact (model_step c ClickEdit m) (editable_field n e) (edit_mode n e p).
Proof.
  intros [Hp Hc Hout Hsearch].
  destruct (edit_represents sk n _ e p Hp) as [Hrun Hq]. split; [done|].
  apply (exact_intro _ _ _ _ Hq); try done. same_outside Hout.
  by rewrite (classes_insert _ _ e) by (done || apply Hp).
Qed.

(** [blur()] on the field in edit mode *)
Lemma blur_exact m e p :
  exact m e p → fm_editing m = true →
  ∃ q, element_blur n p = (Ok tt, q) ∧ exact (commit c m) (locked e) q.
Proof.
  intros [Hp Hc [= Hcl Hg Hpend Hrep Hnav] Hsearch] Hm.
  destruct (run_blur_represents sk n _ e p Hp Hm) as [Hrun Hq]. simpl in *.
  eexists. split; [done|]. revert Hq. unfold blurred, commit, outside.
  rewrite <- Hc, <- Hg, <- Hsearch, <- Hcl, <- Hpend, <- Hrep, <- Hnav.
  case_decide; intros Hq; apply (exact_intro _ _ _ _ Hq); try done;
    unfold outside, fm_outside; simpl;
    by rewrite (classes_insert _ _ e) by (done || apply Hp).
Qed.

(** An assignment to [innerHTML] of the field *)
Lemma markup_exact m e p t :
  exact m e p →
  exact (fm_set_content (parse_fragment t) m) (el_set_children (parse_fragment t) e)
    (with_markup n e t p).
Proof.
  intros [Hp Hc Hout Hsearch].
  apply (exact_intro _ _ _ _ (markup_represents sk n _ e p t Hp)); try done.
  same_outside Hout.
  by rewrite (classes_insert _ _ e) by (done || apply Hp).
Qed.

(** The user's typing *)
Lemma typed_exact m e p t :
  exact m e p →
  exact (fm_set_content (text_node t) m) (el_set_children (text_node t) e)
    (typed_page n e t p).
Proof.
  intros [Hp Hc Hout Hsearch].
  apply (exact_intro _ _ _ _ (typed_represents sk n _ e p t Hp)); try done.
  same_outside Hout.
  by rewrite (classes_insert _ _ e) by (done || apply Hp).
Qed.

(** The assignment of the name of the entity to [innerHTML]. *)
Lemma exact_name m e p t :
  exact m e p → t = entity_name (pg_globals p) →
  exact (fm_set_content (parse_fragment (entity_name (fm_globals m))) m)
    (el_set_children (parse_fragment t) e) (with_markup n e t p).
Proof. intros Hp ->. rewrite <- (exact_globals m e p Hp). by apply markup_exact. Qed.

(** *** Keys *)

(** What the page is after a commit: some page of the model's state. *)
Definition settled m (q : page) : Prop := ∃ e, exact m e q.

(** A keydown listener of a field that is not in edit mode: Enter
    blurs a field without the focus, Escape also assigns the name to
    a field that shows it. *)
Lemma keydown_listener_settled m ev :
  fm_editing m = false →
  (is_escape (ev_key ev) → fm_content m = parse_fragment (entity_name (fm_globals m))) →
  hoare (settled m) (keydown_listener n ev)
    (λ ev' q, (ev' = ev ∨ ev' = preventDefault ev) ∧ settled m q)
    (λ _ _, False).
Proof.
  intros Hm Hesc q [e Hq]. rewrite (run_keydown_listener q n e) by apply Hq.
  case_decide; [|case_decide as Hkey]; [| |by split; [left|exists e]].
  - erewrite bind_ok by by apply run_element_blur_inactive, (exact_unfocused m e).
    by split; [right|exists e].
  - pose proof (exact_name m e q _ Hq eq_refl) as Hq'.
    replace (fm_set_content _ m) with m in Hq'
      by (rewrite <- (Hesc Hkey); by destruct m).
    erewrite bind_ok by by eapply run_element_blur_inactive, exact_unfocused.
    split; [by right|by eexists].
Qed.

(** A keydown event whose default action is cancelled. *)
Definition cancelled (key : string) (ev : event) : Prop :=
  ev_type ev = "keydown" ∧ ev_key ev = key ∧ ev_defaultPrevented ev = true.

(** The listeners that are left when the first has ended the edit:
    the default action stays cancelled. *)
Lemma dispatch_settled m ls ev :
  fm_editing m = false →
  (is_escape (ev_key ev) → fm_content m = parse_fragment (entity_name (fm_globals m))) →
  own_listeners n ls → cancelled (ev_key ev) ev →
  hoare (settled m) (dispatch run_listener ls ev)
    (λ ev' q, cancelled (ev_key ev) ev' ∧ settled m q) (λ _ _, False).
Proof.
  intros Hm Hesc Hls Hev.
  apply (dispatch_total _ (cancelled (ev_key ev)) "keydown"); [by intros ? [? _]| |done].
  intros l ev' Hl Hlty (Hty & Hkey & Hprevented).
  unfold own_listeners in Hls. rewrite Forall_forall in Hls.
  destruct (Hls l Hl) as [-> | [-> | ->]]; try done. simpl.
  eapply hoare_consequence; [apply keydown_listener_settled; [done|by rewrite Hkey]|done|..].
  - by intros ev'' q [[-> | ->] ?].
  - done.
Qed.

(** The state after Enter or Escape in edit mode. *)
Lemma model_step_leave m key :
  fm_editing m = true → key = "Enter" ∨ is_escape key →
  let m' := model_step c (PressKey key) m in
  fm_editing m' = false ∧
  (is_escape key → fm_content m' = parse_fragment (entity_name (fm_globals m'))).
Proof.
  intros Hm Hkey. simpl. rewrite Hm. case_decide as Henter.
  - split; [unfold commit; by case_decide|]. subst key. by intros [|].
  - destruct Hkey as [|Hkey]; [done|]. rewrite decide_True by done.
    unfold commit. by case_decide.
Qed.

(** The first keydown listener of the field in edit mode. *)
Lemma first_keydown_exact m e p key :
  exact m e p → fm_editing m = true → key = "Enter" ∨ is_escape key →
  ∃ q, keydown_listener n (keydown key) p = (Ok (preventDefault (keydown key)), q) ∧
       settled (model_step c (PressKey key) m) q.
Proof.
  intros Hp Hm Hkey. rewrite (run_keydown_listener p n e) by apply Hp. simpl. rewrite Hm.
  case_decide as Henter.
  - destruct (blur_exact m e p Hp Hm) as (q & Hrun & Hq).
    exists q. split; [by erewrite bind_ok|by eexists].
  - destruct Hkey as [|Hkey]; [done|]. rewrite !decide_True by done.
    pose proof (exact_name m e p _ Hp eq_refl) as Hp'.
    destruct (blur_exact _ _ _ Hp' Hm) as (q & Hrun & Hq).
    exists q. split; [by erewrite bind_ok|by eexists].
Qed.

(** A key in edit mode: the page after it is a page of the model,
    and the default action of the key is cancelled when the key is
    Enter or Escape, and then only. *)
Lemma key_exact m e p key :
  exact m e p → fm_editing m = true →
  ∃ ev' q, press_key key p = (Ok ev', q) ∧
    ev_defaultPrevented ev' = bool_decide (key = "Enter" ∨ is_escape key) ∧
    settled (model_step c (PressKey key) m) q.
Proof.
  intros Hp Hm. pose proof (ex_field _ _ _ Hp) as Hr.
  rewrite (run_press_key sk n e p key);
    [|apply Hr|by apply (exact_focused m e)].
  rewrite (rp_listeners _ _ _ _ _ Hr). cbn [fs_sessions].
  destruct (decide (key = "Enter" ∨ is_escape key)) as [Hkey|Hkey].
  - destruct (first_keydown_exact m e p key Hp Hm Hkey) as (q1 & Hrun & Hq1).
    destruct (model_step_leave m key Hm Hkey) as [Hleft Hname].
    assert (∃ k, fm_sessions m = S k) as [k ->].
    { pose proof (rp_sessions _ _ _ _ _ Hr Hm). simpl in *.
      destruct (fm_sessions m); [lia|eauto]. }
    change (session_listeners n (S k)) with
      (KeydownListener n :: InputListener n :: BlurListener :: session_listeners n k).
    erewrite dispatch_cons_run by done.
    pose proof (dispatch_settled (model_step c (PressKey key) m)
      (InputListener n :: BlurListener :: session_listeners n k)
      (preventDefault (keydown key)) Hleft Hname
      ltac:(repeat (apply Forall_cons; split; [by auto|]); apply own_listeners_session)
      ltac:(done) q1 Hq1) as Hrest.
    destruct (dispatch _ _ _ q1) as [[ev2|x] q2]; [|done].
    destruct Hrest as [(_ & _ & Hprevented) Hq2].
    exists ev2, q2. by rewrite Hprevented, bool_decide_eq_true_2.
  - rewrite (dispatch_other_key n); [|apply own_listeners_session|done|tauto..].
    exists (keydown key), p. split; [done|]. rewrite bool_decide_eq_false_2 by done.
    split; [done|]. exists e. simpl. rewrite Hm. by rewrite !decide_False by tauto.
Qed.

(** *** Typing *)

Definition input_count (ls : list listener) : nat := count_occ_of (InputListener n) ls.

Lemma input_count_session k : input_count (session_listeners n k) = k.
Proof.
  induction k as [|k IH]; [done|]. rewrite session_listeners_S.
  unfold input_count in *. rewrite count_occ_of_app, IH. unfold count_occ_of.
  rewrite filter_cons_False, filter_cons_True, filter_cons_False by done. simpl. lia.
Qed.

Lemma fm_set_content_twice c1 c2 m :
  fm_set_content c2 (fm_set_content c1 m) = fm_set_content c2 m.
Proof. done. Qed.

(** One input listener strips one line feed. *)
Lemma input_listener_exact m e p ev :
  exact m e p →
  ∃ q, input_listener n ev p = (Ok ev, q) ∧
       settled (fm_set_content (strip (fm_content m)) m) q.
Proof.
  intros Hp. rewrite (run_input_listener p n e) by apply Hp. eexists. split; [done|].
  unfold strip. rewrite <- (ex_content _ _ _ Hp). simpl. case_match.
  - eexists. by apply markup_exact.
  - exists e. rewrite (ex_content _ _ _ Hp). by destruct m.
Qed.

(** The input listeners of the field strip one line feed each. *)
Lemma dispatch_input_exact ls m p ev :
  own_listeners n ls → ev_type ev = "input" → settled m p →
  ∃ q, dispatch run_listener ls ev p = (Ok ev, q) ∧
       settled (fm_set_content (Nat.iter (input_count ls) strip (fm_content m)) m) q.
Proof.
  intros Hls Hty. revert m p. induction Hls as [|l ls Hl _ IH]; intros m p [e Hp].
  { exists p. split; [done|]. exists e. by destruct m. }
  unfold input_count, count_occ_of in *.
  destruct Hl as [-> | [-> | ->]].
  - rewrite dispatch_cons_skip by by rewrite Hty. rewrite filter_cons_False by done.
    apply IH. by exists e.
  - destruct (input_listener_exact m e p ev Hp) as (q1 & Hrun & Hq1).
    erewrite dispatch_cons_run by done.
    destruct (IH _ _ Hq1) as (q & Hq & Hm). exists q. split; [done|].
    rewrite filter_cons_True by done. cbn [length]. rewrite Nat.iter_succ_r.
    by rewrite fm_set_content_twice in Hm.
  - rewrite dispatch_cons_skip by by rewrite Hty. rewrite filter_cons_False by done.
    apply IH. by exists e.
Qed.

Lemma type_exact m e p t :
  exact m e p → fm_editing m = true →
  ∃ q, input_text t p = (Ok tt, q) ∧ settled (model_step c (TypeText t) m) q.
Proof.
  intros Hp Hm. pose proof (typed_exact m e p t Hp) as Hq1.
  pose proof (ex_field _ _ _ Hq1) as Hr1.
  unfold input_text. erewrite bind_ok by done. rewrite (exact_focused m e p Hp Hm).
  erewrite bind_ok by by apply run_update_element, Hp.
  erewrite bind_ok by done. fold (typed_page n e t p). unfold bind.
  rewrite (run_fire _ n (el_set_children (text_node t) e));
    [|by eapply at_field_wf, Hr1|apply Hr1..].
  destruct (dispatch_input_exact (el_listeners (el_set_children (text_node t) e))
    _ _ (Event "input" "" false) (af_own _ _ _ _ (rp_field _ _ _ _ _ Hr1)) eq_refl
    (ex_intro _ _ Hq1)) as (q & -> & Hq).
  exists q. split; [done|]. simpl in *. rewrite Hm.
  by rewrite (rp_listeners _ _ _ _ _ (ex_field _ _ _ Hp)), input_count_session in Hq.
Qed.

(** *** Clicks and completions *)

Lemma away_exact m e p :
  exact m e p → settled (model_step c ClickAway m) (exec (perform ClickAway) p).
Proof.
  intros Hp. unfold exec, perform, catch, handler, click_away.
  erewrite bind_ok by done. simpl. destruct (fm_editing m) eqn:Hm.
  - rewrite (exact_focused m e p Hp Hm).
    destruct (blur_exact m e p Hp Hm) as (q & -> & Hq). by eexists.
  - pose proof (rp_active _ _ _ _ _ (ex_field _ _ _ Hp)) as Ha. simpl in Ha.
    rewrite Hm in Ha. rewrite Ha. by exists e.
Qed.

Lemma complete_exact m e p i :
  exact m e p → is_Some (pg_pending p !! i) →
  exact (model_step c (Complete i) m) e (exec (perform (Complete i)) p).
Proof.
  intros Hp [rq Hi].
  assert (exec (perform (Complete i)) p = exec (complete i) p) as ->.
  { unfold exec, perform, catch. simpl. by rewrite run_complete. }
  pose proof (complete_represents sk n _ e p i rq (ex_field _ _ _ Hp) Hi) as Hq.
  destruct Hp as [_ Hc [= Hcl Hg Hpend Hrep Hnav] Hsearch].
  simpl. rewrite <- Hpend, Hi. unfold exec in *. rewrite run_complete, Hi in *.
  apply (exact_intro _ _ _ _ Hq); try by destruct (rq_callback rq).
  unfold outside, fm_outside. rewrite <- Hcl, <- Hg, <- Hrep, <- Hnav.
  by destruct (rq_callback rq); simpl; rewrite ?app_nil_r.
Qed.

Lemma failure_exact m e p i :
  exact m e p → is_Some (pg_pending p !! i) →
  exact (model_step c (Failure i) m) e (exec (perform (Failure i)) p).
Proof.
  intros Hp [rq Hi].
  pose proof (fail_request_represents sk n _ e p i rq (ex_field _ _ _ Hp) Hi) as Hq.
  destruct Hp as [_ Hc [= Hcl Hg Hpend Hrep Hnav] Hsearch].
  apply (exact_intro _ _ _ _ Hq); try done.
  unfold outside, fm_outside. simpl. by rewrite <- Hcl, <- Hg, <- Hrep, <- Hnav, <- Hpend.
Qed.

(** *** The delete controls *)

(** The ancestors of the setting are those of the pages with the
    skeleton [sk]. *)
Context (Hancestor : ∀ p k element, inv sk p →
  st_ancestor c k element = ancestor (pg_doc p) k element).

(** The name field of a page in which the class list of a row was
    replaced has the children it had. *)
Lemma children_reclassed p row er e e' classes :
  doc_elements (pg_doc p) !! row = Some er → doc_elements (pg_doc p) !! n = Some e →
  doc_elements (pg_doc (with_element row (el_set_classList classes er) p)) !! n = Some e' →
  el_children e' = el_children e.
Proof.
  intros Her He. destruct (decide (row = n)) as [->|Hne].
  - rewrite with_element_lookup by (apply valid_node_lookup; eauto).
    intros [= <-]. simpl. congruence.
  - rewrite with_element_lookup_ne by done. congruence.
Qed.

(** A step that keeps the state of the machine and the children of
    the name field. *)
Lemma exact_moved m m' e p e' q :
  exact m e p →
  represents sk n (FieldState (fm_editing m) (fm_sessions m) (rename_count (pg_pending p)))
    e' q →
  el_children e' = el_children e →
  fm_editing m' = fm_editing m → fm_sessions m' = fm_sessions m →
  fm_content m' = fm_content m →
  outside q = fm_outside m' → pg_search q = pg_search p →
  exact m' e' q.
Proof.
  intros [_ Hc _ Hs] Hq He' Hed Hk Hcm Hout Hsearch.
  apply (exact_intro _ _ _ _ Hq); simpl; congruence.
Qed.

Lemma toggle_exact m e p element :
  exact m e p → valid_node (pg_doc p) element →
  settled (model_step c (ClickToggle element) m) (exec (perform (ClickToggle element)) p).
Proof.
  intros Hp Hv. pose proof (ex_field _ _ _ Hp) as Hr.
  pose proof (rp_field _ _ _ _ _ Hr) as Hf. pose proof (at_field_wf _ _ _ _ Hf) as Hd.
  destruct (sim_frame sk n _ e p (ClickToggle element) Hr
    (toggleDeleteConfirm_inv _ _) (toggleDeleteConfirm_shape _ _)) as [e' Hq].
  exists e'. pose proof (af_lookup _ _ _ _ (rp_field _ _ _ _ _ Hq)) as He'.
  revert Hq He'. unfold exec, perform, catch, handler.
  rewrite run_toggleDeleteConfirm by done. cbn [model_step]. unfold missing.
  rewrite !(Hancestor p) by apply Hf. pose proof (ex_outside _ _ _ Hp) as Hout.
  destruct (ancestor (pg_doc p) 2 element) as [row|] eqn:Hrow.
  - pose proof (ancestor_valid _ _ _ _ Hd Hv Hrow) as [er Her]%valid_node_lookup.
    rewrite Her. cbn [snd]. intros Hq He'.
    apply (exact_moved m _ e p e' _ Hp Hq); try done.
    + exact (children_reclassed p row er e e' _ Her (af_lookup _ _ _ _ Hf) He').
    + same_outside Hout. unfold toggled. by rewrite (classes_alter _ _ er).
  - cbn [snd]. intros Hq He'.
    apply (exact_moved m _ e p e' _ Hp Hq); try done.
    + simpl in He'. rewrite (af_lookup _ _ _ _ Hf) in He'. congruence.
    + by same_outside Hout.
Qed.

Lemma delete_exact m e p t element :
  exact m e p → valid_node (pg_doc p) element →
  settled (model_step c (ClickDelete t element) m)
    (exec (perform (ClickDelete t element)) p).
Proof.
  intros Hp Hv. pose proof (ex_field _ _ _ Hp) as Hr.
  pose proof (rp_field _ _ _ _ _ Hr) as Hf. pose proof (at_field_wf _ _ _ _ Hf) as Hd.
  destruct (sim_frame sk n _ e p (ClickDelete t element) Hr
    (deleteScrobble_inv _ _ _) (deleteScrobble_shape _ _ _)) as [e' Hq].
  exists e'. pose proof (af_lookup _ _ _ _ (rp_field _ _ _ _ _ Hq)) as He'.
  revert Hq He'. unfold exec, perform, catch, handler.
  rewrite run_deleteScrobble by done. cbn [model_step]. unfold missing.
  rewrite !(Hancestor p) by apply Hf. pose proof (ex_outside _ _ _ Hp) as Hout.
  destruct (ancestor (pg_doc p) 3 element) as [row|] eqn:Hrow.
  - pose proof (ancestor_valid _ _ _ _ Hd Hv Hrow) as [er Her]%valid_node_lookup.
    rewrite Her. cbn [snd]. intros Hq He'.
    apply (exact_moved m _ e p e' _ Hp Hq); try done.
    + exact (children_reclassed p row er e e' _ Her (af_lookup _ _ _ _ Hf) He').
    + same_outside Hout. unfold removed. by rewrite (classes_alter _ _ er).
  - cbn [snd]. intros Hq He'.
    apply (exact_moved m _ e p e' _ Hp Hq); try done.
    + simpl in He'. rewrite (af_lookup _ _ _ _ Hf) in He'. congruence.
    + by same_outside Hout.
Qed.

(** *** Every step of the page is the step of the model *)

Lemma step_exact m e p a q :
  exact m e p → step p a q → settled (model_step c a m) q.
Proof.
  intros Hp Hstep. destruct Hstep as [p a Hen]. pose proof (ex_field _ _ _ Hp) as Hr.
  destruct a; simpl in Hen.
  - by apply (toggle_exact m e).
  - by apply (delete_exact m e).
  - destruct (edit_exact m e p Hp) as [Hrun Hq]. eexists.
    unfold exec, perform, catch. simpl. by rewrite Hrun.
  - destruct (fm_editing m) eqn:Hm;
      [|by rewrite (rp_active _ _ _ _ _ Hr) in Hen; destruct Hen].
    destruct (key_exact m e p key Hp Hm) as (ev' & q & Hrun & _ & Hq).
    unfold exec, perform, catch, handler. by erewrite bind_ok by done.
  - destruct (fm_editing m) eqn:Hm;
      [|by rewrite (rp_active _ _ _ _ _ Hr) in Hen].
    destruct (type_exact m e p text Hp Hm) as (q & Hrun & Hq).
    unfold exec, perform, catch, handler. by rewrite Hrun.
  - by apply (away_exact m e).
  - exists e. by apply complete_exact.
  - exists e. by apply failure_exact.
Qed.

Lemma steps_exact m e p l q :
  exact m e p → steps p l q → settled (model_run c l m) q.
Proof.
  intros Hp Hsteps. revert m e Hp.
  induction Hsteps as [p|p a q l r Hstep _ IH]; intros m e Hp; [by exists e|].
  destruct (step_exact m e p a q Hp Hstep) as [e1 Hq]. by apply (IH _ e1).
Qed.

(** *** The page takes the actions the model takes *)

Lemma exact_elements m e p :
  exact m e p → length (fm_classes m) = length (doc_elements (pg_doc p)).
Proof. intros [_ _ [= <- _ _ _ _] _]. apply length_fmap. Qed.

(** An action is enabled on the page of a state exactly when the
    model takes it in that state. *)
Lemma exact_enabled m e p a : exact m e p → enabled a p ↔ model_enabled a m.
Proof.
  intros Hp. pose proof (ex_field _ _ _ Hp) as Hr.
  destruct a; simpl; unfold valid_node;
    rewrite ?(exact_elements m e p Hp), ?(exact_pending m e p Hp), ?(rp_active _ _ _ _ _ Hr);
    try done; simpl; destruct (fm_editing m) eqn:Hm; simpl;
    rewrite ?(exact_lookup m e p Hp), ?(rp_editable _ _ _ _ _ Hr); simpl;
    rewrite ?Hm; try done; split; try done; by intros [].
Qed.

(** And so is a sequence of actions. *)
Lemma exact_all_enabled m e p l : exact m e p → all_enabled l p = accepts c l m.
Proof.
  revert m e p. induction l as [|a l IH]; intros m e p Hp; simpl; [done|].
  rewrite (bool_decide_ext _ _ (exact_enabled m e p a Hp)).
  case_bool_decide as Ha; [|done]. apply (exact_enabled m e p a Hp) in Ha.
  destruct (step_exact m e p a _ Hp (Step p a Ha)) as [e' Hq]. by apply (IH _ e').
Qed.

End exact.
