(* ===== verification/Adequacy.v ===== *)
(** * The page computes the model: runs of a rendered page

    A rendered page is exact for its abstraction ([rendered_exact]), so
    by [Exact.steps_exact] the abstraction of the page after a run is
    the model run on the abstraction of the rendered page
    ([model_exact]).  What the model computes is then a fact of the
    page: the [k]-th session sends [k] copies of its request
    ([session_after_sessions]), the keydown of Enter and of Escape is
    cancelled on every reachable page ([keys_cancelled]), a rename that
    fails leaves the field locked with the new name ([failed_rename]),
    no handler throws when the controls are where the templates put
    them ([no_exception]), the page takes the runs the model takes
    ([page_runs_iff]), and a click on a toggle commutes with the
    action that follows it ([toggle_independent]). *)

From stdpp Require Import base tactics option list strings sorting.
From Stdlib Require Import ZArith Lia.
From S2P Require Import Prelude Js Markup Dom Page.
From S2P Require Import Examples CommitProps ListenerProps EntryProps.
From S2P Require Import Invariants Frame Actions Session Machine Model Exact.

#[local] Open Scope page_scope.
#[local] Open Scope string_scope.

(** ** The page computes the model *)

Section page.
Context `{MP : !MarkupPlatform} `{KP : !KnowsPlaintextOnly}.
Implicit Types (p q r : page) (e : element listener) (m : field_model) (n : node).

(** The ancestors of a node are those of the skeleton. *)
Lemma ancestor_skeleton (d d' : document listener) k element :
  skeleton d' = skeleton d → ancestor d' k element = ancestor d k element.
Proof.
  intros Hsk. apply ancestor_ext. intros j.
  apply (f_equal (λ l, fst <$> l !! j)) in Hsk. unfold skeleton in Hsk.
  rewrite !list_lookup_fmap in Hsk.
  by destruct (doc_elements d' !! j), (doc_elements d !! j).
Qed.

Lemma setting_ancestor p q k element :
  inv (skeleton (pg_doc p)) q →
  st_ancestor (setting_of p) k element = ancestor (pg_doc q) k element.
Proof. intros (_ & _ & Hsk). symmetry. by apply ancestor_skeleton. Qed.

(** The model starts where the page is rendered. *)
Definition initial e p : field_model :=
  FieldModel (el_children e) false 0 (el_classList <$> doc_elements (pg_doc p))
    (pg_globals p) (pg_pending p) (pg_reported p) (pg_navigations p).

Lemma rendered_exact n e p :
  rendered n e p → focusable e = false →
  exact (skeleton (pg_doc p)) n (setting_of p) (initial e p) e p.
Proof. intros Hr Hf. by apply (exact_intro _ _ _ _ _ _ _ (rendered_represents n e p Hr Hf)). Qed.

(** From a rendered page, the page after a run is a page of the state
    the model reaches. *)
Lemma run_exact n e p l q :
  rendered n e p → focusable e = false → steps p l q →
  ∃ e', exact (skeleton (pg_doc p)) n (setting_of p)
          (model_run (setting_of p) l (initial e p)) e' q.
Proof.
  intros Hr Hf Hsteps.
  apply (steps_exact _ n _ (λ q k el, setting_ancestor p q k el) _ e p);
    [by apply rendered_exact|done].
Qed.

(** The page takes the runs the model takes. *)
Lemma run_accepts n e p l :
  rendered n e p → focusable e = false →
  all_enabled l p = accepts (setting_of p) l (initial e p).
Proof.
  intros Hr Hf.
  apply (exact_all_enabled _ n _ (λ q k el, setting_ancestor p q k el) _ e p).
  by apply rendered_exact.
Qed.

(** In edit mode the user can type. *)
Lemma exact_enabled_type sk n c m e p t :
  exact sk n c m e p → fm_editing m = true → enabled (TypeText t) p.
Proof.
  intros Hp Hm. simpl. rewrite (exact_focused _ _ _ _ _ _ Hp Hm). simpl.
  rewrite (exact_lookup _ _ _ _ _ _ Hp).
  rewrite (rp_editable _ _ _ _ _ (ex_field _ _ _ _ _ _ Hp)). done.
Qed.

Lemma session_steps sk n c m e p t :
  exact sk n c m e p → steps p (session t) (run_actions (session t) p).
Proof.
  intros Hp. destruct (edit_exact sk n c m e p Hp) as [Hrun Hq].
  assert (exec (perform ClickEdit) p = edit_mode n e p) as Hedit
    by (unfold exec, perform, catch; simpl; by rewrite Hrun).
  repeat (econstructor; [constructor|]); [done| |done|constructor].
  rewrite Hedit. by eapply exact_enabled_type.
Qed.

Lemma steps_constants p l q : steps p l q → constants q = constants p.
Proof.
  intros Hsteps. apply (steps_frame (has_constants (constants p)) p l q); [|done..].
  intros i _. apply complete_constants.
Qed.

(** What a run keeps of the globals of the rendered page. *)
Lemma run_globals sk n c m e p l q :
  steps p l q → exact sk n c m e q →
  entity_type (fm_globals m) = entity_type (pg_globals p) ∧
  entity_id (fm_globals m) = entity_id (pg_globals p) ∧
  entity_name (fm_globals m) = entity_name (pg_globals p) ∧
  st_search c = pg_search p.
Proof.
  intros Hsteps%steps_constants Hq. rewrite <- (exact_globals _ _ _ _ _ _ Hq).
  rewrite <- (ex_search _ _ _ _ _ _ Hq). by injection Hsteps.
Qed.

(** C2.  The page computes the model: after any run of enabled actions
    from a rendered page, what the model sees of the page (the content
    of the name field, whether it can be edited, the number of its blur
    listeners, the class lists, the globals, the requests in flight,
    the reported exceptions and the navigations) is what [model_run]
    computes from what it sees of the rendered page. *)
Theorem model_exact n e p l q :
  rendered n e p → focusable e = false → steps p l q →
  abstraction n q = model_run (setting_of p) l <$> abstraction n p.
Proof.
  intros Hr Hf Hsteps. destruct (run_exact n e p l q Hr Hf Hsteps) as [e' Hq].
  rewrite (exact_abstraction _ _ _ _ _ _ Hq).
  by rewrite (exact_abstraction _ _ _ _ _ _ (rendered_exact n e p Hr Hf)).
Qed.

(** C18.  The session after [k] others: on a page that a run from a
    rendered page has left after [k] calls of [editEntity], an edit
    session with the text [t] can run; the input event strips up to
    [k + 1] line feeds, one for each input listener, and when the
    markup of what is left is not the name of the entity the click
    away sends [k + 1] copies of the rename request; the class lists,
    the reported exceptions and the navigations are as before. *)
Theorem session_after_sessions n e p l q m t :
  rendered n e p → focusable e = false → steps p l q →
  abstraction n q = Some m →
  let content := Nat.iter (S (fm_sessions m)) strip (text_node t) in
  let html := serialize_fragment content in
  let r := run_actions (session t) q in
  steps q (session t) r ∧
  ∃ m', abstraction n r = Some m' ∧
    fm_content m' = content ∧ fm_editing m' = false ∧
    fm_sessions m' = S (fm_sessions m) ∧
    fm_pending m' =
      (fm_pending m ++
        (if decide (html ≠ entity_name (pg_globals p))
         then replicate (S (fm_sessions m))
                (commit_request (pg_globals p) (pg_search p) html)
         else []))%list ∧
    newname (fm_globals m') = Some html ∧
    (fm_classes m', fm_reported m', fm_navigations m') =
      (fm_classes m, fm_reported m, fm_navigations m).
Proof.
  intros Hr Hf Hsteps Hm. destruct (run_exact n e p l q Hr Hf Hsteps) as [e' Hq].
  rewrite (exact_abstraction _ _ _ _ _ _ Hq) in Hm. injection Hm as Hm.
  rewrite Hm in Hq. pose proof (session_steps _ _ _ _ _ _ t Hq) as Hrun.
  split; [done|].
  destruct (steps_exact _ n _ (λ q k el, setting_ancestor p q k el) _ e' q _ _ Hq Hrun)
    as [e2 Hr2].
  destruct (run_globals _ _ _ _ _ _ _ _ Hsteps Hq) as (Hty & Hid & Hname & Hsearch).
  eexists. split; [by rewrite (exact_abstraction _ _ _ _ _ _ Hr2)|].
  rewrite model_run_session. unfold commit. cbn [fm_content fm_globals].
  rewrite Hname, (commit_request_ext _ (pg_globals p)) by done.
  case_decide; simpl; by rewrite ?app_nil_r.
Qed.

(** C27.  Enter and Escape are cancelled, and no other key is: on
    every page a run from a rendered page reaches, the keydown of a
    key pressed in the focused field has its default action prevented
    when the key is Enter, Escape or Esc, whatever the number of
    sessions the page has had, and the keydown of any other key has
    not, so that typing is never blocked. *)
Theorem keys_cancelled n e p l q key :
  rendered n e p → focusable e = false → steps p l q → enabled (PressKey key) q →
  default_prevented key q = bool_decide (key = "Enter" ∨ is_escape key).
Proof.
  intros Hr Hf Hsteps Hen. destruct (run_exact n e p l q Hr Hf Hsteps) as [e' Hq].
  destruct (fm_editing (model_run (setting_of p) l (initial e p))) eqn:Hm.
  - destruct (key_exact _ _ _ _ _ _ key Hq Hm) as (ev' & q' & Hrun & Hev & _).
    unfold default_prevented, result. by rewrite Hrun.
  - simpl in Hen. rewrite (rp_active _ _ _ _ _ (ex_field _ _ _ _ _ _ Hq)) in Hen.
    simpl in Hen. rewrite Hm in Hen. by destruct Hen.
Qed.

(** C28.  A rename that fails: when the request of the first session
    of a page fails, the name field is locked and shows the new name,
    nothing is in flight that was not before, the page has not
    navigated and no exception is reported; the name the script
    compares with is still the old one. *)
Theorem failed_rename n e p t :
  rendered n e p → focusable e = false →
  let content := strip (text_node t) in
  serialize_fragment content ≠ entity_name (pg_globals p) →
  let l := (session t ++ [Failure (length (pg_pending p))])%list in
  let q := run_actions l p in
  steps p l q ∧
  ∃ m, abstraction n q = Some m ∧
    fm_content m = content ∧ fm_editing m = false ∧
    fm_pending m = pg_pending p ∧ fm_navigations m = pg_navigations p ∧
    fm_reported m = pg_reported p ∧
    entity_name (fm_globals m) = entity_name (pg_globals p).
Proof.
  intros Hr Hf content Hnew l q. pose proof (rendered_exact n e p Hr Hf) as Hp.
  pose proof (session_steps _ _ _ _ _ _ t Hp) as Hrun.
  destruct (steps_exact _ n _ (λ q k el, setting_ancestor p q k el) _ e p _ _ Hp Hrun)
    as [e1 Hq1].
  pose proof (failed_session (setting_of p) t (initial e p) eq_refl Hnew) as (Hi & Hm).
  rewrite <- (exact_pending _ _ _ _ _ _ Hq1) in Hi.
  pose proof (failure_exact _ n _ _ _ _ _ Hq1 (mk_is_Some _ _ Hi)) as Hq.
  subst q l. rewrite run_actions_app. split.
  - eapply steps_app; [done|]. econstructor; [|constructor]. apply Step. simpl. eauto.
  - eexists. split; [apply (exact_abstraction _ _ _ _ _ _ Hq)|done].
Qed.

(** C26.  No exception without a misplaced control: in a run from a
    rendered page in which every delete control that is clicked has
    its row, no function of the script and no listener throws; the
    list of reported exceptions is that of the rendered page. *)
Theorem no_exception n e p l q :
  rendered n e p → focusable e = false → steps p l q →
  Forall (placed (setting_of p)) l → pg_reported q = pg_reported p.
Proof.
  intros Hr Hf Hsteps Hl. destruct (run_exact n e p l q Hr Hf Hsteps) as [e' Hq].
  destruct Hq as [_ _ [= _ _ _ -> _] _]. by rewrite model_run_reported.
Qed.

(** C5.  The runs of the page are the runs of the model: from a
    rendered page, a sequence of clicks, keys, texts, completions and
    failures is a run of the page, every action enabled when its turn
    comes, exactly when the model takes it: a key or a text in edit
    mode only, a completion or a failure of a request in flight
    only. *)
Theorem page_runs_iff n e p l :
  rendered n e p → focusable e = false →
  (∃ q, steps p l q) ↔ accepts (setting_of p) l (initial e p) = true.
Proof.
  intros Hr Hf. rewrite <- (run_accepts n e p l Hr Hf). split.
  - intros [q Hq]. by eapply steps_all_enabled.
  - intros Hl. eexists. by apply run_actions_steps.
Qed.

(** C20.  The delete controls and the name field are independent: in
    a run from a rendered page, a click on a toggle that has its row
    can be moved after the action that follows it, whatever that
    action is (a click on the pencil, a key, a text, a click away, a
    completion, a failure, a click on a control).  The other order is
    a run as well, and the content of the name field, its edit mode,
    its listeners, the globals, the requests in flight, the reported
    exceptions and the navigations are the same after both; so are the
    class lists, up to the order of the tokens, and with their order
    unless the action is a click on a delete control of the same
    row. *)
Theorem toggle_independent n e p l1 x a l2 q :
  rendered n e p → focusable e = false →
  placed (setting_of p) (ClickToggle x) →
  steps p (l1 ++ ClickToggle x :: a :: l2) q →
  ∃ q', steps p (l1 ++ a :: ClickToggle x :: l2) q' ∧
    abstraction n q' ≡ abstraction n q ∧
    (apart (setting_of p) x a → abstraction n q' = abstraction n q).
Proof.
  intros Hr Hf Hx Hq. pose proof (steps_all_enabled _ _ _ Hq) as Hl.
  rewrite (run_accepts n e p _ Hr Hf), (accepts_swap _ l1 x a l2 _ Hx) in Hl.
  rewrite <- (run_accepts n e p _ Hr Hf) in Hl. apply run_actions_steps in Hl.
  eexists. split; [done|].
  destruct (run_exact n e p _ _ Hr Hf Hq) as [e1 ->%exact_abstraction].
  destruct (run_exact n e p _ _ Hr Hf Hl) as [e2 ->%exact_abstraction].
  split; [|intros Ha; by rewrite (model_run_swap _ l1 x a l2 _ Hx Ha)].
  constructor. symmetry. by apply model_run_swap_perm.
Qed.

End page.

(** ** Examples *)

Section examples.
#[local] Existing Instance Markup.reference.

Lemma model_exact_witness :
  abstraction 1 (run_actions three_sessions Examples.artist_page) =
    model_run (setting_of Examples.artist_page) three_sessions <$>
      abstraction 1 Examples.artist_page.
Proof.
  by apply (model_exact (MP:=Markup.reference) 1 (heading "Radiohead") Examples.artist_page
    three_sessions _ (rendered_page_of _ _ _ _) eq_refl), run_actions_steps.
Defined.

(** The model of the three sessions: six renames in flight, the field
    locked and showing the last text. *)
Example model_three_sessions :
  let m := model_run (setting_of Examples.artist_page) three_sessions
             (initial (heading "Radiohead") Examples.artist_page) in
  length (fm_pending m) = 6 ∧ fm_editing m = false ∧ fm_sessions m = 3 ∧
  serialize_fragment (fm_content m) = "Radiohead 4" ∧ fm_reported m = [].
Proof. by vm_compute. Qed.

(** The model after a first session that renames the artist. *)
Definition first_model : field_model :=
  model_run (setting_of Examples.artist_page) (session "Radiohead 2")
    (initial (heading "Radiohead") Examples.artist_page).

Lemma session_after_sessions_witness :
  let m := first_model in
  let p := Examples.artist_page in
  let q := run_actions (session "Radiohead 2") p in
  let content := Nat.iter (S (fm_sessions m)) strip (text_node "Radiohead 3") in
  let html := serialize_fragment content in
  let r := run_actions (session "Radiohead 3") q in
  steps q (session "Radiohead 3") r ∧
  ∃ m', abstraction 1 r = Some m' ∧
    fm_content m' = content ∧ fm_editing m' = false ∧
    fm_sessions m' = S (fm_sessions m) ∧
    fm_pending m' =
      (fm_pending m ++
        (if decide (html ≠ entity_name (pg_globals p))
         then replicate (S (fm_sessions m))
                (commit_request (pg_globals p) (pg_search p) html)
         else []))%list ∧
    newname (fm_globals m') = Some html ∧
    (fm_classes m', fm_reported m', fm_navigations m') =
      (fm_classes m, fm_reported m, fm_navigations m).
Proof.
  apply (session_after_sessions (MP:=Markup.reference) 1 (heading "Radiohead")
    Examples.artist_page (session "Radiohead 2") _ first_model "Radiohead 3"
    (rendered_page_of _ _ _ _) eq_refl); [by apply run_actions_steps|by vm_compute].
Defined.

(** In the second session of a page an input event strips two line
    feeds: the text of three lines is left as one line. *)
Example second_session_strips_two :
  let q := run_actions (session "Radiohead 2") Examples.artist_page in
  let r := run_actions [ClickEdit; TypeText pasted] q in
  (serialize_fragment ∘ fm_content) <$> abstraction 1 r = Some "Radiohead!".
Proof. by vm_compute. Qed.

Lemma keys_cancelled_witness :
  let q := run_actions [ClickEdit; TypeText "Radiohead 2"] Examples.artist_page in
  default_prevented "Enter" q = true ∧ default_prevented "a" q = false.
Proof.
  split;
    [refine (keys_cancelled (MP:=Markup.reference) 1 (heading "Radiohead")
       Examples.artist_page [ClickEdit; TypeText "Radiohead 2"] _ "Enter"
       (rendered_page_of _ _ _ _) eq_refl _ _)
    |refine (keys_cancelled (MP:=Markup.reference) 1 (heading "Radiohead")
       Examples.artist_page [ClickEdit; TypeText "Radiohead 2"] _ "a"
       (rendered_page_of _ _ _ _) eq_refl _ _)];
    first [by apply run_actions_steps|vm_compute; by eexists].
Defined.

Lemma failed_rename_witness :
  let p := Examples.artist_page in
  let l := (session "Radiohead Remastered" ++ [Failure 0])%list in
  let q := run_actions l p in
  steps p l q ∧
  ∃ m, abstraction 1 q = Some m ∧
    fm_content m = strip (text_node "Radiohead Remastered") ∧ fm_editing m = false ∧
    fm_pending m = [] ∧ fm_navigations m = [] ∧ fm_reported m = [] ∧
    entity_name (fm_globals m) = "Radiohead".
Proof.
  by apply (failed_rename (MP:=Markup.reference) 1 (heading "Radiohead") Examples.artist_page
    "Radiohead Remastered" (rendered_page_of _ _ _ _) eq_refl).
Defined.

(** After the failure the old name is still the name the script
    compares with: typing it back sends nothing, and the server is
    not asked again. *)
Example failed_rename_then_old_name :
  let l := (session "Radiohead Remastered" ++ [Failure 0] ++ session "Radiohead")%list in
  pg_pending (run_actions l Examples.artist_page) = [].
Proof. by vm_compute. Qed.

(** A session, the delete controls of a row and the completions. *)
Definition busy_run : list action :=
  [ClickToggle 6; ClickEdit; TypeText "Radiohead 2"; ClickToggle 6;
   ClickDelete (VNum 1700000000) 6; PressKey "Enter"; Complete 1; Complete 0].

Lemma no_exception_witness :
  pg_reported (run_actions busy_run Examples.artist_page) =
    pg_reported Examples.artist_page.
Proof.
  apply (no_exception (MP:=Markup.reference) 1 (heading "Radiohead") Examples.artist_page
    busy_run _ (rendered_page_of _ _ _ _) eq_refl); [by apply run_actions_steps|].
  apply (bool_decide_unpack _). by vm_compute.
Defined.

Lemma page_runs_iff_witness :
  (∃ q, steps Examples.artist_page busy_run q) ↔
  accepts (setting_of Examples.artist_page) busy_run
    (initial (heading "Radiohead") Examples.artist_page) = true.
Proof.
  exact (page_runs_iff (MP:=Markup.reference) 1 (heading "Radiohead") Examples.artist_page
    busy_run (rendered_page_of _ _ _ _) eq_refl).
Defined.

(** The model takes no text before the click on the pencil, no key
    after the commit, and no completion of a request that was not
    sent. *)
Example model_refuses :
  let m := initial (heading "Radiohead") Examples.artist_page in
  let c := setting_of Examples.artist_page in
  accepts c [TypeText "Radiohead 2"] m = false ∧
  accepts c (session "Radiohead 2" ++ [PressKey "Enter"]) m = false ∧
  accepts c (session "Radiohead" ++ [Complete 0]) m = false ∧
  accepts c (session "Radiohead 2" ++ [Complete 0]) m = true.
Proof. by vm_compute. Qed.

(** The toggle and the delete control of the row, in both orders. *)
Lemma toggle_independent_witness :
  let p := Examples.artist_page in
  let t := VNum 1700000000 in
  let q := run_actions (session "Radiohead 2" ++ [ClickToggle 5; ClickDelete t 6; Complete 0]) p in
  ∃ q', steps p (session "Radiohead 2" ++ [ClickDelete t 6; ClickToggle 5; Complete 0]) q' ∧
    abstraction 1 q' ≡ abstraction 1 q ∧
    (apart (setting_of p) 5 (ClickDelete t 6) → abstraction 1 q' = abstraction 1 q).
Proof.
  apply (toggle_independent (MP:=Markup.reference) 1 (heading "Radiohead") Examples.artist_page
    (session "Radiohead 2") 5 (ClickDelete (VNum 1700000000) 6) [Complete 0] _
    (rendered_page_of _ _ _ _) eq_refl); [by eexists|by apply run_actions_steps].
Defined.

(** The toggle and the delete control of the same row: the class list
    of the row has the same tokens in another order. *)
Example same_row_order :
  let classes l :=
    el_classList <$> doc_elements (pg_doc (run_actions l Examples.artist_page)) !! 3 in
  classes [ClickToggle 5; ClickDelete (VNum 1700000000) 6] = Some ["active"; "removed"] ∧
  classes [ClickDelete (VNum 1700000000) 6; ClickToggle 5] = Some ["removed"; "active"].
Proof. by vm_compute. Qed.

(** A delete control two levels below the root: the third
    [parentElement] is [null], its [classList] throws, and no request
    is sent. *)
Example misplaced_control_reports :
  let q := run_actions [ClickDelete (VNum 1) 3] Examples.artist_page in
  pg_reported q = [TypeError "classList"] ∧ pg_pending q = [].
Proof. by vm_compute. Qed.

End examples.
