(* ===== verification/Navigations.v ===== *)
(** * Renames and navigations, counted

    What the script does with a rename it has sent: the request is in
    flight until it completes or fails, and its callback assigns
    [window.location] once when it completes.  Nothing else navigates.
    So the renames in flight and the navigations together are at most
    the renames the commits have sent, and a commit of the [i]-th
    session sends at most [i]: after [k] calls of [editEntity] the
    page has at most [k (k + 1) / 2] renames in flight and navigations
    done, taken together.  This is a count on the page alone: nothing
    here unloads a page that has navigated. *)

From stdpp Require Import base tactics option list strings.
From Stdlib Require Import ZArith Lia.
From S2P Require Import Prelude Js Markup Dom Page Edit CommitProps Invariants Actions Examples.
From S2P Require Import Session Machine Model Exact Adequacy.

#[local] Open Scope page_scope.
#[local] Open Scope string_scope.

(** ** The count in the model *)

Section model.
Context `{MP : !MarkupPlatform} `{KP : !KnowsPlaintextOnly}.
Context (c : setting).
Implicit Types (m : field_model) (a : action) (rq : request) (l : list action).

(** The renames in flight and the navigations done. *)
Definition spent (m : field_model) : nat :=
  (rename_count (fm_pending m) + length (fm_navigations m))%nat.

(** The renames the commits can have sent so far: those of the
    sessions before this one while the field is in edit mode, those
    of all sessions when it is not. *)
Definition within_budget (m : field_model) : Prop :=
  (2 * spent m + (if fm_editing m then 2 * fm_sessions m else 0) ≤
   fm_sessions m * (fm_sessions m + 1))%nat.

#[export] Instance within_budget_dec m : Decision (within_budget m).
Proof. unfold within_budget. apply _. Defined.

(** A callback navigates once when its request is a rename, and not
    at all when it is not. *)
Lemma navigation_rename rq :
  length (navigation (rq_callback rq)) = if decide (is_rename rq) then 1%nat else 0%nat.
Proof. case_decide as H; unfold is_rename, navigation in *; by destruct (rq_callback rq). Qed.

(** A completion moves a rename from the requests in flight to the
    navigations; a failure takes it away. *)
Lemma complete_spent i rq m :
  fm_pending m !! i = Some rq →
  (rename_count (delete i (fm_pending m)) + length (fm_navigations m ++ navigation (rq_callback rq))
   = spent m)%nat.
Proof.
  intros Hi. unfold spent.
  rewrite length_app, navigation_rename, (rename_count_delete _ i rq Hi). lia.
Qed.

Lemma failure_spent i m :
  (rename_count (delete i (fm_pending m)) ≤ rename_count (fm_pending m))%nat.
Proof.
  destruct (fm_pending m !! i) as [rq|] eqn:Hi.
  - rewrite (rename_count_delete _ i rq Hi). lia.
  - rewrite list_delete_ge; [done|]. by apply lookup_ge_None.
Qed.

(** A commit sends nothing, or one rename for each session. *)
Lemma commit_spent m :
  fm_editing (commit c m) = false ∧ fm_sessions (commit c m) = fm_sessions m ∧
  (spent (commit c m) ≤ spent m + fm_sessions m)%nat.
Proof.
  unfold commit, spent. case_decide; simpl; [|lia].
  rewrite rename_count_app, rename_count_replicate by apply is_rename_commit_request. lia.
Qed.

Lemma commit_budget m : fm_editing m = true → within_budget m → within_budget (commit c m).
Proof.
  unfold within_budget. intros -> Hm.
  destruct (commit_spent m) as (-> & -> & Hs). lia.
Qed.

(** A state that has spent no more, with the same sessions, is
    within the budget as well. *)
Lemma within_budget_le m m' :
  (spent m' ≤ spent m)%nat → fm_editing m' = fm_editing m → fm_sessions m' = fm_sessions m →
  within_budget m → within_budget m'.
Proof. unfold within_budget. intros Hs -> ->. lia. Qed.

Lemma delete_spent t cl m :
  spent (fm_send 1 (DeleteProps.delete_request t) (fm_set_classes cl m)) = spent m.
Proof. unfold spent. simpl. rewrite rename_count_app. unfold rename_count at 2. simpl. lia. Qed.

(** Every step of the model stays within the budget. *)
Lemma model_step_budget a m : within_budget m → within_budget (model_step c a m).
Proof.
  intros Hm. destruct a as [x|t x| |key|t| |i|i]; simpl.
  - by destruct (st_ancestor c 2 x).
  - destruct (st_ancestor c 3 x); [|done].
    apply (within_budget_le m); [by rewrite delete_spent|done..].
  - revert Hm. unfold within_budget, spent. cbn [fm_pending fm_navigations fm_editing fm_sessions].
    destruct (fm_editing m); nia.
  - destruct (fm_editing m) eqn:He; [|done]. repeat case_decide; [by apply commit_budget| |done].
    apply commit_budget; [done|]. by apply (within_budget_le m).
  - destruct (fm_editing m); [|done]. by apply (within_budget_le m).
  - destruct (fm_editing m) eqn:He; [by apply commit_budget|done].
  - destruct (fm_pending m !! i) as [rq|] eqn:Hi; [|done].
    apply (within_budget_le m); [|done..]. unfold spent at 1. simpl.
    by rewrite (complete_spent i rq m Hi).
  - apply (within_budget_le m); [|done..]. unfold spent. simpl.
    pose proof (failure_spent i m). lia.
Qed.

Lemma model_run_budget l m : within_budget m → within_budget (model_run c l m).
Proof.
  revert m. induction l as [|a l IH]; intros m Hm; [done|].
  rewrite model_run_cons. by apply IH, model_step_budget.
Qed.

(** The sessions of the model are the calls of [editEntity]. *)
Lemma commit_sessions m : fm_sessions (commit c m) = fm_sessions m.
Proof. apply commit_spent. Qed.

Lemma model_step_sessions a m :
  fm_sessions (model_step c a m) =
  (fm_sessions m + if decide (a = ClickEdit) then 1 else 0)%nat.
Proof.
  destruct a as [x|t x| |key|t| |i|i]; simpl; rewrite ?Nat.add_0_r; try done.
  - by destruct (st_ancestor c 2 x).
  - by destruct (st_ancestor c 3 x).
  - lia.
  - destruct (fm_editing m); [|done]. repeat case_decide; by rewrite ?commit_sessions.
  - by destruct (fm_editing m).
  - destruct (fm_editing m); by rewrite ?commit_sessions.
  - by destruct (fm_pending m !! i).
Qed.

Lemma model_run_sessions l m :
  fm_sessions (model_run c l m) = (fm_sessions m + count_occ_of ClickEdit l)%nat.
Proof.
  revert m. induction l as [|a l IH]; intros m; [by rewrite Nat.add_0_r|].
  rewrite model_run_cons, IH, model_step_sessions. unfold count_occ_of.
  case_decide as Ha; [subst a; rewrite filter_cons_True by done|rewrite filter_cons_False by done];
    simpl; lia.
Qed.

End model.

(** ** The count on the page *)

Section page.
Context `{MP : !MarkupPlatform} `{KP : !KnowsPlaintextOnly}.
Implicit Types (p q : page) (n : node) (e : element listener) (l : list action).

(** After a run from a rendered page on which no rename is in flight
    and which has not navigated, the page is the page of a state of
    the model within its budget, with a session for each call of
    [editEntity]. *)
Lemma run_within_budget n e p l q :
  rendered n e p → focusable e = false →
  rename_count (pg_pending p) = 0%nat → pg_navigations p = [] →
  steps p l q →
  ∃ m, outside q = fm_outside m ∧ within_budget m ∧
       fm_sessions m = count_occ_of ClickEdit l.
Proof.
  intros Hr Hf H0 Hnav Hsteps. destruct (run_exact n e p l q Hr Hf Hsteps) as [e' Hq].
  eexists. split; [apply (ex_outside _ _ _ _ _ _ Hq)|].
  split; [|by rewrite model_run_sessions].
  apply model_run_budget. unfold within_budget, spent. simpl. rewrite H0, Hnav. simpl. lia.
Qed.

(** C24.  Renames and navigations are bounded by the edit sessions, on
    the page alone: along every run from a rendered page with no
    rename in flight and no navigation done, with [k] calls of
    [editEntity] in the run, the renames in flight and the
    assignments of [window.location] are together at most
    [1 + 2 + ... + k], whatever completes or fails and in whatever
    order.  Only the callback of a rename navigates, it navigates
    once, and a commit sends at most one rename for each session. *)
Theorem navigations_bounded n e p l q :
  rendered n e p → focusable e = false →
  rename_count (pg_pending p) = 0%nat → pg_navigations p = [] →
  steps p l q →
  let k := count_occ_of ClickEdit l in
  (2 * (rename_count (pg_pending q) + length (pg_navigations q)) ≤ k * (k + 1))%nat.
Proof.
  intros Hr Hf H0 Hnav Hsteps.
  destruct (run_within_budget n e p l q Hr Hf H0 Hnav Hsteps) as (m & [= _ _ -> _ ->] & Hm & <-).
  revert Hm. unfold within_budget, spent. simpl. destruct (fm_editing m); lia.
Qed.

(** With one edit session the page navigates at most once, and not
    while its rename is in flight. *)
Lemma one_session_navigates_once n e p l q :
  rendered n e p → focusable e = false →
  rename_count (pg_pending p) = 0%nat → pg_navigations p = [] →
  steps p l q → (count_occ_of ClickEdit l ≤ 1)%nat →
  (rename_count (pg_pending q) + length (pg_navigations q) ≤ 1)%nat.
Proof.
  intros Hr Hf H0 Hnav Hsteps Hk.
  destruct (run_within_budget n e p l q Hr Hf H0 Hnav Hsteps) as (m & [= _ _ -> _ ->] & Hm & Hs).
  revert Hm. unfold within_budget, spent. rewrite Hs. destruct (fm_editing m); nia.
Qed.

End page.

(** ** Examples *)

Section examples.
#[local] Existing Instance Markup.reference.

(** Three sessions that change the name, the completion of four of
    their six renames and the failure of one. *)
Definition settled_sessions : list action :=
  three_sessions ++ [Complete 5; Complete 0; Failure 1; Complete 0; Complete 1].

Lemma navigations_bounded_witness :
  let q := run_actions settled_sessions Examples.artist_page in
  let k := count_occ_of ClickEdit settled_sessions in
  (2 * (rename_count (pg_pending q) + length (pg_navigations q)) ≤ k * (k + 1))%nat.
Proof.
  apply (navigations_bounded (MP:=Markup.reference) 1 (heading "Radiohead")
    Examples.artist_page settled_sessions _ (rendered_page_of _ _ _ _) eq_refl eq_refl eq_refl).
  by apply run_actions_steps.
Defined.

(** The bound is reached: when all six renames of three sessions
    complete the page has assigned [window.location] six times. *)
Example six_navigations :
  let l := (three_sessions ++ (Complete <$> [5; 0; 0; 0; 0; 0]))%list in
  let q := run_actions l Examples.artist_page in
  all_enabled l Examples.artist_page = true ∧
  count_occ_of ClickEdit l = 3%nat ∧ pg_pending q = [] ∧ length (pg_navigations q) = 6%nat.
Proof. by vm_compute. Qed.

(** A delete that completes does not navigate. *)
Example delete_does_not_navigate :
  let l := [ClickDelete (VNum 1700000000) 6; Complete 0] in
  let q := run_actions l Examples.artist_page in
  all_enabled l Examples.artist_page = true ∧ pg_pending q = [] ∧ pg_navigations q = [].
Proof. by vm_compute. Qed.

End examples.
