(* ===== verification/Rows.v ===== *)
(** * The delete controls of a row as a machine

    A row of the list of scrobbles is armed when it has the class
    [active] and removed when it has the class [removed].  The two
    delete controls are the only part of the script that writes a class
    list: the toggle flips the armed flag of the second ancestor of its
    control, the delete sets the removed flag of the third, and nothing
    ever clears the removed flag.  [row_step] is this machine for one
    row; the class list of the row is shown to follow it along every
    run from a rendered page. *)

From stdpp Require Import base tactics option list strings.
From Stdlib Require Import ZArith Lia.
From S2P Require Import Prelude Js JsString TokenList Markup Url Dom Path Page Edit.
From S2P Require Import Examples Run Actions Session Machine Model Exact Adequacy.

#[local] Open Scope page_scope.
#[local] Open Scope string_scope.

(** ** The machine *)

Record row_state : Type := RowState {
  (** the row shows its confirmation: the class [active] *)
  rs_armed : bool;
  (** the row is marked as deleted: the class [removed] *)
  rs_removed : bool;
}.

#[export] Instance row_state_eq_dec : EqDecision row_state.
Proof. solve_decision. Defined.

(** The state of a row with the class list [l]. *)
Definition row_of_classes (l : list string) : row_state :=
  RowState (bool_decide (class_active ∈ l)) (bool_decide (class_removed ∈ l)).

(** The state of a row does not depend on the order of the tokens. *)
#[export] Instance row_of_classes_proper : Proper ((≡ₚ) ==> (=)) row_of_classes.
Proof.
  intros l l' Hl. unfold row_of_classes. f_equal; apply bool_decide_ext; by rewrite Hl.
Qed.

Section rows.
Context `{MP : !MarkupPlatform} `{KP : !KnowsPlaintextOnly}.
Context (c : setting) (row : node).
Implicit Types (s : row_state) (a : action) (m : field_model).

(** The click of the action is on the toggle of the row. *)
Definition toggles (a : action) : Prop :=
  match a with ClickToggle element => st_ancestor c 2 element = Some row | _ => False end.

#[export] Instance toggles_dec a : Decision (toggles a).
Proof. destruct a; apply _. Defined.

(** The click of the action is on the delete control of the row. *)
Definition deletes (a : action) : Prop :=
  match a with ClickDelete _ element => st_ancestor c 3 element = Some row | _ => False end.

#[export] Instance deletes_dec a : Decision (deletes a).
Proof. destruct a; apply _. Defined.

Definition row_step (a : action) (s : row_state) : row_state :=
  if decide (toggles a) then RowState (negb (rs_armed s)) (rs_removed s)
  else if decide (deletes a) then RowState (rs_armed s) true
  else s.

Definition row_run (l : list action) (s : row_state) : row_state :=
  foldl (λ s a, row_step a s) s l.

(** The state of the row in the model. *)
Definition row_of (m : field_model) : option row_state :=
  row_of_classes <$> fm_classes m !! row.

(** Equivalent states of the model have the same rows. *)
#[export] Instance row_of_proper : Proper ((≡) ==> (=)) row_of.
Proof.
  intros m m' [Hcl _]. unfold row_of.
  destruct (proj1 (Forall2_lookup _ _ _) Hcl row) as [l l' Hl|]; simpl; [|done].
  by rewrite Hl.
Qed.

(** ** The class lists follow the machine *)

Lemma row_of_toggle l :
  row_of_classes (exec (TokenList.toggle class_active) l) =
    RowState (negb (rs_armed (row_of_classes l))) (rs_removed (row_of_classes l)).
Proof.
  unfold row_of_classes. simpl. rewrite <- bool_decide_not.
  f_equal; apply bool_decide_ext; by rewrite TokenList.elem_of_toggle by apply valid_class_active.
Qed.

Lemma row_of_append l :
  row_of_classes (TokenList.append_token class_removed l) =
    RowState (rs_armed (row_of_classes l)) true.
Proof.
  unfold row_of_classes. simpl.
  f_equal; [apply bool_decide_ext|apply bool_decide_eq_true_2];
    rewrite TokenList.elem_of_append_token; [|by left].
  split; [by intros [?|?]|by right].
Qed.

(** An action that is not a click on a delete control leaves the class
    lists. *)
Lemma model_step_other_row a m :
  ¬ toggles a → ¬ deletes a →
  fm_classes (model_step c a m) !! row = fm_classes m !! row.
Proof.
  destruct a; simpl; intros Ht Hd; unfold commit;
    repeat (case_match || case_decide); simpl; try done.
  all: by rewrite list_lookup_alter_ne by congruence.
Qed.

Lemma model_step_row a m : row_of (model_step c a m) = row_step a <$> row_of m.
Proof.
  unfold row_of, row_step. destruct (decide (toggles a)) as [Ht|Ht].
  { destruct a; try done. simpl in *. rewrite Ht. simpl.
    rewrite list_lookup_alter_eq. destruct (fm_classes m !! row); simpl; [|done].
    by rewrite row_of_toggle. }
  destruct (decide (deletes a)) as [Hd|Hd].
  { destruct a; try done. simpl in *. rewrite Hd. simpl.
    rewrite list_lookup_alter_eq. destruct (fm_classes m !! row); simpl; [|done].
    by rewrite row_of_append. }
  rewrite model_step_other_row by done. by destruct (fm_classes m !! row).
Qed.

Lemma model_run_row l m : row_of (model_run c l m) = row_run l <$> row_of m.
Proof.
  revert m. induction l as [|a l IH]; intros m; simpl; [by destruct (row_of m)|].
  rewrite IH, model_step_row. by destruct (row_of m).
Qed.

(** ** What the machine does *)

Lemma row_run_app l l' s : row_run (l ++ l') s = row_run l' (row_run l s).
Proof. apply foldl_app. Qed.

(** Nothing clears the removed flag. *)
Lemma row_run_removed l s : rs_removed s = true → rs_removed (row_run l s) = true.
Proof.
  revert s. induction l as [|a l IH]; intros s Hs; [done|]. simpl. apply IH.
  unfold row_step. by repeat case_decide.
Qed.

(** The armed flag is flipped once for each click on the toggle. *)
Lemma row_run_armed l s :
  rs_armed (row_run l s) = xorb (rs_armed s) (Nat.odd (length (filter toggles l))).
Proof.
  revert s. induction l as [|a l IH]; intros s; simpl; [by rewrite xorb_false_r|].
  rewrite IH. unfold row_step. destruct (decide (toggles a)) as [Ht|Ht].
  - rewrite filter_cons_True by done. cbn [length]. rewrite Nat.odd_succ, <- Nat.negb_odd.
    simpl. by destruct (rs_armed s), (Nat.odd _).
  - rewrite filter_cons_False by done. by case_decide.
Qed.

(** The removed flag is set by the first click on the delete control. *)
Lemma row_run_deleted l s : Exists deletes l → rs_removed (row_run l s) = true.
Proof.
  intros Hl. revert s. induction Hl as [a l Ha|a l _ IH]; intros s; simpl; [|apply IH].
  apply row_run_removed. destruct a; try done. unfold row_step.
  rewrite decide_False by (by intros []). by rewrite decide_True.
Qed.

End rows.

(** ** The rows of a page *)

Section page.
Context `{MP : !MarkupPlatform} `{KP : !KnowsPlaintextOnly}.
Implicit Types (p q : page) (e : element listener) (n row : node).

(** The state of the row [row] of a page, read off its class list. *)
Definition page_row (row : node) (p : page) : option row_state :=
  (λ er, row_of_classes (el_classList er)) <$> doc_elements (pg_doc p) !! row.

Lemma page_row_initial row e p : row_of row (initial e p) = page_row row p.
Proof.
  unfold row_of, page_row. simpl. rewrite list_lookup_fmap.
  by destruct (doc_elements (pg_doc p) !! row).
Qed.

(** The row of the page after a run is the row of the model. *)
Lemma run_row n e p l q row :
  rendered n e p → focusable e = false → steps p l q →
  page_row row q = row_run (setting_of p) row l <$> page_row row p.
Proof.
  intros Hr Hf Hsteps. destruct (run_exact n e p l q Hr Hf Hsteps) as [e' Hq].
  rewrite <- (page_row_initial row e p), <- model_run_row.
  destruct Hq as [_ _ [= Hcl _ _ _ _] _]. unfold row_of, page_row.
  rewrite <- Hcl, list_lookup_fmap. by destruct (doc_elements (pg_doc q) !! row).
Qed.

(** C30.  The delete controls are a machine of two flags for each
    row: along any run from a rendered page the classes [active] and
    [removed] of a row are what [row_run] computes from those of the
    rendered page; a click on the toggle two levels below the row
    flips [active], a click on the delete control three levels below
    it sets [removed], and no other action of the run, the edit
    sessions and the completions included, changes either. *)
Theorem row_machine n e p l q row er :
  rendered n e p → focusable e = false → steps p l q →
  doc_elements (pg_doc p) !! row = Some er →
  ∃ er', doc_elements (pg_doc q) !! row = Some er' ∧
    row_of_classes (el_classList er') =
      row_run (setting_of p) row l (row_of_classes (el_classList er)).
Proof.
  intros Hr Hf Hsteps Her. pose proof (run_row n e p l q row Hr Hf Hsteps) as Hrow.
  unfold page_row in Hrow. rewrite Her in Hrow.
  destruct (doc_elements (pg_doc q) !! row) as [er'|]; [|done].
  exists er'. split; [done|]. by injection Hrow.
Qed.

(** A removed row stays removed: from a page that a run from a
    rendered page has reached, no run takes the class [removed] off a
    row, whatever the user and the network do after the delete, the
    failure of the delete request included. *)
Theorem removed_stays n e p l q l' r row :
  rendered n e p → focusable e = false → steps p l q → steps q l' r →
  rs_removed <$> page_row row q = Some true →
  rs_removed <$> page_row row r = Some true.
Proof.
  intros Hr Hf Hl Hl'. rewrite (run_row n e p l q row Hr Hf Hl).
  rewrite (run_row n e p _ r row Hr Hf (steps_app _ _ _ _ _ Hl Hl')).
  destruct (page_row row p) as [s|]; [|done]. simpl. intros [= Hs].
  by rewrite row_run_app, (row_run_removed _ _ l').
Qed.

(** The row of a clicked delete control is removed at the end of the
    run, whether its request has completed or not. *)
Theorem deleted_is_removed n e p l q row :
  rendered n e p → focusable e = false → steps p l q →
  Exists (deletes (setting_of p) row) l → is_Some (page_row row p) →
  rs_removed <$> page_row row q = Some true.
Proof.
  intros Hr Hf Hsteps Hl [s Hs]. rewrite (run_row n e p l q row Hr Hf Hsteps), Hs.
  simpl. by rewrite row_run_deleted.
Qed.

(** The row is armed after an odd number of clicks on its toggle. *)
Theorem armed_parity n e p l q row :
  rendered n e p → focusable e = false → steps p l q →
  rs_armed <$> page_row row q =
    (λ s, xorb (rs_armed s) (Nat.odd (length (filter (toggles (setting_of p) row) l))))
      <$> page_row row p.
Proof.
  intros Hr Hf Hsteps. rewrite (run_row n e p l q row Hr Hf Hsteps).
  destruct (page_row row p) as [s|]; [|done]. simpl. by rewrite row_run_armed.
Qed.

End page.

(** ** Examples *)

Section examples.
#[local] Existing Instance Markup.reference.

(** On the page of the examples the control at node 6 arms the row at
    node 4 and removes the row at node 3. *)
Lemma row_machine_witness :
  let er := Examples.plain (Some 3) "" ["delete_area"] "" in
  ∃ er', doc_elements (pg_doc (run_actions busy_run Examples.artist_page)) !! 4 = Some er' ∧
    row_of_classes (el_classList er') =
      row_run (setting_of Examples.artist_page) 4 busy_run (row_of_classes (el_classList er)).
Proof.
  by apply (row_machine (MP:=Markup.reference) 1 (heading "Radiohead") Examples.artist_page
    busy_run _ 4 _ (rendered_page_of _ _ _ _) eq_refl); [apply run_actions_steps|].
Defined.

Definition one_delete : list action := [ClickDelete (VNum 1700000000) 6].

(** The delete request fails, and the page is used further. *)
Definition failed_delete : list action := Failure 0 :: busy_run.

Lemma removed_stays_witness :
  let q := run_actions one_delete Examples.artist_page in
  rs_removed <$> page_row 3 (run_actions failed_delete q) = Some true.
Proof.
  apply (removed_stays (MP:=Markup.reference) 1 (heading "Radiohead") Examples.artist_page
    one_delete (run_actions one_delete Examples.artist_page) failed_delete
    (run_actions failed_delete (run_actions one_delete Examples.artist_page)) 3
    (rendered_page_of _ _ _ _) eq_refl);
    [by apply run_actions_steps..|by vm_compute].
Defined.

(** The rows of the page after [busy_run]: the row at node 4 was
    toggled twice, the row at node 3 is removed. *)
Example rows_after_busy_run :
  let q := run_actions busy_run Examples.artist_page in
  page_row 4 q = Some (RowState false false) ∧ page_row 3 q = Some (RowState false true).
Proof. by vm_compute. Qed.

End examples.
