(* ===== verification/Server.v ===== *)
(** * The server behind the endpoints

    The script talks to three endpoints.  [server] is what they keep:
    the names of the artists, the titles of the tracks and the
    timestamps of the scrobbles.  [route] reads a request as a [call]
    of an endpoint, [handle] is what the call does to the state, and
    [serve] composes them: a request no endpoint accepts changes
    nothing.  A rename is the write of a register: the last one served
    decides, a second copy changes nothing, and renames of the same
    entity do not commute.  Deletes commute with everything. *)

From stdpp Require Import base tactics option list strings countable gmap.
From Stdlib Require Import ZArith.
From S2P Require Import Prelude Js Page Edit CommitProps DeleteProps Requests.

#[local] Open Scope string_scope.

(** ** Values as keys *)

#[export] Instance value_countable : Countable value.
Proof.
  refine (inj_countable'
    (λ v, match v with
          | VUndefined => inl ()
          | VNull => inr (inl ())
          | VBool b => inr (inr (inl b))
          | VNum z => inr (inr (inr (inl z)))
          | VStr s => inr (inr (inr (inr s)))
          end)
    (λ x, match x with
          | inl _ => VUndefined
          | inr (inl _) => VNull
          | inr (inr (inl b)) => VBool b
          | inr (inr (inr (inl z))) => VNum z
          | inr (inr (inr (inr s))) => VStr s
          end) _).
  by intros [].
Defined.

(** ** The state of the server and its endpoints *)

Record server : Type := Server {
  (** the name of every artist, by id *)
  sv_artists : gmap value string;
  (** the title of every track, by id *)
  sv_tracks : gmap value string;
  (** the timestamps of the scrobbles *)
  sv_scrobbles : gset value;
}.

(** A call of an endpoint, with the fields of its JSON body. *)
Inductive call : Type :=
| DeleteScrobble (timestamp : value)
| EditArtist (id : value) (name : string)
| EditTrack (id : value) (title : string).

#[export] Instance call_eq_dec : EqDecision call.
Proof. solve_decision. Defined.

(** The call a request makes: a POST with a JSON body to one of the
    three paths, with the fields of that path. *)
Definition route (rq : request) : option call :=
  if bool_decide (rq_method rq = "POST") && rq_json rq then
    match rq_url rq, rq_data rq with
    | Some endpoint, Some [(k, t)] =>
        if decide (endpoint = delete_endpoint ∧ k = "timestamp")
        then Some (DeleteScrobble t) else None
    | Some endpoint, Some [(k1, i); (k2, VStr n)] =>
        if decide (endpoint = edit_artist_endpoint ∧ k1 = "id" ∧ k2 = "name")
        then Some (EditArtist i n)
        else if decide (endpoint = edit_track_endpoint ∧ k1 = "id" ∧ k2 = "title")
        then Some (EditTrack i n)
        else None
    | _, _ => None
    end
  else None.

(** What a call does: a delete forgets the scrobble, a rename writes
    the name of an entity the server knows. *)
Definition handle (c : call) (s : server) : server :=
  match c with
  | DeleteScrobble t => Server (sv_artists s) (sv_tracks s) (sv_scrobbles s ∖ {[t]})
  | EditArtist i n => Server (alter (λ _, n) i (sv_artists s)) (sv_tracks s) (sv_scrobbles s)
  | EditTrack i n => Server (sv_artists s) (alter (λ _, n) i (sv_tracks s)) (sv_scrobbles s)
  end.

(** The server serves a request. *)
Definition serve (rq : request) (s : server) : server :=
  from_option (λ c, handle c s) s (route rq).

(** The name the server has for the entity of a page. *)
Definition name_of (ty : string) (id : value) (s : server) : option string :=
  if decide (ty = "artist") then sv_artists s !! id
  else if decide (ty = "track") then sv_tracks s !! id
  else None.

(** Two calls conflict when they write different names of the same
    entity. *)
Definition conflict (c1 c2 : call) : Prop :=
  match c1, c2 with
  | EditArtist i1 n1, EditArtist i2 n2 | EditTrack i1 n1, EditTrack i2 n2 =>
      i1 = i2 ∧ n1 ≠ n2
  | _, _ => False
  end.

#[export] Instance conflict_dec c1 c2 : Decision (conflict c1 c2).
Proof. destruct c1, c2; simpl; apply _. Defined.

(** ** The calls as writes *)

Section calls.
Implicit Types (s : server) (c : call) (rq : request).

Lemma alter_const_twice (m : gmap value string) i n1 n2 :
  alter (λ _, n1) i (alter (λ _, n2) i m) = alter (λ _, n1) i m.
Proof. by rewrite alter_alter_eq. Qed.

Lemma alter_const_commute (m : gmap value string) i1 i2 n1 n2 :
  ¬ (i1 = i2 ∧ n1 ≠ n2) →
  alter (λ _, n1) i1 (alter (λ _, n2) i2 m) = alter (λ _, n2) i2 (alter (λ _, n1) i1 m).
Proof.
  intros Hc. destruct (decide (i1 = i2)) as [->|Hi]; [|by apply alter_alter_ne].
  destruct (decide (n1 = n2)) as [->|Hn]; [done|by destruct Hc].
Qed.

(** A call served twice is a call served once. *)
Lemma handle_idemp c s : handle c (handle c s) = handle c s.
Proof.
  destruct c; simpl; f_equal; [|apply alter_const_twice..].
  by rewrite difference_difference_l_L, union_idemp_L.
Qed.

(** Calls that do not conflict commute. *)
Lemma handle_commute c1 c2 s :
  ¬ conflict c1 c2 → handle c1 (handle c2 s) = handle c2 (handle c1 s).
Proof.
  destruct c1, c2; simpl; intros Hc; f_equal;
    first [done|by apply alter_const_commute|idtac].
  by rewrite !difference_difference_l_L, (union_comm_L {[_]}).
Qed.

(** Of two renames of an entity the second decides. *)
Lemma handle_last_artist i n1 n2 s :
  handle (EditArtist i n2) (handle (EditArtist i n1) s) = handle (EditArtist i n2) s.
Proof. simpl. f_equal. apply alter_const_twice. Qed.

Lemma handle_last_track i n1 n2 s :
  handle (EditTrack i n2) (handle (EditTrack i n1) s) = handle (EditTrack i n2) s.
Proof. simpl. f_equal. apply alter_const_twice. Qed.

Lemma serve_idemp rq s : serve rq (serve rq s) = serve rq s.
Proof. unfold serve. destruct (route rq); simpl; [apply handle_idemp|done]. Qed.

Lemma serve_commute rq1 rq2 s :
  (∀ c1 c2, route rq1 = Some c1 → route rq2 = Some c2 → ¬ conflict c1 c2) →
  serve rq1 (serve rq2 s) = serve rq2 (serve rq1 s).
Proof.
  unfold serve. destruct (route rq1) as [c1|], (route rq2) as [c2|]; simpl; try done.
  intros Hc. apply handle_commute; eauto.
Qed.

(** The copies of a request are served as one. *)
Lemma serve_copies k rq s : foldr serve s (replicate (S k) rq) = serve rq s.
Proof.
  induction k as [|k IH]; [done|]. rewrite replicate_S. simpl in *.
  by rewrite IH, serve_idemp.
Qed.

End calls.

(** ** What the endpoints do *)

Section endpoints.
Context (ty : string) (id : value) (search : string).
Implicit Types (s : server) (rq : request) (c : call) (html : string).

(** What [Requests.api_request] accepts is what the server routes. *)
Lemma api_request_routed rq : api_request ty id rq = true → is_Some (route rq).
Proof.
  unfold api_request, route. intros [Hpost Hbody]%andb_true_iff. rewrite Hpost.
  destruct (rq_url rq) as [endpoint|], (rq_data rq) as [[|[k1 v1] [|[k2 [| | | |n]] [|]]]|];
    try done; apply bool_decide_eq_true in Hbody.
  - by rewrite decide_True.
  - destruct Hbody as (-> & _ & [(_ & -> & ->)|(_ & -> & ->)]);
      [by rewrite decide_True|].
    rewrite decide_False by (by intros [? _]). by rewrite decide_True.
Qed.

Lemma route_delete_request t : route (delete_request t) = Some (DeleteScrobble t).
Proof. done. Qed.

Lemma route_rename_artist html :
  ty = "artist" → route (rename_request ty id search html) = Some (EditArtist id html).
Proof. intros ->. done. Qed.

Lemma route_rename_track html :
  ty = "track" → route (rename_request ty id search html) = Some (EditTrack id html).
Proof. intros ->. done. Qed.

(** A delete leaves the names. *)
Lemma serve_delete_name t s : name_of ty id (serve (delete_request t) s) = name_of ty id s.
Proof. done. Qed.

Lemma serve_delete_scrobbles t s :
  sv_scrobbles (serve (delete_request t) s) = sv_scrobbles s ∖ {[t]}.
Proof. done. Qed.

(** A rename writes the name of an entity the server knows, and
    leaves the scrobbles. *)
Lemma serve_rename_name html s :
  is_Some (name_of ty id s) →
  name_of ty id (serve (rename_request ty id search html) s) = Some html.
Proof.
  unfold name_of, serve. repeat case_decide; [| |by intros []]; intros [n Hn].
  - rewrite route_rename_artist by done. simpl. by rewrite lookup_alter_eq, Hn.
  - rewrite route_rename_track by done. simpl. by rewrite lookup_alter_eq, Hn.
Qed.

Lemma serve_rename_scrobbles html s :
  sv_scrobbles (serve (rename_request ty id search html) s) = sv_scrobbles s.
Proof. unfold serve, rename_request, commit_target. by repeat case_decide. Qed.

(** The server knows the entities it knew. *)
Lemma serve_known rq s : is_Some (name_of ty id s) → is_Some (name_of ty id (serve rq s)).
Proof.
  unfold name_of, serve. destruct (route rq) as [[t|i n|i n]|]; simpl; try done;
    repeat case_decide; try done; rewrite <- !elem_of_dom, dom_alter_L; done.
Qed.

End endpoints.
