(* ===== verification/System.v ===== *)
(** * The page and the server

    A state of the system is a page and the state of the server.  An
    event is an action of [Actions] or the loss of a response: the
    server has served the request, and the script never hears of it.
    With the completion of a request the server serves it before the
    callback runs; a request that fails never reached the server.  A
    page that has navigated is gone: no handler and no callback runs
    on it, but the requests it has left in flight can still be served
    or fail.  Every run of the system is a run of the page
    ([sys_steps_page]), so what is proved of the runs of the page holds
    of the runs of the system. *)

From stdpp Require Import base tactics option list strings gmap.
From Stdlib Require Import ZArith Lia.
From S2P Require Import Prelude Js Markup Dom Page Edit DeleteProps CommitProps Invariants.
From S2P Require Import Frame Actions Examples Requests Session Machine Model Exact Adequacy Server.

#[local] Open Scope page_scope.
#[local] Open Scope string_scope.

(** ** The system *)

(** What happens: an action of the user or of the network, or the
    response of request [i] is lost. *)
Inductive event : Type :=
| Do (a : action)
| Unanswered (i : nat).

#[export] Instance event_eq_dec : EqDecision event.
Proof. solve_decision. Defined.

(** What the page sees of an event: a lost response is a failure. *)
Definition event_action (ev : event) : action :=
  match ev with Do a => a | Unanswered i => Failure i end.

(** The event runs code of the page: a handler, a listener or a
    callback. *)
Definition on_page (ev : event) : Prop :=
  match ev with Do (Failure _) | Unanswered _ => False | Do _ => True end.

#[export] Instance on_page_dec ev : Decision (on_page ev).
Proof. destruct ev as [[]|]; simpl; apply _. Defined.

(** The response of the server is lost. *)
Definition unanswered (ev : event) : Prop :=
  match ev with Unanswered _ => True | Do _ => False end.

#[export] Instance unanswered_dec ev : Decision (unanswered ev).
Proof. destruct ev; simpl; apply _. Defined.

(** The request an event takes out of flight. *)
Definition settles (ev : event) : option nat :=
  match ev with
  | Do (Complete i) | Do (Failure i) | Unanswered i => Some i
  | Do _ => None
  end.

(** The request the server gets with an event, of those in flight. *)
Definition served (ev : event) (pending : list request) : option request :=
  match ev with
  | Do (Complete i) | Unanswered i => pending !! i
  | Do _ => None
  end.

(** The requests the server gets along a run of the network, in the
    order in which it gets them. *)
Fixpoint served_requests (l : list event) (pending : list request) : list request :=
  match l with
  | [] => []
  | ev :: l' =>
      (option_list (served ev pending) ++
       served_requests l' (from_option (λ i, delete i pending) pending (settles ev)))%list
  end.

(** Every event of a run of the network finds its request in
    flight, of [k] requests. *)
Fixpoint in_flight (l : list event) (k : nat) : bool :=
  match l with
  | [] => true
  | ev :: l' =>
      match settles ev with
      | Some i => bool_decide (i < k) && in_flight l' (pred k)
      | None => false
      end
  end.

Section system.
Context `{MP : !MarkupPlatform} `{KP : !KnowsPlaintextOnly}.

Record system : Type := System {
  sys_page : page;
  sys_server : server;
}.

(** The page has not navigated. *)
Definition live (p : page) : Prop := pg_navigations p = [].

#[export] Instance live_dec p : Decision (live p).
Proof. unfold live. apply _. Defined.

Implicit Types (σ : system) (ev : event) (p q : page) (s : server) (a : action).

(** The system after an event. *)
Definition sys_perform (ev : event) (σ : system) : system :=
  System (exec (perform (event_action ev)) (sys_page σ))
    (from_option (λ rq, serve rq (sys_server σ)) (sys_server σ)
       (served ev (pg_pending (sys_page σ)))).

(** When an event can happen: its action is enabled on the page, and
    code of the page runs on a live page only. *)
Definition sys_enabled (ev : event) (σ : system) : Prop :=
  enabled (event_action ev) (sys_page σ) ∧ (on_page ev → live (sys_page σ)).

#[export] Instance sys_enabled_dec ev σ : Decision (sys_enabled ev σ).
Proof. unfold sys_enabled. apply _. Defined.

Inductive sys_step : system → event → system → Prop :=
  | SysStep σ ev : sys_enabled ev σ → sys_step σ ev (sys_perform ev σ).

Inductive sys_steps : system → list event → system → Prop :=
  | sys_steps_nil σ : sys_steps σ [] σ
  | sys_steps_cons σ ev σ1 l σ2 :
      sys_step σ ev σ1 → sys_steps σ1 l σ2 → sys_steps σ (ev :: l) σ2.

(** The system after the events [l], each performed whether enabled
    or not. *)
Definition sys_run (l : list event) (σ : system) : system :=
  foldl (λ σ ev, sys_perform ev σ) σ l.

(** Every event of [l] is enabled when its turn comes. *)
Fixpoint sys_all_enabled (l : list event) (σ : system) : bool :=
  match l with
  | [] => true
  | ev :: l' => bool_decide (sys_enabled ev σ) && sys_all_enabled l' (sys_perform ev σ)
  end.

End system.

(** ** Runs *)

Section runs.
Context `{MP : !MarkupPlatform} `{KP : !KnowsPlaintextOnly}.
Implicit Types (σ : system) (ev : event) (p q : page) (s : server) (a : action).

Lemma sys_run_cons ev l σ : sys_run (ev :: l) σ = sys_run l (sys_perform ev σ).
Proof. done. Qed.

Lemma sys_run_app l1 l2 σ : sys_run (l1 ++ l2) σ = sys_run l2 (sys_run l1 σ).
Proof. apply foldl_app. Qed.

Lemma sys_steps_run σ l σ' : sys_steps σ l σ' → σ' = sys_run l σ.
Proof. induction 1 as [|σ ev σ1 l σ2 [] _ IH]; [done|by rewrite IH]. Qed.

Lemma sys_run_steps l σ : sys_all_enabled l σ = true → sys_steps σ l (sys_run l σ).
Proof.
  revert σ. induction l as [|ev l IH]; intros σ; simpl; [constructor|].
  intros [Hev Hl]%andb_true_iff. apply bool_decide_eq_true in Hev.
  eauto using sys_steps, sys_step.
Qed.

Lemma sys_steps_app σ l1 σ1 l2 σ2 :
  sys_steps σ l1 σ1 → sys_steps σ1 l2 σ2 → sys_steps σ (l1 ++ l2) σ2.
Proof. induction 1; simpl; eauto using sys_steps. Qed.

(** A property that every event of a kind keeps holds along every
    run of events of that kind. *)
Lemma sys_steps_invariant (I : system → Prop) (E : event → Prop) σ l σ' :
  (∀ σ ev, E ev → sys_enabled ev σ → I σ → I (sys_perform ev σ)) →
  sys_steps σ l σ' → Forall E l → I σ → I σ'.
Proof.
  intros HI. induction 1 as [|σ ev σ1 l σ2 [] _ IH]; [done|].
  intros [Hev Hl]%Forall_cons. eauto.
Qed.

(** *** The runs of the system are runs of the page *)

Lemma sys_step_page σ ev σ' :
  sys_step σ ev σ' → step (sys_page σ) (event_action ev) (sys_page σ').
Proof. intros [σ0 ev0 [Hen _]]. by constructor. Qed.

Lemma sys_steps_page σ l σ' :
  sys_steps σ l σ' → steps (sys_page σ) (event_action <$> l) (sys_page σ').
Proof. induction 1; simpl; eauto using steps, sys_step_page. Qed.

Lemma sys_run_page l σ :
  sys_page (sys_run l σ) = run_actions (event_action <$> l) (sys_page σ).
Proof.
  revert σ. induction l as [|ev l IH]; intros σ; [done|].
  by rewrite sys_run_cons, IH.
Qed.

(** The server changes with the requests it serves only. *)
Lemma sys_perform_unserved ev σ :
  served ev (pg_pending (sys_page σ)) = None →
  sys_server (sys_perform ev σ) = sys_server σ.
Proof. unfold sys_perform. by intros ->. Qed.

Lemma sys_run_user l σ :
  Forall (λ a, ¬ is_network a) l → sys_server (sys_run (Do <$> l) σ) = sys_server σ.
Proof.
  intros Hl. revert σ. induction Hl as [|a l Ha _ IH]; intros σ; [done|].
  rewrite fmap_cons, sys_run_cons, IH. apply sys_perform_unserved. by destruct a.
Qed.

Lemma event_action_do (l : list action) : event_action <$> (Do <$> l) = l.
Proof. rewrite <- list_fmap_compose. apply list_fmap_id. Qed.

(** *** What an event does to the navigations *)

Lemma perform_navigations a p :
  ¬ is_completion a → pg_navigations (exec (perform a) p) = pg_navigations p.
Proof.
  intros Ha. apply (perform_frame (of_navigations (λ l, l = pg_navigations p))); [|done].
  by intros i ->.
Qed.

Lemma perform_complete_lookup i p rq :
  pg_pending p !! i = Some rq →
  exec (perform (Complete i)) p =
    called_back (rq_callback rq) (pg_set_pending (delete i (pg_pending p)) p).
Proof. intros Hi. unfold exec, perform, catch. simpl. by rewrite run_complete, Hi. Qed.

Lemma run_actions_navigations l p :
  Forall (λ a, ¬ is_completion a) l →
  pg_navigations (run_actions l p) = pg_navigations p.
Proof.
  intros Hl. revert p. induction Hl as [|a l Ha _ IH]; intros p; [done|].
  simpl. by rewrite IH, perform_navigations.
Qed.

(** An event that is not a completion leaves the page live. *)
Lemma sys_perform_live ev σ :
  ¬ is_completion (event_action ev) →
  live (sys_page (sys_perform ev σ)) ↔ live (sys_page σ).
Proof. intros Hev. unfold live. simpl. by rewrite perform_navigations. Qed.

(** On a live page the actions of the user are events of the system. *)
Lemma sys_steps_do p s l q :
  steps p l q → Forall (λ a, ¬ is_completion a) l → live p →
  sys_steps (System p s) (Do <$> l) (sys_run (Do <$> l) (System p s)).
Proof.
  intros Hsteps. revert s. induction Hsteps as [|p a q l r [p' a' Ha] _ IH]; intros s;
    [constructor|].
  intros [Hq Hl]%Forall_cons Hp. rewrite fmap_cons, sys_run_cons.
  econstructor; [by constructor|].
  apply (IH (sys_server (sys_perform (Do a') (System p' s)))); [done|].
  by apply (sys_perform_live (Do a') (System p' s)).
Qed.

(** *** Runs of the network *)

Lemma perform_failure i p :
  exec (perform (Failure i)) p = pg_set_pending (delete i (pg_pending p)) p.
Proof. done. Qed.

(** An event of the network takes its request out of flight. *)
Lemma sys_perform_pending ev i σ :
  settles ev = Some i →
  pg_pending (sys_page (sys_perform ev σ)) = delete i (pg_pending (sys_page σ)).
Proof.
  destruct ev as [[| | | | | |j|j]|j]; intros [= <-]; try done. simpl.
  unfold exec, perform, catch. simpl. rewrite run_complete.
  destruct (pg_pending (sys_page σ) !! j) as [rq|] eqn:Hj; simpl.
  - by destruct (rq_callback rq).
  - symmetry. apply list_delete_ge. by apply lookup_ge_None.
Qed.

(** The server after a run of the network has served the requests
    in the order in which they arrived. *)
Lemma sys_run_network l σ :
  Forall (λ ev, is_Some (settles ev)) l →
  sys_server (sys_run l σ) =
    foldl (λ s rq, serve rq s) (sys_server σ) (served_requests l (pg_pending (sys_page σ))).
Proof.
  intros Hl. revert σ. induction Hl as [|ev l [i Hi] _ IH]; intros σ; [done|].
  rewrite sys_run_cons, IH, (sys_perform_pending ev i σ Hi). simpl. rewrite Hi, foldl_app.
  simpl. by destruct (served ev _).
Qed.

Lemma unanswered_off_page (l : list nat) : Forall (λ ev, ¬ on_page ev) (Unanswered <$> l).
Proof. apply Forall_fmap, Forall_true. intros i []. Qed.

(** Requests in flight are served or fail whether the page lives or
    not. *)
Lemma sys_steps_network l σ :
  Forall (λ ev, ¬ on_page ev) l → in_flight l (length (pg_pending (sys_page σ))) = true →
  sys_steps σ l (sys_run l σ).
Proof.
  intros Hl. revert σ. induction Hl as [|ev l Hev _ IH]; intros σ; [constructor|].
  cbn [in_flight]. destruct (settles ev) as [i|] eqn:Hi; [|done].
  intros [Hk%bool_decide_eq_true Hin]%andb_true_iff. rewrite sys_run_cons.
  econstructor; [constructor; split; [|done]|].
  - destruct ev as [[]|]; try done; injection Hi as ->; by apply lookup_lt_is_Some.
  - apply IH. rewrite (sys_perform_pending ev i σ Hi), length_delete
      by (by apply lookup_lt_is_Some). by rewrite Nat.sub_1_r.
Qed.

End runs.

(** ** Invariants of the system *)

Section invariants.
Context `{MP : !MarkupPlatform} `{KP : !KnowsPlaintextOnly}.
Context (ty : string) (id : value) (name search : string).
Implicit Types (σ : system) (ev : event) (p q : page) (s : server) (a : action).

(** The requests in flight were sent by the script, and while the page
    lives the name the script compares with is the name the server
    has. *)
Definition agrees (σ : system) : Prop :=
  sent_by_script ty id name search (sys_page σ) ∧
  (live (sys_page σ) → name_of ty id (sys_server σ) = Some name).

Lemma perform_sent_by_script a p :
  sent_by_script ty id name search p → sent_by_script ty id name search (exec (perform a) p).
Proof. apply perform_frame; [apply _|]. intros i _. apply complete_sent_by_script. Qed.

(** What the request of a completion does to the name, when the page
    is live after it. *)
Lemma served_name i p rq s :
  from_script ty id name search rq → pg_pending p !! i = Some rq →
  live (exec (perform (Complete i)) p) →
  live p ∧ name_of ty id (serve rq s) = name_of ty id s.
Proof.
  intros Hrq Hi. rewrite (perform_complete_lookup i p rq Hi).
  destruct Hrq as [[t ->]|(html & _ & ->)]; [done|].
  unfold rename_request, live. destruct (commit_target _ _ _ _) as [[? ?] ?]. simpl.
  by intros ?%app_nil_r_inv%eq_sym.
Qed.

Lemma agrees_step ev σ :
  ¬ unanswered ev → sys_enabled ev σ → agrees σ → agrees (sys_perform ev σ).
Proof.
  intros Hev [Hen _] [Hs Hn]. split; [by apply perform_sent_by_script|].
  destruct ev as [a|i]; [|by destruct Hev].
  destruct (decide (is_completion a)) as [Ha|Ha].
  - destruct a as [| | | | | |i|]; try done. destruct Hen as [rq Hi]. simpl. rewrite Hi. simpl.
    intros Hlive. destruct (served_name i (sys_page σ) rq (sys_server σ)) as [Hp ->]; auto.
    destruct Hs as [_ Hs]. by eapply (Forall_lookup_1 _ _ _ _ Hs).
  - rewrite (sys_perform_live (Do a)), sys_perform_unserved by (by destruct a). done.
Qed.

(** C11.  While the page lives, the script compares with the name the
    server has: from a page with nothing in flight whose [entity_name]
    is the name the server has for the entity, along every run of the
    system in which no response is lost (clicks, keys, texts,
    completions and failures of requests, in any order), when the page
    has not navigated the server still has that name for the entity,
    which is the value of [entity_name]. *)
Theorem server_agrees σ l σ' :
  constants (sys_page σ) = (ty, id, name, search) → pg_pending (sys_page σ) = [] →
  name_of ty id (sys_server σ) = Some name →
  sys_steps σ l σ' → Forall (λ ev, ¬ unanswered ev) l →
  live (sys_page σ') →
  name_of ty id (sys_server σ') = Some (entity_name (pg_globals (sys_page σ'))).
Proof.
  intros Hc Hp Hn Hsteps Hl Hlive.
  destruct (sys_steps_invariant agrees (λ ev, ¬ unanswered ev) σ l σ') as [[Hc' _] Hn'];
    [intros ??; apply agrees_step|done..| |].
  - split; [split; [done|by rewrite Hp]|done].
  - injection Hc' as _ _ -> _. by apply Hn'.
Qed.

End invariants.

(** ** Edit sessions and deletes, with the server *)

Section sessions.
Context `{MP : !MarkupPlatform} `{KP : !KnowsPlaintextOnly}.
Implicit Types (σ : system) (ev : event) (p q : page) (s : server) (a : action)
  (e : element listener) (n : node).

(** A run of the page without completions leaves it live. *)
Lemma steps_live p l q :
  steps p l q → Forall (λ a, ¬ is_completion a) l → live p → live q.
Proof.
  intros Hsteps Hl. by apply (steps_frame_quiet (of_navigations (λ l, l = [])) p l q).
Qed.

(** The first edit session of a page, as a run of the system: the
    server hears nothing of it, the page lives, and the rename is in
    flight. *)
Lemma run_session_system n e p s t :
  rendered n e p → focusable e = false → live p →
  let html := serialize_fragment (strip (text_node t)) in
  html ≠ entity_name (pg_globals p) →
  let σ := sys_run (Do <$> session t) (System p s) in
  sys_steps (System p s) (Do <$> session t) σ ∧ sys_server σ = s ∧ live (sys_page σ) ∧
  pg_pending (sys_page σ) !! length (pg_pending p) =
    Some (commit_request (pg_globals p) (pg_search p) html).
Proof.
  intros Hr Hf Hlive html Hnew σ. pose proof (rendered_exact n e p Hr Hf) as Hp.
  pose proof (session_steps _ _ _ _ _ _ t Hp) as Hrun.
  assert (Forall (λ a, ¬ is_completion a) (session t)) as Hquiet
    by (repeat constructor; by intros []).
  destruct (steps_exact _ n _ (λ q k el, setting_ancestor p q k el) _ e p _ _ Hp Hrun)
    as [e1 Hq1].
  pose proof (failed_session (setting_of p) t (initial e p) eq_refl Hnew) as [Hi _].
  rewrite <- (exact_pending _ _ _ _ _ _ Hq1) in Hi. subst σ.
  split_and!; [by eapply sys_steps_do| | |..];
    rewrite ?sys_run_page, ?event_action_do; [|by eapply steps_live|done].
  apply sys_run_user. repeat constructor; by intros [].
Qed.

(** C6.  A rename reaches the server as markup: on a rendered page of
    an entity the server knows, an edit session with the text [t] and
    the completion of its request are a run of the system; the server
    then has the markup of the field as the name of the entity (the
    text with its ampersands, angle brackets and no-break spaces
    escaped), keeps its scrobbles, and the page has navigated to the
    query string of the rename. *)
Theorem rename_stored n e p s t :
  rendered n e p → focusable e = false → live p →
  let ty := entity_type (pg_globals p) in
  let id := entity_id (pg_globals p) in
  is_Some (name_of ty id s) →
  let html := serialize_fragment (strip (text_node t)) in
  html ≠ entity_name (pg_globals p) →
  let l := ((Do <$> session t) ++ [Do (Complete (length (pg_pending p)))])%list in
  let σ := sys_run l (System p s) in
  sys_steps (System p s) l σ ∧
  name_of ty id (sys_server σ) = Some html ∧
  sv_scrobbles (sys_server σ) = sv_scrobbles s ∧
  pg_navigations (sys_page σ) = [rename_target ty id (pg_search p) html].
Proof.
  intros Hr Hf Hlive ty id Hs html Hnew l σ.
  destruct (run_session_system n e p s t Hr Hf Hlive Hnew) as (Hrun & Hs1 & Hl1 & Hi).
  subst σ l. rewrite sys_run_app. set (σ1 := sys_run _ _) in *.
  assert (sys_enabled (Do (Complete (length (pg_pending p)))) σ1) as Hen
    by (split; [by eexists|done]).
  split; [eapply sys_steps_app; [done|econstructor; [by constructor|constructor]]|].
  clearbody σ1. unfold live in Hl1.
  cbn [sys_run foldl sys_perform sys_server sys_page served event_action].
  rewrite Hi, (perform_complete_lookup _ _ _ Hi), Hs1. simpl.
  split_and!; [by apply serve_rename_name|apply serve_rename_scrobbles|].
  unfold commit_request, rename_target. destruct (commit_target _ _ _ _) as [[? ?] ?].
  simpl. by rewrite Hl1.
Qed.

(** Two edit sessions without a completion between them, as a run of
    the system: the rename of the first and two copies of the rename
    of the second are in flight. *)
Lemma run_two_sessions n e p s t1 t2 :
  rendered n e p → focusable e = false → live p → pg_pending p = [] →
  let h1 := serialize_fragment (strip (text_node t1)) in
  let h2 := serialize_fragment (strip (strip (text_node t2))) in
  h1 ≠ entity_name (pg_globals p) → h2 ≠ entity_name (pg_globals p) →
  let l := Do <$> (session t1 ++ session t2)%list in
  let σ := sys_run l (System p s) in
  sys_steps (System p s) l σ ∧ sys_server σ = s ∧ live (sys_page σ) ∧
  pg_pending (sys_page σ) =
    [commit_request (pg_globals p) (pg_search p) h1;
     commit_request (pg_globals p) (pg_search p) h2;
     commit_request (pg_globals p) (pg_search p) h2].
Proof.
  intros Hr Hf Hlive Hnone h1 h2 H1 H2 l σ. pose proof (rendered_exact n e p Hr Hf) as Hp.
  pose proof (session_steps _ _ _ _ _ _ t1 Hp) as Hrun1.
  destruct (steps_exact _ n _ (λ q k el, setting_ancestor p q k el) _ e p _ _ Hp Hrun1)
    as [e1 Hq1].
  pose proof (steps_app _ _ _ _ _ Hrun1 (session_steps _ _ _ _ _ _ t2 Hq1)) as Hrun.
  destruct (steps_exact _ n _ (λ q k el, setting_ancestor p q k el) _ e p _ _ Hp Hrun)
    as [e2 Hq2].
  assert (Forall (λ a, ¬ is_completion a) (session t1 ++ session t2)) as Hquiet
    by (repeat constructor; by intros []).
  subst σ l.
  split_and!; [by eapply sys_steps_do| | |..];
    rewrite ?sys_run_page, ?event_action_do, ?run_actions_app; [|by eapply steps_live|].
  - apply sys_run_user. repeat constructor; by intros [].
  - cbn [sys_page]. rewrite (exact_pending _ _ _ _ _ _ Hq2).
    rewrite (two_sessions (setting_of p) t1 t2 (initial e p)) by done. simpl. by rewrite Hnone.
Qed.

(** The completion of a request of a live page, then a run of the
    network. *)
Lemma run_completion i rq l σ :
  live (sys_page σ) → pg_pending (sys_page σ) !! i = Some rq →
  Forall (λ ev, ¬ on_page ev) l →
  in_flight l (pred (length (pg_pending (sys_page σ)))) = true →
  let l' := Do (Complete i) :: l in
  sys_steps σ l' (sys_run l' σ) ∧
  sys_server (sys_run l' σ) =
    foldl (λ s rq, serve rq s) (sys_server σ) (served_requests l' (pg_pending (sys_page σ))) ∧
  pg_navigations (sys_page (sys_run l' σ)) =
    pg_navigations (called_back (rq_callback rq) (sys_page σ)).
Proof.
  intros Hlive Hi Hl Hin l'. split_and!.
  - subst l'. rewrite sys_run_cons.
    econstructor; [constructor; split; [by exists rq|done]|].
    apply sys_steps_network; [done|].
    rewrite (sys_perform_pending _ i) by done.
    by rewrite length_delete, Nat.sub_1_r by (by exists rq).
  - apply sys_run_network. constructor; [by exists i|].
    eapply Forall_impl; [done|]. intros [[| | | | | |j|j]|j] Hev; try (by destruct Hev);
      by exists j.
  - subst l'. rewrite sys_run_cons, sys_run_page.
    rewrite (run_actions_navigations (event_action <$> l)).
    + simpl. rewrite (perform_complete_lookup i _ rq Hi). by destruct (rq_callback rq).
    + apply Forall_fmap. eapply Forall_impl; [done|]. by intros [[]|].
Qed.

Lemma called_back_rename g search html p :
  pg_navigations (called_back (rq_callback (commit_request g search html)) p) =
    (pg_navigations p ++ [rename_target (entity_type g) (entity_id g) search html])%list.
Proof. unfold commit_request, rename_target. by destruct (commit_target _ _ _ _) as [[? ?] ?]. Qed.

(** C19.  Renames of different sessions race.  On a rendered page of
    an entity the server knows, two edit sessions with the texts [t1]
    and [t2] leave the rename of the first and two copies of the
    rename of the second in flight.  When the first is answered first,
    the browser goes to the query string of the first name and the
    server ends with the second; when a copy of the second is answered
    first, the browser goes to the query string of the second name and
    the server, which gets the first rename last, ends with the first.
    Both are runs of the system. *)
Theorem renames_race n e p s t1 t2 :
  rendered n e p → focusable e = false → live p → pg_pending p = [] →
  let ty := entity_type (pg_globals p) in
  let id := entity_id (pg_globals p) in
  is_Some (name_of ty id s) →
  let h1 := serialize_fragment (strip (text_node t1)) in
  let h2 := serialize_fragment (strip (strip (text_node t2))) in
  h1 ≠ entity_name (pg_globals p) → h2 ≠ entity_name (pg_globals p) →
  let edits := Do <$> (session t1 ++ session t2)%list in
  let first := (edits ++ [Do (Complete 0); Unanswered 0; Unanswered 0])%list in
  let second := (edits ++ [Do (Complete 1); Unanswered 1; Unanswered 0])%list in
  (sys_steps (System p s) first (sys_run first (System p s)) ∧
   name_of ty id (sys_server (sys_run first (System p s))) = Some h2 ∧
   pg_navigations (sys_page (sys_run first (System p s))) =
     [rename_target ty id (pg_search p) h1]) ∧
  (sys_steps (System p s) second (sys_run second (System p s)) ∧
   name_of ty id (sys_server (sys_run second (System p s))) = Some h1 ∧
   pg_navigations (sys_page (sys_run second (System p s))) =
     [rename_target ty id (pg_search p) h2]).
Proof.
  intros Hr Hf Hlive Hnone ty id Hs h1 h2 H1 H2 edits first second.
  destruct (run_two_sessions n e p s t1 t2 Hr Hf Hlive Hnone H1 H2) as (Hrun & Hs0 & Hl0 & Hp).
  subst first second. rewrite !sys_run_app. fold edits in Hrun, Hs0, Hl0, Hp.
  set (σ0 := sys_run edits _) in *. clearbody σ0. unfold live in Hl0.
  split.
  - destruct (run_completion 0 (commit_request (pg_globals p) (pg_search p) h1)
                [Unanswered 0; Unanswered 0] σ0 Hl0) as (Hsteps & -> & ->);
      [by rewrite Hp|by apply (unanswered_off_page [_; _])|by rewrite Hp|].
    split; [by eapply sys_steps_app|].
    rewrite called_back_rename, Hp, Hs0, Hl0. simpl. split; [|done].
    by apply (serve_rename_name ty id), serve_known, serve_known.
  - destruct (run_completion 1 (commit_request (pg_globals p) (pg_search p) h2)
                [Unanswered 1; Unanswered 0] σ0 Hl0) as (Hsteps & -> & ->);
      [by rewrite Hp|by apply (unanswered_off_page [_; _])|by rewrite Hp|].
    split; [by eapply sys_steps_app|].
    rewrite called_back_rename, Hp, Hs0, Hl0. simpl. split; [|done].
    by apply (serve_rename_name ty id), serve_known, serve_known.
Qed.

(** C32.  A delete is optimistic: a click on a delete control that has
    its row marks the row as removed at once.  When the request
    completes, the server has forgotten the scrobble; when it fails,
    the server still has what it had, and the row stays marked as
    removed. *)
Theorem delete_optimistic p s t x row e :
  Dom.wf (pg_doc p) → valid_node (pg_doc p) x →
  ancestor (pg_doc p) 3 x = Some row → doc_elements (pg_doc p) !! row = Some e →
  live p →
  let k := length (pg_pending p) in
  let answered := [Do (ClickDelete t x); Do (Complete k)] in
  let failed := [Do (ClickDelete t x); Do (Failure k)] in
  (sys_steps (System p s) answered (sys_run answered (System p s)) ∧
   sv_scrobbles (sys_server (sys_run answered (System p s))) = sv_scrobbles s ∖ {[t]} ∧
   doc_elements (pg_doc (sys_page (sys_run answered (System p s)))) !! row =
     Some (removed e)) ∧
  (sys_steps (System p s) failed (sys_run failed (System p s)) ∧
   sys_server (sys_run failed (System p s)) = s ∧
   doc_elements (pg_doc (sys_page (sys_run failed (System p s)))) !! row =
     Some (removed e)).
Proof.
  intros Hd Hx Hrow He Hlive k answered failed.
  assert (sys_perform (Do (ClickDelete t x)) (System p s) = System (deleted t row e p) s)
    as Hclick
    by (unfold sys_perform, exec, perform, catch; simpl; by rewrite run_deleteScrobble, Hrow, He).
  assert (pg_pending (deleted t row e p) !! k = Some (delete_request t)) as Hk
    by (simpl; by rewrite lookup_app_r, Nat.sub_diag).
  assert (doc_elements (pg_doc (deleted t row e p)) !! row = Some (removed e)) as Hmark
    by (by apply with_element_lookup, lookup_lt_is_Some).
  subst answered failed. rewrite !sys_run_cons, Hclick. cbn [sys_run foldl].
  split; (split; [econstructor; [by constructor|]; rewrite Hclick;
                  econstructor; [constructor; split; [by eexists|done]|constructor]|]).
  - unfold sys_perform. cbn [sys_page sys_server served event_action].
    by rewrite Hk, (perform_complete_lookup k _ _ Hk).
  - done.
Qed.

End sessions.

(** ** Examples *)

Section examples.
#[local] Existing Instance Markup.reference.

(** A server that knows the artist and the track of the example
    pages, and one scrobble. *)
Definition store : server :=
  Server {[VNum 7 := "Radiohead"]} {[VNum 12 := "Creep"]} {[VNum 1700000000]}.

Definition at_start : system := System Examples.artist_page store.

(** A rename that fails, then a delete that completes. *)
Definition quiet_run : list event :=
  (Do <$> session "Radiohead 2") ++
  [Do (Failure 0); Do (ClickDelete (VNum 1700000000) 6); Do (Complete 0)].

Lemma server_agrees_witness :
  name_of "artist" (VNum 7) (sys_server (sys_run quiet_run at_start)) =
    Some (entity_name (pg_globals (sys_page (sys_run quiet_run at_start)))).
Proof.
  apply (server_agrees (MP:=Markup.reference) "artist" (VNum 7) "Radiohead" "?artist=Radiohead"
    at_start quiet_run); [done..|by apply sys_run_steps| |done].
  apply (bool_decide_unpack _). by vm_compute.
Defined.

(** The response of a rename is lost: the server has the new name,
    the page lives and compares with the old one, so that typing the
    old name back sends nothing. *)
Example lost_response :
  let l := ((Do <$> session "Radiohead 2") ++ [Unanswered 0] ++
            (Do <$> session "Radiohead"))%list in
  let σ := sys_run l at_start in
  sys_all_enabled l at_start = true ∧ live (sys_page σ) ∧
  name_of "artist" (VNum 7) (sys_server σ) = Some "Radiohead 2" ∧
  entity_name (pg_globals (sys_page σ)) = "Radiohead" ∧ pg_pending (sys_page σ) = [].
Proof. by vm_compute. Qed.

(** Three sessions, then the completions of all six renames that
    are in flight: the first takes the page away, the others are
    served without an answer.  That the page navigates once here is
    the unloading; what the script itself bounds is in
    [Navigations]. *)
Definition crowded_run : list event :=
  (Do <$> three_sessions) ++ Do (Complete 5) :: (Unanswered <$> [0; 0; 0; 0; 0]).

Example served_after_unload :
  let σ := sys_run crowded_run at_start in
  sys_all_enabled crowded_run at_start = true ∧
  pg_navigations (sys_page σ) = ["?artist=Radiohead+4"] ∧
  pg_pending (sys_page σ) = [] ∧
  name_of "artist" (VNum 7) (sys_server σ) = Some "Radiohead 4".
Proof. by vm_compute. Qed.

Lemma rename_stored_witness :
  let l := ((Do <$> session "Mumford & Sons") ++ [Do (Complete 0)])%list in
  let σ := sys_run l at_start in
  sys_steps at_start l σ ∧
  name_of "artist" (VNum 7) (sys_server σ) =
    Some (serialize_fragment (strip (text_node "Mumford & Sons"))) ∧
  sv_scrobbles (sys_server σ) = sv_scrobbles store ∧
  pg_navigations (sys_page σ) =
    [rename_target "artist" (VNum 7) "?artist=Radiohead"
       (serialize_fragment (strip (text_node "Mumford & Sons")))].
Proof.
  apply (rename_stored (MP:=Markup.reference) 1 (heading "Radiohead") Examples.artist_page
    store "Mumford & Sons" (rendered_page_of _ _ _ _) eq_refl); [done|by eexists|done].
Defined.

(** The name the server has after it is the markup of the text, and
    the browser asks for the artist of that name. *)
Example rename_stored_escaped :
  let σ := sys_run ((Do <$> session "Mumford & Sons") ++ [Do (Complete 0)])%list at_start in
  name_of "artist" (VNum 7) (sys_server σ) = Some "Mumford &amp; Sons" ∧
  pg_navigations (sys_page σ) = ["?artist=Mumford+%26amp%3B+Sons"].
Proof. by vm_compute. Qed.

Lemma renames_race_witness :
  let edits := Do <$> (session "Radiohead 2" ++ session "Radiohead 3")%list in
  let first := (edits ++ [Do (Complete 0); Unanswered 0; Unanswered 0])%list in
  let second := (edits ++ [Do (Complete 1); Unanswered 1; Unanswered 0])%list in
  let h1 := serialize_fragment (strip (text_node "Radiohead 2")) in
  let h2 := serialize_fragment (strip (strip (text_node "Radiohead 3"))) in
  (sys_steps at_start first (sys_run first at_start) ∧
   name_of "artist" (VNum 7) (sys_server (sys_run first at_start)) = Some h2 ∧
   pg_navigations (sys_page (sys_run first at_start)) =
     [rename_target "artist" (VNum 7) "?artist=Radiohead" h1]) ∧
  (sys_steps at_start second (sys_run second at_start) ∧
   name_of "artist" (VNum 7) (sys_server (sys_run second at_start)) = Some h1 ∧
   pg_navigations (sys_page (sys_run second at_start)) =
     [rename_target "artist" (VNum 7) "?artist=Radiohead" h2]).
Proof.
  apply (renames_race (MP:=Markup.reference) 1 (heading "Radiohead") Examples.artist_page
    store "Radiohead 2" "Radiohead 3" (rendered_page_of _ _ _ _) eq_refl);
    [done|done|by eexists|done|done].
Defined.

(** The two orders on the example page: where the browser goes, and
    the name the server ends with. *)
Example race_outcomes :
  let edits := Do <$> (session "Radiohead 2" ++ session "Radiohead 3")%list in
  let outcome l :=
    let σ := sys_run (edits ++ l)%list at_start in
    (pg_navigations (sys_page σ), name_of "artist" (VNum 7) (sys_server σ)) in
  outcome [Do (Complete 0); Unanswered 0; Unanswered 0] =
    (["?artist=Radiohead+2"], Some "Radiohead 3") ∧
  outcome [Do (Complete 1); Unanswered 1; Unanswered 0] =
    (["?artist=Radiohead+3"], Some "Radiohead 2").
Proof. by vm_compute. Qed.

Lemma delete_optimistic_witness :
  let t := VNum 1700000000 in
  let answered := [Do (ClickDelete t 6); Do (Complete 0)] in
  let failed := [Do (ClickDelete t 6); Do (Failure 0)] in
  let row := Examples.plain (Some 2) "" [] "" in
  (sys_steps at_start answered (sys_run answered at_start) ∧
   sv_scrobbles (sys_server (sys_run answered at_start)) = sv_scrobbles store ∖ {[t]} ∧
   doc_elements (pg_doc (sys_page (sys_run answered at_start))) !! 3 = Some (removed row)) ∧
  (sys_steps at_start failed (sys_run failed at_start) ∧
   sys_server (sys_run failed at_start) = store ∧
   doc_elements (pg_doc (sys_page (sys_run failed at_start))) !! 3 = Some (removed row)).
Proof.
  apply (delete_optimistic (MP:=Markup.reference) Examples.artist_page store
    (VNum 1700000000) 6 3 (Examples.plain (Some 2) "" [] ""));
    [by apply wf_check_sound|by vm_compute..].
Defined.

End examples.
