(* ===== verification/OneLine.v ===== *)
(** * The name stays on one line

    The keydown listener cancels Enter and the input listener takes a
    line feed out of the field, so that a name is one line.  Here this
    is an invariant of the system: when the name of the entity is one
    line and every text the user leaves in the field has at most one
    line feed, the field holds one line after every event, every
    rename in flight carries one line, and the server has no name with
    a line feed.  A text with two line feeds breaks it
    ([two_lines_stored]). *)

From stdpp Require Import base tactics option list strings gmap.
From Stdlib Require Import ZArith Lia.
From S2P Require Import Prelude Js JsString Markup Dom Page Edit CommitProps ListenerProps.
From S2P Require Import Invariants Actions Examples Session Model Exact Adequacy Server System.

#[local] Open Scope page_scope.
#[local] Open Scope string_scope.

(** ** Lines *)

(** The number of line feeds of a string. *)
Definition line_feeds (s : string) : nat := JsString.count_char JsString.LF s.

(** A text an input event leaves as one line: it has no line feed, or
    one, and the markup without it is text. *)
Definition one_line_text (t : string) : bool :=
  (line_feeds t =? 0)%nat ||
  ((line_feeds t =? 1)%nat &&
   Markup.markup_free (JsString.replace (Markup.html_escape t) JsString.newline "")).

(** The texts of the user are such texts. *)
Definition typed_lines (a : action) : Prop :=
  match a with TypeText t => one_line_text t = true | _ => True end.

#[export] Instance typed_lines_dec a : Decision (typed_lines a).
Proof. destruct a; simpl; apply _. Defined.

(** A call with a name of one line. *)
Definition line_call (c : call) : Prop :=
  match c with
  | DeleteScrobble _ => True
  | EditArtist _ n | EditTrack _ n => line_feeds n = 0
  end.

#[export] Instance line_call_dec c : Decision (line_call c).
Proof. destruct c; simpl; apply _. Defined.

(** A request that brings the server no name with a line feed. *)
Definition line_request (rq : request) : Prop := from_option line_call True (route rq).

#[export] Instance line_request_dec rq : Decision (line_request rq).
Proof. unfold line_request. destruct (route rq); simpl; apply _. Defined.

(** The server has no name with a line feed. *)
Definition line_server (s : server) : Prop :=
  map_Forall (λ _ n, line_feeds n = 0) (sv_artists s) ∧
  map_Forall (λ _ n, line_feeds n = 0) (sv_tracks s).

#[export] Instance line_server_dec s : Decision (line_server s).
Proof. unfold line_server. apply _. Defined.

(** ** Line feeds and the serialiser *)

Lemma includes_newline s :
  JsString.includes s JsString.newline = false ↔ line_feeds s = 0.
Proof.
  unfold line_feeds, JsString.newline.
  pose proof (JsString.count_char_includes JsString.LF s) as H.
  destruct (JsString.includes s _); [|split; [lia|done]].
  split; [done|]. intros Hs. assert (0 < 0) by (rewrite <- Hs at 2; by apply H). lia.
Qed.

Lemma line_feeds_app a b : line_feeds (a +:+ b) = line_feeds a + line_feeds b.
Proof. apply JsString.count_char_app. Qed.

Lemma line_feeds_escape_byte c : line_feeds (Markup.escape_byte c) = line_feeds (String c "").
Proof.
  unfold Markup.escape_byte.
  destruct (Ascii.eqb_spec c Markup.AMP) as [->|]; [done|].
  destruct (Ascii.eqb_spec c Markup.LT) as [->|]; [done|].
  by destruct (Ascii.eqb_spec c Markup.GT) as [->|].
Qed.

Lemma line_feeds_cons c s : line_feeds (String c s) = line_feeds (String c "") + line_feeds s.
Proof. unfold line_feeds. simpl. lia. Qed.

(** The serialiser writes the line feeds of the text and no other. *)
Lemma line_feeds_escape t : line_feeds (Markup.html_escape t) = line_feeds t.
Proof.
  induction t as [|c|c d s IH1 IH2] using Markup.string_ind2;
    [done|apply line_feeds_escape_byte|].
  destruct (String.prefix Markup.nbsp (String c (String d s))) eqn:Hp.
  - apply Markup.prefix_nbsp in Hp as [-> ->].
    by rewrite Markup.html_escape_nbsp, line_feeds_app, IH1.
  - rewrite Markup.html_escape_cons, line_feeds_app, IH2, line_feeds_escape_byte by done.
    symmetry. apply line_feeds_cons.
Qed.

Lemma line_feeds_replace s :
  line_feeds (JsString.replace s JsString.newline "") = pred (line_feeds s).
Proof. apply JsString.count_char_replace. Qed.

(** ** One line in the field *)

Section content.
Context `{MP : !MarkupPlatform} `{KP : !KnowsPlaintextOnly}.
Implicit Types (content : children) (t : string).

(** The markup of the content has no line feed. *)
Definition single_line (content : children) : Prop :=
  line_feeds (serialize_fragment content) = 0.

#[export] Instance single_line_dec content : Decision (single_line content).
Proof. unfold single_line. apply _. Defined.

Lemma single_line_text t : single_line (text_node t) ↔ line_feeds t = 0.
Proof. unfold single_line. by rewrite Markup.serialize_text, line_feeds_escape. Qed.

(** Text as markup is one line when it has no line feed. *)
Lemma single_line_parse s :
  Markup.markup_free s = true → line_feeds s = 0 → single_line (parse_fragment s).
Proof. intros Hs Hn. rewrite Markup.parse_markup_free by done. by apply single_line_text. Qed.

(** An input listener leaves one line as it is. *)
Lemma strip_single_line content : single_line content → strip content = content.
Proof. unfold strip. by intros ->%includes_newline. Qed.

Lemma iter_strip_single_line k content :
  single_line content → Nat.iter k strip content = content.
Proof. intros Hc. induction k as [|k IH]; [done|]. simpl. by rewrite IH, strip_single_line. Qed.

(** One input listener makes one line of a text of the user. *)
Lemma strip_line t : one_line_text t = true → single_line (strip (text_node t)).
Proof.
  unfold one_line_text. intros [Hn|[Hn Hfree]%andb_true_iff]%orb_true_iff.
  - apply Nat.eqb_eq, single_line_text in Hn. by rewrite strip_single_line.
  - apply Nat.eqb_eq in Hn. unfold strip. rewrite Markup.serialize_text.
    destruct (JsString.includes _ _) eqn:Hi;
      [|by apply includes_newline in Hi; rewrite line_feeds_escape, Hn in Hi].
    apply single_line_parse; [done|]. by rewrite line_feeds_replace, line_feeds_escape, Hn.
Qed.

(** And so do the input listeners of the sessions. *)
Lemma iter_strip_line k t :
  one_line_text t = true → single_line (Nat.iter (S k) strip (text_node t)).
Proof.
  intros Ht. rewrite Nat.iter_succ_r, iter_strip_single_line; by apply strip_line.
Qed.

End content.

(** ** One line in the model *)

Section model.
Context `{MP : !MarkupPlatform} `{KP : !KnowsPlaintextOnly}.
Context (c : setting) (name : string).
Implicit Types (m : field_model) (a : action) (rq : request).

(** Escape assigns the name of the entity to [innerHTML]. *)
Hypothesis name_parses : single_line (parse_fragment name).

(** The field holds one line, the renames in flight carry one line,
    and a field in edit mode has an input listener. *)
Record tidy (m : field_model) : Prop := Tidy {
  tidy_content : single_line (fm_content m);
  tidy_pending : Forall line_request (fm_pending m);
  tidy_sessions : fm_editing m = true → 0 < fm_sessions m;
  tidy_name : entity_name (fm_globals m) = name;
}.

Lemma line_commit_request (g : globals) search html :
  line_feeds html = 0 → line_request (commit_request g search html).
Proof.
  intros Hn. unfold line_request, commit_request, commit_target.
  by repeat case_decide.
Qed.

Lemma commit_tidy m : tidy m → tidy (commit c m).
Proof.
  intros [Hc Hp Hs Hn]. unfold commit. case_decide; split; simpl; try done.
  apply Forall_app. split; [done|]. apply Forall_replicate. by apply line_commit_request.
Qed.

Lemma typed_tidy t m : one_line_text t = true → fm_editing m = true → tidy m →
  tidy (fm_set_content (Nat.iter (fm_sessions m) strip (text_node t)) m).
Proof.
  intros Ht He [Hc Hp Hs Hn]. split; simpl; try done.
  destruct (fm_sessions m) as [|k]; [specialize (Hs He); lia|]. by apply iter_strip_line.
Qed.

(** Every step of the model keeps it. *)
Lemma model_step_tidy a m : typed_lines a → tidy m → tidy (model_step c a m).
Proof.
  intros Ha Hm. pose proof Hm as [Hc Hp Hs Hn].
  destruct a as [x|t x| |key|t| |i|i]; simpl.
  - by destruct (st_ancestor c 2 x).
  - destruct (st_ancestor c 3 x); [|done]. split; simpl; try done.
    apply Forall_app. by split; [|repeat constructor].
  - split; simpl; [done..|lia|done].
  - destruct (fm_editing m) eqn:He; [|done]. repeat case_decide; [by apply commit_tidy| |done].
    apply commit_tidy. split; simpl; [by rewrite Hn|auto..].
  - destruct (fm_editing m) eqn:He; [by apply typed_tidy|done].
  - destruct (fm_editing m) eqn:He; [by apply commit_tidy|done].
  - destruct (fm_pending m !! i); [|done]. split; simpl; [done|by apply Forall_delete|done..].
  - split; simpl; [done|by apply Forall_delete|done..].
Qed.

End model.

(** ** One line on the server *)

Lemma handle_line c s : line_call c → line_server s → line_server (handle c s).
Proof.
  intros Hc [Ha Ht]. destruct c as [t|i n|i n]; [done|split; simpl; [|done]|split; simpl; [done|]].
  all: intros j x [(_ & y & _ & ->)|[_ Hj]]%lookup_alter_Some; 
    [done|first [by apply (Ha j)|by apply (Ht j)]].
Qed.

Lemma serve_line rq s : line_request rq → line_server s → line_server (serve rq s).
Proof.
  unfold line_request, serve. destruct (route rq); simpl; [apply handle_line|done].
Qed.

Lemma served_lookup ev pending rq :
  served ev pending = Some rq → ∃ i, pending !! i = Some rq.
Proof. destruct ev as [[]|]; simpl; try done; eauto. Qed.

Section system.
Context `{MP : !MarkupPlatform} `{KP : !KnowsPlaintextOnly}.
Context (n : node) (p0 : page).
Implicit Types (σ : system) (ev : event) (s : server).

Hypothesis name_parses : single_line (parse_fragment (entity_name (pg_globals p0))).

(** The page is a page of a tidy state of the model of [p0], and the
    server has names of one line. *)
Definition one_line (σ : system) : Prop :=
  (∃ m e, exact (skeleton (pg_doc p0)) n (setting_of p0) m e (sys_page σ) ∧
          tidy (entity_name (pg_globals p0)) m) ∧
  line_server (sys_server σ).

Lemma one_line_step ev σ :
  typed_lines (event_action ev) → sys_enabled ev σ → one_line σ → one_line (sys_perform ev σ).
Proof.
  intros Hev [Hen _] [(m & e & Hex & Hm) Hs]. split.
  - destruct (step_exact _ n _ (λ q k el, setting_ancestor p0 q k el) m e (sys_page σ)
                (event_action ev) _ Hex (Step _ _ Hen)) as [e1 He1].
    exists (model_step (setting_of p0) (event_action ev) m), e1.
    split; [done|by apply model_step_tidy].
  - simpl. destruct (served ev _) as [rq|] eqn:Hrq; simpl; [|done].
    apply serve_line; [|done]. apply served_lookup in Hrq as [i Hi].
    rewrite (exact_pending _ _ _ _ _ _ Hex) in Hi.
    by apply (Forall_lookup_1 _ _ i rq (tidy_pending _ _ Hm)).
Qed.

Lemma one_line_page σ :
  one_line σ →
  Forall line_request (pg_pending (sys_page σ)) ∧
  ∃ e, doc_elements (pg_doc (sys_page σ)) !! n = Some e ∧ single_line (el_children e).
Proof.
  intros [(m & e & Hex & [Hc Hp _ _]) _]. rewrite (exact_pending _ _ _ _ _ _ Hex).
  split; [done|]. exists e. split; [by apply (exact_lookup _ _ _ _ _ _ Hex)|].
  by rewrite (ex_content _ _ _ _ _ _ Hex).
Qed.

End system.

(** C31.  The name stays on one line: on a page as maloja renders it,
    for an entity whose name has no line feed, with a server whose
    names have none, along every run of the system in which every
    text the user leaves in the field has no line feed, or one that
    an input listener takes out (the clicks, the keys, the
    completions, failures and lost responses are any), the server
    never has a name with a line feed, no rename in flight carries
    one, and the markup of the name field has none. *)
Theorem names_on_one_line `{MP : !MarkupPlatform} `{KP : !KnowsPlaintextOnly} n e p s l σ' :
  rendered n e p → focusable e = false →
  line_feeds (entity_name (pg_globals p)) = 0 →
  single_line (parse_fragment (entity_name (pg_globals p))) →
  Forall line_request (pg_pending p) → line_server s →
  sys_steps (System p s) l σ' → Forall (λ ev, typed_lines (event_action ev)) l →
  line_server (sys_server σ') ∧
  Forall line_request (pg_pending (sys_page σ')) ∧
  ∃ e', doc_elements (pg_doc (sys_page σ')) !! n = Some e' ∧ single_line (el_children e').
Proof.
  intros Hr Hf Hname Hparse Hp Hs Hsteps Hl.
  assert (one_line n p σ') as Hσ.
  { apply (sys_steps_invariant (one_line n p) (λ ev, typed_lines (event_action ev))
             (System p s) l σ'); [intros ??; by apply one_line_step|done..|].
    split; [|done]. exists (initial e p), e. split; [by apply rendered_exact|].
    split; simpl; [|done..]. rewrite (rd_text n e p Hr). by apply single_line_text. }
  split; [apply Hσ|by apply (one_line_page n p)].
Qed.

(** ** Examples *)

Section examples.
#[local] Existing Instance Markup.reference.

(** A name pasted with a line feed in it. *)
Definition pasted_line : string := "Radio" +:+ JsString.newline +:+ "head 2".

(** The pasted name is committed, a scrobble is deleted and its
    response lost, and the rename completes. *)
Definition pasted_run : list event :=
  (Do <$> session pasted_line) ++
  [Do (ClickDelete (VNum 1700000000) 6); Unanswered 1; Do (Complete 0)].

Lemma names_on_one_line_witness :
  let σ := sys_run pasted_run at_start in
  line_server (sys_server σ) ∧
  Forall line_request (pg_pending (sys_page σ)) ∧
  ∃ e', doc_elements (pg_doc (sys_page σ)) !! 1 = Some e' ∧ single_line (el_children e').
Proof.
  apply (names_on_one_line (MP:=Markup.reference) 1 (heading "Radiohead") Examples.artist_page
    store pasted_run _ (rendered_page_of _ _ _ _) eq_refl);
    [done|done|constructor| |by apply sys_run_steps|];
    apply (bool_decide_unpack _); by vm_compute.
Defined.

(** What the server has after it. *)
Example pasted_line_stored :
  let σ := sys_run pasted_run at_start in
  name_of "artist" (VNum 7) (sys_server σ) = Some "Radiohead 2" ∧
  sv_scrobbles (sys_server σ) = ∅ ∧
  pg_navigations (sys_page σ) = ["?artist=Radiohead+2"].
Proof. by vm_compute. Qed.

(** Two line feeds are one too many for the input listener of a
    first session: the server stores a name of two lines. *)
Example two_lines_stored :
  let σ := sys_run ((Do <$> session pasted) ++ [Do (Complete 0)])%list at_start in
  one_line_text pasted = false ∧
  name_of "artist" (VNum 7) (sys_server σ) = Some ("Radiohead" +:+ JsString.newline +:+ "!") ∧
  ¬ line_server (sys_server σ).
Proof. split; [done|]. split; [by vm_compute|]. apply (bool_decide_unpack _). by vm_compute. Qed.

(** In a second session the two input listeners take out both. *)
Example two_lines_second_session :
  let l := ((Do <$> session "Radiohead") ++ (Do <$> session pasted) ++ [Do (Complete 0)])%list in
  name_of "artist" (VNum 7) (sys_server (sys_run l at_start)) = Some "Radiohead!".
Proof. by vm_compute. Qed.

End examples.
